(* ===== verification/_CoqProject ===== *)
-Q . S2P
Prelude.v
GoStrings.v
GoPaths.v
Json.v
Glob.v
Lookup.v
LookupProps.v
DriverRoot.v
LDCache.v
ProcInfo.v
ProcInfoProps.v
CDISpec.v
Semver.v
OCISpec.v
OCI.v
OCIProps.v
ApplyEdits.v
ApplyEditsProps.v
CDIParser.v
Transform.v
TransformProps.v
RootTransform.v
RootTransformProps.v
SpecBuilder.v
SpecBuilderProps.v
Image.v
ImageProps.v
Discover.v
DiscoverDriver.v
DiscoverProps.v
Edits.v
Requirements.v
RequirementsProps.v
Config.v
Tegra.v
TegraProps.v
Nvml.v
Dgpu.v
NvcdiDriver.v
NvcdiOptions.v
Nvcdi.v
NvcdiProps.v
NvcdiNames.v
Modifier.v
ModifierProps.v
FileSystem.v
OsFiles.v
Runtime.v
RuntimeProps.v
RuntimeHook.v
RuntimeHookProps.v
Syscalls.v
CDIHooks.v
CDIHooksProps.v
HookFilesProps.v
Ldconfig.v
LdconfigProps.v
Toml.v
Engine.v
Docker.v
Crio.v
Containerd.v
RuntimeTables.v
ContainerdProps.v
InstallerRuntimes.v
InstallerEngines.v
Configure.v
DropInProps.v
InstallerProps.v
InstallerDaemon.v
ToolkitInstaller.v
ToolkitInstallerProps.v
SystemDevices.v
SystemDevicesProps.v
Toolkit.v
ToolkitProps.v
CdiGenerate.v
InstallerMain.v
CdiGenerateProps.v
CtkConfig.v
