(* ===== verification/Prelude.v ===== *)
(** * NVIDIA Container Toolkit: verification library

    ** The program

    The toolkit gives containers access to NVIDIA GPUs. Its Go code falls into
    five parts, which share the toolkit's configuration and the files of the
    host:

    - the _runtime_ (internal/runtime, internal/modifier, internal/oci) stands
      in for runc: before a container is created it reads what the container
      asks for (internal/config/image), edits the OCI specification, and
      replaces itself by a low-level runtime;
    - the _generator_ of CDI specifications (pkg/nvcdi) finds the devices,
      libraries and files of a driver (internal/discover, pkg/lookup,
      internal/platform-support, internal/info) and describes them for a
      container engine; the runtime uses it in memory, [nvidia-ctk cdi
      generate] saves what it makes, the transforms of pkg/nvcdi/transform
      rewrite it;
    - the _hooks_ (cmd/nvidia-cdi-hook, internal/ldconfig,
      cmd/nvidia-container-runtime-hook) run as root while a container is
      started, on a root file system that the image controls;
    - the _commands_ (cmd/nvidia-ctk) edit the configuration of the toolkit
      and of the container engines and create device nodes;
    - the _installer_ (cmd/nvidia-ctk-installer) copies the toolkit to a host,
      configures docker, cri-o or containerd for it (pkg/config/engine), waits
      as a daemon and undoes the configuration when it is told to stop.

    ** Conventions

    A Go function that returns a value and an error is a function into
    [result]; a message of an error is the text that the code builds from the
    texts below it. A computation that may panic returns an [option] (named
    [may_panic] where nothing else is meant), and [None] is the panic: a nil
    map, an index out of range, a failing type assertion. State is passed
    explicitly; the generator of specifications has a monad over the state of
    the driver libraries (Nvml.v), the sequences of system calls one over a
    kernel (Syscalls.v), and Tegra.v one over a store of maps. A value that the
    code shares through a pointer and then writes to is shared in the model
    too: entities of a specification live in a heap (RootTransform.v), maps of
    mount specs in a store (Tegra.v), and the tables that two trees have in
    common are kept in step (Containerd.v).

    A Go string is a sequence of bytes; a Go map is a [gmap], and ranging over
    it visits it in an order that is an argument ([MapRange] in this file), so
    that what holds does so for every order; [sort.Slice] is likewise an
    argument with its laws ([SortSlice]). Integers that can overflow or that
    are read from files keep their width (LDCache.v, HookFilesProps.v,
    ProcInfo.v, [parse_uint] of GoStrings.v).

    Everything outside of the repository is a parameter: a class when several
    definitions use it, otherwise an argument of a section. The classes are
    [Host] (the file system as the locators see it, Lookup.v), [HostFiles]
    (contents of files, ProcInfo.v), [PropertyExtractor], [Nvml] and [Sandbox]
    (platform and driver libraries, Nvml.v), [SpecGenerator]
    (NvcdiOptions.v), [DeviceGenerator] and [CDILibrary] (the generator as
    the commands see it, CdiGenerate.v and Toolkit.v), [Toml], [Json],
    [Commands] and [Daemons] (codecs, programs and engines), [CommandLine]
    (parsed flags), [nri.Stub]. Two of them are interfaces inside the program
    and are implemented in the development: [nvcdi_generator] of Nvcdi.v and
    [nvcdi_devices] of CdiGenerate.v; and the instances of [EngineLaws]
    discharge what the installer assumes of an engine. Where a theorem needs
    more of a parameter than its type, the hypothesis is a class with laws
    ([TomlReadsBack]) or is written in the statement.

    ** The files

    _Ground_. GoStrings.v, GoPaths.v, Glob.v and Json.v are the parts of Go's
    standard library that the code uses, written out. FileSystem.v and
    OsFiles.v are a file system with symbolic links and device nodes and
    package os on it; they include the vendored moby/sys/symlink. Syscalls.v
    has traces of mounts and opened files.

    _What a container asks for_. Image.v is internal/config/image;
    Requirements.v and Semver.v are internal/requirements; Config.v is
    api/config/v1; CtkConfig.v is toml.go of that package and
    cmd/nvidia-ctk/config.

    _What a host has_. Lookup.v and DriverRoot.v are pkg/lookup and
    internal/lookup/root; LDCache.v is internal/ldcache; ProcInfo.v is
    internal/info/proc, internal/info/drm and internal/nvcaps; Nvml.v is the
    driver libraries and the platform. Discover.v and DiscoverDriver.v are
    internal/discover; Tegra.v and Dgpu.v are internal/platform-support.

    _CDI specifications_. CDISpec.v has the types, CDIParser.v the names of
    devices, Edits.v internal/edits. NvcdiOptions.v, NvcdiDriver.v and Nvcdi.v
    are pkg/nvcdi; SpecBuilder.v, Transform.v and RootTransform.v are
    pkg/nvcdi/spec and pkg/nvcdi/transform; CdiGenerate.v is
    cmd/nvidia-ctk/cdi.

    _Editing a container_. OCISpec.v has the types, OCI.v is internal/oci,
    ApplyEdits.v is how the vendored CDI library applies edits, Modifier.v is
    internal/modifier, and Runtime.v is internal/runtime with its logger.

    _In the container_. RuntimeHook.v is cmd/nvidia-container-runtime-hook;
    CDIHooks.v is cmd/nvidia-cdi-hook; Ldconfig.v is internal/ldconfig.

    _Engines and installation_. Toml.v is pkg/config/toml; Engine.v, Docker.v,
    Crio.v and Containerd.v are pkg/config/engine; Configure.v is
    cmd/nvidia-ctk/runtime. InstallerRuntimes.v and InstallerEngines.v are
    cmd/nvidia-ctk-installer/container; ToolkitInstaller.v and Toolkit.v are
    cmd/nvidia-ctk-installer/toolkit; SystemDevices.v is pkg/system and
    cmd/nvidia-ctk/system; InstallerMain.v is main.go of the installer and its
    NRI plugin, and InstallerDaemon.v its goroutines as a step relation.

    A file named Props after another has its properties; the other files with
    properties are NvcdiNames.v, HookFilesProps.v, ContainerdProps.v,
    DropInProps.v, InstallerProps.v, and RuntimeTables.v, the layout that the
    tables of cri-o and containerd share.

    ** What is shown

    - _Refinement and end-to-end behaviour_. A run of the runtime is described
      from its command line to the process that replaces it
      ([RuntimeProps.Run_spec]); the prestart hook likewise
      ([RuntimeHookProps.doPrestart_spec]). The installer for docker, from its
      flags to the file of docker: what docker is told to run is what was
      installed ([InstallerMain.Run_sets_docker_up]). The engines implement
      one abstract engine ([InstallerProps.engines_keep_promise]), for which
      the setup, and the cleanup after it, are described once. [cdi generate]
      partitions the devices as its flags say
      ([CdiGenerateProps.generateSpecs_spec]). Requirement strings mean the
      disjunctions of conjunctions that they are documented as
      ([RequirementsProps.New_Assert_met]).
    - _Containment_. The hooks change nothing outside of the container root,
      whatever links the image has ([CDIHooksProps.create_symlinks_contained],
      [HookFilesProps.cudacompat_contained]); installing changes nothing
      outside of its directory ([ToolkitProps.Install_replaces]).
    - _Who gets devices_. Where requested devices can come from
      ([ImageProps.VisibleDevices_provenance]), that a container that asks for
      nothing gets nothing ([ModifierProps.no_requests_only_hooks]), that the
      NRI plugin only serves its namespace
      ([InstallerMain.CreateContainer_spec]).
    - _Resources_. However generating a specification ends, the driver
      libraries are released as often as they were initialised and never used
      before ([NvcdiProps.New_GetSpec_discipline]); preparing a container root
      closes what it opens in reverse order, but for one file that it never
      closes ([LdconfigProps.prepareRoot_disciplined]).
    - _Concurrency_. The installer's goroutines as an interleaving: a signal
      ends it in at most 13 steps, its pid file is removed unless it warned
      that it could not do so, and an orderly end leaves no engine
      configured ([InstallerDaemon.signal_ends],
      [InstallerDaemon.clean_exit_unconfigures]); the plugin reconnects with
      one loop at a time ([InstallerMain.reconnect_once]).
    - _Equivalences, round trips and preservation_: simplifying
      specifications, reading back the linker cache, configuring and
      unconfiguring, requests by index and by UUID, device lists and their
      declarative meaning, version comparison and its numeric meaning.
    - _Where the code does not do what it means to_, the theorem says what it
      does; examples are [CDIHooksProps.chmod_loses_errors],
      [InstallerDaemon.early_signal_leaves_configured],
      [HookFilesProps.truncated_note_panics] and
      [InstallerMain.package_type_ignores_root].

    ** Bounds and fuel

    Loops over lists are structural. The others carry fuel:

    - [glob_loop], [parse_glob], [trim_any_left], [splitN] (from [split]),
      [getSoLink] and [CtkConfig.format] start with the length of their text
      and consume at least a byte in every step ([format_enough] for the last
      of them).
    - [conf_loop] of Ldconfig.v starts with the number of files that the
      configuration files include, counted with repetitions; [getLdsoconfDirectories_spec] proves that
      this is enough for every file system, also for files that include
      themselves.
    - [resolve_loop] of Lookup.v, the chain of links of a file, ends within
      the number of files of any set that is closed under links
      ([ResolveChain_complete]).
    - [initRuntimeModeAndImage] calls itself at most once; two is enough
      ([initRuntimeModeAndImage_spec]).
    - [scope_loop] has 255, the limit [maxIter] of the code itself, and [walk]
      of FileSystem.v the 40 links of the kernel; running out is the error
      that the code and the kernel report.

    ** Not modelled

    - What only calls or defines a C library: internal/cuda, internal/dxcore,
      the bindings of internal/nvsandboxutils, the enumeration of PCI devices.
      Their answers are parameters.
    - Parsing of command lines, of YAML, JSON and TOML, execution of programs,
      the sockets of the engines, and the CDI registry and cache: vendored
      code that is used through an interface.
    - The text of log messages, and mutexes: nothing in the modelled packages
      runs two goroutines on one value, other than in the installer and the
      plugin, whose interleavings are modelled.
    - Permissions of the kernel, concurrent changes of the file system, and
      failures of a write to an open file.
    - main packages that only wire a command (the three runtimes, nvidia-ctk
      and its groups of commands), generated mocks and stringers, the
      deployment files and the end-to-end tests. *)
From Stdlib Require Export Ascii String ZArith Lia List.
From stdpp Require Export base tactics list gmap strings sorting.

#[global] Set Default Proof Using "Type".

(** ** Results

    Go functions that return [(T, error)] are modelled with [result T]. An
    [error] carries the message that the code builds. *)

Inductive result (A : Type) : Type :=
| Ok (a : A)
| Err (e : string).
Arguments Ok {A} a.
Arguments Err {A} e.

#[global] Instance result_eq_dec {A} `{EqDecision A} : EqDecision (result A).
Proof. solve_decision. Defined.

Definition rbind {A B} (r : result A) (f : A -> result B) : result B :=
  match r with Ok a => f a | Err e => Err e end.

(** [wrap msg r] is the idiom
    [if err != nil { return ..., fmt.Errorf("msg: %v", err) }]. *)
Definition wrap {A} (msg : string) (r : result A) : result A :=
  match r with Ok a => Ok a | Err e => Err (msg ++ ": " ++ e)%string end.

Definition is_ok {A} (r : result A) : bool :=
  match r with Ok _ => true | Err _ => false end.

Definition ok_or {A} (d : A) (r : result A) : A :=
  match r with Ok a => a | Err _ => d end.

Declare Scope go_scope.
Delimit Scope go_scope with go.

Notation "'let?' x ':=' r 'in' k" := (rbind r (fun x => k))
  (at level 10, x name, r at level 100, k at level 200) : go_scope.
Notation "'let?' ' p ':=' r 'in' k" := (rbind r (fun x => match x with p => k end))
  (at level 10, p pattern, r at level 100, k at level 200) : go_scope.

#[global] Open Scope go_scope.

(** A [for] loop that appends the result of a fallible call per element and
    returns at the first error. *)
Fixpoint rmap {A B} (f : A -> result B) (l : list A) : result (list B) :=
  match l with
  | [] => Ok []
  | x :: l => let? y := f x in let? ys := rmap f l in Ok (y :: ys)
  end.

(** ** Automation *)

Create HintDb go discriminated.
Create Rewrite HintDb go_rw.

(** Invert every [result] equation of the context. *)
Ltac inv_result :=
  repeat match goal with
  | H : Ok _ = Ok _ |- _ => injection H as H
  | H : Err _ = Err _ |- _ => injection H as H
  | H : Ok _ = Err _ |- _ => discriminate H
  | H : Err _ = Ok _ |- _ => discriminate H
  | H : rbind ?r _ = Ok _ |- _ => destruct r eqn:?; simpl in H
  | H : wrap _ ?r = Ok _ |- _ => destruct r eqn:?; simpl in H
  end; simplify_eq.

(** Case analysis on the scrutinee of the first [match] or [if] of the goal. *)
Ltac case_goal :=
  match goal with
  | |- context [match ?x with _ => _ end] => destruct x eqn:?
  end.

Section Result.
Context {A B : Type}.

Lemma rbind_ok (r : result A) (f : A -> result B) b :
    rbind r f = Ok b <-> exists a, r = Ok a /\ f a = Ok b.
Proof. destruct r; simpl; naive_solver. Qed.

Lemma rmap_ok (f : A -> result B) l ys :
    rmap f l = Ok ys <-> Forall2 (fun x y => f x = Ok y) l ys.
Proof.
    revert ys. induction l as [|x l IH]; intros ys; simpl.
    - split; [intros [= <-]; constructor | by inversion 1].
    - split.
      + destruct (f x) as [y|] eqn:Hy; simpl; [|done].
        destruct (rmap f l) as [zs|] eqn:Hzs; simpl; [|done].
        intros [= <-]. constructor; [done|]. by apply IH.
      + inversion 1 as [|? y ? zs Hy Hzs]; subst.
        rewrite Hy. simpl. apply IH in Hzs as ->. done.
Qed.

Lemma rmap_total (f : A -> result B) (g : A -> B) l :
    (forall x, x ∈ l -> f x = Ok (g x)) -> rmap f l = Ok (map g l).
Proof.
    induction l as [|x l IH]; intros Hf; simpl; [done|].
    rewrite Hf by set_solver. simpl. rewrite IH by set_solver. done.
Qed.
End Result.

Lemma wrap_ok {A} msg (r : result A) a : wrap msg r = Ok a <-> r = Ok a.
Proof. destruct r; simpl; naive_solver. Qed.

(** ** The "seen" loop

    Many components walk a slice with a [seen] map and skip the keys that
    were met before. [dedup_by seen key l] is that loop: it keeps the first
    element of each key. *)

Section Dedup.
Context {A K : Type} `{Countable K}.
  Implicit Types (key : A -> K) (seen : gset K) (l : list A).

Fixpoint dedup_by key seen l : list A :=
    match l with
    | [] => []
    | x :: l =>
        if decide (key x ∈ seen) then dedup_by key seen l
        else x :: dedup_by key ({[key x]} ∪ seen) l
    end.

Lemma dedup_by_sublist key seen l : dedup_by key seen l `sublist_of` l.
Proof.
    revert seen. induction l as [|x l IH]; intros seen; simpl; [done|].
    case_decide; by constructor.
Qed.

Lemma dedup_by_elem key seen l k :
    k ∈ map key (dedup_by key seen l) <-> k ∈ map key l /\ k ∉ seen.
Proof.
    revert seen. induction l as [|x l IH]; intros seen; simpl.
    - set_solver.
    - case_decide as Hx; simpl; rewrite ?elem_of_cons, IH, ?elem_of_cons.
      + split; [tauto|]. intros [[-> | ?] ?]; tauto.
      + rewrite not_elem_of_union, not_elem_of_singleton. destruct (decide (k = key x)) as [->|]; tauto.
Qed.

Lemma dedup_by_NoDup key seen l : NoDup (map key (dedup_by key seen l)).
Proof.
    revert seen. induction l as [|x l IH]; intros seen; simpl; [constructor|].
    case_decide; [done|]. simpl. constructor; [|done].
    rewrite dedup_by_elem. set_solver.
Qed.

Lemma dedup_by_id key seen l :
    NoDup (map key l) -> (forall k, k ∈ map key l -> k ∉ seen) ->
    dedup_by key seen l = l.
Proof.
    revert seen. induction l as [|x l IH]; intros seen Hnd Hs; simpl; [done|].
    inversion Hnd as [|? ? Hx Hl]; subst.
    rewrite decide_False by (apply Hs; set_solver).
    f_equal. apply IH; [done|]. intros k Hk Hin. set_unfold in Hin.
    destruct Hin as [->|Hin]; [done|]. apply (Hs k); set_solver.
Qed.

Lemma dedup_by_idem key seen l :
    dedup_by key seen (dedup_by key seen l) = dedup_by key seen l.
Proof.
    apply dedup_by_id; [apply dedup_by_NoDup|].
    intros k Hk. by apply dedup_by_elem in Hk as [_ ?].
Qed.

(** The first element of every key survives: what is dropped has the key of
      an element that is kept. *)
Lemma dedup_by_first key l1 x l2 :
    key x ∉ map key l1 -> x ∈ dedup_by key ∅ (l1 ++ x :: l2).
Proof.
    cut (forall seen, key x ∉ seen -> key x ∉ map key l1 ->
         x ∈ dedup_by key seen (l1 ++ x :: l2)); [intros Hc; apply Hc; set_solver|].
    induction l1 as [|y l1 IH]; intros seen Hs Hn; simpl.
    - rewrite decide_False by done. set_solver.
    - apply not_elem_of_cons in Hn as [Hne Hn]. case_decide; [by apply IH|].
      apply elem_of_cons. right. apply IH; [|done]. set_solver.
Qed.
End Dedup.

#[export] Hint Resolve dedup_by_NoDup dedup_by_sublist : go.
#[export] Hint Rewrite @dedup_by_idem : go_rw.

Lemma dedup_by_sub {A K} `{Countable K} (key : A -> K) seen l x :
  x ∈ dedup_by key seen l -> x ∈ l.
Proof. intros Hx. by eapply elem_of_submseteq, sublist_submseteq, dedup_by_sublist. Qed.

Lemma dedup_by_same {A} `{Countable A} (l : list A) x :
  x ∈ dedup_by id ∅ l <-> x ∈ l.
Proof.
  pose proof (dedup_by_elem (@id A) ∅ l x) as Hx.
  rewrite !list_fmap_id in Hx. set_solver.
Qed.

(** ** Iteration over maps

    [for k, v := range m] visits the entries of a Go map in an order that the
    language leaves unspecified. [range m] is the order of one such loop: any
    enumeration of the entries. Code that ranges over a map is modelled over
    this interface, so what is proved of it holds for every order. *)
Class MapRange := {
  range : forall {V : Type}, gmap string V -> list (string * V);
  range_perm : forall V (m : gmap string V), range m ≡ₚ map_to_list m;
}.

(** One implementation, for running the models. *)
Definition map_to_list_range : MapRange :=
  {| range := fun _ m => map_to_list m; range_perm := fun _ _ => Permutation_refl _ |}.

Lemma elem_of_range `{MapRange} {V} (m : gmap string V) k v :
  (k, v) ∈ range m <-> m !! k = Some v.
Proof. by rewrite range_perm, elem_of_map_to_list. Qed.

Lemma NoDup_range `{MapRange} {V} (m : gmap string V) : NoDup (range m).*1.
Proof. rewrite range_perm. apply NoDup_fst_map_to_list. Qed.

(** ** Last-write maps

    [m[k] = v] in a loop over a slice: later writes win. *)
Definition map_of {V} (l : list (string * V)) : gmap string V :=
  foldl (fun m kv => <[kv.1 := kv.2]> m) ∅ l.

(** ** Sorting with a comparison function

    [sort.Slice] sorts by a [less] function and is not stable: the order of
    elements that [less] does not separate is not specified. *)
Definition equivb {A} (less : A -> A -> bool) (a b : A) : bool := negb (less a b) && negb (less b a).
Record weak_order {A} (less : A -> A -> bool) : Prop := {
  less_irrefl : forall a, less a a = false;
  less_trans : forall a b c, less a b = true -> less b c = true -> less a c = true;
  less_incomp : forall a b c, less a c = true -> less a b = true \/ less b c = true;
}.

Class SortSlice := {
  sort_slice : forall {A : Type}, (A -> A -> bool) -> list A -> list A;
  sort_slice_perm : forall A (less : A -> A -> bool) l, sort_slice less l ≡ₚ l;
  sort_slice_sorted : forall A (less : A -> A -> bool) l, weak_order less ->
    StronglySorted (fun a b => less b a = false) (sort_slice less l);
}.

(** One implementation, for running the models. *)
Fixpoint insert_by {A} (less : A -> A -> bool) (x : A) (l : list A) : list A :=
  match l with
  | [] => [x]
  | y :: l => if less y x then y :: insert_by less x l else x :: y :: l
  end.
Definition insertion_sort {A} (less : A -> A -> bool) (l : list A) : list A :=
  foldr (insert_by less) [] l.

Lemma insert_by_perm {A} (less : A -> A -> bool) x l : insert_by less x l ≡ₚ x :: l.
Proof.
  induction l as [|y l IH]; simpl; [done|]. destruct (less y x); [|done].
  rewrite IH. constructor.
Qed.
Lemma insertion_sort_perm {A} (less : A -> A -> bool) l : insertion_sort less l ≡ₚ l.
Proof. induction l as [|x l IH]; simpl; [done|]. by rewrite insert_by_perm, IH. Qed.

Lemma insert_by_sorted {A} (less : A -> A -> bool) x l : weak_order less ->
  StronglySorted (fun a b => less b a = false) l ->
  StronglySorted (fun a b => less b a = false) (insert_by less x l).
Proof.
  intros Ho. induction 1 as [|y l Hl IH Hy]; simpl; [repeat constructor|].
  destruct (less y x) eqn:Hyx.
  - constructor; [done|]. rewrite insert_by_perm. constructor; [|done].
    destruct (less x y) eqn:Hxy; [|done].
    rewrite <- (less_irrefl _ Ho x). by rewrite (less_trans _ Ho x y x).
  - constructor; [by constructor|]. constructor; [done|].
    eapply Forall_impl; [exact Hy|]. intros z Hzy. simpl in *.
    destruct (less z x) eqn:Hzx; [|done].
    destruct (less_incomp _ Ho z y x Hzx); congruence.
Qed.
Lemma insertion_sort_sorted {A} (less : A -> A -> bool) l : weak_order less ->
  StronglySorted (fun a b => less b a = false) (insertion_sort less l).
Proof. intros Ho. induction l; simpl; [constructor|]. by apply insert_by_sorted. Qed.

Definition insertion_sort_slice : SortSlice :=
  {| sort_slice := @insertion_sort; sort_slice_perm := @insertion_sort_perm;
     sort_slice_sorted := @insertion_sort_sorted |}.

(** A sorted list puts every element before the elements it is less than. *)
Lemma sorted_index {A} (less : A -> A -> bool) (l : list A) i j a b :
  weak_order less -> StronglySorted (fun a b => less b a = false) l ->
  l !! i = Some a -> l !! j = Some b -> less a b = true -> i < j.
Proof.
  intros Ho Hs Hi Hj Hab. destruct (decide (i < j)) as [|Hge]; [done|]. exfalso.
  destruct (decide (i = j)) as [->|Hne].
  - simplify_eq. by rewrite (less_irrefl _ Ho) in Hab.
  - revert i j Hi Hj Hge Hne. induction Hs as [|x l Hl IH Hx]; intros i j Hi Hj Hge Hne; [done|].
    destruct i as [|i], j as [|j]; simpl in *; try lia.
    + simplify_eq. apply (proj1 (Forall_lookup _ _) Hx) in Hi. congruence.
    + apply (IH i j); auto; lia.
Qed.
