(* ===== verification/GoStrings.v ===== *)
(** * Go's [strings], [strconv] and [path/filepath]

    Executable models of the functions of Go's standard library that the
    toolkit calls. A Go string is a sequence of bytes, modelled by
    [String.string]; comparison, prefix and split are byte-wise as in Go.
    [trim_space] knows the UTF-8 encodings of all the runes of
    [unicode.IsSpace]. *)
From S2P Require Import Prelude.

#[global] Open Scope string_scope.
#[global] Open Scope list_scope.
#[global] Arguments String.append !_ _ / : simpl nomatch.

(** ** Bytes *)

Definition byte_of (c : ascii) : N := N_of_ascii c.
Definition in_range (lo hi c : ascii) : bool :=
  ((byte_of lo <=? byte_of c) && (byte_of c <=? byte_of hi))%N.
Definition is_digit (c : ascii) : bool := in_range "0" "9" c.
Definition is_letter (c : ascii) : bool := in_range "A" "Z" c || in_range "a" "z" c.
Definition is_alnum (c : ascii) : bool := is_letter c || is_digit c.

(** The double quote, for [%q]. *)
Definition dquote : ascii := Ascii false true false false false true false false.
Definition quote (s : string) : string := String dquote (s +:+ String dquote "").

Fixpoint string_all (f : ascii -> bool) (s : string) : bool :=
  match s with "" => true | String c s => f c && string_all f s end.
Fixpoint string_any (f : ascii -> bool) (s : string) : bool :=
  match s with "" => false | String c s => f c || string_any f s end.

(** ** Slicing: [s[n:]] and [s[:n]] *)

Fixpoint sdrop (n : nat) (s : string) : string :=
  match n, s with S n, String _ s => sdrop n s | _, _ => s end.
Fixpoint stake (n : nat) (s : string) : string :=
  match n, s with S n, String c s => String c (stake n s) | _, _ => "" end.

Fixpoint srev_app (s acc : string) : string :=
  match s with "" => acc | String c s => srev_app s (String c acc) end.
Definition srev (s : string) : string := srev_app s "".

(** ** Prefixes and suffixes *)

Definition has_prefix (s p : string) : bool := String.prefix p s.
#[global] Arguments has_prefix : simpl never.
Definition trim_prefix (s p : string) : string :=
  if has_prefix s p then sdrop (String.length p) s else s.
Definition has_suffix (s p : string) : bool := has_prefix (srev s) (srev p).
Definition trim_suffix (s p : string) : string :=
  if has_suffix s p then stake (String.length s - String.length p) s else s.

(** [strings.TrimLeft(s, cutset)] and [strings.Trim] for one-byte cutsets. *)
Fixpoint trim_left_byte (c : ascii) (s : string) : string :=
  match s with
  | String d s' => if Ascii.eqb c d then trim_left_byte c s' else s
  | "" => ""
  end.
Definition trim_right_byte (c : ascii) (s : string) : string :=
  srev (trim_left_byte c (srev s)).
Definition trim_byte (c : ascii) (s : string) : string :=
  trim_right_byte c (trim_left_byte c s).

(** ** [strings.TrimSpace] *)

Definition str1 (n : N) : string := String (ascii_of_N n) "".
(** The UTF-8 encodings of the runes of [unicode.IsSpace]. *)
Definition space_runes : list string :=
  map str1 [9; 10; 11; 12; 13; 32]%N ++
  [str1 194 +:+ str1 133; str1 194 +:+ str1 160; str1 225 +:+ str1 154 +:+ str1 128] ++
  map (fun n => str1 226 +:+ str1 128 +:+ str1 n)
      [128; 129; 130; 131; 132; 133; 134; 135; 136; 137; 138; 168; 169; 175]%N ++
  [str1 226 +:+ str1 129 +:+ str1 159; str1 227 +:+ str1 128 +:+ str1 128].

Fixpoint trim_any_left (fuel : nat) (ps : list string) (s : string) : string :=
  match fuel with
  | O => s
  | S fuel =>
      match List.find (has_prefix s) ps with
      | Some p => trim_any_left fuel ps (sdrop (String.length p) s)
      | None => s
      end
  end.

Definition space_runes_rev : list string := Eval vm_compute in map srev space_runes.

Definition trim_space (s : string) : string :=
  let l := trim_any_left (String.length s) space_runes s in
  srev (trim_any_left (String.length l) space_runes_rev (srev l)).

(** ** Searching *)

Fixpoint count_byte (c : ascii) (s : string) : nat :=
  match s with
  | "" => 0
  | String d s => (if Ascii.eqb c d then 1 else 0) + count_byte c s
  end.

(** [strings.Cut(s, sep)] for a non-empty [sep]: the text before and after
    the first [sep]. *)
Fixpoint cut (sep s : string) : option (string * string) :=
  if has_prefix s sep then Some ("", sdrop (String.length sep) s)
  else match s with
       | "" => None
       | String c s =>
           match cut sep s with
           | Some (a, b) => Some (String c a, b)
           | None => None
           end
       end.

Definition contains (s sub : string) : bool :=
  match cut sub s with Some _ => true | None => false end.

(** [strings.IndexAny(s, chars)] for ASCII [chars]. *)
Fixpoint index_any (f : ascii -> bool) (s : string) : option nat :=
  match s with
  | "" => None
  | String c s => if f c then Some 0 else S <$> index_any f s
  end.

(** ** Split and join *)

(** [strings.Split(s, sep)] for a one-byte separator: never empty. *)
Fixpoint split_byte (c : ascii) (s : string) : list string :=
  match s with
  | "" => [""]
  | String d s =>
      if Ascii.eqb c d then "" :: split_byte c s
      else match split_byte c s with
           | [] => [String d ""]
           | x :: xs => String d x :: xs
           end
  end.

(** [strings.SplitN(s, sep, n)] for [n > 0]. *)
Fixpoint splitN (n : nat) (sep s : string) : list string :=
  match n with
  | O => []
  | S O => [s]
  | S n => match cut sep s with
           | Some (a, b) => a :: splitN n sep b
           | None => [s]
           end
  end.

(** [strings.Split(s, sep)] for a non-empty separator; every part but the
    last consumes at least one byte, so [length s + 1] parts are enough. *)
Definition split (sep s : string) : list string := splitN (S (String.length s)) sep s.

Definition join (sep : string) (l : list string) : string := String.concat sep l.

(** ** Comparison and sorting *)

Definition sleb (a b : string) : bool := String.leb a b.
Definition sltb (a b : string) : bool := String.ltb a b.
Definition sle (a b : string) : Prop := sleb a b = true.
#[global] Instance sle_dec a b : Decision (sle a b).
Proof. unfold sle. apply _. Defined.

(** [sort.Strings] and [slices.Sort] on strings. *)
Definition sort_strings (l : list string) : list string := merge_sort sle l.

(** ** Numbers *)

Definition digit_val (c : ascii) : Z := Z.of_N (byte_of c) - 48.

Fixpoint digits_val (acc : Z) (s : string) : Z :=
  match s with "" => acc | String c s => digits_val (acc * 10 + digit_val c) s end.

(** [strconv.ParseUint(s, 10, bits)]. *)
Definition parse_uint (bits : Z) (s : string) : option Z :=
  if negb (String.eqb s "") && string_all is_digit s then
    let v := digits_val 0 s in if (v <? 2 ^ bits)%Z then Some v else None
  else None.

(** [strconv.Atoi] on a 64-bit platform. *)
Definition atoi (s : string) : option Z :=
  let '(neg, d) :=
    match s with
    | String "-" d => (true, d)
    | String "+" d => (false, d)
    | _ => (false, s)
    end in
  if negb (String.eqb d "") && string_all is_digit d then
    let v := (if neg then - digits_val 0 d else digits_val 0 d)%Z in
    if ((- 2 ^ 63 <=? v) && (v <? 2 ^ 63))%Z then Some v else None
  else None.

(** [strconv.ParseBool]; [None] is the syntax error. *)
Definition parse_bool (s : string) : option bool :=
  if decide (s ∈ ["1"; "t"; "T"; "true"; "TRUE"; "True"]) then Some true
  else if decide (s ∈ ["0"; "f"; "F"; "false"; "FALSE"; "False"]) then Some false
  else None.

(** [%d] *)
Definition fmt_nat (n : nat) : string := pretty.pretty n.
Definition fmt_Z (z : Z) : string := pretty.pretty z.
Definition fmt_bool (b : bool) : string := if b then "true" else "false".

(** ** [path/filepath] (Unix) *)

Definition slash : ascii := "/".

Definition is_abs (p : string) : bool := has_prefix p "/".

(** One path component against the stack of components kept so far (the last
    one first): the loop of [filepath.Clean]. *)
Definition clean_step (rooted : bool) (st : list string) (c : string) : list string :=
  if decide (c = "" \/ c = ".") then st
  else if decide (c = "..") then
    match st with
    | top :: st' => if decide (top = "..") then c :: st else st'
    | [] => if rooted then [] else [c]
    end
  else c :: st.

Definition clean_components (rooted : bool) (p : string) : list string :=
  rev (foldl (clean_step rooted) [] (split_byte slash p)).

(** [filepath.Clean] *)
Definition clean (p : string) : string :=
  let body := join "/" (clean_components (is_abs p) p) in
  if is_abs p then "/" +:+ body
  else if decide (body = "") then "." else body.

(** [filepath.Join] *)
Fixpoint path_join (elems : list string) : string :=
  match elems with
  | [] => ""
  | e :: rest => if decide (e = "") then path_join rest else clean (join "/" elems)
  end.

(** The index of the last slash splits a path into directory and file. *)
Definition path_split (p : string) : string * string :=
  match cut "/" (srev p) with
  | Some (f, d) => (srev d +:+ "/", srev f)
  | None => ("", p)
  end.

(** [filepath.Dir] *)
Definition path_dir (p : string) : string := clean (path_split p).1.

(** [filepath.Base] *)
Definition path_base (p : string) : string :=
  if decide (p = "") then "."
  else
    let b := (path_split (trim_right_byte slash p)).2 in
    if decide (b = "") then "/" else b.

(** [filepath.Ext]: from the last dot of the last component. *)
Definition path_ext (p : string) : string :=
  let base := (path_split p).2 in
  match cut "." (srev base) with
  | Some (e, _) => "." +:+ srev e
  | None => ""
  end.

(** ** Strings as lists of bytes *)

Abbreviation bytes := list_ascii_of_string.

Lemma bytes_app a b : bytes (a +:+ b) = bytes a ++ bytes b.
Proof. induction a; simpl; congruence. Qed.

Lemma bytes_inj a b : bytes a = bytes b -> a = b.
Proof.
  intros H. rewrite <- (string_of_list_ascii_of_string a), <- (string_of_list_ascii_of_string b).
  by f_equal.
Qed.

Lemma sapp_nil_r s : s +:+ "" = s.
Proof. apply bytes_inj. by rewrite bytes_app, app_nil_r. Qed.

Lemma sapp_assoc (a b c : string) : a +:+ b +:+ c = (a +:+ b) +:+ c.
Proof. apply bytes_inj. by rewrite !bytes_app, app_assoc. Qed.

Lemma sapp_inj_l a b c : a +:+ b = a +:+ c -> b = c.
Proof. induction a as [|x a IH]; simpl; [done|]. intros [= H]. by apply IH. Qed.

Lemma sapp_inj_r a b c : a +:+ c = b +:+ c -> a = b.
Proof.
  intros H. apply bytes_inj. apply (f_equal bytes) in H.
  rewrite !bytes_app in H. by apply app_inv_tail in H.
Qed.

Lemma slength_app a b : String.length (a +:+ b) = String.length a + String.length b.
Proof. induction a; simpl; congruence. Qed.

Lemma bytes_length s : length (bytes s) = String.length s.
Proof. induction s; simpl; congruence. Qed.

Lemma srev_app_bytes s acc : bytes (srev_app s acc) = rev (bytes s) ++ bytes acc.
Proof.
  revert acc. induction s as [|c s IH]; intros acc; simpl; [done|].
  rewrite IH. simpl. by rewrite <- app_assoc.
Qed.

Lemma srev_bytes s : bytes (srev s) = rev (bytes s).
Proof. unfold srev. by rewrite srev_app_bytes, app_nil_r. Qed.

Lemma srev_involutive s : srev (srev s) = s.
Proof. apply bytes_inj. by rewrite !srev_bytes, rev_involutive. Qed.

Lemma srev_sapp a b : srev (a +:+ b) = srev b +:+ srev a.
Proof. apply bytes_inj. by rewrite bytes_app, !srev_bytes, bytes_app, rev_app_distr. Qed.

Lemma srev_length s : String.length (srev s) = String.length s.
Proof. by rewrite <- !bytes_length, srev_bytes, length_rev. Qed.

#[export] Hint Rewrite sapp_nil_r slength_app srev_involutive srev_length : go_rw.

(** ** Prefixes *)

Lemma sdrop_app p r : sdrop (String.length p) (p +:+ r) = r.
Proof. induction p; simpl; [by destruct r | done]. Qed.

Lemma stake_app p r : stake (String.length p) (p +:+ r) = p.
Proof. induction p; simpl; [by destruct r | by f_equal]. Qed.

Lemma has_prefix_spec s p : has_prefix s p = true <-> exists r, s = p +:+ r.
Proof.
  unfold has_prefix. revert s. induction p as [|c p IH]; intros s; simpl.
  - split; [intros _; by exists s | by destruct s].
  - destruct s as [|d s]; simpl; [split; [done|]; by intros [r ?]|].
    destruct (ascii_dec c d) as [->|Hne].
    + rewrite IH. split; intros [r Hr]; exists r; [by rewrite Hr|]. by injection Hr.
    + split; [done|]. intros [r Hr]. by injection Hr as ->.
Qed.

Lemma has_prefix_cons c s d p :
  has_prefix (String c s) (String d p) = Ascii.eqb c d && has_prefix s p.
Proof.
  apply eq_bool_prop_intro. rewrite andb_True, !Is_true_true, !has_prefix_spec, Ascii.eqb_eq.
  split; [intros [r Hr]; simpl in Hr; injection Hr as -> ->; eauto|].
  by intros (-> & r & ->); exists r.
Qed.

Lemma has_prefix_app p r : has_prefix (p +:+ r) p = true.
Proof. apply has_prefix_spec. by exists r. Qed.

Lemma has_prefix_empty s : has_prefix s "" = true.
Proof. apply has_prefix_spec. by exists s. Qed.

Lemma trim_prefix_app p r : trim_prefix (p +:+ r) p = r.
Proof. unfold trim_prefix. by rewrite has_prefix_app, sdrop_app. Qed.

Lemma trim_prefix_spec s p :
  has_prefix s p = true -> s = p +:+ trim_prefix s p.
Proof. intros [r ->]%has_prefix_spec. by rewrite trim_prefix_app. Qed.

Lemma trim_prefix_no s p : has_prefix s p = false -> trim_prefix s p = s.
Proof. intros H. unfold trim_prefix. by rewrite H. Qed.

Lemma trim_prefix_empty s : trim_prefix s "" = s.
Proof. exact (trim_prefix_app "" s). Qed.

Lemma has_suffix_spec s p : has_suffix s p = true <-> exists r, s = r +:+ p.
Proof.
  unfold has_suffix. rewrite has_prefix_spec. split; intros [r Hr].
  - exists (srev r). apply (f_equal srev) in Hr.
    by rewrite srev_sapp, !srev_involutive in Hr.
  - exists (srev r). by rewrite Hr, srev_sapp.
Qed.

Lemma trim_suffix_app r p : trim_suffix (r +:+ p) p = r.
Proof.
  unfold trim_suffix.
  replace (has_suffix (r +:+ p) p) with true by (symmetry; apply has_suffix_spec; by exists r).
  rewrite slength_app, Nat.add_sub. apply stake_app.
Qed.

#[export] Hint Rewrite has_prefix_cons has_prefix_app has_prefix_empty trim_prefix_app trim_prefix_empty
  trim_suffix_app : go_rw.

(** ** Cut *)

Lemma cut_some sep s a b : cut sep s = Some (a, b) -> s = a +:+ sep +:+ b.
Proof.
  revert a. induction s as [|c s IH]; intros a; simpl.
  - destruct (has_prefix "" sep) eqn:E; [|done]. intros [= <- <-].
    apply has_prefix_spec in E as [r Hr].
    destruct sep; [done|discriminate].
  - destruct (has_prefix (String c s) sep) eqn:E.
    + intros [= <- <-]. apply has_prefix_spec in E as [r ->]. simpl. by rewrite sdrop_app.
    + destruct (cut sep s) as [[a' b']|]; [|done]. intros [= <- <-].
      simpl. f_equal. by apply IH.
Qed.

(** ** Membership of a byte *)

Definition has_byte (c : ascii) (s : string) : bool := string_any (Ascii.eqb c) s.

Lemma has_byte_app c a b : has_byte c (a +:+ b) = has_byte c a || has_byte c b.
Proof.
  unfold has_byte. induction a as [|d a IH]; simpl; [done|].
  by rewrite IH, orb_assoc.
Qed.

Lemma cut_byte_app c a b :
  has_byte c a = false -> cut (String c "") (a +:+ String c b) = Some (a, b).
Proof.
  unfold has_byte. induction a as [|d a IH]; simpl; intros H.
  - unfold has_prefix. simpl. by destruct (ascii_dec c c), b.
  - apply orb_false_iff in H as [Hd Ha]. apply Ascii.eqb_neq in Hd.
    unfold has_prefix. simpl. destruct (ascii_dec c d); [done|].
    by rewrite IH.
Qed.

Lemma cut_byte_none c s : cut (String c "") s = None <-> has_byte c s = false.
Proof.
  unfold has_byte. induction s as [|d s IH]; simpl; [done|].
  unfold has_prefix. simpl. destruct (ascii_dec c d) as [->|Hne].
  - rewrite Ascii.eqb_refl. by destruct s.
  - apply Ascii.eqb_neq in Hne as ->. simpl. rewrite <- IH.
    by destruct (cut _ s) as [[]|].
Qed.

Lemma cut_byte_some c s a b :
  cut (String c "") s = Some (a, b) <-> s = a +:+ String c b /\ has_byte c a = false.
Proof.
  split.
  - intros H. split; [by apply cut_some in H|].
    revert a H. induction s as [|d s IH]; intros a; simpl; [done|].
    unfold has_prefix. simpl. destruct (ascii_dec c d) as [->|Hne].
    + destruct s; by intros [= <- <-].
    + destruct (cut _ s) as [[a' b']|]; [|done]. intros [= <- <-].
      unfold has_byte. simpl. apply Ascii.eqb_neq in Hne as ->. by apply IH.
  - intros [-> H]. by apply cut_byte_app.
Qed.

Lemma has_prefix_free c a r :
  has_byte c a = false -> a <> "" -> has_prefix (a +:+ r) (String c "") = false.
Proof.
  destruct a as [|d a]; [done|]. unfold has_byte. simpl.
  intros [Hd _]%orb_false_iff _. by rewrite has_prefix_cons, Ascii.eqb_sym, Hd.
Qed.

Lemma eqb_app_ne a r : a <> "" -> String.eqb (a +:+ r) "" = false.
Proof. by destruct a. Qed.

(** ** Split and join are inverse *)

Lemma split_byte_cons c s : exists x xs, split_byte c s = x :: xs.
Proof.
  induction s as [|d s (x & xs & IH)]; simpl; [by eauto|].
  destruct (Ascii.eqb c d); [by eauto|]. rewrite IH. by eauto.
Qed.

Lemma join_cons2 sep x y l : join sep (x :: y :: l) = x +:+ sep +:+ join sep (y :: l).
Proof. done. Qed.

Lemma join_split c s : join (String c "") (split_byte c s) = s.
Proof.
  induction s as [|d s IH]; [done|]. simpl.
  destruct (split_byte_cons c s) as (x & xs & E). rewrite E in *.
  destruct (Ascii.eqb_spec c d) as [->|_].
  - rewrite join_cons2. simpl in *. by rewrite IH.
  - rewrite <- IH. by destruct xs.
Qed.

Lemma split_byte_free c s : Forall (fun x => has_byte c x = false) (split_byte c s).
Proof.
  induction s as [|d s IH]; simpl; [by repeat constructor|].
  destruct (Ascii.eqb c d) eqn:E; [by constructor|].
  destruct (split_byte_cons c s) as (x & xs & Es). rewrite Es in *.
  inversion IH; subst. constructor; [|done]. unfold has_byte. simpl. by rewrite E.
Qed.

Lemma split_byte_free_id c s : has_byte c s = false -> split_byte c s = [s].
Proof.
  induction s as [|d s IH]; simpl; [done|]. unfold has_byte. simpl.
  intros [-> Hs]%orb_false_iff. by rewrite IH.
Qed.

Lemma split_byte_app c a s :
  has_byte c a = false -> split_byte c (a +:+ String c s) = a :: split_byte c s.
Proof.
  induction a as [|d a IH]; simpl; intros H.
  - by rewrite Ascii.eqb_refl.
  - unfold has_byte in H. simpl in H. apply orb_false_iff in H as [-> Ha].
    by rewrite IH.
Qed.

Lemma split_join c l :
  l <> [] -> Forall (fun x => has_byte c x = false) l ->
  split_byte c (join (String c "") l) = l.
Proof.
  induction l as [|x l IH]; [done|]. intros _ Hl. inversion Hl as [|? ? Hx Hl']; subst.
  destruct l as [|y l].
  - simpl. by apply split_byte_free_id.
  - rewrite join_cons2. simpl (String c "" +:+ _).
    rewrite split_byte_app by done. f_equal. by apply IH.
Qed.

#[export] Hint Rewrite join_split : go_rw.
#[export] Hint Resolve split_byte_free : go.

(** ** Sorting *)

#[global] Instance sle_total : Total sle.
Proof. intros a b. unfold sle, sleb. apply String.leb_total. Qed.

Lemma compare_trans (c : comparison) a b d :
  String.compare a b = c -> String.compare b d = c -> String.compare a d = c.
Proof.
  revert b d. induction a as [|x a IH]; intros [|y b] [|z d]; simpl; try congruence.
  unfold Ascii.compare.
  destruct (N.compare_spec (N_of_ascii x) (N_of_ascii y)) as [Exy|Exy|Exy],
    (N.compare_spec (N_of_ascii y) (N_of_ascii z)) as [Eyz|Eyz|Eyz],
    (N.compare_spec (N_of_ascii x) (N_of_ascii z)) as [Exz|Exz|Exz];
    try lia; try congruence. apply IH.
Qed.

#[global] Instance sle_trans : Transitive sle.
Proof.
  intros a b d. unfold sle, sleb, String.leb.
  destruct (String.compare a b) eqn:Eab; [|
    destruct (String.compare b d) eqn:Ebd; [|
      by rewrite (compare_trans Lt a b d)|done]|done].
  - by apply String.compare_eq_iff in Eab as ->.
  - apply String.compare_eq_iff in Ebd as ->. by rewrite Eab.
Qed.

#[global] Instance sle_antisymm : AntiSymm eq sle.
Proof.
  intros a b. unfold sle, sleb, String.leb. rewrite (String.compare_antisym b a).
  destruct (String.compare a b) eqn:E; simpl; try done.
  by apply String.compare_eq_iff in E.
Qed.

#[global] Instance sle_refl : Reflexive sle.
Proof. intros a. by destruct (sle_total a a). Qed.

Lemma sltb_sleb a b : sltb a b = negb (sleb b a).
Proof.
  unfold sltb, sleb, String.ltb, String.leb. rewrite (String.compare_antisym a b).
  by destruct (String.compare b a).
Qed.

(** Comparing strings by [<] is a strict weak order. *)
Lemma weak_order_sltb {A} (key : A -> string) : weak_order (fun a b => sltb (key a) (key b)).
Proof.
  split.
  - intros a. rewrite sltb_sleb. by rewrite (sle_refl (key a)).
  - intros a b c. rewrite !sltb_sleb, !negb_true_iff. intros Hab Hbc.
    destruct (sleb (key c) (key a)) eqn:Hca; [|done]. exfalso.
    destruct (sle_total (key a) (key b)) as [H|H]; [|by rewrite H in Hab].
    pose proof (sle_trans (key c) (key a) (key b) Hca H) as H'. by rewrite H' in Hbc.
  - intros a b c. rewrite !sltb_sleb, !negb_true_iff. intros Hca.
    destruct (sleb (key b) (key a)) eqn:Hba; [|by left]. right.
    destruct (sleb (key c) (key b)) eqn:Hcb; [|done].
    rewrite (sle_trans (key c) (key b) (key a)) in Hca; done.
Qed.

(** Ordering by a number first and by a string among equal numbers. *)
Definition less_depth {A} (num : A -> nat) (key : A -> string) (a b : A) : bool :=
  if Nat.eqb (num a) (num b) then sltb (key a) (key b) else Nat.ltb (num a) (num b).

Lemma weak_order_depth {A} (num : A -> nat) (key : A -> string) : weak_order (less_depth num key).
Proof.
  destruct (weak_order_sltb key) as [Hi Ht Hc]. unfold less_depth. split.
  - intros a. by rewrite Nat.eqb_refl.
  - intros a b c. destruct (Nat.eqb_spec (num a) (num b)), (Nat.eqb_spec (num b) (num c)),
      (Nat.eqb_spec (num a) (num c)); rewrite ?Nat.ltb_lt; try lia. apply Ht.
  - intros a b c. destruct (Nat.eqb_spec (num a) (num b)), (Nat.eqb_spec (num b) (num c)),
      (Nat.eqb_spec (num a) (num c)); rewrite ?Nat.ltb_lt; try lia. apply Hc.
Qed.

Lemma sort_strings_perm l : sort_strings l ≡ₚ l.
Proof. apply merge_sort_Permutation. Qed.

Lemma sort_strings_sorted l : StronglySorted sle (sort_strings l).
Proof. apply StronglySorted_merge_sort; apply _. Qed.

(** Sorting forgets the order: this is what makes iteration over a Go map
    followed by a sort deterministic. *)
Lemma sort_strings_unique l1 l2 : l1 ≡ₚ l2 -> sort_strings l1 = sort_strings l2.
Proof.
  intros H. apply (StronglySorted_unique sle); try apply sort_strings_sorted.
  by rewrite !sort_strings_perm.
Qed.

Lemma sort_strings_elem l x : x ∈ sort_strings l <-> x ∈ l.
Proof. by rewrite sort_strings_perm. Qed.

#[export] Hint Resolve sort_strings_sorted : go.

(** ** Normal form of cleaned absolute paths *)

(** A component that [Clean] keeps as it is. *)
Definition proper (c : string) : Prop :=
  c <> "" /\ c <> "." /\ c <> ".." /\ has_byte slash c = false.

#[global] Instance proper_dec c : Decision (proper c).
Proof. unfold proper. apply _. Defined.

(** Decide a closed goal by evaluation. *)
Ltac evaluate := apply (bool_decide_unpack _); vm_compute; exact I.

Definition abs_path (cs : list string) : string := "/" +:+ join "/" cs.

Lemma clean_step_proper st c :
  has_byte slash c = false -> Forall proper st -> Forall proper (clean_step true st c).
Proof.
  intros Hc Hst. unfold clean_step. repeat case_decide; [done| |].
  - destruct Hst as [|top st Htop Hst]; [constructor|].
    case_decide; [|done]. destruct Htop as (_ & _ & ? & _). done.
  - constructor; [|done]. repeat split; try done; naive_solver.
Qed.

Lemma clean_components_proper p : Forall proper (clean_components true p).
Proof.
  unfold clean_components. apply Forall_rev.
  generalize (split_byte_free slash p). generalize (split_byte slash p).
  intros l Hl. cut (Forall proper []); [|constructor].
  generalize (@nil string). induction Hl as [|c l Hc Hl IH]; intros st Hst; simpl; [done|].
  by apply IH, clean_step_proper.
Qed.

Lemma clean_step_push rooted st c : proper c -> clean_step rooted st c = c :: st.
Proof.
  intros (? & ? & ? & _). unfold clean_step.
  rewrite decide_False by naive_solver. by rewrite decide_False.
Qed.

Lemma foldl_clean_push rooted cs st :
  Forall proper cs -> foldl (clean_step rooted) st cs = rev cs ++ st.
Proof.
  intros H. revert st. induction H as [|c cs Hc H IH]; intros st; simpl; [done|].
  rewrite clean_step_push by done. by rewrite IH, <- app_assoc.
Qed.

Lemma proper_free cs : Forall proper cs -> Forall (fun c => has_byte slash c = false) cs.
Proof. intros H. eapply Forall_impl; [exact H|]. by intros ? (_ & _ & _ & ?). Qed.

Lemma clean_components_abs_path cs :
  Forall proper cs -> clean_components true (abs_path cs) = cs.
Proof.
  intros Hcs. unfold clean_components, abs_path. simpl.
  replace (clean_step true [] "") with (@nil string) by done.
  destruct cs as [|c cs]; [done|].
  rewrite split_join by (try done; by apply proper_free).
  by rewrite foldl_clean_push, app_nil_r, rev_involutive.
Qed.

Lemma abs_path_abs cs : is_abs (abs_path cs) = true.
Proof. apply has_prefix_app. Qed.

Lemma clean_abs_path cs : Forall proper cs -> clean (abs_path cs) = abs_path cs.
Proof.
  intros Hcs. unfold clean. rewrite abs_path_abs. by rewrite clean_components_abs_path.
Qed.

(** Cleaning an absolute path gives the canonical path of its components... *)
Lemma clean_abs p :
  is_abs p = true -> clean p = abs_path (clean_components true p).
Proof. intros H. unfold clean. by rewrite H. Qed.

(** ... and is idempotent. *)
Lemma clean_idem_abs p : is_abs p = true -> clean (clean p) = clean p.
Proof.
  intros H. rewrite (clean_abs p H). apply clean_abs_path, clean_components_proper.
Qed.

(** Distinct component lists give distinct paths. *)
Lemma abs_path_inj cs1 cs2 :
  Forall proper cs1 -> Forall proper cs2 -> abs_path cs1 = abs_path cs2 -> cs1 = cs2.
Proof.
  intros H1 H2 H. apply (f_equal (clean_components true)) in H.
  by rewrite !clean_components_abs_path in H.
Qed.

#[export] Hint Resolve clean_components_proper abs_path_abs : go.
