(* ===== verification/GoPaths.v ===== *)
(** * Absolute paths as lists of components

    Lemmas on [filepath.Join], [Dir], [Base] and [Clean] for paths in normal
    form, shared by the components that compute with paths. *)
From S2P Require Import Prelude GoStrings.

(** ** Joining below an absolute path *)

Definition nonempty (c : string) : bool := negb (String.eqb c "").

Lemma foldl_clean_mixed rooted cs st :
  Forall (fun c => c = "" \/ proper c) cs ->
  foldl (clean_step rooted) st cs = rev (List.filter nonempty cs) ++ st.
Proof.
  intros H. revert st. induction H as [|c cs Hc H IH]; intros st; simpl; [done|].
  rewrite IH. destruct Hc as [->|Hc]; simpl; [done|].
  rewrite clean_step_push by done. unfold nonempty at 2.
  destruct (String.eqb_spec c "") as [->|_]; [by destruct Hc|].
  simpl. by rewrite <- app_assoc.
Qed.

Lemma split_byte_sep c a b :
  split_byte c (a +:+ String c b) = split_byte c a ++ split_byte c b.
Proof.
  induction a as [|x a IH]; simpl.
  - by rewrite Ascii.eqb_refl.
  - destruct (Ascii.eqb c x); [by rewrite IH|]. rewrite IH.
    by destruct (split_byte_cons c a) as (y & ys & ->).
Qed.

Lemma filter_proper cs : Forall proper cs -> List.filter nonempty cs = cs.
Proof.
  induction 1 as [|x xs Hx _ IH]; simpl; [done|]. unfold nonempty at 1.
  destruct (String.eqb_spec x "") as [->|_]; [by destruct Hx|]. simpl. by rewrite IH.
Qed.

Lemma split_abs_path cs : Forall proper cs ->
  List.filter nonempty (split_byte slash (abs_path cs)) = cs
  /\ Forall (fun c => c = "" \/ proper c) (split_byte slash (abs_path cs)).
Proof.
  intros Hcs. unfold abs_path. change ("/" +:+ join "/" cs) with ("" +:+ String slash (join "/" cs)).
  rewrite split_byte_sep. destruct cs as [|c cs].
  - split; [done|]. repeat constructor.
  - rewrite (split_join slash) by (try done; by apply proper_free). simpl. split.
    + by apply (filter_proper (c :: cs)).
    + constructor; [by left|]. eapply Forall_impl; [exact Hcs|]. by right.
Qed.

Lemma path_join_abs ts r : Forall proper ts ->
  Forall (fun c => c = "" \/ proper c) (split_byte slash r) ->
  path_join [abs_path ts; r] = abs_path (ts ++ List.filter nonempty (split_byte slash r)).
Proof.
  intros Hts Hr. destruct (split_abs_path ts Hts) as [Ht1 Ht2].
  change (path_join [abs_path ts; r]) with (clean (abs_path ts +:+ String slash r)).
  rewrite clean_abs by (unfold is_abs, abs_path; rewrite <- sapp_assoc; apply has_prefix_app).
  f_equal. unfold clean_components.
  rewrite split_byte_sep, foldl_clean_mixed by (by apply Forall_app).
  rewrite app_nil_r, rev_involutive, List.filter_app. by rewrite Ht1.
Qed.

(** The text of a path below another one. *)
Lemma abs_path_app cs ds : cs <> [] -> ds <> [] -> abs_path (cs ++ ds) = abs_path cs +:+ abs_path ds.
Proof.
  intros Hcs Hds. unfold abs_path. rewrite <- sapp_assoc. f_equal.
  induction cs as [|c cs IH]; [done|]. destruct cs as [|c' cs].
  - destruct ds as [|d ds]; [done|]. change ([c] ++ d :: ds) with (c :: d :: ds). by rewrite join_cons2.
  - change ((c :: c' :: cs) ++ ds) with (c :: c' :: cs ++ ds).
    rewrite !join_cons2. change (c' :: cs ++ ds) with ((c' :: cs) ++ ds). rewrite IH by done.
    by rewrite <- !sapp_assoc.
Qed.

(** The rest of a path after a root. *)
Lemma trim_root cs ds : Forall proper (cs ++ ds) ->
  has_prefix (abs_path (cs ++ ds)) (abs_path cs) = true
  /\ let r := trim_prefix (abs_path (cs ++ ds)) (abs_path cs) in
     List.filter nonempty (split_byte slash r) = ds
     /\ Forall (fun c => c = "" \/ proper c) (split_byte slash r).
Proof.
  intros Hp. apply Forall_app in Hp as [Hcs Hds].
  destruct (decide (ds = [])) as [->|Hd].
  { rewrite app_nil_r. pose proof (has_prefix_app (abs_path cs) "") as H1.
    pose proof (trim_prefix_app (abs_path cs) "") as H2. rewrite sapp_nil_r in H1, H2.
    rewrite H1, H2. split; [done|]. split; [done|]. repeat constructor. }
  destruct (decide (cs = [])) as [->|Hc].
  - change (abs_path ([] ++ ds)) with ("/" +:+ join "/" ds). change (abs_path []) with "/".
    rewrite has_prefix_app, trim_prefix_app. split; [done|]. cbv zeta.
    rewrite (split_join slash) by (try done; by apply proper_free).
    split; [by apply filter_proper|]. eapply Forall_impl; [exact Hds|]. by right.
  - rewrite abs_path_app by done. rewrite has_prefix_app, trim_prefix_app.
    split; [done|]. by apply split_abs_path.
Qed.

Lemma join_glue c x ds : join "/" ((c +:+ x) :: ds) = c +:+ join "/" (x :: ds).
Proof. destruct ds as [|d ds]; [done|]. by rewrite !join_cons2, <- sapp_assoc. Qed.

Lemma abs_path_glue cs c x ds :
  abs_path (cs ++ (c +:+ x) :: ds) = abs_path (cs ++ [c]) +:+ join "/" (x :: ds).
Proof.
  destruct (decide (cs = [])) as [->|Hcs].
  - unfold abs_path. cbn [app]. rewrite join_glue. simpl (join "/" [c]). by rewrite !sapp_assoc.
  - rewrite !abs_path_app by done. unfold abs_path. rewrite join_glue. simpl (join "/" [c]).
    by rewrite !sapp_assoc.
Qed.

(** ** Directory, base name and extension *)

Lemma has_byte_srev c s : has_byte c (srev s) = has_byte c s.
Proof.
  assert (H : forall t, has_byte c t = existsb (Ascii.eqb c) (bytes t)).
  { intros t. unfold has_byte. induction t as [|x t IH]; simpl; [done|]. by rewrite IH. }
  rewrite !H, srev_bytes. apply eq_true_iff_eq. rewrite !existsb_exists.
  by setoid_rewrite <- in_rev.
Qed.

Lemma path_split_app a b : has_byte slash b = false -> path_split (a +:+ "/" +:+ b) = (a +:+ "/", b).
Proof.
  intros Hb. unfold path_split. rewrite !srev_sapp, <- sapp_assoc.
  change (srev "/" +:+ srev a) with (String slash (srev a)).
  change "/" with (String slash "") at 1.
  rewrite cut_byte_app by by rewrite has_byte_srev. by rewrite !srev_involutive.
Qed.

Lemma path_split_free b : has_byte slash b = false -> path_split b = ("", b).
Proof.
  intros Hb. unfold path_split. change "/" with (String slash "").
  by rewrite (proj2 (cut_byte_none slash (srev b))) by by rewrite has_byte_srev.
Qed.

Lemma join_snoc ds n : ds <> [] -> join "/" (ds ++ [n]) = join "/" ds +:+ "/" +:+ n.
Proof.
  induction ds as [|d ds IH]; [done|]. intros _. destruct ds as [|d' ds]; [done|].
  change ((d :: d' :: ds) ++ [n]) with (d :: d' :: ds ++ [n]). rewrite !join_cons2.
  change (d' :: ds ++ [n]) with ((d' :: ds) ++ [n]). rewrite IH by done. by rewrite !sapp_assoc.
Qed.

Lemma path_split_abs ds n : has_byte slash n = false ->
  path_split (abs_path (ds ++ [n])) = ((if decide (ds = []) then "/" else abs_path ds +:+ "/"), n).
Proof.
  intros Hn. unfold abs_path. case_decide as Hd.
  - subst. change ("/" +:+ join "/" ([] ++ [n])) with ("" +:+ "/" +:+ n). by rewrite path_split_app.
  - rewrite join_snoc, sapp_assoc by done. by rewrite path_split_app.
Qed.

Lemma clean_abs_slash ds : Forall proper ds -> clean (abs_path ds +:+ "/") = abs_path ds.
Proof.
  intros Hds. change (clean (abs_path ds +:+ "/")) with (path_join [abs_path ds; ""]).
  rewrite path_join_abs by (try done; by repeat constructor). by rewrite app_nil_r.
Qed.

Lemma path_dir_abs ds n : Forall proper ds -> has_byte slash n = false ->
  path_dir (abs_path (ds ++ [n])) = abs_path ds.
Proof.
  intros Hds Hn. unfold path_dir. rewrite path_split_abs by done. simpl.
  case_decide as Hd; [by subst|by apply clean_abs_slash].
Qed.
Lemma path_dir_free n : has_byte slash n = false -> path_dir n = ".".
Proof. intros Hn. unfold path_dir. by rewrite path_split_free. Qed.

Lemma trim_right_keep c a n :
  n <> "" -> has_byte c n = false -> trim_right_byte c (a +:+ n) = a +:+ n.
Proof.
  intros Hn Hc. unfold trim_right_byte. rewrite srev_sapp.
  rewrite <- (has_byte_srev c n) in Hc. destruct (srev n) as [|x r] eqn:Hr.
  - apply (f_equal srev) in Hr. by rewrite srev_involutive in Hr.
  - apply orb_false_elim in Hc as [Hx _]. cbn [String.append trim_left_byte].
    rewrite Hx. change (String x (r +:+ srev a)) with (String x r +:+ srev a).
    by rewrite <- Hr, <- srev_sapp, srev_involutive.
Qed.

Lemma path_base_app a n : n <> "" -> has_byte slash n = false -> path_base (a +:+ "/" +:+ n) = n.
Proof.
  intros Hn Hs. unfold path_base. rewrite decide_False by by destruct a.
  rewrite sapp_assoc, trim_right_keep, <- sapp_assoc, path_split_app by done. simpl.
  by rewrite decide_False.
Qed.
Lemma path_base_free n : n <> "" -> has_byte slash n = false -> path_base n = n.
Proof.
  intros Hn Hs. unfold path_base. rewrite decide_False by done.
  pose proof (trim_right_keep slash "" n Hn Hs) as Ht. simpl in Ht.
  rewrite Ht, path_split_free by done. simpl. by rewrite decide_False.
Qed.
Lemma path_base_abs ds n : proper n -> path_base (abs_path (ds ++ [n])) = n.
Proof.
  intros (Hn & _ & _ & Hs). unfold abs_path. destruct (decide (ds = [])) as [->|Hd].
  - by apply (path_base_app "").
  - rewrite join_snoc, sapp_assoc by done. by apply path_base_app.
Qed.

Lemma path_ext_split p q : (path_split p).2 = (path_split q).2 -> path_ext p = path_ext q.
Proof. unfold path_ext. by intros ->. Qed.
