(* ===== verification/Json.v ===== *)
(** * JSON text of Go values (encoding/json)

    [json.Marshal] of strings, integers, string slices and structs whose
    fields are of those kinds, as the CDI transforms use it to give every
    entity of a specification an identity
    (src/pkg/nvcdi/transform/edits.go). Strings are escaped as the standard
    library does: quotes, backslashes, control characters and the HTML
    characters are escaped, U+2028 and U+2029 are escaped, and a byte that is
    not part of a valid UTF-8 sequence becomes the replacement character, so
    the text identifies a value only up to invalid bytes. *)
From S2P Require Import Prelude GoStrings.

#[local] Open Scope N_scope.

Definition cont (c : ascii) : bool := (128 <=? byte_of c) && (byte_of c <=? 191).
Definition between (lo hi : N) (c : ascii) : bool := (lo <=? byte_of c) && (byte_of c <=? hi).
Definition eqb_byte (n : N) (c : ascii) : bool := byte_of c =? n.

(** The multi-byte sequences that [utf8.DecodeRuneInString] accepts. *)
Definition rune2 (c c1 : ascii) : bool := between 194 223 c && cont c1.
Definition rune3 (c c1 c2 : ascii) : bool :=
  (eqb_byte 224 c && between 160 191 c1 || eqb_byte 237 c && between 128 159 c1
   || (between 225 236 c || between 238 239 c) && cont c1) && cont c2.
Definition rune4 (c c1 c2 c3 : ascii) : bool :=
  (eqb_byte 240 c && between 144 191 c1 || eqb_byte 244 c && between 128 143 c1
   || between 241 243 c && cont c1) && cont c2 && cont c3.
Definition ascii7 (c : ascii) : bool := byte_of c <? 128.
Definition line_sep (c c1 c2 : ascii) : bool :=
  eqb_byte 226 c && eqb_byte 128 c1 && (eqb_byte 168 c2 || eqb_byte 169 c2).

Definition hex_digit (n : N) : ascii :=
  ascii_of_N (if n <? 10 then 48 + n else 87 + n).

(** One byte below 0x80 with HTML escaping on, as [json.Marshal] has it. *)
Definition esc_ascii (c : ascii) : string :=
  let n := byte_of c in
  if (n =? 34) || (n =? 92) then String "\" (String c "")
  else if n =? 8 then "\b" else if n =? 12 then "\f" else if n =? 10 then "\n"
  else if n =? 13 then "\r" else if n =? 9 then "\t"
  else if (n <? 32) || (n =? 60) || (n =? 62) || (n =? 38)
  then "\u00" +:+ String (hex_digit (n / 16)) (String (hex_digit (n mod 16)) "")
  else String c "".

Fixpoint esc (s : string) : string :=
  match s with
  | "" => ""
  | String c r =>
      if ascii7 c then esc_ascii c +:+ esc r else
      match r with
      | "" => "\ufffd" +:+ esc r
      | String c1 r1 =>
          if rune2 c c1 then String c (String c1 (esc r1)) else
          match r1 with
          | "" => "\ufffd" +:+ esc r
          | String c2 r2 =>
              if rune3 c c1 c2 then
                if line_sep c c1 c2
                then (if eqb_byte 168 c2 then "\u2028" else "\u2029") +:+ esc r2
                else String c (String c1 (String c2 (esc r2)))
              else
              match r2 with
              | "" => "\ufffd" +:+ esc r
              | String c3 r3 =>
                  if rune4 c c1 c2 c3
                  then String c (String c1 (String c2 (String c3 (esc r3))))
                  else "\ufffd" +:+ esc r
              end
          end
      end
  end%string.

(** Valid UTF-8. *)
Inductive utf8 : string -> Prop :=
| utf8_nil : utf8 ""
| utf8_1 c r : ascii7 c = true -> utf8 r -> utf8 (String c r)
| utf8_2 c c1 r : rune2 c c1 = true -> utf8 r -> utf8 (String c (String c1 r))
| utf8_3 c c1 c2 r : rune3 c c1 c2 = true -> utf8 r -> utf8 (String c (String c1 (String c2 r)))
| utf8_4 c c1 c2 c3 r : rune4 c c1 c2 c3 = true -> utf8 r ->
    utf8 (String c (String c1 (String c2 (String c3 r)))).

Lemma utf8_ascii s : string_all ascii7 s = true -> utf8 s.
Proof.
  induction s as [|c s IH]; simpl; [constructor|].
  intros [Hc Hs]%andb_prop. apply utf8_1; auto.
Qed.

(** ** Reading a string back *)

Definition hex_val (c : ascii) : N :=
  if byte_of c <? 58 then byte_of c - 48 else byte_of c - 87.
Definition push (a : string) (o : option (string * string)) : option (string * string) :=
  match o with Some (x, t) => Some (a +:+ x, t) | None => None end.
Definition unesc (e : ascii) : string :=
  match byte_of e with
  | 98 => str1 8 | 102 => str1 12 | 110 => str1 10 | 114 => str1 13 | 116 => str1 9
  | _ => String e ""
  end.

(** [dec s] reads the text of a string up to its closing quote. *)
Fixpoint dec (s : string) : option (string * string) :=
  match s with
  | "" => None
  | String c r =>
      if eqb_byte 34 c then Some ("", r)
      else if eqb_byte 92 c then
        match r with
        | "" => None
        | String e r1 =>
            if eqb_byte 117 e then
              match r1 with
              | String h1 (String h2 (String h3 (String h4 r4))) =>
                  push (if eqb_byte 50 h1
                        then str1 226 +:+ str1 128 +:+ str1 (if eqb_byte 56 h4 then 168 else 169)
                        else str1 (hex_val h3 * 16 + hex_val h4)) (dec r4)
              | _ => None
              end
            else push (unesc e) (dec r1)
        end
      else push (String c "") (dec r)
  end%string.

Lemma dec_ascii c t : ascii7 c = true -> dec (esc_ascii c +:+ t) = push (String c "") (dec t).
Proof. destruct c as [[] [] [] [] [] [] [] []]; intros Hc; first [discriminate Hc | reflexivity]. Qed.

Lemma dec_raw c t : ascii7 c = false -> dec (String c t) = push (String c "") (dec t).
Proof.
  intros Hc. unfold ascii7 in Hc. apply N.ltb_ge in Hc. simpl. unfold eqb_byte.
  rewrite (proj2 (N.eqb_neq _ 34)) by lia. by rewrite (proj2 (N.eqb_neq _ 92)) by lia.
Qed.

Lemma cont_raw c : cont c = true -> ascii7 c = false.
Proof. unfold cont, ascii7. rewrite andb_true_iff, N.leb_le. intros [? _]. by apply N.ltb_ge. Qed.
Lemma between_raw lo hi c : 128 <= lo -> between lo hi c = true -> ascii7 c = false.
Proof.
  unfold between, ascii7. rewrite andb_true_iff, N.leb_le. intros ? [? _]. apply N.ltb_ge. lia.
Qed.
Lemma eqb_raw n c : 128 <= n -> eqb_byte n c = true -> ascii7 c = false.
Proof. unfold eqb_byte, ascii7. rewrite N.eqb_eq. intros ? ->. by apply N.ltb_ge. Qed.

Ltac raw_bytes :=
  repeat match goal with
  | H : (_ && _)%bool = true |- _ => apply andb_prop in H as [? ?]
  | H : (_ || _)%bool = true |- _ => apply orb_prop in H as [?|?]
  end;
  repeat split;
  first [ by apply cont_raw
        | match goal with H : between ?a _ ?c = true |- ascii7 ?c = false =>
            apply (between_raw a _ c) in H; [done | done] end
        | match goal with H : eqb_byte ?a ?c = true |- ascii7 ?c = false =>
            apply (eqb_raw a c) in H; [done | done] end ].

Lemma rune2_raw c c1 : rune2 c c1 = true -> ascii7 c = false /\ ascii7 c1 = false.
Proof. unfold rune2. intros H. raw_bytes. Qed.
Lemma rune3_raw c c1 c2 : rune3 c c1 c2 = true ->
  ascii7 c = false /\ ascii7 c1 = false /\ ascii7 c2 = false.
Proof. unfold rune3. intros H. raw_bytes. Qed.
Lemma rune4_raw c c1 c2 c3 : rune4 c c1 c2 c3 = true ->
  ascii7 c = false /\ ascii7 c1 = false /\ ascii7 c2 = false /\ ascii7 c3 = false.
Proof. unfold rune4. intros H. raw_bytes. Qed.

(** The first byte gives the length of a sequence. *)
Lemma rune3_not2 c c1 c2 d : rune3 c c1 c2 = true -> rune2 c d = false.
Proof.
  destruct (rune2 c d) eqn:H2; [|done]. unfold rune2, rune3, between, eqb_byte in *.
  intros H3. repeat (rewrite ?andb_true_iff, ?orb_true_iff, ?N.leb_le, ?N.eqb_eq in * ). lia.
Qed.
Lemma rune4_not2 c c1 c2 c3 d : rune4 c c1 c2 c3 = true -> rune2 c d = false.
Proof.
  destruct (rune2 c d) eqn:H2; [|done]. unfold rune2, rune4, between, eqb_byte in *.
  intros H3. repeat (rewrite ?andb_true_iff, ?orb_true_iff, ?N.leb_le, ?N.eqb_eq in * ). lia.
Qed.
Lemma rune4_not3 c c1 c2 c3 d e : rune4 c c1 c2 c3 = true -> rune3 c d e = false.
Proof.
  destruct (rune3 c d e) eqn:H2; [|done]. unfold rune3, rune4, between, eqb_byte in *.
  intros H3. repeat (rewrite ?andb_true_iff, ?orb_true_iff, ?N.leb_le, ?N.eqb_eq in * ). lia.
Qed.

Lemma push_push a b o : push a (push b o) = push (a +:+ b) o.
Proof. destruct o as [[x t]|]; simpl; [|done]. by rewrite sapp_assoc. Qed.

Lemma dec_line_sep c c1 c2 t : line_sep c c1 c2 = true ->
  dec ((if eqb_byte 168 c2 then "\u2028" else "\u2029") +:+ t)
  = push (String c (String c1 (String c2 ""))) (dec t).
Proof.
  unfold line_sep, eqb_byte. rewrite !andb_true_iff, orb_true_iff, !N.eqb_eq.
  intros [[Hc H1] H2].
  rewrite <- (ascii_N_embedding c), <- (ascii_N_embedding c1), <- (ascii_N_embedding c2).
  unfold byte_of in *. rewrite Hc, H1. by destruct H2 as [-> | ->].
Qed.

(** Escaping a valid string loses nothing. *)
Lemma dec_esc s t : utf8 s -> dec (esc s +:+ String dquote t) = Some (s, t).
Proof.
  intros Hs. induction Hs as [|c r Hc _ IH|c c1 r H _ IH|c c1 c2 r H _ IH|c c1 c2 c3 r H _ IH].
  - done.
  - simpl. rewrite Hc, <- sapp_assoc, dec_ascii by done. by rewrite IH.
  - destruct (rune2_raw _ _ H) as [Hc H1]. cbn [esc]. rewrite Hc, H.
    cbn [String.append]. rewrite !dec_raw by done. by rewrite IH.
  - destruct (rune3_raw _ _ _ H) as (Hc & H1 & H2). cbn [esc].
    rewrite Hc, (rune3_not2 _ _ _ _ H), H. destruct (line_sep c c1 c2) eqn:Hl.
    + rewrite <- sapp_assoc, (dec_line_sep _ _ _ _ Hl). by rewrite IH.
    + cbn [String.append]. rewrite !dec_raw by done. by rewrite IH.
  - destruct (rune4_raw _ _ _ _ H) as (Hc & H1 & H2 & H3). cbn [esc].
    rewrite Hc, (rune4_not2 _ _ _ _ _ H), (rune4_not3 _ _ _ _ _ _ H), H.
    cbn [String.append]. rewrite !dec_raw by done. by rewrite IH.
Qed.

(** ** Values, arrays and objects *)

Inductive jval : Type :=
| JStr (s : string)
| JNum (z : Z)
| JArr (l : list string).

Definition json_string (s : string) : string := String dquote (esc s +:+ String dquote "").
Arguments json_string : simpl never.

(** The rest of an array, or of an object, after its first element. *)
Fixpoint arr_tail (l : list string) : string :=
  match l with
  | [] => "]"
  | x :: l => "," +:+ json_string x +:+ arr_tail l
  end.
Definition json_array (l : list string) : string :=
  match l with
  | [] => "[]"
  | x :: l => "[" +:+ json_string x +:+ arr_tail l
  end.
Definition json_val (v : jval) : string :=
  match v with
  | JStr s => json_string s
  | JNum z => fmt_Z z
  | JArr l => json_array l
  end.

Definition field : Type := string * jval.
Definition json_field (f : field) : string := json_string f.1 +:+ ":" +:+ json_val f.2.
Fixpoint obj_tail (fs : list field) : string :=
  match fs with
  | [] => "}"
  | f :: fs => "," +:+ json_field f +:+ obj_tail fs
  end.
Definition json_object (fs : list field) : string :=
  match fs with
  | [] => "{}"
  | f :: fs => "{" +:+ json_field f +:+ obj_tail fs
  end.

(** [omitempty] fields. *)
Definition opt_str (k s : string) : list field :=
  if String.eqb s "" then [] else [(k, JStr s)].
Definition opt_num (k : string) (z : Z) : list field :=
  if Z.eqb z 0 then [] else [(k, JNum z)].
Definition opt_ptr (k : string) (o : option Z) : list field :=
  match o with None => [] | Some z => [(k, JNum z)] end.
Definition opt_arr (k : string) (l : list string) : list field :=
  match l with [] => [] | _ => [(k, JArr l)] end.

Definition utf8_val (v : jval) : Prop :=
  match v with JStr s => utf8 s | JNum _ => True | JArr l => Forall utf8 l end.
Definition utf8_field (f : field) : Prop := utf8 f.1 /\ utf8_val f.2.

Lemma json_string_inj s1 s2 t1 t2 : utf8 s1 -> utf8 s2 ->
  json_string s1 +:+ t1 = json_string s2 +:+ t2 -> s1 = s2 /\ t1 = t2.
Proof.
  intros H1 H2 He. unfold json_string in He. injection He as He.
  rewrite <- !sapp_assoc in He. simpl in He.
  apply (f_equal dec) in He. rewrite !dec_esc in He by done. by simplify_eq.
Qed.

Lemma arr_tail_inj l1 l2 t1 t2 : Forall utf8 l1 -> Forall utf8 l2 ->
  arr_tail l1 +:+ t1 = arr_tail l2 +:+ t2 -> l1 = l2 /\ t1 = t2.
Proof.
  intros H1. revert l2. induction H1 as [|x l1 Hx _ IH]; intros l2 H2 He;
    destruct H2 as [|y l2 Hy H2]; cbn [arr_tail] in He; [by simplify_eq|discriminate He|discriminate He|].
  rewrite <- !sapp_assoc in He. apply sapp_inj_l in He. apply json_string_inj in He as [-> He]; [|done..].
  apply IH in He as [-> ->]; done.
Qed.

Lemma json_array_inj l1 l2 t1 t2 : Forall utf8 l1 -> Forall utf8 l2 ->
  json_array l1 +:+ t1 = json_array l2 +:+ t2 -> l1 = l2 /\ t1 = t2.
Proof.
  intros [|x l1' Hx H1'] [|y l2' Hy H2'] He; unfold json_array in He;
    [by simplify_eq|discriminate He|discriminate He|].
  rewrite <- !sapp_assoc in He. apply sapp_inj_l in He. apply json_string_inj in He as [-> He]; [|done..].
  apply arr_tail_inj in He as [-> ->]; done.
Qed.

(** Numbers are digits with an optional sign. *)
Definition is_num_byte (c : ascii) : bool := is_digit c || (byte_of c =? 45).

Lemma string_all_split f a b r1 r2 :
  string_all f a = true -> string_all f b = true ->
  (forall c r, r1 = String c r -> f c = false) -> (forall c r, r2 = String c r -> f c = false) ->
  a +:+ r1 = b +:+ r2 -> a = b /\ r1 = r2.
Proof.
  intros Ha. revert b. induction a as [|c a IH]; intros [|d b] Hb H1 H2 He; simpl in *.
  - done.
  - subst. apply andb_prop in Hb as [Hd _]. by rewrite (H1 _ _ eq_refl) in Hd.
  - subst. apply andb_prop in Ha as [Hc _]. by rewrite (H2 _ _ eq_refl) in Hc.
  - injection He as -> He. apply andb_prop in Ha as [_ Ha]. apply andb_prop in Hb as [_ Hb].
    destruct (IH Ha b Hb H1 H2 He) as [-> ->]. done.
Qed.

Lemma pretty_N_char_digit x : x < 10 -> is_digit (pretty.pretty_N_char x) = true.
Proof.
  intros Hx. destruct x as [|p]; [done|].
  do 4 (destruct p as [p|p|]; try done; try lia).
Qed.

Lemma pretty_N_go_num x s :
  string_all is_num_byte s = true -> string_all is_num_byte (pretty.pretty_N_go x s) = true.
Proof.
  revert s. induction (N.lt_wf_0 x) as [x _ IH]. intros s Hs.
  destruct (decide (x = 0)) as [->|Hx].
  - by rewrite pretty.pretty_N_go_0.
  - rewrite pretty.pretty_N_go_step by lia. apply IH; [by apply N.div_lt; lia|].
    simpl. rewrite Hs. unfold is_num_byte. rewrite pretty_N_char_digit; [done|].
    by apply N.mod_lt.
Qed.

Lemma fmt_Z_num z : string_all is_num_byte (fmt_Z z) = true.
Proof.
  assert (HN : forall n : N, string_all is_num_byte (pretty.pretty n) = true).
  { intros n. unfold pretty.pretty, pretty.pretty_N. case_decide; [done|]. by apply pretty_N_go_num. }
  destruct z as [|p|p]; [done|exact (HN (Npos p))|].
  change (fmt_Z (Z.neg p)) with ("-" +:+ pretty.pretty (Npos p)). simpl. by rewrite HN.
Qed.

(** What follows a value in an object. *)
Definition after_value (r : string) : Prop := exists c t, r = String c t /\ (c = ","%char \/ c = "}"%char).

Lemma pretty_N_go_cons x s :
  (exists c r, s = String c r) -> exists c r, pretty.pretty_N_go x s = String c r.
Proof.
  revert s. induction (N.lt_wf_0 x) as [x _ IH]. intros s Hs.
  destruct (decide (x = 0)) as [->|Hx]; [by rewrite pretty.pretty_N_go_0|].
  rewrite pretty.pretty_N_go_step by lia. apply IH; [by apply N.div_lt; lia|]. eauto.
Qed.

Lemma fmt_Z_cons z : exists c s, fmt_Z z = String c s /\ is_num_byte c = true.
Proof.
  assert (HN : forall n : N, exists c r, pretty.pretty n = String c r).
  { intros n. unfold pretty.pretty, pretty.pretty_N. case_decide; [by repeat eexists|].
    rewrite pretty.pretty_N_go_step by lia. apply pretty_N_go_cons. by repeat eexists. }
  pose proof (fmt_Z_num z) as H.
  destruct (fmt_Z z) as [|c s] eqn:Hz.
  - destruct z as [|p|p]; [by vm_compute in Hz| |by vm_compute in Hz].
    destruct (HN (Npos p)) as (c & r & Hc).
    change (fmt_Z (Z.pos p)) with (pretty.pretty (Npos p)) in Hz. by rewrite Hc in Hz.
  - exists c, s. split; [done|]. by apply andb_prop in H as [? _].
Qed.

Lemma fmt_Z_inj z1 z2 r1 r2 : after_value r1 -> after_value r2 ->
  fmt_Z z1 +:+ r1 = fmt_Z z2 +:+ r2 -> z1 = z2 /\ r1 = r2.
Proof.
  intros (c1 & t1 & -> & H1) (c2 & t2 & -> & H2) He.
  apply (string_all_split is_num_byte) in He as [Hz ->].
  - split; [|done]. by apply (inj pretty.pretty) in Hz.
  - apply fmt_Z_num.
  - apply fmt_Z_num.
  - intros c r [= -> ->]. by destruct H1 as [-> | ->].
  - intros c r [= -> ->]. by destruct H2 as [-> | ->].
Qed.

Lemma json_string_head s : exists t, json_string s = String dquote t.
Proof. by eexists. Qed.
Lemma json_array_head l : exists t, json_array l = String "["%char t.
Proof. destruct l; by eexists. Qed.

(** The kind of a value shows in its first byte. *)
Definition val_head (v : jval) (c : ascii) : Prop :=
  match v with
  | JStr _ => c = dquote
  | JNum _ => is_num_byte c = true
  | JArr _ => c = "["%char
  end.
Lemma json_val_head v : exists c t, json_val v = String c t /\ val_head v c.
Proof.
  destruct v as [s|z|l]; simpl.
  - by repeat eexists.
  - apply fmt_Z_cons.
  - destruct (json_array_head l) as [t ->]. by repeat eexists.
Qed.

Lemma json_val_inj v1 v2 r1 r2 : utf8_val v1 -> utf8_val v2 ->
  after_value r1 -> after_value r2 ->
  json_val v1 +:+ r1 = json_val v2 +:+ r2 -> v1 = v2 /\ r1 = r2.
Proof.
  intros H1 H2 Hr1 Hr2 He.
  destruct (json_val_head v1) as (c1 & t1 & E1 & Hd1), (json_val_head v2) as (c2 & t2 & E2 & Hd2).
  assert (c1 = c2) as <- by (rewrite E1, E2 in He; by injection He).
  clear E1 E2. destruct v1 as [s1|z1|l1], v2 as [s2|z2|l2]; simpl in *; subst; try done.
  - by apply json_string_inj in He as [-> ->].
  - by apply fmt_Z_inj in He as [-> ->].
  - by apply json_array_inj in He as [-> ->].
Qed.

Lemma obj_tail_after fs t : after_value (obj_tail fs +:+ t).
Proof. destruct fs as [|f fs]; simpl; repeat eexists; auto. Qed.

Lemma json_field_inj f1 f2 r1 r2 : utf8_field f1 -> utf8_field f2 ->
  after_value r1 -> after_value r2 ->
  json_field f1 +:+ r1 = json_field f2 +:+ r2 -> f1 = f2 /\ r1 = r2.
Proof.
  destruct f1 as [k1 v1], f2 as [k2 v2]. intros [Hk1 Hv1] [Hk2 Hv2] Hr1 Hr2 He.
  unfold json_field in He. cbn [fst snd] in *. rewrite <- !sapp_assoc in He.
  apply json_string_inj in He as [-> He]; [|done..]. apply sapp_inj_l in He.
  by apply json_val_inj in He as [-> ->].
Qed.

Lemma obj_tail_inj l1 l2 : Forall utf8_field l1 -> Forall utf8_field l2 ->
  obj_tail l1 = obj_tail l2 -> l1 = l2.
Proof.
  intros H1. revert l2. induction H1 as [|f l1 Hf _ IH]; intros l2 H2 He;
    destruct H2 as [|g l2 Hg H2]; cbn [obj_tail] in He; [done|discriminate He|discriminate He|].
  apply sapp_inj_l in He.
  pose proof (obj_tail_after l1 "") as A1. pose proof (obj_tail_after l2 "") as A2.
  rewrite sapp_nil_r in A1, A2.
  apply json_field_inj in He as [-> He]; [|done..]. f_equal. by apply IH.
Qed.

(** The text of an object determines its fields. *)
Lemma json_object_inj l1 l2 : Forall utf8_field l1 -> Forall utf8_field l2 ->
  json_object l1 = json_object l2 -> l1 = l2.
Proof.
  intros [|f l1' Hf H1] [|g l2' Hg H2] He; unfold json_object in He; [done|discriminate He|discriminate He|].
  apply sapp_inj_l in He.
  assert (obj_tail (f :: l1') = obj_tail (g :: l2')) as Ht by (cbn [obj_tail]; by rewrite He).
  apply obj_tail_inj in Ht; [done| |]; by constructor.
Qed.
