(* ===== verification/Glob.v ===== *)
(** * Shell file name patterns ([filepath.Match])

    A pattern is parsed into tokens and matched by backtracking, which is the
    documented meaning of [filepath.Match]; a malformed pattern matches
    nothing and is reported. The star and the question mark do not match a
    slash. Characters are Go runes: the question mark and a class consume one
    UTF-8 sequence. *)
From S2P Require Import Prelude GoStrings Json.

(** [utf8.DecodeRuneInString] of a non-empty string. *)
Definition low6 (c : ascii) : N := N.land (byte_of c) 63.
Definition decode_rune (s : string) : option (N * string) :=
  match s with
  | "" => None
  | String c r =>
      if ascii7 c then Some (byte_of c, r) else
      let bad := Some (65533%N, r) in
      match r with
      | String c1 r1 =>
          if rune2 c c1 then Some ((N.land (byte_of c) 31 * 64 + low6 c1)%N, r1) else
          match r1 with
          | String c2 r2 =>
              if rune3 c c1 c2
              then Some (((N.land (byte_of c) 15 * 64 + low6 c1) * 64 + low6 c2)%N, r2) else
              match r2 with
              | String c3 r3 =>
                  if rune4 c c1 c2 c3
                  then Some ((((N.land (byte_of c) 7 * 64 + low6 c1) * 64 + low6 c2) * 64 + low6 c3)%N, r3)
                  else bad
              | "" => bad
              end
          | "" => bad
          end
      | "" => bad
      end
  end.

Inductive token : Type :=
| Star
| AnyChar
| Class (negated : bool) (ranges : list (N * N))
| Lit (c : ascii).

(** [getEsc]: one possibly escaped character of a class. *)
Definition get_esc (s : string) : option (N * string) :=
  match s with
  | "" => None
  | String c r =>
      if Ascii.eqb c "-" || Ascii.eqb c "]" then None
      else
        let body := if Ascii.eqb c "\" then r else s in
        match decode_rune body with
        | Some (code, rest) => if String.eqb rest "" then None else Some (code, rest)
        | None => None
        end
  end.

Fixpoint parse_ranges (fuel : nat) (acc : list (N * N)) (s : string) : option (list (N * N) * string) :=
  match fuel with
  | O => None
  | S fuel =>
      match s, acc with
      | String "]" r, _ :: _ => Some (rev acc, r)
      | _, _ =>
          match get_esc s with
          | None => None
          | Some (lo, r) =>
              match r with
              | String "-" r1 =>
                  match get_esc r1 with
                  | None => None
                  | Some (hi, r2) => parse_ranges fuel ((lo, hi) :: acc) r2
                  end
              | _ => parse_ranges fuel ((lo, lo) :: acc) r
              end
          end
      end
  end.

(** A class, after its opening bracket. *)
Definition parse_class (r : string) : option (token * string) :=
  let '(neg, body) := match r with String "^" r' => (true, r') | _ => (false, r) end in
  match parse_ranges (S (String.length body)) [] body with
  | Some (ranges, rest) => Some (Class neg ranges, rest)
  | None => None
  end.
Arguments parse_class : simpl never.

Fixpoint parse_glob (fuel : nat) (s : string) : option (list token) :=
  match fuel with
  | O => None
  | S fuel =>
      match s with
      | "" => Some []
      | String c r =>
          if Ascii.eqb c "*" then cons Star <$> parse_glob fuel r
          else if Ascii.eqb c "?" then cons AnyChar <$> parse_glob fuel r
          else if Ascii.eqb c "[" then
            match parse_class r with
            | Some (cl, rest) => cons cl <$> parse_glob fuel rest
            | None => None
            end
          else if Ascii.eqb c "\" then
            match r with
            | "" => None
            | String d r' => cons (Lit d) <$> parse_glob fuel r'
            end
          else cons (Lit c) <$> parse_glob fuel r
      end
  end.

Definition in_ranges (r : N) (ranges : list (N * N)) : bool :=
  existsb (fun '(lo, hi) => N.leb lo r && N.leb r hi) ranges.

Fixpoint match_tokens (ts : list token) (s : string) : bool :=
  match ts with
  | [] => String.eqb s ""
  | Star :: ts =>
      (fix star (s : string) : bool :=
         match_tokens ts s
         || match s with
            | "" => false
            | String c r => negb (Ascii.eqb c slash) && star r
            end) s
  | AnyChar :: ts =>
      match s with
      | "" => false
      | String c _ =>
          negb (Ascii.eqb c slash)
          && match decode_rune s with Some (_, r) => match_tokens ts r | None => false end
      end
  | Class neg ranges :: ts =>
      match decode_rune s with
      | Some (r, rest) => xorb (in_ranges r ranges) neg && match_tokens ts rest
      | None => false
      end
  | Lit c :: ts =>
      match s with
      | "" => false
      | String d r => Ascii.eqb c d && match_tokens ts r
      end
  end.

(** [filepath.Match]; [None] is [ErrBadPattern]. *)
Definition glob_match (pattern name : string) : option bool :=
  match parse_glob (S (String.length pattern)) pattern with
  | Some ts => Some (match_tokens ts name)
  | None => None
  end.

(** The value of [match, _ := filepath.Match(pattern, name)]. *)
Definition matches (pattern name : string) : bool := default false (glob_match pattern name).

Example match_ex1 : matches "libcuda.so.*.*" "libcuda.so.550.54" = true. Proof. reflexivity. Qed.
Example match_ex2 : matches "libcuda.so.*.*" "libcuda.so.1" = false. Proof. reflexivity. Qed.
Example match_ex3 : matches "lib?*.so*" "lib.so" = false. Proof. reflexivity. Qed.
Example match_ex4 : matches "[a-c^]*" "b/" = false. Proof. reflexivity. Qed.
Example match_ex5 : glob_match "[]" "x" = None. Proof. reflexivity. Qed.

(** ** Meaning of the patterns that the toolkit uses *)

Lemma match_star ts s :
  match_tokens (Star :: ts) s = true <->
  exists a b, s = a +:+ b /\ has_byte slash a = false /\ match_tokens ts b = true.
Proof.
  induction s as [|c s IH].
  - simpl. rewrite orb_false_r. split.
    + intros H. by exists "", "".
    + intros (a & b & He & _ & H). destruct a, b; done.
  - change (match_tokens (Star :: ts) (String c s))
      with (match_tokens ts (String c s) || negb (Ascii.eqb c slash) && match_tokens (Star :: ts) s).
    rewrite orb_true_iff, andb_true_iff, IH. split.
    + intros [H|[Hc (a & b & -> & Ha & H)]]; [by exists "", (String c s)|].
      exists (String c a), b. split; [done|]. split; [|done].
      apply negb_true_iff in Hc. unfold has_byte in *. cbn [string_any].
      rewrite Ascii.eqb_sym, Hc. done.
    + intros (a & b & He & Ha & H). destruct a as [|d a]; [left; simpl in He; by subst|].
      simpl in He. injection He as <- ->. right. unfold has_byte in Ha. cbn [string_any] in Ha.
      apply orb_false_elim in Ha as [Hd Ha]. rewrite Ascii.eqb_sym, Hd. split; [done|].
      by exists a, b.
Qed.

Definition plain_char (c : ascii) : bool :=
  negb (Ascii.eqb c "*" || Ascii.eqb c "?" || Ascii.eqb c "[" || Ascii.eqb c "\").

Lemma parse_plain fuel p rest : string_all plain_char p = true ->
  parse_glob (String.length p + fuel) (p +:+ rest) = app (map Lit (bytes p)) <$> parse_glob fuel rest.
Proof.
  revert fuel. induction p as [|c p IH]; intros fuel Hp; simpl.
  - by destruct (parse_glob fuel rest).
  - simpl in Hp. apply andb_prop in Hp as [Hc Hp].
    unfold plain_char in Hc. rewrite negb_true_iff, !orb_false_iff in Hc.
    destruct Hc as [[[-> ->] ->] ->]. rewrite IH by done. by destruct (parse_glob fuel rest).
Qed.

Lemma match_lits p ts s :
  match_tokens (map Lit (bytes p) ++ ts) s = true <-> exists r, s = p +:+ r /\ match_tokens ts r = true.
Proof.
  revert s. induction p as [|c p IH]; intros s; simpl.
  - split; [intros H; by exists s|by intros (r & -> & H)].
  - destruct s as [|d s]; [split; [done|by intros (r & [=] & _)]|].
    rewrite andb_true_iff, IH, Ascii.eqb_eq. split.
    + intros [-> (r & -> & H)]. by exists r.
    + intros (r & [= -> ->] & H). split; [done|]. by exists r.
Qed.

Lemma match_lits_end p s : match_tokens (map Lit (bytes p)) s = true <-> s = p.
Proof.
  rewrite <- (app_nil_r (map Lit (bytes p))), match_lits. split.
  - intros (r & -> & H). apply String.eqb_eq in H as ->. apply sapp_nil_r.
  - intros ->. exists "". by rewrite sapp_nil_r.
Qed.

Lemma parse_fuel n m s ts : parse_glob n s = Some ts -> n <= m -> parse_glob m s = Some ts.
Proof.
  revert m s ts. induction n as [|n IH]; intros m s ts H Hm; [done|].
  destruct m as [|m]; [lia|]. simpl in *. destruct s as [|c r]; [done|].
  assert (Hr : forall t o, cons t <$> parse_glob n o = Some ts -> cons t <$> parse_glob m o = Some ts).
  { intros t o Ho. destruct (parse_glob n o) as [l|] eqn:E; [|done].
    by rewrite (IH m o l E) by lia. }
  destruct (Ascii.eqb c "*"); [by apply Hr|]. destruct (Ascii.eqb c "?"); [by apply Hr|].
  destruct (Ascii.eqb c "[").
  - destruct (parse_class r) as [[cl rest]|]; [by apply Hr|done].
  - destruct (Ascii.eqb c "\"); [destruct r; [done|by apply Hr]|by apply Hr].
Qed.

(** A pattern without special characters matches its own text only. *)
Lemma matches_plain p s : string_all plain_char p = true -> matches p s = true <-> s = p.
Proof.
  intros Hp. unfold matches, glob_match.
  assert (parse_glob (S (String.length p)) p = Some (map Lit (bytes p))) as ->.
  { pose proof (parse_plain 1 p "" Hp) as H. rewrite sapp_nil_r in H. simpl in H.
    rewrite app_nil_r in H. by rewrite <- H, Nat.add_comm. }
  apply match_lits_end.
Qed.

(** [lib.*.*] matches the names with two dot-separated parts after [lib]. *)
Lemma matches_dot_star_dot_star lib s : string_all plain_char lib = true ->
  matches (lib +:+ ".*.*") s = true <->
  exists a b, s = lib +:+ "." +:+ a +:+ "." +:+ b /\ has_byte slash a = false /\ has_byte slash b = false.
Proof.
  intros Hp. unfold matches, glob_match.
  assert (parse_glob (S (String.length (lib +:+ ".*.*"))) (lib +:+ ".*.*")
    = Some (map Lit (bytes lib) ++ [Lit "."; Star; Lit "."; Star])) as ->.
  { rewrite slength_app. apply (parse_fuel (String.length lib + 5)); [|simpl; lia].
    by rewrite parse_plain. }
  simpl default. rewrite match_lits. split.
  - intros (r & -> & H). destruct r as [|d r]; [done|]. cbn [match_tokens] in H.
    apply andb_prop in H as [<-%Ascii.eqb_eq H]. apply (match_star [Lit "."; Star]) in H as (a & b & -> & Ha & H).
    destruct b as [|d b]; [done|]. cbn [match_tokens] in H. apply andb_prop in H as [<-%Ascii.eqb_eq H].
    apply (match_star []) in H as (b1 & b2 & -> & Hb & H). apply String.eqb_eq in H as ->.
    exists a, b1. by rewrite sapp_nil_r.
  - intros (a & b & -> & Ha & Hb). eexists. split; [reflexivity|]. simpl.
    apply (match_star [Lit "."; Star]). exists a, (String "." b). split; [done|]. split; [done|]. simpl.
    apply (match_star []). exists b, "". by rewrite sapp_nil_r.
Qed.
