(* ===== verification/Lookup.v ===== *)
(** * Locating files (src/pkg/lookup, src/internal/lookup/root)

    Locators find the paths that match a pattern. The file system and the
    environment are an interface, [Host], with the results of the system
    calls at the time of a call; everything the code does with them is
    defined here. The error of a locator says whether it is (or wraps)
    [ErrNotFound]. *)
From S2P Require Import Prelude GoStrings Glob.

(** ** The host *)

Record file_info := mkFileInfo {
  IsDir : bool; IsSymlink : bool; IsCharDevice : bool; Perm : Z;
}.

Class Host := {
  os_Stat : string -> option file_info;
  os_Lstat : string -> option file_info;
  os_Readlink : string -> option string;
  EvalSymlinks : string -> option string;
  filepath_Glob : string -> list string;   (* no match on a bad pattern *)
  filepath_Abs : string -> option string;
  os_LookupEnv : string -> option string;
}.

(** ** Locators *)

Record error := mkError { msg : string; is_not_found : bool }.
Inductive located : Type :=
| Found (candidates : list string)
| Failed (err : error).
Definition Locator : Type := string -> located.

(** [fmt.Errorf("%s: %w", s, ErrNotFound)] *)
Definition NewError (s : string) : error := mkError (s +:+ ": not found") true.
Definition notFound : Locator := fun s => Failed (NewError s).

(** [errors.Join]; [None] is the nil error of an empty list. *)
Definition errors_Join (es : list error) : option error :=
  match es with
  | [] => None
  | _ => Some (mkError (join (String (ascii_of_N 10) "") (map msg es)) (existsb is_not_found es))
  end.

Definition AsOptional (wraps : Locator) : Locator := fun pattern =>
  match wraps pattern with
  | Failed e => if is_not_found e then Found [] else Failed e
  | r => r
  end.

Definition asRequired (wraps : Locator) : Locator := fun pattern =>
  match wraps pattern with
  | Found [] => Failed (NewError pattern)
  | r => r
  end.

(** [first.Locate]; nil locators are dropped by [First]. *)
Fixpoint first_loop (pattern : string) (ls : list Locator) (allErrors : list error) : located :=
  match ls with
  | [] => match errors_Join allErrors with None => Found [] | Some e => Failed e end
  | l :: ls =>
      match l pattern with
      | Failed e => first_loop pattern ls (allErrors ++ [e])
      | Found [] => first_loop pattern ls allErrors
      | Found candidates => Found candidates
      end
  end.
Definition First (ls : list (option Locator)) : Locator := fun pattern =>
  first_loop pattern (omap id ls) [].

Definition AsUnique (locator : Locator) : Locator := fun pattern =>
  match locator pattern with
  | Found candidates => Found (dedup_by id ∅ candidates)
  | r => r
  end.

(** ** Paths *)

(** [filepath.SplitList] *)
Definition SplitList (path : string) : list string :=
  if String.eqb path "" then [] else split_byte ":" path.
Definition NormalizePaths (paths : list string) : list string := concat (map SplitList paths).

Definition defaultPATH : list string :=
  ["/usr/local/sbin"; "/usr/local/bin"; "/usr/sbin"; "/usr/bin"; "/sbin"; "/bin"].

Section WithHost.
Context `{Host}.

Definition GetPaths (root : string) : list string :=
  let dirs := NormalizePaths [default "" (os_LookupEnv "PATH")] in
  let dirs := dirs ++ List.filter (fun d => negb (bool_decide (d ∈ dirs))) defaultPATH in
  if negb (String.eqb root "") && negb (String.eqb root "/")
  then map (fun dir => path_join [root; dir]) dirs ++ dirs
  else dirs.
Definition GetPath (root : string) : string := join ":" (GetPaths root).

(** ** Filters; the message of the error is only logged *)

Definition assertFile (filename : string) : bool :=
  match os_Stat filename with Some info => negb (IsDir info) | None => false end.
Definition assertDirectory (filename : string) : bool :=
  match os_Stat filename with Some info => IsDir info | None => false end.
Definition assertExecutable (filename : string) : bool :=
  assertFile filename
  && match os_Stat filename with
     | Some info => negb (Z.eqb (Z.land (Perm info) 73) 0)
     | None => false
     end.

(** ** The factory *)

Record Factory := mkFactory {
  root : string; searchPaths : list string; filter_ : option (string -> bool); count : nat;
}.

Inductive Option_ : Type :=
| WithRoot (root : string)
| WithSearchPaths (paths : list string)
| WithFilter (assert : string -> bool)
| WithCount (count : nat).

Definition apply_option (f : Factory) (o : Option_) : Factory :=
  match o with
  | WithRoot r => mkFactory r (searchPaths f) (filter_ f) (count f)
  | WithSearchPaths ps => mkFactory (root f) (NormalizePaths ps) (filter_ f) (count f)
  | WithFilter a => mkFactory (root f) (searchPaths f) (Some a) (count f)
  | WithCount c => mkFactory (root f) (searchPaths f) (filter_ f) c
  end.

Definition NewFactory (opts : list Option_) : Factory :=
  let o := foldl apply_option (mkFactory "" [] None 0) opts in
  match filter_ o with
  | None => mkFactory (root o) (searchPaths o) (Some assertFile) (count o)
  | Some _ => o
  end.

Definition getSearchPrefixes (root : string) (prefixes : list string) : list string :=
  match map (fun p => path_join [root; p]) (dedup_by id ∅ prefixes) with
  | [] => [root]
  | uniquePrefixes => uniquePrefixes
  end.

(** The candidates of one prefix; the flag is [break visit]. *)
Fixpoint visit_candidates (filter : string -> bool) (count : nat) (filenames candidates : list string)
  : list string * bool :=
  match candidates with
  | [] => (filenames, false)
  | c :: cs =>
      if negb (filter c) then visit_candidates filter count filenames cs
      else
        let filenames := filenames ++ [c] in
        if Nat.ltb 0 count && Nat.eqb (length filenames) count then (filenames, true)
        else visit_candidates filter count filenames cs
  end.
Fixpoint visit_prefixes (filter : string -> bool) (count : nat) (pattern : string)
    (filenames prefixes : list string) : list string :=
  match prefixes with
  | [] => filenames
  | prefix :: prefixes =>
      let candidates := filepath_Glob (path_join [prefix; pattern]) in
      match visit_candidates filter count filenames candidates with
      | (filenames, true) => filenames
      | (filenames, false) => visit_prefixes filter count pattern filenames prefixes
      end
  end.

Definition file_Locate (filter : string -> bool) (count : nat) (prefixes : list string) : Locator :=
  fun pattern => Found (visit_prefixes filter count pattern [] prefixes).

Definition NewFileLocator_of (o : Factory) : Locator :=
  asRequired (file_Locate (default assertFile (filter_ o)) (count o)
    (getSearchPrefixes (root o) (searchPaths o))).
Definition NewFileLocator (opts : list Option_) : Locator := NewFileLocator_of (NewFactory opts).
Definition NewDirectoryLocator (opts : list Option_) : Locator :=
  NewFileLocator (opts ++ [WithFilter assertDirectory]).

(** [devices.AssertCharDevice] as the filter of a character device locator. *)
Definition AssertCharDevice (filename : string) : bool :=
  match os_Lstat filename with Some info => IsCharDevice info | None => false end.
Definition NewCharDeviceLocator (opts : list Option_) : Locator :=
  NewFileLocator (opts ++ [WithSearchPaths ["/"; "/dev"]; WithFilter AssertCharDevice]).

(** ** Executables *)

Definition newExecutableLocator (root : string) (paths : list string) : Locator := fun pattern =>
  if contains pattern "/" then
    if assertExecutable pattern then Found [pattern]
    else Failed (mkError ("absolute path " +:+ pattern +:+ " is not an executable file") false)
  else NewFileLocator [WithRoot root; WithSearchPaths paths; WithFilter assertExecutable; WithCount 1] pattern.
Definition NewExecutableLocator (root : string) : Locator := newExecutableLocator root (GetPaths root).

(** ** Symbolic links (src/pkg/lookup/symlinks) *)

Definition Resolve (filename : string) : option string :=
  match os_Lstat filename with
  | None => None
  | Some info => if IsSymlink info then os_Readlink filename else Some filename
  end.

(** The next name of the chain. *)
Definition next_link (filename : string) : option string :=
  match Resolve filename with
  | None => None
  | Some target =>
      if is_abs target then Some target else filepath_Abs (path_join [path_dir filename; target])
  end.

(** The loop of [ResolveChain]; [None] is an error. The inner option is
    [None] when the fuel runs out. The link is resolved before the name is
    looked up in [seen], and made absolute after. *)
Fixpoint resolve_loop (fuel : nat) (seen : gset string) (chain : list string) (filename : string)
  : option (option (list string)) :=
  match fuel with
  | O => None
  | S fuel =>
      match Resolve filename with
      | None => Some None
      | Some target =>
          if decide (filename ∈ seen) then Some (Some chain)
          else
            match (if is_abs target then Some target
                   else filepath_Abs (path_join [path_dir filename; target])) with
            | None => Some None
            | Some target => resolve_loop fuel ({[filename]} ∪ seen) (chain ++ [filename]) target
            end
      end
  end.
Definition ResolveChain_fuel (fuel : nat) (filename : string) : option (option (list string)) :=
  resolve_loop fuel ∅ [] filename.

Definition symlink_error (cause : string) : located := Failed (mkError ("failed to resolve link: " +:+ cause) false).

Fixpoint eval_all (candidates targets : list string) : located :=
  match candidates with
  | [] => Found targets
  | c :: cs =>
      match EvalSymlinks c with
      | None => symlink_error c
      | Some t => eval_all cs (targets ++ [t])
      end
  end.
Definition WithEvaluatedSymlinks (locator : Locator) : Locator := fun pattern =>
  match locator pattern with
  | Failed e => Failed e
  | Found candidates => eval_all candidates []
  end.
Definition NewSymlinkLocator (opts : list Option_) : Locator :=
  AsUnique (WithEvaluatedSymlinks (NewFileLocator opts)).

(** [resolve] is [symlinks.ResolveChain]. *)
Fixpoint chain_loop (resolve : string -> option (list string)) (candidates : list string)
    (found : gset string) (filenames : list string) : located :=
  match candidates with
  | [] => Found filenames
  | c :: cs =>
      if decide (c ∈ found) then chain_loop resolve cs found filenames
      else match resolve c with
           | None => Failed (mkError ("error resolving symlink chain: " +:+ c) false)
           | Some targets =>
               let new := dedup_by id found targets in
               chain_loop resolve cs (found ∪ list_to_set targets) (filenames ++ new)
           end
  end.
Definition NewSymlinkChainLocator (resolve : string -> option (list string)) (opts : list Option_)
  : Locator := fun pattern =>
  match NewFileLocator opts pattern with
  | Failed e => Failed e
  | Found candidates => chain_loop resolve candidates ∅ []
  end.

(** ** Libraries *)

(** [newPathPatternMatcher] and [Match] *)
Definition path_matches (root pattern input : string) : bool :=
  if contains pattern "/" then matches (path_join [root; pattern]) input
  else matches pattern (path_base input).

Definition ldcache_Locate (root : string) (libraries : list string) : Locator := fun pattern =>
  match List.filter (path_matches root pattern) libraries with
  | [] => Failed (NewError pattern)
  | ms => Found ms
  end.

(** [libs64] are the 64-bit libraries of the ldcache, [None] if it cannot be loaded. *)
Definition newLdcacheLocator (resolve : string -> option (list string)) (libs64 : option (list string))
    (root : string) : Locator :=
  match libs64 with
  | None => notFound
  | Some libs => AsUnique (WithEvaluatedSymlinks
      (ldcache_Locate root (concat (omap resolve libs))))
  end.

Definition library_search_paths : list string :=
  [ "/"; "/usr/lib64"; "/usr/lib/x86_64-linux-gnu"; "/usr/lib/aarch64-linux-gnu";
    "/usr/lib/x86_64-linux-gnu/nvidia/current"; "/usr/lib/aarch64-linux-gnu/nvidia/current";
    "/lib64"; "/lib/x86_64-linux-gnu"; "/lib/aarch64-linux-gnu";
    "/lib/x86_64-linux-gnu/nvidia/current"; "/lib/aarch64-linux-gnu/nvidia/current" ].

Definition NewLibraryLocator (resolve : string -> option (list string))
    (libs64 : string -> option (list string)) (opts : list Option_) : Locator :=
  let f := NewFactory opts in
  match searchPaths f with
  | [] =>
      let opts := opts ++ [WithSearchPaths library_search_paths] in
      First [Some (NewSymlinkLocator opts); Some (newLdcacheLocator resolve (libs64 (root f)) (root f))]
  | ps => NewSymlinkLocator [WithSearchPaths ps; WithRoot "/"]
  end.
End WithHost.
