(* ===== verification/LookupProps.v ===== *)
(** * Properties of the locators *)
From S2P Require Import Prelude GoStrings GoPaths Glob Lookup.

Section WithHost.
Context `{Host}.

(** ** The file locator *)

(** [limit count l] are the first [count] elements, all of them for 0. *)
Definition limit {A} (count : nat) (l : list A) : list A :=
  match count with 0 => l | _ => firstn count l end.

Lemma visit_candidates_spec f count acc cs :
  (count = 0 \/ length acc < count) ->
  let all := acc ++ List.filter f cs in
  visit_candidates f count acc cs = (limit count all, Nat.ltb 0 count && Nat.leb count (length all)).
Proof.
  revert acc. induction cs as [|c cs IH]; intros acc Hc; simpl.
  - rewrite app_nil_r. destruct count as [|n]; simpl; [done|].
    destruct Hc as [?|Hc]; [lia|]. destruct (length acc) as [|m] eqn:E; simpl.
    + by rewrite take_ge by (rewrite E; lia).
    + rewrite (proj2 (Nat.leb_gt _ _)) by lia. by rewrite take_ge by (rewrite E; lia).
  - destruct (f c) eqn:Hf; simpl; [|by apply IH].
    assert (Ha : acc ++ c :: List.filter f cs = (acc ++ [c]) ++ List.filter f cs)
      by by rewrite <- app_assoc.
    rewrite Ha. rewrite length_app. simpl (length [c]).
    destruct count as [|n].
    { simpl. rewrite IH by by left. done. }
    destruct Hc as [?|Hc]; [lia|]. simpl Nat.ltb. cbn [andb].
    destruct (Nat.eqb_spec (length acc + 1) (S n)) as [He|He].
    + unfold limit. rewrite take_app_length' by (rewrite length_app; simpl; lia).
      f_equal. symmetry. apply Nat.leb_le. rewrite !length_app. simpl. lia.
    + rewrite IH by (right; rewrite length_app; simpl; lia). done.
Qed.

Lemma visit_prefixes_spec f count pattern acc ps :
  (count = 0 \/ length acc < count) ->
  visit_prefixes f count pattern acc ps
  = limit count (acc ++ List.filter f (concat (map (fun p => filepath_Glob (path_join [p; pattern])) ps))).
Proof.
  revert acc. induction ps as [|p ps IH]; intros acc Hc; cbn [visit_prefixes map concat].
  - simpl. rewrite app_nil_r. destruct count as [|n]; [done|]. destruct Hc as [?|Hc]; [lia|].
    unfold limit. by rewrite take_ge by lia.
  - rewrite visit_candidates_spec by done. cbv zeta.
    set (cs := filepath_Glob (path_join [p; pattern])).
    rewrite List.filter_app, app_assoc. set (acc' := acc ++ List.filter f cs).
    destruct (Nat.ltb 0 count && Nat.leb count (length acc')) eqn:E.
    + apply andb_prop in E as [E1 E2]. apply Nat.ltb_lt in E1. apply Nat.leb_le in E2.
      destruct count as [|n]; [lia|]. unfold limit. by rewrite take_app_le.
    + assert (Hl : limit count acc' = acc').
      { destruct count as [|n]; [done|]. simpl Nat.ltb in E. cbn [andb] in E.
        apply Nat.leb_gt in E. unfold limit. by rewrite take_ge by lia. }
      rewrite Hl. apply IH. destruct count as [|n]; [by left|]. right.
      simpl Nat.ltb in E. cbn [andb] in E. by apply Nat.leb_gt in E.
Qed.

(** The file locator finds the first [count] matches that pass the filter, in
    the order of the search prefixes and of the matches below a prefix, and
    fails with [ErrNotFound] if there is none: breaking out of the nested
    loops early does not change the result. *)
Theorem NewFileLocator_first_matches opts pattern :
  let f := NewFactory opts in
  let all := List.filter (default assertFile (filter_ f))
    (concat (map (fun p => filepath_Glob (path_join [p; pattern]))
      (getSearchPrefixes (root f) (searchPaths f)))) in
  NewFileLocator opts pattern
  = match limit (count f) all with
    | [] => Failed (NewError pattern)
    | l => Found l
    end.
Proof.
  unfold NewFileLocator, NewFileLocator_of, asRequired, file_Locate.
  rewrite visit_prefixes_spec; [done|].
  destruct (count (NewFactory opts)); [by left|]. right. simpl. lia.
Qed.

(** ** Symbolic link chains *)

(** [R] is closed under following links: every name in it resolves to a name in it. *)
Definition closed_links (R : gset string) : Prop :=
  forall x, x ∈ R -> exists y, next_link x = Some y /\ y ∈ R.

Lemma next_link_resolve x y : next_link x = Some y ->
  exists t, Resolve x = Some t
    /\ (if is_abs t then Some t else filepath_Abs (path_join [path_dir x; t])) = Some y.
Proof.
  unfold next_link. destruct (Resolve x) as [t|]; [|done]. intros Hn. exists t. split; [done|].
  by destruct (is_abs t).
Qed.

(** [l] follows the links from [x]. *)
Inductive linked : string -> list string -> Prop :=
| linked_nil x : linked x []
| linked_cons x y l : next_link x = Some y -> linked y l -> linked x (x :: l).

Lemma resolve_loop_closed R fuel seen chain x : closed_links R -> x ∈ R -> seen ⊆ R ->
  size R - size seen < fuel ->
  exists rest, resolve_loop fuel seen chain x = Some (Some (chain ++ rest))
    /\ NoDup rest /\ (forall y, y ∈ rest -> y ∈ R /\ y ∉ seen)
    /\ linked x rest /\ (x ∉ seen -> head rest = Some x)
    /\ (forall y z, y ∈ rest -> next_link y = Some z -> z ∈ rest \/ z ∈ seen).
Proof.
  intros HR. revert seen chain x. induction fuel as [|fuel IH]; intros seen chain x Hx Hs Hf; [lia|].
  destruct (HR x Hx) as (y & Hn & Hy). destruct (next_link_resolve x y Hn) as (t & Ht & Hty).
  cbn [resolve_loop]. rewrite Ht. case_decide as Hseen.
  - exists []. rewrite app_nil_r. split; [done|]. split; [constructor|].
    split; [intros ? []%not_elem_of_nil|]. split; [constructor|]. split; [done|].
    intros ? ? []%not_elem_of_nil.
  - rewrite Hty. assert (Hs' : {[x]} ∪ seen ⊆ R) by set_solver.
    assert (Hsz : size ({[x]} ∪ seen) = S (size seen)).
    { rewrite size_union by set_solver. by rewrite size_singleton. }
    pose proof (subseteq_size _ _ Hs') as Hle.
    destruct (IH ({[x]} ∪ seen) (chain ++ [x]) y Hy Hs') as (rest & -> & Hnd & Hin & Hl & Hh & Hc); [lia|].
    exists (x :: rest). rewrite <- app_assoc. split; [done|]. split; [|split; [|split; [|split]]].
    + constructor; [|done]. intros Hxr. apply Hin in Hxr as [_ Hxr]. set_solver.
    + intros z [->|Hz]%elem_of_cons; [done|]. apply Hin in Hz. set_solver.
    + by apply linked_cons with y.
    + done.
    + intros z w [->|Hz]%elem_of_cons Hw.
      * rewrite Hn in Hw. injection Hw as <-. rewrite elem_of_cons.
        destruct (decide (y ∈ {[x]} ∪ seen)) as [Hys|Hys]; [set_solver|].
        left. right. specialize (Hh Hys). destruct rest as [|r rest]; [done|]. simpl in Hh.
        injection Hh as ->. left.
      * destruct (Hc z w Hz Hw) as [?|?]; [left; by right|set_solver].
Qed.

(** Resolving a symbolic link ends: if the names reachable from a file stay
    within a finite set of existing files, as many steps as the set has
    elements and one more are enough, and more do not change the result. The
    chain starts with the file, follows the links, has no repetition and
    misses no reachable name, also when the links form a cycle. *)
Theorem ResolveChain_complete R x fuel : closed_links R -> x ∈ R -> size R < fuel ->
  exists chain, ResolveChain_fuel fuel x = Some (Some chain)
    /\ head chain = Some x /\ linked x chain /\ NoDup chain
    /\ (forall y z, y ∈ chain -> next_link y = Some z -> z ∈ chain).
Proof.
  intros HR Hx Hf.
  destruct (resolve_loop_closed R fuel ∅ [] x HR Hx) as (rest & He & Hnd & _ & Hl & Hh & Hc);
    [set_solver|rewrite size_empty; lia|].
  exists rest. split; [done|]. split; [apply Hh; set_solver|]. split; [done|]. split; [done|].
  intros y z Hy Hz. destruct (Hc y z Hy Hz) as [?|Hz']; [done|]. set_solver.
Qed.
End WithHost.

(** ** An instance: a link cycle *)

Definition example_host : Host := {|
  os_Stat := fun p => Some (mkFileInfo false false false 0);
  os_Lstat := fun p => Some (mkFileInfo false (negb (String.eqb p "/lib/c.so")) false 0);
  os_Readlink := fun p => if String.eqb p "/lib/a.so" then Some "b.so" else Some "/lib/a.so";
  EvalSymlinks := Some; filepath_Glob := fun p => [p]; filepath_Abs := Some;
  os_LookupEnv := fun _ => None |}.

Lemma ResolveChain_complete_witness :
  exists chain, @ResolveChain_fuel example_host 3 "/lib/a.so" = Some (Some chain) /\ NoDup chain.
Proof.
  destruct (@ResolveChain_complete example_host {["/lib/a.so"; "/lib/b.so"]} "/lib/a.so" 3)
    as (chain & ? & _ & _ & ? & _).
  - intros x [->%elem_of_singleton | ->%elem_of_singleton]%elem_of_union;
      eexists; (split; [vm_compute; reflexivity|set_solver]).
  - set_solver.
  - vm_compute. lia.
  - by exists chain.
Defined.

Example ResolveChain_cycle :
  @ResolveChain_fuel example_host 3 "/lib/a.so" = Some (Some ["/lib/a.so"; "/lib/b.so"]).
Proof. vm_compute. reflexivity. Qed.
