(* ===== verification/DriverRoot.v ===== *)
(** * The driver root (src/internal/lookup/root)

    A [Driver] is a file system in which driver files are located. It caches
    the driver version and the directory of the driver libraries; the two
    operations that fill the cache pass the state explicitly. [libraries] is
    the locator of [Driver.Libraries]. The result [None] is a panic: indexing
    an empty list of candidates. *)
From S2P Require Import Prelude GoStrings Glob Lookup.

Record Driver := mkDriver {
  Root : string; DevRoot : string; librarySearchPaths : list string; configSearchPaths : list string;
  version : string; driverLibDirectory : string;
}.

(** ** Construction *)

(** The version of a [Versioner]: its error is only logged, and the version it
    returns with an error is used as it is. *)
Record options := mkOptions {
  opt_Root : string; opt_DevRoot : string; opt_librarySearchPaths : list string;
  opt_configSearchPaths : list string; opt_versioner : option (string * bool);
}.

Definition New (o : options) : Driver :=
  let devRoot := if String.eqb (opt_DevRoot o) "" then opt_Root o else opt_DevRoot o in
  mkDriver (opt_Root o) devRoot (opt_librarySearchPaths o) (opt_configSearchPaths o)
    (match opt_versioner o with Some (v, _) => v | None => "" end) "".

(** [firstVersion.Version] *)
Fixpoint firstVersion_loop (vs : list (unit -> result string)) (errs : list string) : result string :=
  match vs with
  | [] => match errs with
          | [] => Ok ""
          | _ => Err (join (String (ascii_of_N 10) "") errs)
          end
  | v :: vs => match v tt with
               | Ok version => Ok version
               | Err e => firstVersion_loop vs (errs ++ [e])
               end
  end.
Definition FirstOf (vs : list (option (unit -> result string))) : result string :=
  firstVersion_loop (omap id vs) [].

Definition set_info (v dir : string) (r : Driver) : Driver :=
  mkDriver (Root r) (DevRoot r) (librarySearchPaths r) (configSearchPaths r) v dir.

Definition RelativeToRoot (r : Driver) (path : string) : string :=
  if String.eqb (Root r) "" || String.eqb (Root r) "/" then path
  else if negb (is_abs path) then path
  else trim_prefix path (Root r).

(** ** Version detection *)

Section Detect.
Context (libraries : Locator).

Fixpoint infer_loop (versionSuffix : string) (libs : list string) (errs : list string)
  : option (result (string * string)) :=
  match libs with
  | [] => Some (Err (join (String (ascii_of_N 10) "") errs))
  | driverLib :: libs =>
      match libraries (driverLib +:+ versionSuffix) with
      | Failed e => infer_loop versionSuffix libs (errs ++ ["failed to locate libcuda.so: " +:+ msg e])
      | Found [] => None
      | Found (driverLibPath :: _) =>
          let version := trim_prefix (path_base driverLibPath) driverLib in
          if String.eqb version ""
          then infer_loop versionSuffix libs (errs ++ ["failed to extract version from path " +:+ driverLibPath])
          else Some (Ok (driverLibPath, version))
      end
  end.

Definition inferVersion (r : Driver) : option (result (string * string)) :=
  infer_loop (if String.eqb (version r) "" then "*.*" else version r)
    ["libcuda.so."; "libnvidia-ml.so."] [].

Definition updateInfo (r : Driver) : option (result Driver) :=
  match inferVersion r with
  | None => None
  | Some (Err e) => Some (Err e)
  | Some (Ok (driverLibPath, v)) =>
      if negb (String.eqb (version r) "") && negb (String.eqb (version r) v)
      then Some (Err ("unexpected version detected: " +:+ version r +:+ " != " +:+ v))
      else Some (Ok (set_info v (RelativeToRoot r (path_dir driverLibPath)) r))
  end.

(** The result and the new state. *)
Definition Version (r : Driver) : option (result string * Driver) :=
  if String.eqb (version r) "" then
    match updateInfo r with
    | None => None
    | Some (Err e) => Some (Err e, r)
    | Some (Ok r) => Some (Ok (version r), r)
    end
  else Some (Ok (version r), r).

Definition GetDriverLibDirectory (r : Driver) : option (result string * Driver) :=
  if String.eqb (driverLibDirectory r) "" then
    match updateInfo r with
    | None => None
    | Some (Err e) => Some (Err e, r)
    | Some (Ok r) => Some (Ok (driverLibDirectory r), r)
    end
  else Some (Ok (driverLibDirectory r), r).

(** The search paths of [DriverLibraryLocator]. *)
Definition library_search_dirs (libDir : string) (additionalDirs : list string) : list string :=
  libDir :: map (fun dir => if has_prefix dir "/" then dir else path_join [libDir; dir]) additionalDirs.
End Detect.

Section Locators.
Context `{Host}.

Definition DriverLibraryLocator (libraries : Locator) (r : Driver) (additionalDirs : list string)
  : option (result Locator * Driver) :=
  match GetDriverLibDirectory libraries r with
  | None => None
  | Some (Err e, r) => Some (Err ("failed to get libcuda.so parent directory: " +:+ e), r)
  | Some (Ok dir, r) =>
      Some (Ok (AsOptional (NewSymlinkLocator
        [WithRoot (Root r); WithSearchPaths (library_search_dirs dir additionalDirs)])), r)
  end.

Definition Libraries (resolve : string -> option (list string))
    (libs64 : string -> option (list string)) (r : Driver) : Locator :=
  NewLibraryLocator resolve libs64 [WithRoot (Root r); WithSearchPaths (librarySearchPaths r)].

Definition Files (r : Driver) (opts : list Option_) : Locator := NewFileLocator (opts ++ [WithRoot (Root r)]).

Definition xdgDataDirs : list string :=
  match os_LookupEnv "XDG_DATA_DIRS" with
  | Some dirs => if negb (String.eqb dirs "") then NormalizePaths [dirs] else ["/usr/local/share"; "/usr/share"]
  | None => ["/usr/local/share"; "/usr/share"]
  end.
Definition configSearchOptions (r : Driver) : list Option_ :=
  match configSearchPaths r with
  | [] => [WithRoot (Root r); WithSearchPaths ("/etc" :: xdgDataDirs)]
  | ps => [WithRoot "/"; WithSearchPaths ps]
  end.
Definition Configs (r : Driver) : Locator := NewFileLocator (configSearchOptions r).

(** ** Properties *)

(** A locator that does not succeed without a candidate. *)
Definition never_empty (l : Locator) : Prop := forall pattern, l pattern <> Found [].

Lemma asRequired_never_empty l : never_empty (asRequired l).
Proof. intros p. unfold asRequired. destruct (l p) as [[|]|]; done. Qed.

Lemma eval_all_length cs ts l : eval_all cs ts = Found l -> length l = length ts + length cs.
Proof.
  revert ts. induction cs as [|c cs IH]; intros ts; simpl; [intros [= <-]; lia|].
  destruct (EvalSymlinks c); [|done]. intros ->%IH. rewrite length_app. simpl. lia.
Qed.

Lemma AsUnique_never_empty l : never_empty l -> never_empty (AsUnique l).
Proof.
  intros Hl p. unfold AsUnique. destruct (l p) as [[|c cs]|] eqn:E; [by destruct (Hl p)| |done].
  by intros [= Hd].
Qed.

Lemma WithEvaluatedSymlinks_never_empty l : never_empty l -> never_empty (WithEvaluatedSymlinks l).
Proof.
  intros Hl p. unfold WithEvaluatedSymlinks. destruct (l p) as [cs|] eqn:E; [|done].
  intros He. apply eval_all_length in He. destruct cs; [by destruct (Hl p)|done].
Qed.

Lemma ldcache_never_empty root libs : never_empty (ldcache_Locate root libs).
Proof. intros p. unfold ldcache_Locate. by destruct (List.filter _ libs). Qed.

Lemma First_never_empty a b : never_empty a -> never_empty b -> never_empty (First [Some a; Some b]).
Proof.
  intros Ha Hb p. unfold First. simpl. destruct (a p) as [[|]|] eqn:Ea; [by destruct (Ha p)|done|].
  destruct (b p) as [[|]|] eqn:Eb; [by destruct (Hb p)|done|]. done.
Qed.

#[local] Hint Resolve asRequired_never_empty AsUnique_never_empty WithEvaluatedSymlinks_never_empty
  ldcache_never_empty First_never_empty : go.

Lemma Libraries_never_empty resolve libs64 r : never_empty (Libraries resolve libs64 r).
Proof.
  unfold Libraries, NewLibraryLocator, NewSymlinkLocator, NewFileLocator, NewFileLocator_of.
  destruct (searchPaths _); [|auto with go].
  apply First_never_empty; [auto with go|]. unfold newLdcacheLocator.
  destruct (libs64 _); [auto with go|]. by intros p.
Qed.

Lemma infer_loop_total l suffix libs errs : never_empty l -> infer_loop l suffix libs errs <> None.
Proof.
  intros Hl. revert errs. induction libs as [|lib libs IH]; intros errs; simpl; [done|].
  destruct (l (lib +:+ suffix)) as [[|p ps]|] eqn:E; [by destruct (Hl (lib +:+ suffix))| |apply IH].
  destruct (String.eqb _ ""); [apply IH|done].
Qed.

(** Detecting the driver version does not panic: the library locator never
    succeeds without a candidate, in any state of the host. *)
Theorem Version_no_panic resolve libs64 r :
  Version (Libraries resolve libs64 r) r <> None
  /\ GetDriverLibDirectory (Libraries resolve libs64 r) r <> None.
Proof.
  pose proof (infer_loop_total (Libraries resolve libs64 r)
    (if String.eqb (version r) "" then "*.*" else version r) ["libcuda.so."; "libnvidia-ml.so."] []
    (Libraries_never_empty resolve libs64 r)) as Hi.
  unfold Version, GetDriverLibDirectory, updateInfo, inferVersion.
  destruct (infer_loop _ _ _ _) as [[[p v]|e]|]; [|split|done].
  - split; by destruct (String.eqb (version r) ""), (String.eqb (driverLibDirectory r) ""), (String.eqb (version r) v).
  - by destruct (String.eqb (version r) "").
  - by destruct (String.eqb (driverLibDirectory r) "").
Qed.
End Locators.

Lemma infer_loop_version libs suffix names errs p v :
  infer_loop libs suffix names errs = Some (Ok (p, v)) -> v <> "".
Proof.
  revert errs. induction names as [|n names IH]; intros errs; simpl; [done|].
  destruct (libs _) as [[|q qs]|]; [done| |apply IH].
  destruct (String.eqb_spec (trim_prefix (path_base q) n) ""); [apply IH|].
  intros [= -> <-]. done.
Qed.

Lemma updateInfo_version libs r r' : updateInfo libs r = Some (Ok r') ->
  version r' <> "" /\ (version r <> "" -> version r' = version r).
Proof.
  unfold updateInfo. destruct (inferVersion libs r) as [[[p v]|e]|] eqn:Hi; [|done|done].
  apply infer_loop_version in Hi.
  destruct (String.eqb_spec (version r) ""), (String.eqb_spec (version r) v); simpl;
    intros [= <-]; simpl; naive_solver.
Qed.

(** Operations of a driver, with the locator results at the time of the call. *)
Inductive driver_step : Driver -> Driver -> Prop :=
| step_version libs r res r' : Version libs r = Some (res, r') -> driver_step r r'
| step_dir libs r res r' : GetDriverLibDirectory libs r = Some (res, r') -> driver_step r r'.

Lemma driver_step_version r r' : driver_step r r' -> version r <> "" -> version r' = version r.
Proof.
  intros [libs r0 res r1 Hs|libs r0 res r1 Hs] Hv; revert Hs;
    [unfold Version|unfold GetDriverLibDirectory].
  - destruct (String.eqb_spec (version r0) ""); [done|]. by intros [= _ <-].
  - destruct (String.eqb (driverLibDirectory r0) ""); [|by intros [= _ <-]].
    destruct (updateInfo libs r0) as [[r2|e]|] eqn:Hu; [|by intros [= _ <-]|done].
    intros [= _ <-]. by apply (updateInfo_version libs).
Qed.

(** Once the version is known it never changes, whatever is called and
    whatever the locators find later, and [Version] keeps returning it. *)
Theorem Version_stable libs v r1 r2 :
  Version libs v = Some (Ok (version r1), r1) -> rtc driver_step r1 r2 ->
  forall libs', Version libs' r2 = Some (Ok (version r1), r2).
Proof.
  intros Hv Hr libs'.
  assert (Hne : version r1 <> "").
  { revert Hv. unfold Version. destruct (String.eqb_spec (version v) "") as [He|Hn].
    - destruct (updateInfo libs v) as [[r|e]|] eqn:Hu; [|done|done].
      intros [= <-]. by apply (updateInfo_version libs v).
    - by intros [= <-]. }
  assert (Hst : version r2 = version r1).
  { clear Hv. induction Hr as [r|r r' r'' Hs Hr IH]; [done|].
    pose proof (driver_step_version _ _ Hs Hne) as He. rewrite <- He in *. by apply IH. }
  unfold Version. rewrite Hst. apply String.eqb_neq in Hne. by rewrite Hne.
Qed.

(** ** Instances *)

Definition example_libs : Locator := fun p =>
  if String.eqb p "libcuda.so.*.*" then Found ["/run/nvidia/driver/usr/lib/libcuda.so.550.54"] else Failed (NewError p).
Definition example_driver : Driver := mkDriver "/run/nvidia/driver" "/run/nvidia/driver" [] [] "" "".

Example example_detect :
  Version example_libs example_driver
  = Some (Ok "550.54", set_info "550.54" "/usr/lib" example_driver).
Proof. vm_compute. reflexivity. Qed.

Lemma Version_stable_witness :
  Version notFound (set_info "550.54" "/usr/lib" example_driver)
  = Some (Ok "550.54", set_info "550.54" "/usr/lib" example_driver).
Proof.
  apply (Version_stable example_libs example_driver (set_info "550.54" "/usr/lib" example_driver)).
  - vm_compute. reflexivity.
  - apply rtc_refl.
Defined.
