(* ===== verification/LDCache.v ===== *)
(** * Parsing ld.so.cache (src/internal/ldcache/ldcache.go)

    The cache file is a sequence of bytes: an optional old-format part, the
    new-format header, the entries and the string table. Numbers are 32-bit
    little-endian and are kept at their width. Slicing out of range is a
    panic and is represented by [None]. Opening and mapping the file is left
    out. *)
From S2P Require Import Prelude GoStrings.

Definition magicString1 : string := "ld.so-1.7.0".
Definition magicString2 : string := "glibc-ld.so.cache".
Definition magicVersion : string := "1.1".

Definition flagTypeMask : Z := 255.
Definition flagTypeELF : Z := 1.
Definition flagArchMask : Z := 65280.
Definition flagArchI386 : Z := 0.
Definition flagArchX8664 : Z := 768.
Definition flagArchX32 : Z := 2048.
Definition flagArchPpc64le : Z := 1280.
Definition flagArch_ARM_LIBHF : Z := 2304.
Definition flagArch_AARCH64_LIB64 : Z := 2560.

(** Sizes of the structures in the file. *)
Definition sizeof_header1 : nat := 16.
Definition sizeof_entry1 : nat := 12.
Definition sizeof_header2 : nat := 48.
Definition sizeof_entry2 : nat := 24.

(** A little-endian 32-bit number at the head of a byte sequence. *)
Definition read_u32 (s : string) : option Z :=
  match s with
  | String a (String b (String c (String d _))) =>
      Some (Z.of_N (byte_of a) + 256 * (Z.of_N (byte_of b) + 256 * (Z.of_N (byte_of c) + 256 * Z.of_N (byte_of d))))%Z
  | _ => None
  end.

(** [s[k:]] and [s[:n]] with their bounds checks. *)
Definition slice_from (s : string) (k : nat) : option string :=
  if Nat.leb k (String.length s) then Some (sdrop k s) else None.
Definition slice_to (s : string) (n : nat) : option string :=
  if Nat.leb n (String.length s) then Some (stake n s) else None.

Record entry2 := mkEntry2 { Flags : Z; Key : Z; Value : Z }.
Record ldcache := mkCache { libs : string; entries : list entry2 }.

(** The [n] entries at the head of [s]; [None] if [s] is too short. *)
Fixpoint read_entries (n : nat) (s : string) : option (list entry2) :=
  match n with
  | O => Some []
  | S n =>
      flags ← read_u32 s; key ← read_u32 (sdrop 4 s); value ← read_u32 (sdrop 8 s);
      _ ← slice_from s sizeof_entry2;
      es ← read_entries n (sdrop sizeof_entry2 s);
      Some (mkEntry2 flags key value :: es)
  end.

(** The position of the new-format part. [Seek] may move beyond the end. *)
Definition new_format_offset (data : string) : nat :=
  if String.eqb (stake (String.length magicString1) data) magicString1 then
    let nlibs := Z.to_nat (default 0%Z (read_u32 (sdrop 12 data))) in
    let offset := sizeof_header1 + nlibs * sizeof_entry1 in
    offset + (Z.to_nat (Z.land (- Z.of_nat offset) 7))
  else 0.

(** [libs = data[size-Len():]]: nothing is left when the position is beyond
    the end. Reading a structure fails when there are too few bytes. *)
Definition parse (data : string) : result ldcache :=
  if Nat.leb (String.length data) sizeof_header1 then Err "invalid ld.so.cache file"
  else
    let libs := sdrop (new_format_offset data) data in
    if Nat.ltb (String.length libs) sizeof_header2 then Err "EOF"
    else if negb (String.eqb (stake 17 libs) magicString2)
         || negb (String.eqb (stake 3 (sdrop 17 libs)) magicVersion)
    then Err "invalid ld.so.cache file"
    else
      match read_u32 (sdrop 20 libs) with
      | None => Err "EOF"
      | Some nlibs =>
          match read_entries (Z.to_nat nlibs) (sdrop sizeof_header2 libs) with
          | None => Err "EOF"
          | Some es => Ok (mkCache libs es)
          end
      end.

Record entry := mkEntry { libname : string; bits : Z; value : string }.

Definition nul : ascii := ascii_of_N 0.

Definition bytesToString (v : string) : option string :=
  match index_any (Ascii.eqb nul) v with
  | None => Some ""
  | Some n => slice_to v n
  end.

(** The bits of an entry's architecture. *)
Definition arch_bits (flags : Z) : option Z :=
  let arch := Z.land flags flagArchMask in
  if Z.eqb arch flagArchX8664 || Z.eqb arch flagArch_AARCH64_LIB64 || Z.eqb arch flagArchPpc64le then Some 64%Z
  else if Z.eqb arch flagArchX32 || Z.eqb arch flagArch_ARM_LIBHF || Z.eqb arch flagArchI386 then Some 32%Z
  else None.

(** One iteration of [getEntries]: a panic, or an entry that may be skipped. *)
Definition get_entry (libs : string) (e : entry2) : option (option entry) :=
  if Z.eqb (Z.land (Z.land (Flags e) flagTypeMask) flagTypeELF) 0 then Some None
  else
    match arch_bits (Flags e) with
    | None => Some None
    | Some bits =>
        let len := (Z.of_nat (String.length libs) mod 2 ^ 32)%Z in
        if Z.ltb len (Key e) || Z.ltb len (Value e) then Some None
        else
          ks ← slice_from libs (Z.to_nat (Key e));
          lib ← bytesToString ks;
          if String.eqb lib "" then Some None
          else
            vs ← slice_from libs (Z.to_nat (Value e));
            value ← bytesToString vs;
            if String.eqb value "" then Some None
            else Some (Some (mkEntry lib bits value))
    end.

Fixpoint getEntries_loop (libs : string) (es : list entry2) : option (list entry) :=
  match es with
  | [] => Some []
  | e :: es =>
      o ← get_entry libs e; rest ← getEntries_loop libs es;
      Some (match o with Some x => x :: rest | None => rest end)
  end.
Definition getEntries (c : ldcache) : option (list entry) := getEntries_loop (libs c) (entries c).

(** The loop of [List]: the paths per number of bits and the processed paths. *)
Fixpoint list_loop (root : string) (es : list entry) (p32 p64 : list string) (processed : gset string)
  : list string * list string :=
  match es with
  | [] => (p32, p64)
  | e :: es =>
      let path := path_join [root; value e] in
      if decide (path ∈ processed) then list_loop root es p32 p64 processed
      else if Z.eqb (bits e) 32 then list_loop root es (p32 ++ [path]) p64 ({[path]} ∪ processed)
      else if Z.eqb (bits e) 64 then list_loop root es p32 (p64 ++ [path]) ({[path]} ∪ processed)
      else list_loop root es p32 p64 ({[path]} ∪ processed)
  end.
Definition List_ (root : string) (c : ldcache) : option (list string * list string) :=
  es ← getEntries c; Some (list_loop root es [] [] ∅).

#[local] Arguments sdrop : simpl never.
#[local] Arguments stake : simpl never.
#[local] Arguments read_u32 : simpl never.

(** ** No panic *)

Lemma read_u32_range s n : read_u32 s = Some n -> (0 <= n < 2 ^ 32)%Z.
Proof.
  destruct s as [|a [|b [|c [|d s]]]]; try done. intros [= <-].
  assert (Hb : forall x, (0 <= Z.of_N (byte_of x) < 256)%Z).
  { intros x. unfold byte_of. pose proof (N_ascii_bounded x). lia. }
  pose proof (Hb a). pose proof (Hb b). pose proof (Hb c). pose proof (Hb d). lia.
Qed.

Lemma read_entries_range n s es : read_entries n s = Some es ->
  Forall (fun e => (0 <= Key e)%Z /\ (0 <= Value e)%Z) es.
Proof.
  revert s es. induction n as [|n IH]; intros s es; simpl; [by intros [= <-]|].
  destruct (read_u32 s) as [f|]; [|done]. simpl.
  destruct (read_u32 (sdrop 4 s)) as [k|] eqn:Hk; [|done]. simpl.
  destruct (read_u32 (sdrop 8 s)) as [v|] eqn:Hv; [|done]. simpl.
  destruct (slice_from s _); [|done]. simpl.
  destruct (read_entries n _) as [es'|] eqn:He; [|done]. intros [= <-].
  apply read_u32_range in Hk, Hv. constructor; [simpl; lia|]. by eapply IH.
Qed.

Lemma index_any_bound f s n : index_any f s = Some n -> n < String.length s.
Proof.
  revert n. induction s as [|c s IH]; intros n; simpl; [done|].
  destruct (f c); [intros [= <-]; lia|].
  destruct (index_any f s) as [m|]; [|done]. simpl. intros [= <-]. pose proof (IH m eq_refl). lia.
Qed.

Lemma bytesToString_total v : bytesToString v <> None.
Proof.
  unfold bytesToString. destruct (index_any _ v) as [n|] eqn:E; [|done].
  apply index_any_bound in E. unfold slice_to. by rewrite (proj2 (Nat.leb_le _ _)) by lia.
Qed.

Lemma get_entry_total libs e : (0 <= Key e)%Z -> (0 <= Value e)%Z -> get_entry libs e <> None.
Proof.
  intros Hk Hv. unfold get_entry. destruct (Z.eqb _ 0); [done|]. destruct (arch_bits _); [|done].
  pose proof (Z.mod_le (Z.of_nat (String.length libs)) (2 ^ 32) ltac:(lia) ltac:(lia)) as Hm.
  destruct (Z.ltb_spec (Z.of_nat (String.length libs) mod 2 ^ 32) (Key e)); [done|].
  destruct (Z.ltb_spec (Z.of_nat (String.length libs) mod 2 ^ 32) (Value e)); [done|]. simpl orb. cbv iota.
  unfold slice_from. rewrite !(proj2 (Nat.leb_le _ _)) by lia. simpl.
  destruct (bytesToString (sdrop (Z.to_nat (Key e)) libs)) as [lib|] eqn:El; [|by apply bytesToString_total in El]. simpl.
  destruct (String.eqb lib ""); [done|].
  destruct (bytesToString (sdrop (Z.to_nat (Value e)) libs)) as [v|] eqn:Ev; [|by apply bytesToString_total in Ev].
  simpl. by destruct (String.eqb v "").
Qed.

(** Listing the libraries of any file that parses does not panic, whatever
    the offsets in the file are: every slice is within bounds. *)
Theorem List_no_panic data c root : parse data = Ok c -> List_ root c <> None.
Proof.
  unfold parse. destruct (Nat.leb _ _); [done|]. cbv zeta. destruct (Nat.ltb _ _); [done|].
  destruct (_ || _); [done|]. destruct (read_u32 _) as [n|]; [|done].
  destruct (read_entries _ _) as [es|] eqn:He; [|done]. intros [= <-].
  apply read_entries_range in He. unfold List_, getEntries. simpl.
  assert (Ht : getEntries_loop (sdrop (new_format_offset data) data) es <> None).
  { clear -He. induction He as [|e es [Hk Hv] _ IH]; simpl; [done|].
    destruct (get_entry _ e) eqn:Hg; [|by apply get_entry_total in Hg]. simpl.
    by destruct (getEntries_loop _ es). }
  by destruct (getEntries_loop _ es).
Qed.

(** ** Every library once *)

Lemma list_loop_spec root es p32 p64 seen : Forall (fun e => bits e = 32%Z \/ bits e = 64%Z) es ->
  let kept := dedup_by (fun e => path_join [root; value e]) seen es in
  list_loop root es p32 p64 seen
  = (p32 ++ map (fun e => path_join [root; value e]) (List.filter (fun e => Z.eqb (bits e) 32) kept),
     p64 ++ map (fun e => path_join [root; value e]) (List.filter (fun e => Z.eqb (bits e) 64) kept)).
Proof.
  intros Hb. revert p32 p64 seen. induction Hb as [|e es He _ IH]; intros p32 p64 seen; simpl.
  - by rewrite !app_nil_r.
  - case_decide; [by apply IH|]. destruct He as [He|He]; simpl; rewrite He; simpl; rewrite IH;
      by rewrite <- app_assoc.
Qed.

Lemma arch_bits_values f b : arch_bits f = Some b -> b = 32%Z \/ b = 64%Z.
Proof. unfold arch_bits. destruct (_ || _); [intros [= <-]; auto|]. destruct (_ || _); [intros [= <-]; auto|done]. Qed.

Lemma get_entry_bits libs e x : get_entry libs e = Some (Some x) -> bits x = 32%Z \/ bits x = 64%Z.
Proof.
  unfold get_entry. destruct (Z.eqb _ 0); [done|].
  destruct (arch_bits (Flags e)) as [b|] eqn:Hb; [|done]. apply arch_bits_values in Hb.
  destruct (_ || _); [done|]. destruct (slice_from libs (Z.to_nat (Key e))) as [ks|]; [|done]. simpl.
  destruct (bytesToString ks) as [lib|]; [|done]. simpl. destruct (String.eqb lib ""); [done|].
  destruct (slice_from libs (Z.to_nat (Value e))) as [vs|]; [|done]. simpl.
  destruct (bytesToString vs) as [v|]; [|done]. simpl. destruct (String.eqb v ""); [done|].
  by intros [= <-].
Qed.

Lemma getEntries_bits libs es l : getEntries_loop libs es = Some l ->
  Forall (fun e => bits e = 32%Z \/ bits e = 64%Z) l.
Proof.
  revert l. induction es as [|e es IH]; intros l; simpl; [by intros [= <-]|].
  destruct (get_entry libs e) as [o|] eqn:Ho; [|done]. simpl.
  destruct (getEntries_loop libs es) as [r|]; [|done]. intros [= <-].
  destruct o as [x|]; [|by apply IH]. constructor; [|by apply IH]. by apply get_entry_bits in Ho.
Qed.

(** The paths that are listed are those of the usable entries, in the order
    of the cache, each once; a path is listed with the bits of its first
    entry. *)
Theorem List_spec root c es : getEntries c = Some es ->
  let kept := dedup_by (fun e => path_join [root; value e]) ∅ es in
  List_ root c
  = Some (map (fun e => path_join [root; value e]) (List.filter (fun e => Z.eqb (bits e) 32) kept),
          map (fun e => path_join [root; value e]) (List.filter (fun e => Z.eqb (bits e) 64) kept)).
Proof.
  intros He. unfold List_. rewrite He. simpl. f_equal. apply list_loop_spec.
  by eapply getEntries_bits.
Qed.

(** ** Reading back an encoded cache *)

Definition byte_at (n : Z) (i : Z) : ascii := ascii_of_N (Z.to_N ((n / 2 ^ i) mod 256)).
Definition le32 (n : Z) : string :=
  String (byte_at n 0) (String (byte_at n 8) (String (byte_at n 16) (String (byte_at n 24) ""))).

Definition u32 (n : Z) : Prop := (0 <= n < 2 ^ 32)%Z.

Lemma byte_at_val n i : Z.of_N (byte_of (byte_at n i)) = ((n / 2 ^ i) mod 256)%Z.
Proof.
  unfold byte_at, byte_of. pose proof (Z.mod_pos_bound (n / 2 ^ i) 256 ltac:(lia)).
  rewrite N_ascii_embedding by lia. by rewrite Z2N.id by lia.
Qed.
Lemma read_le32 n r : u32 n -> read_u32 (le32 n +:+ r) = Some n.
Proof.
  intros [H0 H1]. unfold le32, read_u32. simpl. f_equal.
  rewrite !byte_at_val. change (2 ^ 0)%Z with 1%Z. change (2 ^ 8)%Z with 256%Z.
  change (2 ^ 16)%Z with 65536%Z. change (2 ^ 24)%Z with 16777216%Z. change (2 ^ 32)%Z with 4294967296%Z in H1.
  rewrite Z.div_1_r. Z.to_euclidean_division_equations. lia.
Qed.

Definition encode_entry (e : entry2) (rest8 : string) : string :=
  le32 (Flags e) +:+ le32 (Key e) +:+ le32 (Value e) +:+ rest8.
Definition valid_entry (e : entry2 * string) : Prop :=
  u32 (Flags e.1) /\ u32 (Key e.1) /\ u32 (Value e.1) /\ String.length e.2 = 12.

Fixpoint encode_entries (es : list (entry2 * string)) : string :=
  match es with
  | [] => ""
  | e :: es => encode_entry e.1 e.2 +:+ encode_entries es
  end.

Lemma sdrop_sapp a b n : String.length a = n -> sdrop n (a +:+ b) = b.
Proof. intros <-. apply sdrop_app. Qed.

Lemma read_entries_encode es t : Forall valid_entry es ->
  read_entries (length es) (encode_entries es +:+ t) = Some (map fst es).
Proof.
  induction 1 as [|[e r] es (Hf & Hk & Hv & Hr) _ IH]; [done|]. simpl in Hf, Hk, Hv, Hr.
  cbn [length encode_entries read_entries map fst snd]. unfold encode_entry.
  set (rest := encode_entries es +:+ t).
  assert (He : (((le32 (Flags e) +:+ le32 (Key e) +:+ le32 (Value e) +:+ r) +:+ encode_entries es) +:+ t)
    = le32 (Flags e) +:+ le32 (Key e) +:+ le32 (Value e) +:+ r +:+ rest).
  { unfold rest. by rewrite <- !sapp_assoc. }
  rewrite He. rewrite read_le32 by done. cbn [mbind option_bind].
  rewrite (sdrop_sapp (le32 (Flags e)) _ 4) by done. rewrite read_le32 by done. cbn [mbind option_bind].
  replace (sdrop 8 _) with (le32 (Value e) +:+ r +:+ rest)
    by (rewrite (sapp_assoc (le32 (Flags e))), (sdrop_sapp (le32 (Flags e) +:+ le32 (Key e))); done).
  rewrite read_le32 by done. cbn [mbind option_bind].
  unfold slice_from. rewrite (proj2 (Nat.leb_le _ _)).
  2:{ unfold sizeof_entry2. rewrite !slength_app, Hr. simpl. lia. }
  cbn [mbind option_bind].
  replace (sdrop sizeof_entry2 _) with rest.
  2:{ rewrite (sapp_assoc (le32 (Flags e))), (sapp_assoc _ (le32 (Value e))), (sapp_assoc _ r).
      rewrite sdrop_sapp; [done|]. rewrite !slength_app, Hr. done. }
  unfold rest. rewrite IH. simpl. by destruct e.
Qed.

(** A new-format part: header, entries and string table. *)
Definition encode_new (tablesize : Z) (unused : string) (es : list (entry2 * string)) (table : string) : string :=
  magicString2 +:+ magicVersion +:+ le32 (Z.of_nat (length es)) +:+ le32 tablesize +:+ unused
  +:+ encode_entries es +:+ table.

(** An old-format part with [m] entries, padded to a multiple of eight. *)
Definition encode_old (m : nat) (entries1 padding : string) : string :=
  magicString1 +:+ str1 0 +:+ le32 (Z.of_nat m) +:+ entries1 +:+ padding.
Definition valid_old (m : nat) (entries1 padding : string) : Prop :=
  u32 (Z.of_nat m) /\ String.length entries1 = m * 12
  /\ Z.of_nat (String.length padding) = Z.land (- Z.of_nat (16 + m * 12)) 7.

Lemma new_offset tablesize unused es table :
  new_format_offset (encode_new tablesize unused es table) = 0.
Proof. done. Qed.

Lemma old_offset m e1 pad r : valid_old m e1 pad ->
  new_format_offset (encode_old m e1 pad +:+ r) = String.length (encode_old m e1 pad).
Proof.
  intros (Hm & He & Hp). unfold new_format_offset, encode_old.
  rewrite <- !sapp_assoc. rewrite stake_app, String.eqb_refl.
  replace (sdrop 12 _) with (le32 (Z.of_nat m) +:+ e1 +:+ pad +:+ r)
    by (rewrite (sapp_assoc magicString1), (sdrop_sapp (magicString1 +:+ str1 0)); done).
  rewrite read_le32 by done. simpl default. rewrite Nat2Z.id.
  unfold sizeof_header1, sizeof_entry1. rewrite <- Hp, Nat2Z.id, !slength_app, He. simpl. lia.
Qed.

Lemma parse_new data off tablesize unused es table :
  u32 (Z.of_nat (length es)) -> u32 tablesize -> String.length unused = 20 -> Forall valid_entry es ->
  Nat.leb (String.length data) sizeof_header1 = false ->
  new_format_offset data = off -> sdrop off data = encode_new tablesize unused es table ->
  parse data = Ok (mkCache (encode_new tablesize unused es table) (map fst es)).
Proof.
  intros Hn Ht Hu Hes Hlen Hoff Hd. unfold parse. rewrite Hlen, Hoff, Hd. cbv zeta.
  set (new := encode_new tablesize unused es table).
  assert (Hl : Nat.ltb (String.length new) sizeof_header2 = false).
  { apply Nat.ltb_ge. unfold new, encode_new, sizeof_header2. rewrite !slength_app, Hu. simpl. lia. }
  rewrite Hl.
  assert (stake 17 new = magicString2) as -> by exact (stake_app magicString2 _).
  assert (stake 3 (sdrop 17 new) = magicVersion) as ->.
  { unfold new, encode_new. rewrite (sdrop_sapp magicString2 _ 17) by done. exact (stake_app magicVersion _). }
  rewrite !String.eqb_refl. cbn [negb orb].
  replace (sdrop 20 new) with (le32 (Z.of_nat (length es)) +:+ le32 tablesize +:+ unused +:+ encode_entries es +:+ table).
  2:{ unfold new, encode_new. rewrite (sapp_assoc magicString2).
      by rewrite (sdrop_sapp (magicString2 +:+ magicVersion)). }
  rewrite read_le32 by done. rewrite Nat2Z.id.
  replace (sdrop sizeof_header2 new) with (encode_entries es +:+ table).
  2:{ unfold new, encode_new.
      rewrite (sapp_assoc magicString2), (sapp_assoc _ (le32 (Z.of_nat (length es)))),
        (sapp_assoc _ (le32 tablesize)), (sapp_assoc _ unused).
      rewrite sdrop_sapp; [done|]. rewrite !slength_app, Hu. done. }
  by rewrite read_entries_encode.
Qed.

(** C40. Parsing an encoded cache returns its entries and the string table's base,
    with or without an old-format part before it. *)
Theorem parse_encode m e1 pad tablesize unused es table :
  valid_old m e1 pad -> u32 (Z.of_nat (length es)) -> u32 tablesize -> String.length unused = 20 ->
  Forall valid_entry es ->
  let new := encode_new tablesize unused es table in
  parse new = Ok (mkCache new (map fst es))
  /\ parse (encode_old m e1 pad +:+ new) = Ok (mkCache new (map fst es)).
Proof.
  intros Ho Hn Ht Hu Hes. cbv zeta. split.
  - by apply (parse_new _ 0).
  - apply (parse_new _ (String.length (encode_old m e1 pad))); try done.
    + apply Nat.leb_gt. unfold encode_new, sizeof_header1. rewrite !slength_app, Hu. simpl. lia.
    + by apply old_offset.
    + apply sdrop_app.
Qed.

(** ** Instances *)

Definition example_table : string := "libcuda.so.1" +:+ str1 0 +:+ "/usr/lib/libcuda.so.1" +:+ str1 0.
Definition zeros20 : string := "00000000000000000000".
Definition example_entry : entry2 * string := (mkEntry2 769 72 85, "000000000000").

Lemma parse_encode_witness :
  parse (encode_old 0 "" "" +:+ encode_new 0 zeros20 [example_entry] example_table)
  = Ok (mkCache (encode_new 0 zeros20 [example_entry] example_table) [example_entry.1]).
Proof.
  apply (parse_encode 0 "" "" 0 zeros20 [example_entry] example_table).
  - by vm_compute.
  - by vm_compute.
  - by vm_compute.
  - done.
  - constructor; [by vm_compute|constructor].
Defined.

Lemma List_no_panic_witness :
  List_ "/" (mkCache (encode_new 0 zeros20 [example_entry] example_table) [example_entry.1]) <> None.
Proof.
  apply (List_no_panic (encode_new 0 zeros20 [example_entry] example_table)). vm_compute. reflexivity.
Defined.

Lemma List_spec_witness :
  List_ "/" (mkCache (encode_new 0 zeros20 [example_entry] example_table) [example_entry.1])
  = Some ([], ["/usr/lib/libcuda.so.1"]).
Proof.
  apply (List_spec "/" (mkCache (encode_new 0 zeros20 [example_entry] example_table) [example_entry.1])
    [mkEntry "libcuda.so.1" 64 "/usr/lib/libcuda.so.1"]).
  vm_compute. reflexivity.
Defined.
