(* ===== verification/ProcInfo.v ===== *)
(** * Driver information in the proc file system

    [internal/info/proc] (GPU information files and /proc/devices),
    [internal/info/drm] (DRM device nodes) and [internal/nvcaps] (MIG
    capabilities). Files are read through the interface [HostFiles]. *)
From S2P Require Import Prelude GoStrings Glob Lookup.

(** Why a file cannot be read: it does not exist, cannot be opened for another
    reason, or cannot be read once it is open. *)
Inductive file_error : Type := NotExist | NotOpened (text : string) | NotRead (text : string).
(** The contents of the file system: [os.Open] and reading to the end, with the
    reason where there is no result, and [os.ReadDir] with the names and whether
    they are directories. *)
Class HostFiles := {
  os_ReadFile : string -> option string;
  os_ReadError : string -> file_error;
  os_ReadDir : string -> option (list (string * bool));
}.

(** ** [bufio.Scanner]

    Lines without their end, up to the first line that does not fit the
    buffer of 64 KiB; text after the last newline counts if there is any. *)
Definition newline_byte : ascii := ascii_of_N 10.
Definition drop_cr (line : string) : string := trim_suffix line (str1 13).
Fixpoint drop_last_empty (l : list string) : list string :=
  match l with
  | [] => []
  | [x] => if String.eqb x "" then [] else [x]
  | x :: l => x :: drop_last_empty l
  end.
Fixpoint take_short (l : list string) : list string :=
  match l with
  | [] => []
  | x :: l => if N.ltb (N.of_nat (String.length x)) 65536 then x :: take_short l else []
  end.
Definition scan_lines (s : string) : list string :=
  map drop_cr (take_short (drop_last_empty (split_byte newline_byte s))).

(** The text of some lines, each with its end. *)
Definition text_of (lines : list string) : string := foldr (fun l t => l +:+ String newline_byte t) "" lines.
Lemma split_text_of lines : Forall (fun l => has_byte newline_byte l = false) lines ->
  split_byte newline_byte (text_of lines) = lines ++ [""].
Proof. induction 1 as [|l lines Hl _ IH]; [done|]. cbn [text_of foldr app]. fold (text_of lines). by rewrite split_byte_app, IH. Qed.
Lemma drop_last_empty_snoc lines : drop_last_empty (lines ++ [""]) = lines.
Proof. induction lines as [|x [|y lines] IH]; [done|done|]. cbn [app drop_last_empty] in *. by rewrite IH. Qed.
Lemma scan_text_of lines : Forall (fun l => has_byte newline_byte l = false) lines ->
  scan_lines (text_of lines) = map drop_cr (take_short lines).
Proof. intros Hl. unfold scan_lines. by rewrite split_text_of, drop_last_empty_snoc. Qed.
Lemma text_of_app ls ks : text_of (ls ++ ks) = text_of ls +:+ text_of ks.
Proof. induction ls as [|l ls IH]; [done|]. cbn [text_of foldr app]. fold (text_of (ls ++ ks)). rewrite IH, <- sapp_assoc. done. Qed.
Lemma scan_lines_free s : Forall (fun l => has_byte newline_byte l = false) (scan_lines s).
Proof.
  assert (Hdrop : forall (P : string -> Prop) l, Forall P l -> Forall P (drop_last_empty l)).
  { intros P l. induction 1 as [|x [|y l] Hx Hl IH]; [constructor|cbn; destruct (String.eqb x ""); by repeat constructor|by constructor]. }
  assert (Hshort : forall (P : string -> Prop) l, Forall P l -> Forall P (take_short l)).
  { intros P l. induction 1 as [|x l Hx Hl IH]; cbn [take_short]; [constructor|destruct (N.ltb _ _); by constructor]. }
  unfold scan_lines. apply Forall_map. eapply Forall_impl; [apply Hshort, Hdrop, split_byte_free|].
  intros l Hl. cbn. unfold drop_cr, trim_suffix. destruct (has_suffix l (str1 13)) eqn:Hs; [|done].
  apply has_suffix_spec in Hs as [r ->]. rewrite slength_app, Nat.add_sub, stake_app.
  rewrite has_byte_app in Hl. by apply orb_false_iff in Hl as [? _].
Qed.

(** ** [fmt.Sscanf] with [%d] and [%s] *)

Definition skip_space (s : string) : string := trim_any_left (String.length s) space_runes s.
Fixpoint span_digits (s : string) : string * string :=
  match s with
  | String c r => if is_digit c then let (d, r) := span_digits r in (String c d, r) else ("", s)
  | "" => ("", "")
  end.
(** [%d]: leading space, a sign and at least one digit, within 64 bits. *)
Definition scan_int (s : string) : option (Z * string) :=
  let s := skip_space s in
  let '(neg, s) := match s with
                   | String "-" r => (true, r)
                   | String "+" r => (false, r)
                   | _ => (false, s)
                   end in
  let (d, r) := span_digits s in
  if String.eqb d "" then None
  else let v := (if neg then - digits_val 0 d else digits_val 0 d)%Z in
       if ((- 2 ^ 63 <=? v) && (v <? 2 ^ 63))%Z then Some (v, r) else None.
(** The text up to the first space. *)
Fixpoint span_word (fuel : nat) (s : string) : string :=
  match fuel, s with
  | S fuel, String c r =>
      match List.find (has_prefix s) space_runes with
      | Some _ => ""
      | None => String c (span_word fuel r)
      end
  | _, _ => ""
  end.
Definition starts_with_space (s : string) : bool :=
  match List.find (has_prefix s) space_runes with Some _ => true | None => false end.
(** [Sscanf(s, "%d %s", ...)] with two values read. *)
Definition scan_int_word (s : string) : option (Z * string) :=
  match scan_int s with
  | None => None
  | Some (n, r) =>
      if starts_with_space r then
        let w := skip_space r in
        let name := span_word (String.length w) w in
        if String.eqb name "" then None else Some (n, name)
      else None
  end.
(** Literal text of a format. *)
Definition scan_lit (p s : string) : option string :=
  if has_prefix s p then Some (sdrop (String.length p) s) else None.

(** ** GPU information files (information_files.go) *)

Definition GPUInfoModel : string := "Model".
Definition GPUInfoGPUUUID : string := "GPU UUID".
Definition GPUInfoBusLocation : string := "Bus Location".
Definition GPUInfoDeviceMinor : string := "Device Minor".

Definition gpuInfoFrom (contents : string) : gmap string string :=
  foldl (fun info line => match cut ":" line with
                          | Some (field, value) => <[field := trim_space value]> info
                          | None => info
                          end) ∅ (scan_lines contents).
Definition ParseGPUInformationFile `{HostFiles} (path : string) : result (gmap string string) :=
  match os_ReadFile path with
  | Some contents => Ok (gpuInfoFrom contents)
  | None => match os_ReadError path with
            | NotExist => Err ("failed to open " +:+ path +:+ ": open " +:+ path +:+ ": no such file or directory")
            | NotOpened e => Err ("failed to open " +:+ path +:+ ": " +:+ e)
            | NotRead _ => Ok (gpuInfoFrom "")
            end
  end.

(** [filepath.Glob] with its error for a malformed pattern. *)
Definition Glob `{Host} (pattern : string) : result (list string) :=
  match glob_match pattern "" with
  | None => Err "syntax error in pattern"
  | Some _ => Ok (filepath_Glob pattern)
  end.
Definition GetInformationFilePaths `{Host} (root : string) : result (list string) :=
  Glob (path_join [root; "/proc/driver/nvidia/gpus/*/information"]).

(** ** DRM device nodes (drm_devices.go) *)

Definition GetDeviceNodesByBusID `{Host} (busID : string) : result (list string) :=
  let drmRoot := path_join ["/sys/bus/pci/devices"; busID; "drm"] in
  let? found := Glob (drmRoot +:+ "/*") in
  Ok (map (fun m => path_join ["/dev/dri"; path_base m]) found).

(** ** Device majors (proc/devices) *)

Definition NVIDIAFrontend : string := "nvidia-frontend".
Definition NVIDIAGPU : string := "nvidia".
Definition NVIDIACaps : string := "nvidia-caps".
Definition NVIDIAUVM : string := "nvidia-uvm".
Definition nvidiaDevicePrefix : string := "nvidia".
Definition procDevicesPath : string := "/proc/devices".

Abbreviation devices := (gmap string Z).

Definition getWithFallback (n : string) : list string :=
  if String.eqb n NVIDIAGPU || String.eqb n NVIDIAFrontend then [NVIDIAGPU; NVIDIAFrontend] else [n].
Fixpoint get_loop (d : devices) (names : list string) : option Z :=
  match names with
  | [] => None
  | n :: names => match d !! n with Some m => Some m | None => get_loop d names end
  end.
Definition Get (d : devices) (name : string) : option Z := get_loop d (getWithFallback name).
Definition Exists (d : devices) (name : string) : bool :=
  match Get d name with Some _ => true | None => false end.
Definition Count (d : devices) : nat := size d.

(** [New] with [WithDeviceToMajor] and [WithFilter]: the filter excludes. *)
Definition New (deviceToMajor : gmap string Z) (filter : string -> bool) : devices :=
  base.filter (fun kv : string * Z => filter kv.1 = false) deviceToMajor.

Definition processProcDeviceLine (line : string) : result (string * Z) :=
  match scan_int_word (trim_space line) with
  | Some (major, name) => Ok (name, major)
  | None => Err ("unparsable line: " +:+ line)
  end.
Definition devicesFrom (contents : string) : gmap string Z :=
  foldl (fun m line => match processProcDeviceLine line with
                       | Ok (device, major) => <[device := major]> m
                       | Err _ => m
                       end) ∅ (scan_lines contents).
Definition nvidiaDeviceFrom (contents : string) : result devices :=
  let d := New (devicesFrom contents) (fun n => negb (has_prefix n nvidiaDevicePrefix)) in
  if Nat.eqb (Count d) 0 then Err "no NVIDIA devices found" else Ok d.
(** A missing file gives nil devices; the error of a scanner is not looked at. *)
Definition nvidiaDevices `{HostFiles} (devicesPath : string) : result (option devices) :=
  let from contents := let? d := nvidiaDeviceFrom contents in Ok (Some d) in
  match os_ReadFile devicesPath with
  | Some contents => from contents
  | None => match os_ReadError devicesPath with
            | NotExist => Ok None
            | NotOpened e => Err ("error opening devices file: " +:+ e)
            | NotRead _ => from ""
            end
  end.

(** ** MIG capabilities (nvcaps.go) *)

Definition nvidiaCapabilitiesPath : string := "/proc/driver/nvidia/capabilities".
Definition nvcapsMigMinorsPath : string := "/proc/driver/nvidia-caps/mig-minors".
Definition nvcapsDevicePath : string := "/dev/nvidia-caps".

Definition NewGPUInstanceCap (gpu gi : Z) : string := "gpu" +:+ fmt_Z gpu +:+ "/gi" +:+ fmt_Z gi +:+ "/access".
Definition NewComputeInstanceCap (gpu gi ci : Z) : string :=
  "gpu" +:+ fmt_Z gpu +:+ "/gi" +:+ fmt_Z gi +:+ "/ci" +:+ fmt_Z ci +:+ "/access".

(** The number of values that a [Sscanf] format of literals, each followed by
    [%d], reads. *)
Fixpoint scan_count (lits : list string) (s : string) : nat :=
  match lits with
  | [] => 0
  | l :: lits =>
      match scan_lit l s with
      | None => 0
      | Some r => match scan_int r with None => 0 | Some (_, r) => S (scan_count lits r) end
      end
  end.
Definition MigCap_isValid (cap : string) : bool :=
  if String.eqb cap "config" || String.eqb cap "monitor" then true
  else if Nat.eqb (scan_count ["gpu"; "/gi"; "/ci"] cap) 3 then true
  else Nat.eqb (scan_count ["gpu"; "/gi"] cap) 2.

Definition processMigMinorsLine (line : string) : result (string * Z) :=
  match split " " line with
  | [migCap; m] =>
      if negb (MigCap_isValid migCap) then Err ("invalid MIG minors line: '" +:+ line +:+ "'")
      else match atoi m with
           | None => Err ("error reading MIG minor from '" +:+ line +:+ "'")
           | Some minor => Ok (migCap, minor)
           end
  | _ => Err ("error processing line: " +:+ line)
  end.
Definition processMinorsFile (contents : string) : gmap string Z :=
  foldl (fun m line => match processMigMinorsLine line with
                       | Ok (cap, minor) => <[cap := minor]> m
                       | Err _ => m
                       end) ∅ (scan_lines contents).
(** A missing file gives nil capabilities. *)
Definition NewMigCaps `{HostFiles} : result (option (gmap string Z)) :=
  match os_ReadFile nvcapsMigMinorsPath with
  | Some contents => Ok (Some (processMinorsFile contents))
  | None => match os_ReadError nvcapsMigMinorsPath with
            | NotExist => Ok None
            | NotOpened e => Err ("error opening MIG minors file: " +:+ e)
            | NotRead _ => Ok (Some (processMinorsFile ""))
            end
  end.

Definition MigMinor_DevicePath (m : Z) : string := nvcapsDevicePath +:+ "/nvidia-cap" +:+ fmt_Z m.
Definition GetCapDevicePath (caps : gmap string Z) (cap : string) : result string :=
  match caps !! cap with
  | None => Err ("invalid MIG capability path " +:+ cap)
  | Some minor => Ok (MigMinor_DevicePath minor)
  end.
(** [None] when [parts[1]] is out of range. *)
Definition MigCap_ProcPath (cap : string) : option string :=
  if String.eqb cap "config" || String.eqb cap "monitor"
  then Some (path_join [nvidiaCapabilitiesPath; "mig/" +:+ cap])
  else match cut "/" cap with
       | Some (a, b) => Some (path_join [nvidiaCapabilitiesPath; join "/" [a; "mig"; b]])
       | None => None
       end.
