(* ===== verification/ProcInfoProps.v ===== *)
(** * Properties of driver information *)
From S2P Require Import Prelude GoStrings Json Lookup ProcInfo.

(** ** Decimal numbers *)

Lemma digit_val_char x : (x < 10)%N -> digit_val (pretty.pretty_N_char x) = Z.of_N x.
Proof. intros Hx. destruct x as [|p]; [done|]. do 4 (destruct p as [p|p|]; try done; try lia). Qed.

Lemma digits_val_go x s : digits_val 0 (pretty.pretty_N_go x s) = digits_val (Z.of_N x) s.
Proof.
  revert s. induction (N.lt_wf_0 x) as [x _ IH]. intros s.
  destruct (decide (x = 0)%N) as [->|Hx]; [by rewrite pretty.pretty_N_go_0|].
  rewrite pretty.pretty_N_go_step by lia. rewrite IH by (apply N.div_lt; lia). simpl.
  rewrite digit_val_char by by apply N.mod_lt. f_equal.
  rewrite N2Z.inj_div, N2Z.inj_mod. pose proof (Z.div_mod (Z.of_N x) 10). lia.
Qed.

Lemma digits_go x s : string_all is_digit s = true -> string_all is_digit (pretty.pretty_N_go x s) = true.
Proof.
  revert s. induction (N.lt_wf_0 x) as [x _ IH]. intros s Hs.
  destruct (decide (x = 0)%N) as [->|Hx]; [by rewrite pretty.pretty_N_go_0|].
  rewrite pretty.pretty_N_go_step by lia. apply IH; [by apply N.div_lt; lia|].
  simpl. by rewrite Hs, pretty_N_char_digit by by apply N.mod_lt.
Qed.

(** Printing and reading a number that is not negative. *)
Lemma fmt_Z_digits n : (0 <= n)%Z ->
  fmt_Z n <> "" /\ string_all is_digit (fmt_Z n) = true /\ digits_val 0 (fmt_Z n) = n.
Proof.
  intros Hn. destruct n as [|p|p]; [done| |lia].
  change (fmt_Z (Z.pos p)) with (pretty.pretty (Npos p)). unfold pretty.pretty, pretty.pretty_N.
  case_decide; [done|]. split; [|by split; [apply digits_go|rewrite digits_val_go]].
  rewrite pretty.pretty_N_go_step by lia.
  destruct (pretty_N_go_cons (N.pos p `div` 10) (String (pretty.pretty_N_char (N.pos p `mod` 10)) ""))
    as (c & r & ->); [eauto|done].
Qed.

Lemma span_digits_app d r : string_all is_digit d = true ->
  (forall c t, r = String c t -> is_digit c = false) -> span_digits (d +:+ r) = (d, r).
Proof.
  intros Hd Hr. induction d as [|c d IH]; simpl.
  - destruct r as [|c t]; [done|]. simpl. by rewrite (Hr _ _ eq_refl).
  - simpl in Hd. apply andb_prop in Hd as [Hc Hd]. by rewrite Hc, (IH Hd).
Qed.

Lemma find_space_digit c s : is_digit c = true -> List.find (has_prefix (String c s)) space_runes = None.
Proof.
  intros Hc. destruct (List.find _ _) as [p|] eqn:Hf; [|done]. apply find_some in Hf as [Hp Hpre].
  assert (Hlist : forallb (fun p => match p with String d _ => negb (is_digit d) | "" => false end) space_runes = true)
    by (vm_compute; reflexivity).
  rewrite forallb_forall in Hlist. specialize (Hlist p Hp).
  destruct p as [|d p]; [done|]. rewrite has_prefix_cons in Hpre. apply andb_prop in Hpre as [->%Ascii.eqb_eq _].
  by rewrite Hc in Hlist.
Qed.

Lemma scan_int_app n r : (0 <= n < 2 ^ 63)%Z -> (forall c t, r = String c t -> is_digit c = false) ->
  scan_int (fmt_Z n +:+ r) = Some (n, r).
Proof.
  intros Hn Hr. destruct (fmt_Z_digits n) as (Hne & Hd & Hv); [lia|].
  pose proof (span_digits_app _ r Hd Hr) as Hs. unfold scan_int, skip_space.
  destruct (fmt_Z n) as [|c d]; [done|]. pose proof Hd as Hc. simpl in Hc. apply andb_prop in Hc as [Hc _].
  change (String c d +:+ r) with (String c (d +:+ r)) in *. cbn [trim_any_left String.length].
  rewrite find_space_digit by done.
  assert (Hmatch : (match String c (d +:+ r) with
      | String "-" r0 => (true, r0) | String "+" r0 => (false, r0) | _ => (false, String c (d +:+ r)) end)
      = (false, String c (d +:+ r))).
  { destruct c as [[] [] [] [] [] [] [] []]; done. }
  rewrite Hmatch. rewrite Hs. simpl String.eqb. cbv iota. rewrite Hv.
  rewrite (proj2 (Z.leb_le (-2 ^ 63) n)) by lia. by rewrite (proj2 (Z.ltb_lt n (2 ^ 63))) by lia.
Qed.

Lemma atoi_fmt n : (0 <= n < 2 ^ 63)%Z -> atoi (fmt_Z n) = Some n.
Proof.
  intros Hn. destruct (fmt_Z_digits n) as (Hne & Hd & Hv); [lia|]. unfold atoi.
  assert (Hmatch : (match fmt_Z n with
      | String "-" d => (true, d) | String "+" d => (false, d) | _ => (false, fmt_Z n) end) = (false, fmt_Z n)).
  { destruct (fmt_Z n) as [|c d]; [done|]. simpl in Hd. apply andb_prop in Hd as [Hc _].
    destruct c as [[] [] [] [] [] [] [] []]; done. }
  rewrite Hmatch, Hd, (proj2 (String.eqb_neq _ _) Hne). simpl negb. cbv iota. simpl andb. cbv iota. rewrite Hv.
  rewrite (proj2 (Z.leb_le (-2 ^ 63) n)) by lia. by rewrite (proj2 (Z.ltb_lt n (2 ^ 63))) by lia.
Qed.

(** ** MIG capabilities *)

Lemma trim_any_left_suffix fuel ps s : exists a, s = a +:+ trim_any_left fuel ps s.
Proof.
  revert s. induction fuel as [|fuel IH]; intros s; simpl; [by exists ""|].
  destruct (List.find _ ps) as [p|] eqn:Hf; [|by exists ""]. apply find_some in Hf as [_ Hp].
  apply has_prefix_spec in Hp as [r ->]. rewrite sdrop_app. destruct (IH r) as [a Ha].
  exists (p +:+ a). by rewrite <- sapp_assoc, <- Ha.
Qed.

Lemma span_digits_suffix s : s = (span_digits s).1 +:+ (span_digits s).2.
Proof.
  induction s as [|c s IH]; simpl; [done|]. destruct (is_digit c); [|done].
  destruct (span_digits s) as [d r]. simpl in *. by rewrite <- IH.
Qed.

Lemma scan_int_suffix s n r : scan_int s = Some (n, r) -> exists a, s = a +:+ r.
Proof.
  unfold scan_int, skip_space. destruct (trim_any_left_suffix (String.length s) space_runes s) as [a Ha].
  set (t := trim_any_left _ _ s) in *.
  assert (Hsign : exists neg b u, (match t with
      | String "-" r => (true, r) | String "+" r => (false, r) | _ => (false, t) end) = (neg, u) /\ t = b +:+ u).
  { destruct t as [|c t]; [by exists false, "", ""|].
    destruct (Ascii.eqb_spec c "-") as [->|]; [by exists true, "-", t|].
    destruct (Ascii.eqb_spec c "+") as [->|]; [by exists false, "+", t|].
    exists false, "", (String c t). split; [|done]. destruct c as [[] [] [] [] [] [] [] []]; done. }
  destruct Hsign as (neg & b & u & -> & Hb). pose proof (span_digits_suffix u) as Hu.
  destruct (span_digits u) as [d v]. simpl in Hu. destruct (String.eqb d ""); [done|].
  destruct (_ && _)%Z; [|done]. intros [= _ <-]. exists (a +:+ b +:+ d).
  rewrite Ha at 1. rewrite Hb, Hu. by rewrite !sapp_assoc.
Qed.

Lemma scan_lit_app p r : scan_lit p (p +:+ r) = Some r.
Proof. unfold scan_lit. by rewrite has_prefix_app, sdrop_app. Qed.

Definition no_digit (r : string) : Prop := forall c t, r = String c t -> is_digit c = false.

(** Everything that starts like the capability of a GPU instance is accepted,
    whatever follows; a valid capability has a slash, so its path under /proc
    is defined. *)
Theorem MigCap_isValid_spec cap :
  (MigCap_isValid cap = true -> is_Some (MigCap_ProcPath cap))
  /\ (forall gpu gi r, (0 <= gpu < 2 ^ 63)%Z -> (0 <= gi < 2 ^ 63)%Z -> no_digit r ->
      cap = "gpu" +:+ fmt_Z gpu +:+ "/gi" +:+ fmt_Z gi +:+ r -> MigCap_isValid cap = true).
Proof.
  split.
  - unfold MigCap_isValid, MigCap_ProcPath. destruct (String.eqb cap "config" || _); [done|]. intros H.
    assert (Hs : exists n, scan_count ["gpu"; "/gi"] cap = S (S n)).
    { destruct (Nat.eqb_spec (scan_count ["gpu"; "/gi"; "/ci"] cap) 3) as [H3|_];
        [|apply Nat.eqb_eq in H; by exists 0]. exists 0. simpl in *.
      destruct (scan_lit "gpu" cap) as [r|]; [|done]. destruct (scan_int r) as [[? r2]|]; [|done].
      destruct (scan_lit "/gi" r2) as [r3|]; [|done]. by destruct (scan_int r3) as [[? ?]|]. }
    destruct Hs as [n Hs]. simpl in Hs. unfold scan_lit in Hs at 1.
    destruct (has_prefix cap "gpu") eqn:Hp; [|done]. apply has_prefix_spec in Hp as [r ->].
    rewrite sdrop_app in Hs. destruct (scan_int r) as [[k r2]|] eqn:Hi; [|done].
    apply scan_int_suffix in Hi as [a ->]. unfold scan_lit in Hs.
    destruct (has_prefix r2 "/gi") eqn:Hp2; [|done]. apply has_prefix_spec in Hp2 as [r3 ->].
    destruct (cut "/" ("gpu" +:+ a +:+ "/gi" +:+ r3)) as [[x y]|] eqn:Hc; [by eexists|].
    change "/" with (String slash "") in Hc. apply cut_byte_none in Hc. rewrite !has_byte_app in Hc.
    simpl in Hc. by rewrite orb_true_r in Hc.
  - intros gpu gi r Hg Hi Hr ->. unfold MigCap_isValid.
    assert (scan_count ["gpu"; "/gi"] ("gpu" +:+ fmt_Z gpu +:+ "/gi" +:+ fmt_Z gi +:+ r) = 2) as ->.
    { cbn [scan_count]. rewrite scan_lit_app, scan_int_app by (done || by intros c t [= <- _]).
      by rewrite scan_lit_app, scan_int_app. }
    destruct (_ || _); [done|]. by destruct (Nat.eqb (scan_count ["gpu"; "/gi"; "/ci"] _) 3).
Qed.

(** The capabilities of GPU instances, with the number of the compute
    instance if there is one. *)
Definition instance_cap (i : Z * Z * option Z) : string :=
  let '(gpu, gi, ci) := i in
  match ci with None => NewGPUInstanceCap gpu gi | Some ci => NewComputeInstanceCap gpu gi ci end.
Definition minors_line (e : (Z * Z * option Z) * Z) : string := instance_cap e.1 +:+ " " +:+ fmt_Z e.2.
Definition minors_file (l : list ((Z * Z * option Z) * Z)) : string :=
  foldr (fun e s => minors_line e +:+ String newline_byte s) "" l.

Definition in_int (n : Z) : Prop := (0 <= n < 2 ^ 63)%Z.
Definition entry_ok (e : (Z * Z * option Z) * Z) : Prop :=
  let '(gpu, gi, ci, minor) := e in
  in_int gpu /\ in_int gi /\ in_int (default 0%Z ci) /\ in_int minor
  /\ (N.of_nat (String.length (minors_line e)) < 65536)%N.

Lemma fmt_free c n : in_int n -> is_digit c = false -> has_byte c (fmt_Z n) = false.
Proof.
  intros Hn Hc. destruct (fmt_Z_digits n) as (_ & Hd & _); [unfold in_int in Hn; lia|].
  induction (fmt_Z n) as [|d s IH]; [done|]. simpl in Hd. apply andb_prop in Hd as [Hd Hs].
  unfold has_byte in *. simpl. rewrite (IH Hs), orb_false_r. destruct (Ascii.eqb_spec c d); congruence.
Qed.

Lemma minors_line_ok e : entry_ok e -> processMigMinorsLine (minors_line e) = Ok (instance_cap e.1, e.2).
Proof.
  destruct e as [[[gpu gi] ci] minor]. intros (Hg & Hi & Hc & Hm & _). unfold processMigMinorsLine, minors_line.
  cbn [fst snd]. set (cap := instance_cap (gpu, gi, ci)).
  assert (Hfree : has_byte " " cap = false).
  { unfold cap. destruct ci as [ci|]; simpl in Hc; cbn [instance_cap];
      unfold NewGPUInstanceCap, NewComputeInstanceCap; by rewrite !has_byte_app, !fmt_free by done. }
  assert (Hsplit : split " " (cap +:+ " " +:+ fmt_Z minor) = [cap; fmt_Z minor]).
  { unfold split. change (" " +:+ fmt_Z minor) with (String " " (fmt_Z minor)).
    rewrite slength_app, Nat.add_comm. cbn [String.length Nat.add]. cbn [splitN].
    change " " with (String " " ""). rewrite cut_byte_app by done. f_equal.
    assert (Hnone : cut (String " " "") (fmt_Z minor) = None) by by apply cut_byte_none, fmt_free.
    destruct (String.length (fmt_Z minor) + String.length cap) as [|k]; [done|]. cbn [splitN].
    change (cut " " (fmt_Z minor)) with (cut (String " " "") (fmt_Z minor)). by rewrite Hnone. }
  rewrite Hsplit. unfold cap. assert (MigCap_isValid (instance_cap (gpu, gi, ci)) = true) as ->.
  { destruct (MigCap_isValid_spec (instance_cap (gpu, gi, ci))) as [_ Hv].
    destruct ci as [ci|]; cbn [instance_cap]; unfold NewGPUInstanceCap, NewComputeInstanceCap.
    - apply (Hv gpu gi ("/ci" +:+ fmt_Z ci +:+ "/access")); try done. by intros c t [= <- _].
    - apply (Hv gpu gi "/access"); try done. by intros c t [= <- _]. }
  cbn [negb]. by rewrite atoi_fmt.
Qed.

Lemma drop_cr_digits a n : in_int n -> drop_cr (a +:+ fmt_Z n) = a +:+ fmt_Z n.
Proof.
  intros Hn. unfold drop_cr, trim_suffix. destruct (has_suffix _ _) eqn:Hs; [|done]. exfalso.
  apply has_suffix_spec in Hs as [r Hr]. destruct (fmt_Z_digits n) as (Hne & Hd & _); [unfold in_int in Hn; lia|].
  assert (Hrev : exists c t, srev (fmt_Z n) = String c t /\ is_digit c = true).
  { assert (Hall : string_all is_digit (srev (fmt_Z n)) = true).
    { clear -Hd. assert (Happ : forall s acc, string_all is_digit s = true -> string_all is_digit acc = true ->
        string_all is_digit (srev_app s acc) = true).
      { induction s as [|c s IH]; intros acc Hs Ha; simpl in *; [done|]. apply andb_prop in Hs as [Hc Hs].
        apply IH; [done|]. simpl. by rewrite Hc. }
      by apply Happ. }
    destruct (srev (fmt_Z n)) as [|c t] eqn:E.
    - apply (f_equal srev) in E. rewrite srev_involutive in E. by rewrite E in Hne.
    - exists c, t. split; [done|]. simpl in Hall. by apply andb_prop in Hall as [? _]. }
  destruct Hrev as (c & t & Hct & Hc). apply (f_equal srev) in Hr. rewrite !srev_sapp, Hct in Hr.
  change (srev (str1 13)) with (String (ascii_of_N 13) "") in Hr. injection Hr as -> _. done.
Qed.

Lemma minors_line_free e : entry_ok e -> has_byte newline_byte (minors_line e) = false.
Proof.
  destruct e as [[[gpu gi] ci] minor]. intros (Hg & Hi & Hc & Hm & _). unfold minors_line. cbn [fst snd].
  destruct ci as [ci|]; simpl in Hc; cbn [instance_cap]; unfold NewGPUInstanceCap, NewComputeInstanceCap;
    by rewrite !has_byte_app, !fmt_free by done.
Qed.

Lemma scan_minors_file l : Forall entry_ok l -> scan_lines (minors_file l) = map minors_line l.
Proof.
  intros Hl. assert (Htext : minors_file l = text_of (map minors_line l)).
  { clear Hl. induction l as [|e l IH]; [done|]. cbn [map minors_file text_of foldr]. unfold text_of in IH. by rewrite <- IH. }
  rewrite Htext, scan_text_of by (apply Forall_map; eapply Forall_impl; [exact Hl|apply minors_line_free]).
  clear Htext. induction Hl as [|e l He Hl IH]; [done|]. cbn [map take_short].
  destruct e as [[[gpu gi] ci] minor]. pose proof He as (_ & _ & _ & Hm & Hlen).
  rewrite (proj2 (N.ltb_lt _ _) Hlen). cbn [map]. rewrite IH. f_equal.
  unfold minors_line. cbn [fst snd]. rewrite sapp_assoc. by apply drop_cr_digits.
Qed.

(** Reading the MIG minors file that the driver writes, a line per capability
    of a GPU or compute instance, gives the map from the capabilities to their
    device minors. *)
Theorem mig_minors_roundtrip l : Forall entry_ok l ->
  processMinorsFile (minors_file l) = map_of (map (fun e => (instance_cap e.1, e.2)) l).
Proof.
  intros Hl. unfold processMinorsFile, map_of. rewrite scan_minors_file by done. generalize (∅ : gmap string Z).
  induction Hl as [|e l He Hl IH]; intros m; [done|]. cbn [map foldl]. by rewrite minors_line_ok.
Qed.

Theorem mig_minors_roundtrip_witness :
  processMinorsFile (minors_file [((0%Z, 1%Z, None), 3%Z); ((0%Z, 1%Z, Some 2%Z), 4%Z)])
  = map_of [("gpu0/gi1/access", 3%Z); ("gpu0/gi1/ci2/access", 4%Z)].
Proof.
  apply (mig_minors_roundtrip [((0%Z, 1%Z, None), 3%Z); ((0%Z, 1%Z, Some 2%Z), 4%Z)]).
  repeat constructor; vm_compute; congruence.
Defined.

(** ** Device majors *)

(** The devices of /proc/devices are the last major of every name with the
    prefix [nvidia] and there is at least one, or else there is an error; the
    GPU device has the same major under its old and its new name. *)
Theorem nvidiaDeviceFrom_spec contents :
  (nvidiaDeviceFrom contents = Err "no NVIDIA devices found"
   /\ forall n m, devicesFrom contents !! n = Some m -> has_prefix n "nvidia" = false)
  \/ (exists d, nvidiaDeviceFrom contents = Ok d /\ d <> ∅
      /\ (forall n m, d !! n = Some m <-> devicesFrom contents !! n = Some m /\ has_prefix n "nvidia" = true)
      /\ Get d NVIDIAGPU = Get d NVIDIAFrontend).
Proof.
  unfold nvidiaDeviceFrom. set (d := New _ _).
  assert (Hd : forall n m, d !! n = Some m <-> devicesFrom contents !! n = Some m /\ has_prefix n "nvidia" = true).
  { intros n m. unfold d, New. rewrite map_lookup_filter_Some. simpl. by rewrite negb_false_iff. }
  destruct (Nat.eqb_spec (Count d) 0) as [H0|H0].
  - left. split; [done|]. intros n m Hn. apply map_size_empty_inv in H0.
    destruct (has_prefix n "nvidia") eqn:Hp; [|done]. destruct (Hd n m) as [_ Hx].
    rewrite H0, lookup_empty in Hx. by specialize (Hx (conj Hn Hp)).
  - right. exists d. split; [done|]. split; [|by split].
    intros He. apply H0. unfold Count. rewrite He. apply map_size_empty.
Qed.
