(* ===== verification/CDISpec.v ===== *)
(** * CDI specifications: data types and entity identities

    The types of the vendored CDI [specs-go] package
    (src/vendor/tags.cncf.io/container-device-interface/specs-go/config.go)
    and the identity that the transforms give to an entity: its JSON text
    (src/pkg/nvcdi/transform/edits.go). [ContainerEdits] is parametric in how
    entities are held: the transforms that only read entities use values, the
    root transforms, which write through the pointers, use addresses. Pointer
    fields are options; entity pointers are never nil. *)
From S2P Require Import Prelude GoStrings Json.

Record DeviceNode := mkDeviceNode {
  Path : string; HostPath : string; Type_ : string; Major : Z; Minor : Z;
  FileMode : option Z; Permissions : string; UID : option Z; GID : option Z;
}.

Record Mount := mkMount {
  Mount_HostPath : string; ContainerPath : string; Options : list string;
  Mount_Type : string;
}.

Record Hook := mkHook {
  HookName : string; Hook_Path : string; Hook_Args : list string;
  Hook_Env : list string; Hook_Timeout : option Z;
}.

Record IntelRdt := mkIntelRdt {
  ClosID : string; L3CacheSchema : string; MemBwSchema : string;
  Schemata : list string; EnableMonitoring : bool;
}.

Record LinuxNetDevice := mkLinuxNetDevice {
  HostInterfaceName : string; NetDevice_Name : string;
}.

Record ContainerEdits {D H M : Type} := mkEdits {
  Env : list string;
  DeviceNodes : list D;
  NetDevices : list LinuxNetDevice;
  Hooks : list H;
  Mounts : list M;
  IntelRdt_ : option IntelRdt;
  AdditionalGIDs : list Z;
}.
Arguments ContainerEdits : clear implicits.
Arguments mkEdits {D H M}.

Record Device {D H M : Type} := mkDevice {
  Device_Name : string;
  Device_Annotations : gmap string string;
  Device_Edits : ContainerEdits D H M;
}.
Arguments Device : clear implicits.
Arguments mkDevice {D H M}.

Record Spec {D H M : Type} := mkSpec {
  Version : string;
  Kind : string;
  Annotations : gmap string string;
  Devices : list (Device D H M);
  Spec_Edits : ContainerEdits D H M;
}.
Arguments Spec : clear implicits.
Arguments mkSpec {D H M}.

Abbreviation edits := (ContainerEdits DeviceNode Hook Mount).
Abbreviation device := (Device DeviceNode Hook Mount).
Abbreviation spec := (Spec DeviceNode Hook Mount).

Definition no_edits {D H M} : ContainerEdits D H M := mkEdits [] [] [] [] [] None [].

#[global] Instance DeviceNode_eq_dec : EqDecision DeviceNode.
Proof. solve_decision. Defined.
#[global] Instance Mount_eq_dec : EqDecision Mount.
Proof. solve_decision. Defined.
#[global] Instance Hook_eq_dec : EqDecision Hook.
Proof. solve_decision. Defined.

Section Updates.
Context {D H M : Type}.

Definition set_device_edits (e : ContainerEdits D H M) (d : Device D H M) : Device D H M :=
  mkDevice (Device_Name d) (Device_Annotations d) e.
Definition set_spec_edits (e : ContainerEdits D H M) (s : Spec D H M) : Spec D H M :=
  mkSpec (Version s) (Kind s) (Annotations s) (Devices s) e.
Definition set_devices (ds : list (Device D H M)) (s : Spec D H M) : Spec D H M :=
  mkSpec (Version s) (Kind s) (Annotations s) ds (Spec_Edits s).
Definition set_version (v : string) (s : Spec D H M) : Spec D H M :=
  mkSpec v (Kind s) (Annotations s) (Devices s) (Spec_Edits s).

(** [cdi.ContainerEdits.Append] of the vendored package: slices are
    concatenated and a non-nil RDT configuration replaces the previous one. *)
Definition Append (e o : ContainerEdits D H M) : ContainerEdits D H M :=
  mkEdits (Env e ++ Env o) (DeviceNodes e ++ DeviceNodes o)
    (NetDevices e ++ NetDevices o) (Hooks e ++ Hooks o) (Mounts e ++ Mounts o)
    (match IntelRdt_ o with Some r => Some r | None => IntelRdt_ e end)
    (AdditionalGIDs e ++ AdditionalGIDs o).
End Updates.

(** ** Identities *)

Definition deviceNode_fields (d : DeviceNode) : list field :=
  ("path", JStr (Path d)) :: opt_str "hostPath" (HostPath d) ++ opt_str "type" (Type_ d)
  ++ opt_num "major" (Major d) ++ opt_num "minor" (Minor d)
  ++ opt_ptr "fileMode" (FileMode d) ++ opt_str "permissions" (Permissions d)
  ++ opt_ptr "uid" (UID d) ++ opt_ptr "gid" (GID d).
Definition deviceNode_id (d : DeviceNode) : string := json_object (deviceNode_fields d).

Definition mount_fields (m : Mount) : list field :=
  ("hostPath", JStr (Mount_HostPath m)) :: ("containerPath", JStr (ContainerPath m))
  :: opt_arr "options" (Options m) ++ opt_str "type" (Mount_Type m).
Definition mount_id (m : Mount) : string := json_object (mount_fields m).

Definition hook_fields (h : Hook) : list field :=
  ("hookName", JStr (HookName h)) :: ("path", JStr (Hook_Path h))
  :: opt_arr "args" (Hook_Args h) ++ opt_arr "env" (Hook_Env h)
  ++ opt_ptr "timeout" (Hook_Timeout h).
Definition hook_id (h : Hook) : string := json_object (hook_fields h).

(** ** The identity of an entity with valid strings determines the entity *)

Definition utf8_node (d : DeviceNode) : Prop :=
  utf8 (Path d) /\ utf8 (HostPath d) /\ utf8 (Type_ d) /\ utf8 (Permissions d).
Definition utf8_mount (m : Mount) : Prop :=
  utf8 (Mount_HostPath m) /\ utf8 (ContainerPath m) /\ Forall utf8 (Options m) /\ utf8 (Mount_Type m).
Definition utf8_hook (h : Hook) : Prop :=
  utf8 (HookName h) /\ utf8 (Hook_Path h) /\ Forall utf8 (Hook_Args h) /\ Forall utf8 (Hook_Env h).

(** The value of a key in a field list. *)
Fixpoint flookup (k : string) (fs : list field) : option jval :=
  match fs with
  | [] => None
  | (k', v) :: fs => if String.eqb k k' then Some v else flookup k fs
  end.

Lemma flookup_app k l1 l2 :
  flookup k (l1 ++ l2) = match flookup k l1 with Some v => Some v | None => flookup k l2 end.
Proof. induction l1 as [|[k' v] l1 IH]; simpl; [done|]. by destruct (String.eqb k k'). Qed.
Lemma flookup_str k k' s :
  flookup k (opt_str k' s) = if String.eqb k k' then (if String.eqb s "" then None else Some (JStr s)) else None.
Proof. unfold opt_str. by destruct (String.eqb s ""); simpl; destruct (String.eqb k k'). Qed.
Lemma flookup_num k k' z :
  flookup k (opt_num k' z) = if String.eqb k k' then (if Z.eqb z 0 then None else Some (JNum z)) else None.
Proof. unfold opt_num. by destruct (Z.eqb z 0); simpl; destruct (String.eqb k k'). Qed.
Lemma flookup_ptr k k' o :
  flookup k (opt_ptr k' o) = if String.eqb k k' then JNum <$> o else None.
Proof. by destruct o; simpl; destruct (String.eqb k k'). Qed.
Lemma flookup_arr k k' l :
  flookup k (opt_arr k' l) = if String.eqb k k' then (match l with [] => None | _ => Some (JArr l) end) else None.
Proof. by destruct l; simpl; destruct (String.eqb k k'). Qed.
Create Rewrite HintDb flookup.
#[local] Hint Rewrite flookup_app flookup_str flookup_num flookup_ptr flookup_arr : flookup.

Lemma opt_str_inj (a b : string) :
  (if String.eqb a "" then None else Some (JStr a)) = (if String.eqb b "" then None else Some (JStr b)) -> a = b.
Proof.
  destruct (String.eqb_spec a ""), (String.eqb_spec b ""); congruence.
Qed.
Lemma opt_num_inj (a b : Z) :
  (if Z.eqb a 0 then None else Some (JNum a)) = (if Z.eqb b 0 then None else Some (JNum b)) -> a = b.
Proof. destruct (Z.eqb_spec a 0), (Z.eqb_spec b 0); congruence. Qed.
Lemma opt_ptr_inj (a b : option Z) : JNum <$> a = JNum <$> b -> a = b.
Proof. destruct a, b; simpl; congruence. Qed.
Lemma opt_arr_inj (a b : list string) :
  (match a with [] => None | _ => Some (JArr a) end) = (match b with [] => None | _ => Some (JArr b) end) -> a = b.
Proof. destruct a, b; congruence. Qed.

Lemma option_match_id (o : option jval) : match o with Some v => Some v | None => None end = o.
Proof. by destruct o. Qed.

(** Compare two field lists at one key. *)
Ltac field_eq He k :=
  let H := fresh "F" in
  pose proof (f_equal (flookup k) He) as H; cbn [flookup] in H;
  autorewrite with flookup in H; simpl in H; rewrite ?option_match_id in H;
  first [ injection H as H | apply opt_str_inj in H | apply opt_num_inj in H
        | apply opt_ptr_inj in H | apply opt_arr_inj in H ].

Lemma deviceNode_fields_inj a b : deviceNode_fields a = deviceNode_fields b -> a = b.
Proof.
  destruct a, b. intros He. unfold deviceNode_fields in He. cbn in He.
  field_eq He "path". field_eq He "hostPath". field_eq He "type". field_eq He "major".
  field_eq He "minor". field_eq He "fileMode". field_eq He "permissions".
  field_eq He "uid". field_eq He "gid". by subst.
Qed.
Lemma mount_fields_inj a b : mount_fields a = mount_fields b -> a = b.
Proof.
  destruct a, b. intros He. unfold mount_fields in He. cbn in He.
  field_eq He "hostPath". field_eq He "containerPath". field_eq He "options".
  field_eq He "type". by subst.
Qed.
Lemma hook_fields_inj a b : hook_fields a = hook_fields b -> a = b.
Proof.
  destruct a, b. intros He. unfold hook_fields in He. cbn in He.
  field_eq He "hookName". field_eq He "path". field_eq He "args".
  field_eq He "env". field_eq He "timeout". by subst.
Qed.

Lemma utf8_opt_str k s : utf8 k -> utf8 s -> Forall utf8_field (opt_str k s).
Proof. intros. unfold opt_str. by destruct (String.eqb s ""); repeat constructor. Qed.
Lemma utf8_opt_num k z : utf8 k -> Forall utf8_field (opt_num k z).
Proof. intros. unfold opt_num. by destruct (Z.eqb z 0); repeat constructor. Qed.
Lemma utf8_opt_ptr k o : utf8 k -> Forall utf8_field (opt_ptr k o).
Proof. intros. by destruct o; repeat constructor. Qed.
Lemma utf8_opt_arr k l : utf8 k -> Forall utf8 l -> Forall utf8_field (opt_arr k l).
Proof. intros ? Hl. destruct Hl; [constructor|]. by repeat constructor. Qed.

Ltac utf8_fields :=
  rewrite ?Forall_cons, ?Forall_app;
  repeat split; simpl; try done;
  first [ apply utf8_opt_str | apply utf8_opt_num | apply utf8_opt_ptr | apply utf8_opt_arr | idtac ];
  try done; by apply utf8_ascii.

Lemma deviceNode_id_inj a b :
  utf8_node a -> utf8_node b -> deviceNode_id a = deviceNode_id b -> a = b.
Proof.
  intros (? & ? & ? & ?) (? & ? & ? & ?) He. apply deviceNode_fields_inj.
  apply json_object_inj in He; [done| |]; unfold deviceNode_fields; utf8_fields.
Qed.
Lemma mount_id_inj a b : utf8_mount a -> utf8_mount b -> mount_id a = mount_id b -> a = b.
Proof.
  intros (? & ? & ? & ?) (? & ? & ? & ?) He. apply mount_fields_inj.
  apply json_object_inj in He; [done| |]; unfold mount_fields; utf8_fields.
Qed.
Lemma hook_id_inj a b : utf8_hook a -> utf8_hook b -> hook_id a = hook_id b -> a = b.
Proof.
  intros (? & ? & ? & ?) (? & ? & ? & ?) He. apply hook_fields_inj.
  apply json_object_inj in He; [done| |]; unfold hook_fields; utf8_fields.
Qed.
