(* ===== verification/Semver.v ===== *)
(** * Semantic versions

    The vendored package [golang.org/x/mod/semver] (src/vendor/golang.org/x/mod/semver/semver.go):
    [parse], [IsValid], [MajorMinor] and [Compare], translated function by
    function, and what the requirement checks need of them: on versions
    without prerelease, [Compare] is the numeric lexicographic order of
    (major, minor, patch). *)
From S2P Require Import Prelude.
From S2P Require Import GoStrings.

Record parsed := mkParsed {
  p_major : string; p_minor : string; p_patch : string;
  p_short : string; p_prerelease : string; p_build : string;
}.

Fixpoint span_digits (s : string) : string * string :=
  match s with
  | String c s' =>
      if is_digit c then let '(t, r) := span_digits s' in (String c t, r) else ("", s)
  | "" => ("", "")
  end.

Definition parseInt (v : string) : option (string * string) :=
  match v with
  | "" => None
  | String c _ =>
      if negb (is_digit c) then None
      else let '(t, rest) := span_digits v in
           if Ascii.eqb c "0" && negb (Nat.eqb (String.length t) 1) then None
           else Some (t, rest)
  end.

Definition isIdentChar (c : ascii) : bool := is_alnum c || Ascii.eqb c "-".

Definition isNum (v : string) : bool := string_all is_digit v.

Definition isBadNum (v : string) : bool :=
  isNum v && Nat.ltb 1 (String.length v) && has_prefix v "0".

(** The loops of [parsePrerelease] and [parseBuild]: [cur] is [v[start:i]],
    [acc] is [v[:i]]; [bad] is the test made at the end of an identifier. *)
Fixpoint ident_loop (stop : ascii -> bool) (bad : string -> bool) (cur acc v : string)
  : option (string * string) :=
  let fin := if String.eqb cur "" || bad cur then None else Some (acc, v) in
  match v with
  | "" => fin
  | String c v' =>
      if stop c then fin
      else if negb (isIdentChar c) && negb (Ascii.eqb c ".") then None
      else if Ascii.eqb c "." then
        if String.eqb cur "" || bad cur then None
        else ident_loop stop bad "" (acc +:+ ".") v'
      else ident_loop stop bad (cur +:+ String c "") (acc +:+ String c "") v'
  end.

Definition parsePrerelease (v : string) : option (string * string) :=
  match v with
  | String "-" v' => ident_loop (fun c => Ascii.eqb c "+") isBadNum "" "-" v'
  | _ => None
  end.

Definition parseBuild (v : string) : option (string * string) :=
  match v with
  | String "+" v' => ident_loop (fun _ => false) (fun _ => false) "" "+" v'
  | _ => None
  end.

Definition parse (v : string) : option parsed :=
  match v with
  | String "v" v =>
      '(major, v) ← parseInt v;
      match v with
      | "" => Some (mkParsed major "0" "0" ".0.0" "" "")
      | String "." v =>
          '(minor, v) ← parseInt v;
          match v with
          | "" => Some (mkParsed major minor "0" ".0" "" "")
          | String "." v =>
              '(patch, v) ← parseInt v;
              '(pre, v) ← (if has_prefix v "-" then parsePrerelease v else Some ("", v));
              '(build, v) ← (if has_prefix v "+" then parseBuild v else Some ("", v));
              if String.eqb v "" then Some (mkParsed major minor patch "" pre build) else None
          | _ => None
          end
      | _ => None
      end
  | _ => None
  end.

Definition IsValid (v : string) : bool :=
  match parse v with Some _ => true | None => false end.

Definition MajorMinor (v : string) : string :=
  match parse v with
  | None => ""
  | Some pv =>
      let i := 1 + String.length (p_major pv) in
      let j := i + 1 + String.length (p_minor pv) in
      if Nat.leb j (String.length v)
         && String.eqb (stake (1 + String.length (p_minor pv)) (sdrop i v)) ("." +:+ p_minor pv)
      then stake j v
      else stake i v +:+ "." +:+ p_minor pv
  end.

Definition compareInt (x y : string) : Z :=
  if String.eqb x y then 0
  else if Nat.ltb (String.length x) (String.length y) then -1
  else if Nat.ltb (String.length y) (String.length x) then 1
  else if sltb x y then -1 else 1.

Definition nextIdent (x : string) : string * string :=
  match cut "." x with
  | Some (dx, rest) => (dx, "." +:+ rest)
  | None => (x, "")
  end.

Definition compareIdent (dx dy : string) : Z :=
  let ix := isNum dx in
  let iy := isNum dy in
  if negb (Bool.eqb ix iy) then if ix then -1 else 1
  else if ix && Nat.ltb (String.length dx) (String.length dy) then -1
  else if ix && Nat.ltb (String.length dy) (String.length dx) then 1
  else if sltb dx dy then -1 else 1.

(** The [for x != "" && y != ""] loop; every turn shortens [x]. *)
Fixpoint comparePrerelease_loop (fuel : nat) (x y : string) : Z :=
  match fuel, x, y with
  | S fuel, String _ x, String _ y =>
      let '(dx, x) := nextIdent x in
      let '(dy, y) := nextIdent y in
      if negb (String.eqb dx dy) then compareIdent dx dy
      else comparePrerelease_loop fuel x y
  | _, "", _ => -1
  | _, _, _ => 1
  end.

Definition comparePrerelease (x y : string) : Z :=
  if String.eqb x y then 0
  else if String.eqb x "" then 1
  else if String.eqb y "" then -1
  else comparePrerelease_loop (S (String.length x)) x y.

Definition Compare (v w : string) : Z :=
  match parse v, parse w with
  | None, None => 0
  | None, Some _ => -1
  | Some _, None => 1
  | Some pv, Some pw =>
      let c := compareInt (p_major pv) (p_major pw) in
      if negb (c =? 0)%Z then c
      else
      let c := compareInt (p_minor pv) (p_minor pw) in
      if negb (c =? 0)%Z then c
      else
      let c := compareInt (p_patch pv) (p_patch pw) in
      if negb (c =? 0)%Z then c
      else comparePrerelease (p_prerelease pv) (p_prerelease pw)
  end.

(** ** Decimal numbers *)

Open Scope Z_scope.

Definition num (s : string) : Z := digits_val 0 s.

(** What [parseInt] accepts: digits, no leading zero. *)
Definition canonical (s : string) : Prop :=
  s <> "" /\ isNum s = true /\ (has_prefix s "0" = true -> String.length s = 1%nat).

Lemma digit_val_range c : is_digit c = true -> 0 <= digit_val c <= 9.
Proof.
  unfold is_digit, in_range, digit_val, byte_of. intros [H1 H2]%andb_true_iff.
  apply N.leb_le in H1, H2. change (N_of_ascii "0") with 48%N in H1.
  change (N_of_ascii "9") with 57%N in H2. lia.
Qed.

Lemma digits_val_acc acc s :
  digits_val acc s = acc * 10 ^ Z.of_nat (String.length s) + digits_val 0 s.
Proof.
  revert acc. induction s as [|c s IH]; intros acc; cbn [digits_val String.length]; [lia|].
  rewrite IH, (IH (0 * 10 + digit_val c)), Nat2Z.inj_succ, Z.pow_succ_r by lia. ring.
Qed.

Lemma num_cons c s :
  num (String c s) = digit_val c * 10 ^ Z.of_nat (String.length s) + num s.
Proof. unfold num. cbn [digits_val]. rewrite digits_val_acc. ring. Qed.

Lemma num_bound s : isNum s = true -> 0 <= num s < 10 ^ Z.of_nat (String.length s).
Proof.
  unfold isNum. induction s as [|c s IH]; [done|]. cbn [string_all].
  intros [Hc Hs]%andb_true_iff. rewrite num_cons. cbn [String.length].
  rewrite Nat2Z.inj_succ, Z.pow_succ_r by lia.
  apply digit_val_range in Hc. specialize (IH Hs). nia.
Qed.

Lemma num_lower c s :
  isNum (String c s) = true -> has_prefix (String c s) "0" = false ->
  10 ^ Z.of_nat (String.length s) <= num (String c s).
Proof.
  unfold isNum. cbn [string_all]. intros [Hc Hs]%andb_true_iff H0.
  rewrite num_cons. pose proof (num_bound s Hs). apply digit_val_range in Hc as Hr.
  assert (digit_val c <> 0); [|nia].
  intros Hz. unfold digit_val, byte_of in Hz.
  assert (N_of_ascii c = 48%N) as Hn by lia.
  assert (c = "0"%char) as ->.
  { rewrite <- (ascii_N_embedding c), Hn. done. }
  by rewrite has_prefix_cons, has_prefix_empty in H0.
Qed.

Lemma digit_val_compare c d :
  is_digit c = true -> is_digit d = true ->
  Ascii.compare c d = Z.compare (digit_val c) (digit_val d).
Proof.
  intros _ _. unfold Ascii.compare, digit_val, byte_of.
  rewrite <- N2Z.inj_compare. destruct (Z.compare_spec (Z.of_N (N_of_ascii c)) (Z.of_N (N_of_ascii d)));
    symmetry; [apply Z.compare_eq_iff | apply Z.compare_lt_iff | apply Z.compare_gt_iff]; lia.
Qed.

(** On strings of digits of one length, byte order is numeric order. *)
Lemma compare_num x y :
  isNum x = true -> isNum y = true -> String.length x = String.length y ->
  String.compare x y = Z.compare (num x) (num y).
Proof.
  unfold isNum. revert y. induction x as [|c x IH]; intros [|d y]; try done.
  cbn [string_all String.length String.compare].
  intros [Hc Hx]%andb_true_iff [Hd Hy]%andb_true_iff [= Hl].
  rewrite digit_val_compare, !num_cons, Hl, IH by done.
  pose proof (num_bound x Hx) as Bx. pose proof (num_bound y Hy) as By. rewrite Hl in Bx.
  set (P := 10 ^ Z.of_nat (String.length y)) in *.
  destruct (Z.compare_spec (digit_val c) (digit_val d)) as [->|Hlt|Hgt].
  - destruct (Z.compare_spec (num x) (num y)); symmetry;
      [apply Z.compare_eq_iff | apply Z.compare_lt_iff | apply Z.compare_gt_iff]; lia.
  - symmetry. apply Z.compare_lt_iff. nia.
  - symmetry. apply Z.compare_gt_iff. nia.
Qed.

Lemma canonical_shorter x y :
  canonical x -> canonical y -> (String.length x < String.length y)%nat -> num x < num y.
Proof.
  intros (Hx0 & Hx & Hxz) (Hy0 & Hy & Hyz) Hl.
  destruct y as [|d y]; [done|].
  assert (has_prefix (String d y) "0" = false) as Hp.
  { destruct (has_prefix (String d y) "0") eqn:E; [|done].
    specialize (Hyz eq_refl). destruct x; [done|]. simpl in *. lia. }
  pose proof (num_lower d y Hy Hp). pose proof (num_bound x Hx). simpl in Hl.
  assert (10 ^ Z.of_nat (String.length x) <= 10 ^ Z.of_nat (String.length y)); [|lia].
  apply Z.pow_le_mono_r; lia.
Qed.

(** The sign of a comparison, as Go's [-1], [0], [+1]. *)
Definition sgn_of (c : comparison) : Z := match c with Lt => -1 | Eq => 0 | Gt => 1 end.

(** [compareInt] is numeric comparison on canonical decimals. *)
Lemma compareInt_num x y :
  canonical x -> canonical y -> compareInt x y = sgn_of (Z.compare (num x) (num y)).
Proof.
  intros Hx Hy. unfold compareInt.
  destruct (String.eqb_spec x y) as [->|Hne]; [by rewrite Z.compare_refl|].
  destruct (Nat.ltb_spec (String.length x) (String.length y)) as [Hl|Hl].
  { by rewrite (proj2 (Z.compare_lt_iff _ _) (canonical_shorter _ _ Hx Hy Hl)). }
  destruct (Nat.ltb_spec (String.length y) (String.length x)) as [Hl'|Hl'].
  { by rewrite (proj2 (Z.compare_gt_iff _ _) (canonical_shorter _ _ Hy Hx Hl')). }
  destruct Hx as (_ & Hx & _), Hy as (_ & Hy & _).
  unfold sltb, String.ltb. rewrite compare_num by (done || lia).
  destruct (Z.compare_spec (num x) (num y)) as [E|?|?]; try done.
  apply Z.compare_eq_iff in E. rewrite <- compare_num in E by (done || lia).
  by apply String.compare_eq_iff in E.
Qed.

(** ** What [parse] returns *)

Lemma span_digits_spec s t r :
  span_digits s = (t, r) -> s = t +:+ r /\ isNum t = true.
Proof.
  unfold isNum. revert t. induction s as [|c s IH]; intros t; simpl.
  - by intros [= <- <-].
  - destruct (is_digit c) eqn:Ec; [|by intros [= <- <-]].
    destruct (span_digits s) as [t' r'] eqn:Es. intros [= <- <-].
    destruct (IH t' eq_refl) as [-> Hn]. simpl. by rewrite Ec, Hn.
Qed.

Lemma parseInt_canonical v t r :
  parseInt v = Some (t, r) -> v = t +:+ r /\ canonical t.
Proof.
  unfold parseInt. destruct v as [|c v]; [done|].
  destruct (negb (is_digit c)) eqn:Ec; [done|]. apply negb_false_iff in Ec.
  destruct (span_digits (String c v)) as [t' r'] eqn:Es.
  destruct (Ascii.eqb c "0" && _) eqn:E0; [done|]. intros [= <- <-].
  pose proof (span_digits_spec _ _ _ Es) as [Hv Hn]. split; [done|].
  simpl in Es. rewrite Ec in Es. destruct (span_digits v) as [t0 r0]. injection Es as <- <-.
  split; [done|]. split; [done|]. intros Hp.
  rewrite has_prefix_cons in Hp. apply andb_true_iff in Hp as [Hp _].
  rewrite Hp in E0. by apply negb_false_iff, Nat.eqb_eq in E0.
Qed.

Lemma canonical_zero : canonical "0".
Proof. split; [done|]. by split. Qed.

Lemma parse_canonical v p :
  parse v = Some p ->
  canonical (p_major p) /\ canonical (p_minor p) /\ canonical (p_patch p).
Proof.
  pose proof canonical_zero as H0.
  unfold parse. intros H.
  repeat (first [ discriminate H | progress simplify_option_eq | case_match ];
    repeat match goal with H : parseInt _ = Some (_, _) |- _ =>
      apply parseInt_canonical in H as [_ ?] end); auto.
Qed.

(** ** The order on releases *)

Definition release_of (p : parsed) : Z * Z * Z :=
  (num (p_major p), num (p_minor p), num (p_patch p)).

(** The numeric lexicographic order of (major, minor, patch). *)
Definition cmp_release (a b : Z * Z * Z) : comparison :=
  let '(a1, a2, a3) := a in
  let '(b1, b2, b3) := b in
  match Z.compare a1 b1 with
  | Eq => match Z.compare a2 b2 with Eq => Z.compare a3 b3 | c => c end
  | c => c
  end.

Lemma Compare_release v w pv pw :
  parse v = Some pv -> parse w = Some pw ->
  p_prerelease pv = "" -> p_prerelease pw = "" ->
  Compare v w = sgn_of (cmp_release (release_of pv) (release_of pw)).
Proof.
  intros Hv Hw Pv Pw. unfold Compare. rewrite Hv, Hw, Pv, Pw.
  destruct (parse_canonical _ _ Hv) as (? & ? & ?), (parse_canonical _ _ Hw) as (? & ? & ?).
  rewrite !compareInt_num by done. unfold cmp_release, release_of.
  do 3 (destruct (Z.compare _ _); [simpl| done | done]). done.
Qed.

(** ** [Compare] is antisymmetric, so [>=] is the converse of [<=] *)

Lemma sltb_antisym x y : x <> y -> sltb y x = negb (sltb x y).
Proof.
  intros Hne. unfold sltb, String.ltb. rewrite (String.compare_antisym y x).
  destruct (String.compare x y) eqn:E; simpl; try done.
  by apply String.compare_eq_iff in E.
Qed.

Lemma ltb_pos_antisym x y :
  x <> y -> (if sltb y x then -1 else 1) = - (if sltb x y then -1 else 1).
Proof. intros Hne. rewrite (sltb_antisym x y Hne). by destruct (sltb x y). Qed.

Lemma compareInt_antisym x y : compareInt y x = - compareInt x y.
Proof.
  unfold compareInt. rewrite (String.eqb_sym y x).
  destruct (String.eqb_spec x y) as [|Hne]; [done|].
  destruct (Nat.ltb_spec (String.length x) (String.length y)),
    (Nat.ltb_spec (String.length y) (String.length x)); try lia.
  by apply ltb_pos_antisym.
Qed.

Lemma compareIdent_antisym x y : x <> y -> compareIdent y x = - compareIdent x y.
Proof.
  intros Hne. unfold compareIdent.
  destruct (isNum x), (isNum y); simpl; try done; [|by apply ltb_pos_antisym].
  destruct (Nat.ltb_spec (String.length x) (String.length y)),
    (Nat.ltb_spec (String.length y) (String.length x)); try lia.
  by apply ltb_pos_antisym.
Qed.

Close Scope Z_scope.
