(* ===== verification/OCISpec.v ===== *)
(** * OCI runtime specification: the fields that the toolkit reads and writes

    Data types of the vendored [specs-go] package
    (src/vendor/github.com/opencontainers/runtime-spec/specs-go). A pointer
    field is an [option]; a Go slice is a list ([nil] and the empty slice are
    not distinguished by the code modelled here). *)
From S2P Require Import Prelude.

Record LinuxCapabilities := mkLinuxCapabilities {
  Bounding : list string; Effective : list string; Inheritable : list string;
  Permitted : list string; Ambient : list string;
}.

Record User := mkUser { User_UID : Z; User_GID : Z; AdditionalGids : list Z }.

Record Process := mkProcess {
  Process_User : User;
  Process_Args : list string;
  Process_Env : list string;
  Capabilities : option LinuxCapabilities;
}.
(** [&rspec.Process{}] *)
Definition no_process : Process := mkProcess (mkUser 0 0 []) [] [] None.

Record Root := mkRoot { Root_Path : string; Readonly : bool }.

Record Mount := mkMount {
  Destination : string; Mount_Type : string; Source : string;
  Mount_Options : list string;
}.

Record Hook := mkHook {
  Hook_Path : string; Hook_Args : list string; Hook_Env : list string;
  Hook_Timeout : option Z;
}.

Record Hooks := mkHooks {
  Prestart : list Hook; CreateRuntime : list Hook; CreateContainer : list Hook;
  StartContainer : list Hook; Poststart : list Hook; Poststop : list Hook;
}.
Definition no_hooks : Hooks := mkHooks [] [] [] [] [] [].

Record LinuxDevice := mkLinuxDevice {
  Device_Path : string; Device_Type : string; Device_Major : Z; Device_Minor : Z;
  Device_FileMode : option Z; Device_UID : option Z; Device_GID : option Z;
}.

(** A cgroup rule of [Linux.Resources.Devices]. *)
Record LinuxDeviceCgroup := mkLinuxDeviceCgroup {
  Allow : bool; Cgroup_Type : string; Cgroup_Major : option Z; Cgroup_Minor : option Z; Access : string;
}.

Record LinuxIntelRdt := mkLinuxIntelRdt {
  ClosID : string; L3CacheSchema : string; MemBwSchema : string; Schemata : list string; EnableMonitoring : bool;
}.

(** [NetDevices] maps the name on the host to the name in the container; of
    the resources only the device rules are kept. *)
Record Linux := mkLinux {
  Linux_Devices : list LinuxDevice;
  NetDevices : gmap string string;
  Resources_Devices : list LinuxDeviceCgroup;
  Linux_IntelRdt : option LinuxIntelRdt;
}.
(** [&rspec.Linux{}] *)
Definition no_linux : Linux := mkLinux [] ∅ [] None.

Record Spec := mkSpec {
  Version : string;
  Spec_Process : option Process;
  Spec_Root : option Root;
  Spec_Mounts : list Mount;
  Spec_Hooks : option Hooks;
  Annotations : gmap string string;
  Spec_Linux : option Linux;
}.

Definition set_hooks (h : option Hooks) (s : Spec) : Spec :=
  mkSpec (Version s) (Spec_Process s) (Spec_Root s) (Spec_Mounts s) h (Annotations s) (Spec_Linux s).
Definition set_process (p : option Process) (s : Spec) : Spec :=
  mkSpec (Version s) p (Spec_Root s) (Spec_Mounts s) (Spec_Hooks s) (Annotations s) (Spec_Linux s).
Definition set_mounts (l : list Mount) (s : Spec) : Spec :=
  mkSpec (Version s) (Spec_Process s) (Spec_Root s) l (Spec_Hooks s) (Annotations s) (Spec_Linux s).
Definition set_linux (l : option Linux) (s : Spec) : Spec :=
  mkSpec (Version s) (Spec_Process s) (Spec_Root s) (Spec_Mounts s) (Spec_Hooks s) (Annotations s) l.
Definition set_env (env : list string) (p : Process) : Process :=
  mkProcess (Process_User p) (Process_Args p) env (Capabilities p).
Definition set_additional_gids (gids : list Z) (p : Process) : Process :=
  mkProcess (mkUser (User_UID (Process_User p)) (User_GID (Process_User p)) gids) (Process_Args p)
    (Process_Env p) (Capabilities p).
Definition set_prestart (l : list Hook) (h : Hooks) : Hooks :=
  mkHooks l (CreateRuntime h) (CreateContainer h) (StartContainer h) (Poststart h) (Poststop h).

#[global] Instance Hook_eq_dec : EqDecision Hook.
Proof. solve_decision. Defined.
#[global] Instance Mount_eq_dec : EqDecision Mount.
Proof. solve_decision. Defined.

(** ** Modifiers (src/internal/oci/spec.go)

    [SpecModifier.Modify] changes the specification in place and may fail in
    the middle: the specification after the call comes with the error. *)
Definition SpecModifier : Type := Spec -> Spec * option string.

(** [SpecModifiers.Modify] and [list.Modify] (src/internal/modifier/list.go):
    nil modifiers are skipped and the first error ends the loop. *)
Fixpoint SpecModifiers_Modify (ms : list (option SpecModifier)) (s : Spec) : Spec * option string :=
  match ms with
  | [] => (s, None)
  | None :: ms => SpecModifiers_Modify ms s
  | Some m :: ms =>
      match m s with
      | (s, Some e) => (s, Some e)
      | (s, None) => SpecModifiers_Modify ms s
      end
  end.

Lemma SpecModifiers_Modify_app ms1 ms2 s :
  SpecModifiers_Modify (ms1 ++ ms2) s
  = match SpecModifiers_Modify ms1 s with
    | (s, Some e) => (s, Some e)
    | (s, None) => SpecModifiers_Modify ms2 s
    end.
Proof.
  revert s. induction ms1 as [|[m|] ms1 IH]; intros s; simpl; [done| |apply IH].
  destruct (m s) as [s' [e|]]; [done|apply IH].
Qed.
