(* ===== verification/OCI.v ===== *)
(** * The runtime wrapper and the OCI specification (src/internal/oci)

    Command-line arguments (args.go), specifications held in memory or in a
    file (spec_memory.go, spec_file.go), the runtimes and the wrapper that
    modifies the specification before a container is created (runtime_path.go,
    runtime_low_level.go, runtime_modifier.go), and the container state of the
    hooks (state.go).

    The file system is a map from paths to contents; which files can be
    created, what the kernel answers to [execve] and the JSON codec of the
    standard library are parameters. Loggers are left out. *)
From S2P Require Import Prelude GoStrings Lookup OCISpec.

(** ** Arguments *)

Definition specFileName : string := "config.json".

Definition IsBundleFlag (arg : string) : bool :=
  has_prefix arg "-" &&
  let trimmed := trim_left_byte "-" arg in String.eqb trimmed "b" || String.eqb trimmed "bundle".

Fixpoint GetBundleDirFromArgs_loop (args : list string) (bundleDir : string) : result string :=
  match args with
  | [] => Ok bundleDir
  | param :: rest =>
      match cut "=" param with
      | Some (flag, value) => GetBundleDirFromArgs_loop rest (if IsBundleFlag flag then value else bundleDir)
      | None =>
          if IsBundleFlag param
          then match rest with
               | [] => Err "bundle option requires an argument"
               | value :: rest => GetBundleDirFromArgs_loop rest value
               end
          else GetBundleDirFromArgs_loop rest bundleDir
      end
  end.
Definition GetBundleDirFromArgs (args : list string) : result string := GetBundleDirFromArgs_loop args "".
Definition GetBundleDir (args : list string) : result string :=
  wrap "error getting bundle dir from args" (GetBundleDirFromArgs args).
Definition GetSpecFilePath (bundleDir : string) : string := path_join [bundleDir; specFileName].

Fixpoint HasCreateSubcommand_loop (args : list string) (previousWasBundle : bool) : bool :=
  match args with
  | [] => false
  | a :: args =>
      if negb previousWasBundle && IsBundleFlag a then HasCreateSubcommand_loop args true
      else if negb previousWasBundle && String.eqb a "create" then true
      else HasCreateSubcommand_loop args false
  end.
Definition HasCreateSubcommand (args : list string) : bool := HasCreateSubcommand_loop args false.

(** ** Files and execution *)

Definition Files : Type := gmap string string.

(** [Exec] does not return when the process is replaced. *)
Inductive outcome : Type :=
| Replaced (path : string) (argv : list string)
| Returned (err : string)
| Panicked.

Section Runtime.
Context (decode : bool -> string -> result Spec) (encode : Spec -> option string)
  (can_create : string -> bool) (execve_error : string -> list string -> option string).

(** ** Specifications *)

(** The modifier of a wrapper; [None] is a panic. *)
Definition Modifier : Type := Spec -> option (Spec * option string).
Definition total (m : SpecModifier) : Modifier := fun s => Some (m s).

(** The [Spec] interface over a state [S]; [Load] and [Flush] see the files. *)
Record SpecOps (S : Type) := mkSpecOps {
  Load : S -> Files -> result Spec * S;
  Modify : Modifier -> S -> option (option string * S);
  Flush : S -> Files -> option string * Files;
  LookupEnv : S -> string -> option string;
}.
Arguments mkSpecOps {S}.
Arguments Load {S}.
Arguments Modify {S}.
Arguments Flush {S}.
Arguments LookupEnv {S}.

(** The first entry with the name; an entry without a value counts as empty. *)
Fixpoint lookup_env_loop (env : list string) (key : string) : option string :=
  match env with
  | [] => None
  | e :: env =>
      if negb (has_prefix e key) then lookup_env_loop env key
      else match cut "=" e with
           | Some (k, v) => if String.eqb k key then Some v else lookup_env_loop env key
           | None => if String.eqb e key then Some "" else lookup_env_loop env key
           end
  end.
Definition memory_LookupEnv (s : option Spec) (key : string) : option string :=
  match s with
  | None => None
  | Some s => match Spec_Process s with None => None | Some p => lookup_env_loop (Process_Env p) key end
  end.

(** A memory specification is a pointer that may be nil. [Modify] writes
    through it, also when the modifier fails. *)
Definition memory_Modify (m : Modifier) (s : option Spec) : option (option string * option Spec) :=
  match s with
  | None => Some (Some "cannot modify nil spec", None)
  | Some s => r ← m s; Some (r.2, Some r.1)
  end.

Record fileSpec := mkFileSpec { memorySpec : option Spec; spec_path : string; loader : bool }.
Definition NewFileSpec (filepath : string) (isStrict : bool) : fileSpec := mkFileSpec None filepath isStrict.

Definition file_Load (s : fileSpec) (w : Files) : result Spec * fileSpec :=
  match w !! spec_path s with
  | None => (Err ("error opening OCI specification file: open " +:+ spec_path s +:+ ": no such file or directory"), s)
  | Some text =>
      match decode (loader s) text with
      | Err e => (Err ("error loading OCI specification from file: error reading OCI specification: " +:+ e), s)
      | Ok spec => (Ok spec, mkFileSpec (Some spec) (spec_path s) (loader s))
      end
  end.
Definition file_Modify (m : Modifier) (s : fileSpec) : option (option string * fileSpec) :=
  r ← memory_Modify m (memorySpec s); Some (r.1, mkFileSpec r.2 (spec_path s) (loader s)).

(** [os.Create] truncates the file before the specification is encoded. *)
Definition file_Flush (s : fileSpec) (w : Files) : option string * Files :=
  match memorySpec s with
  | None => (Some "no OCI specification loaded", w)
  | Some spec =>
      if negb (can_create (spec_path s)) then (Some "error opening OCI specification file: permission denied", w)
      else match encode spec with
           | None => (Some "error writing OCI specification: unsupported value", <[spec_path s := ""]> w)
           | Some text => (None, <[spec_path s := text]> w)
           end
  end.
Definition file_ops : SpecOps fileSpec :=
  mkSpecOps file_Load file_Modify file_Flush (fun s => memory_LookupEnv (memorySpec s)).

(** [NewSpec] *)
Definition NewSpec (args : list string) (allowUnknownFields : bool) : result fileSpec :=
  let? bundleDir := wrap "error getting bundle directory" (GetBundleDir args) in
  Ok (NewFileSpec (GetSpecFilePath bundleDir) (negb allowUnknownFields)).

(** ** Runtimes *)

Record Runtime := mkRuntime { Exec : list string -> Files -> outcome * Files; Runtime_String : string }.

Definition syscallExec_Exec (args : list string) : outcome :=
  match args with
  | [] => Panicked
  | a :: _ =>
      match execve_error a args with
      | Some e => Returned ("could not exec '" +:+ a +:+ "': " +:+ e)
      | None => Replaced a args
      end
  end.

Definition pathRuntime_Exec (path : string) (args : list string) : outcome :=
  syscallExec_Exec (path :: (if Nat.ltb 1 (length args) then drop 1 args else [])).
Definition pathRuntime (path : string) : Runtime := mkRuntime (fun args w => (pathRuntime_Exec path args, w)) path.

Definition NewRuntimeForPath `{Host} (path : string) : result Runtime :=
  match os_Stat path with
  | None => Err ("invalid path '" +:+ path +:+ "': stat " +:+ path +:+ ": no such file or directory")
  | Some info =>
      if IsDir info || Z.eqb (Z.land (Perm info) 73) 0
      then Err ("specified path '" +:+ path +:+ "' is not an executable file")
      else Ok (pathRuntime path)
  end.

Fixpoint findRuntime_loop (locator : Locator) (candidates : list string) : option string :=
  match candidates with
  | [] => None
  | c :: cs => match locator c with
               | Found (t :: _) => Some t
               | _ => findRuntime_loop locator cs
               end
  end.
Definition findRuntime `{Host} (candidates : list string) : result string :=
  match candidates with
  | [] => Err "at least one runtime candidate must be specified"
  | _ => match findRuntime_loop (NewExecutableLocator "/") candidates with
         | Some t => Ok t
         | None => Err ("no runtime binary found from candidate list: [" +:+ join " " candidates +:+ "]")
         end
  end.
Definition NewLowLevelRuntime `{Host} (candidates : list string) : result Runtime :=
  let? runtimePath := wrap "error locating runtime" (findRuntime candidates) in NewRuntimeForPath runtimePath.

(** [modifyingRuntimeWrapper.modify] *)
Definition wrapper_modify {S} (ops : SpecOps S) (modifier : Modifier) (s : S) (w : Files)
  : option (option string * S * Files) :=
  let (loaded, s) := Load ops s w in
  match loaded with
  | Err e => Some (Some ("error loading OCI specification for modification: " +:+ e), s, w)
  | Ok _ =>
      match Modify ops modifier s with
      | None => None
      | Some (Some e, s) => Some (Some ("error modifying OCI spec: " +:+ e), s, w)
      | Some (None, s) =>
          let (e, w) := Flush ops s w in
          match e with
          | Some e => Some (Some ("error writing modified OCI specification: " +:+ e), s, w)
          | None => Some (None, s, w)
          end
      end
  end.

(** [modifyingRuntimeWrapper.Exec] *)
Definition wrapper_Exec {S} (ops : SpecOps S) (modifier : Modifier) (s : S) (runtime : Runtime)
  (args : list string) (w : Files) : outcome * Files :=
  if HasCreateSubcommand args then
    match wrapper_modify ops modifier s w with
    | None => (Panicked, w)
    | Some (Some e, _, w) => (Returned ("could not apply required modification to OCI specification: " +:+ e), w)
    | Some (None, _, w) => Exec runtime args w
    end
  else Exec runtime args w.

Definition NewModifyingRuntimeWrapper {S} (ops : SpecOps S) (runtime : Runtime) (spec : S)
  (modifier : option Modifier) : Runtime :=
  match modifier with
  | None => runtime
  | Some m => mkRuntime (wrapper_Exec ops m spec runtime)
                ("modify on-create and forward to " +:+ Runtime_String runtime)
  end.

End Runtime.
Arguments mkSpecOps {S}.
Arguments Load {S}.
Arguments Modify {S}.
Arguments Flush {S}.
Arguments LookupEnv {S}.
