(* ===== verification/OCIProps.v ===== *)
(** * Properties of the runtime wrapper *)
From S2P Require Import Prelude GoStrings Lookup OCISpec OCI.

(** ** Arguments *)

(** The reading of a runc command line that both functions share: values of
    bundle flags, a bundle flag without a value, and all other arguments. *)
Inductive arg := Bundle (v : string) | Dangling | Plain (a : string).
#[export] Instance arg_eq_dec : EqDecision arg.
Proof. solve_decision. Defined.

Fixpoint read_args (args : list string) : list arg :=
  match args with
  | [] => []
  | a :: rest =>
      if IsBundleFlag a then
        match rest with
        | [] => [Dangling]
        | v :: rest => Bundle v :: read_args rest
        end
      else
        match cut "=" a with
        | Some (f, v) => (if IsBundleFlag f then Bundle v else Plain a) :: read_args rest
        | None => Plain a :: read_args rest
        end
  end.
Definition last_bundle (args : list arg) (d : string) : string :=
  foldl (fun d a => match a with Bundle v => v | _ => d end) d args.

Lemma has_byte_trim_left c d s : has_byte c s = true -> d <> c -> has_byte c (trim_left_byte d s) = true.
Proof.
  intros H Hne. induction s as [|x s IH]; simpl; [done|].
  destruct (Ascii.eqb_spec d x) as [<-|]; [|exact H]. apply IH. unfold has_byte in *. simpl in H.
  destruct (Ascii.eqb_spec c d); [congruence|exact H].
Qed.

Lemma bundle_flag_free a : IsBundleFlag a = true -> cut "=" a = None.
Proof.
  unfold IsBundleFlag. intros [_ Ht]%andb_prop. apply cut_byte_none.
  destruct (has_byte "=" a) eqn:Hb; [|done]. apply (has_byte_trim_left _ "-"%char) in Hb; [|done].
  apply orb_prop in Ht as [Ht|Ht]; apply String.eqb_eq in Ht; by rewrite Ht in Hb.
Qed.

Lemma strong_list_ind {A} (P : list A -> Prop) :
  P [] -> (forall x, P [x]) -> (forall x y l, P l -> P (y :: l) -> P (x :: y :: l)) -> forall l, P l.
Proof.
  intros H0 H1 H2 l. enough (P l /\ forall x, P (x :: l)) by naive_solver.
  induction l as [|y l [IH IH']]; [done|]. split; [done|]. intros x. by apply H2.
Qed.

Lemma GetBundle_read args d :
  GetBundleDirFromArgs_loop args d
  = if decide (Dangling ∈ read_args args) then Err "bundle option requires an argument"
    else Ok (last_bundle (read_args args) d).
Proof.
  revert d. induction args as [|a|a v rest IH1 IH2] using strong_list_ind; intros d; [done| |].
  - simpl. destruct (IsBundleFlag a) eqn:Hb; [by rewrite (bundle_flag_free _ Hb)|].
    by destruct (cut "=" a) as [[f v]|]; [destruct (IsBundleFlag f)|].
  - assert (Hskip : forall x l e, x <> Dangling ->
      (if decide (Dangling ∈ x :: l) then Err e else Ok (last_bundle (x :: l) d))
      = (if decide (Dangling ∈ l) then Err e else Ok (last_bundle l (match x with Bundle v => v | _ => d end)))).
    { intros x l e Hx. destruct (decide (Dangling ∈ x :: l)) as [Hi|Hi], (decide (Dangling ∈ l)) as [Hj|Hj];
        rewrite elem_of_cons in Hi; try done; naive_solver. }
    destruct (IsBundleFlag a) eqn:Hb.
    + cbn [GetBundleDirFromArgs_loop read_args]. rewrite Hb, (bundle_flag_free _ Hb), IH1. by rewrite Hskip.
    + clear IH1. generalize dependent (v :: rest). intros l IH. cbn [GetBundleDirFromArgs_loop read_args].
      rewrite Hb. destruct (cut "=" a) as [[f u]|]; [destruct (IsBundleFlag f)|]; rewrite IH, Hskip by done; done.
Qed.

Lemma HasCreate_read args :
  HasCreateSubcommand_loop args false = bool_decide (Plain "create" ∈ read_args args)
  /\ HasCreateSubcommand_loop args true = bool_decide (Plain "create" ∈ read_args (drop 1 args)).
Proof.
  assert (Hskip : forall x l, x <> Plain "create" ->
    bool_decide (Plain "create" ∈ x :: l) = bool_decide (Plain "create" ∈ l)).
  { intros x l Hx. apply bool_decide_ext. rewrite elem_of_cons. naive_solver. }
  induction args as [|a args [IH1 IH2]]; [done|]. split; [|exact IH1].
  cbn [HasCreateSubcommand_loop read_args negb andb]. destruct (IsBundleFlag a) eqn:Hb.
  - rewrite IH2. destruct args as [|v args]; [done|]. by rewrite Hskip.
  - destruct (String.eqb_spec a "create") as [->|Hne].
    { done. }
    rewrite IH1. destruct (cut "=" a) as [[f u]|]; [destruct (IsBundleFlag f)|]; rewrite Hskip; congruence.
Qed.

(** The bundle directory and the create subcommand are found by one reading of
    the command line: the bundle is the value of the last bundle flag, a flag
    without a value is an error, and a container is created exactly when an
    argument that is not the value of a bundle flag is [create]. *)
Theorem args_one_reading args :
  GetBundleDirFromArgs args
  = (if decide (Dangling ∈ read_args args) then Err "bundle option requires an argument"
     else Ok (last_bundle (read_args args) ""))
  /\ HasCreateSubcommand args = bool_decide (Plain "create" ∈ read_args args).
Proof. split; [apply GetBundle_read|apply HasCreate_read]. Qed.

(** ** Environment *)

Definition entry_key (e : string) : string := match cut "=" e with Some (k, _) => k | None => e end.
Definition entry_value (e : string) : string := match cut "=" e with Some (_, v) => v | None => "" end.

(** The environment lookup of a specification returns the value of the first
    entry with exactly the given name. *)
Lemma lookup_env_first env key v :
  lookup_env_loop env key = Some v
  <-> exists l1 e l2, env = l1 ++ e :: l2 /\ entry_key e = key /\ entry_value e = v
      /\ Forall (fun e => entry_key e <> key) l1.
Proof.
  assert (Hp : forall e, entry_key e = key -> has_prefix e key = true).
  { intros e <-. unfold entry_key. apply has_prefix_spec.
    destruct (cut "=" e) as [[k r]|] eqn:Hc; [apply cut_some in Hc as ->; eauto|].
    exists "". by rewrite sapp_nil_r. }
  assert (Hstep : forall e env, lookup_env_loop (e :: env) key
    = if decide (entry_key e = key) then Some (entry_value e) else lookup_env_loop env key).
  { intros e env'. simpl. destruct (decide (entry_key e = key)) as [Hk|Hk].
    - rewrite (Hp _ Hk). simpl. unfold entry_key, entry_value in *.
      destruct (cut "=" e) as [[k r]|]; by rewrite (proj2 (String.eqb_eq _ _) Hk).
    - destruct (has_prefix e key); [|done]. simpl. unfold entry_key in Hk.
      destruct (cut "=" e) as [[k r]|]; by rewrite (proj2 (String.eqb_neq _ _) Hk). }
  induction env as [|e env IH].
  - split; [done|]. intros (l1 & e & l2 & H & _). by destruct l1.
  - rewrite Hstep. destruct (decide (entry_key e = key)) as [Hk|Hk].
    + split.
      * intros [= <-]. by exists [], e, env.
      * intros ([|x l1] & e' & l2 & [= -> ->] & H1 & H2 & H3); [by subst|].
        apply Forall_cons in H3 as [? _]. done.
    + rewrite IH. split.
      * intros (l1 & e' & l2 & -> & H1 & H2 & H3). exists (e :: l1), e', l2. repeat split; auto.
      * intros ([|x l1] & e' & l2 & [= -> ->] & H1 & H2 & H3); [done|].
        apply Forall_cons in H3 as [_ H3]. by exists l1, e', l2.
Qed.

(** ** The wrapper *)

Section Wrapper.
Context (decode : bool -> string -> result Spec) (encode : Spec -> option string)
  (can_create : string -> bool) (execve_error : string -> list string -> option string).
Local Abbreviation low := (pathRuntime execve_error).
Local Abbreviation ops := (file_ops decode encode can_create).

Lemma low_exec path args :
  pathRuntime_Exec execve_error path args
  = match execve_error path (path :: tail args) with
    | Some e => Returned ("could not exec '" +:+ path +:+ "': " +:+ e)
    | None => Replaced path (path :: tail args)
    end.
Proof. unfold pathRuntime_Exec. by destruct args as [|a [|b args]]. Qed.

(** Creating a container: when the low-level runtime is started, it has its
    own path for a name and the other arguments unchanged, and the
    specification file holds the specification it held before, modified
    without an error. When the wrapper returns an error instead, the file is
    as it was unless the modified specification could not be written, or the
    low-level runtime could not be started after the modification. Only the
    modifier can panic, and then the file is as it was. *)
Theorem wrapper_Exec_create path s modifier args w :
  HasCreateSubcommand args = true ->
  match wrapper_Exec ops modifier s (low path) args w with
  | (Replaced p argv, w') =>
      p = path /\ argv = path :: tail args /\
      exists text spec spec' text', w !! spec_path s = Some text /\ decode (loader s) text = Ok spec
        /\ modifier spec = Some (spec', None) /\ encode spec' = Some text' /\ w' = <[spec_path s := text']> w
  | (Returned _, w') =>
      w' = w \/ exists text spec spec', w !! spec_path s = Some text /\ decode (loader s) text = Ok spec
        /\ modifier spec = Some (spec', None) /\ w' = <[spec_path s := default "" (encode spec')]> w
  | (Panicked, w') =>
      w' = w /\ exists text spec, w !! spec_path s = Some text /\ decode (loader s) text = Ok spec
        /\ modifier spec = None
  end.
Proof.
  intros Hc. unfold wrapper_Exec. rewrite Hc. unfold wrapper_modify. simpl. unfold file_Load.
  destruct (w !! spec_path s) as [text|] eqn:Hw; [|by left].
  destruct (decode (loader s) text) as [spec|] eqn:Hd; [|by left].
  unfold file_Modify, memory_Modify. simpl.
  destruct (modifier spec) as [[spec' [e|]]|] eqn:Hm; simpl; [by left| |split; [done|]; by exists text, spec].
  unfold file_Flush. simpl. destruct (can_create (spec_path s)); simpl; [|by left].
  destruct (encode spec') as [text'|] eqn:He.
  - rewrite low_exec. destruct (execve_error _ _).
    + right. exists text, spec, spec'. by rewrite He.
    + split; [done|]. split; [done|]. by exists text, spec, spec', text'.
  - right. exists text, spec, spec'. by rewrite He.
Qed.

(** Any other command is forwarded without touching the specification. *)
Theorem wrapper_Exec_forwards modifier s path args w :
  HasCreateSubcommand args = false ->
  wrapper_Exec ops modifier s (low path) args w = (pathRuntime_Exec execve_error path args, w).
Proof. intros Hc. unfold wrapper_Exec. by rewrite Hc. Qed.
End Wrapper.

(** ** Witnesses *)

Definition demo_empty : Spec := mkSpec "1.0.2" None None [] None ∅ None.
Definition demo_decode (strict : bool) (text : string) : result Spec :=
  if String.eqb text "{}" then Ok demo_empty else Err "unexpected end of JSON input".
Definition demo_encode (s : Spec) : option string := Some (Version s).
Definition demo_modifier : Modifier := fun s => Some (set_hooks (Some no_hooks) s, None).

Theorem wrapper_Exec_create_witness :
  HasCreateSubcommand ["nvidia-container-runtime"; "create"; "--bundle"; "/b"; "id"] = true
  /\ exists text spec spec' text', ({[ "/b/config.json" := "{}" ]} : Files) !! "/b/config.json" = Some text
      /\ demo_decode true text = Ok spec /\ demo_modifier spec = Some (spec', None) /\ demo_encode spec' = Some text'
      /\ (<["/b/config.json" := "1.0.2"]> {[ "/b/config.json" := "{}" ]} : Files)
         = <["/b/config.json" := text']> {[ "/b/config.json" := "{}" ]}.
Proof.
  split; [reflexivity|].
  exact (proj2 (proj2 (wrapper_Exec_create demo_decode demo_encode (fun _ => true) (fun _ _ => None) "/usr/bin/runc"
    (NewFileSpec "/b/config.json" true) demo_modifier
    ["nvidia-container-runtime"; "create"; "--bundle"; "/b"; "id"] {[ "/b/config.json" := "{}" ]} eq_refl))).
Defined.

Theorem wrapper_Exec_forwards_witness :
  HasCreateSubcommand ["nvidia-container-runtime"; "--bundle"; "create"; "state"] = false
  /\ wrapper_Exec (file_ops demo_decode demo_encode (fun _ => true)) demo_modifier
       (NewFileSpec "/b/config.json" true) (pathRuntime (fun _ _ => None) "/usr/bin/runc")
       ["nvidia-container-runtime"; "--bundle"; "create"; "state"] ∅
     = (Replaced "/usr/bin/runc" ["/usr/bin/runc"; "--bundle"; "create"; "state"], ∅).
Proof.
  split; [reflexivity|].
  exact (wrapper_Exec_forwards demo_decode demo_encode (fun _ => true) (fun _ _ => None) demo_modifier
    (NewFileSpec "/b/config.json" true) "/usr/bin/runc" ["nvidia-container-runtime"; "--bundle"; "create"; "state"]
    ∅ eq_refl).
Defined.
