(* ===== verification/ApplyEdits.v ===== *)
(** * Applying CDI container edits to an OCI specification

    [ContainerEdits.Apply] of the vendored CDI library
    (src/vendor/tags.cncf.io/container-device-interface/pkg/cdi) with the
    operations of the runtime-tools generator it calls
    (src/vendor/github.com/opencontainers/runtime-tools/generate): this is
    how every modification of the toolkit other than the legacy hook reaches
    the container. Reading a device node ([unix.Lstat]) is a parameter. *)
From S2P Require Import Prelude GoStrings OCISpec CDISpec.

(** ** Environment *)

(** [createEnvCacheMap]: the whole entry is the key. *)
Definition createEnvCacheMap (env : list string) : gmap string nat :=
  foldl (fun m kv => <[kv.2 := kv.1]> m) ∅ (imap pair env).

Definition addEnv (st : list string * gmap string nat) (env key : string) : list string * gmap string nat :=
  match st.2 !! key with
  | Some idx => (<[idx := env]> st.1, st.2)
  | None => (st.1 ++ [env], <[key := length st.1]> st.2)
  end.

(** [strings.SplitN(val, "=", 2)[0]] *)
Definition env_key (val : string) : string :=
  match cut "=" val with Some (k, _) => k | None => val end.

Definition add_envs (envs : list string) (st : list string * gmap string nat) : list string * gmap string nat :=
  foldl (fun st val => addEnv st val (env_key val)) st envs.

(** The cache is the one that [NewFromSpec] makes from the same
    specification. *)
Definition AddMultipleProcessEnv (envs : list string) (s : OCISpec.Spec) : OCISpec.Spec :=
  let p := default no_process (Spec_Process s) in
  set_process (Some (set_env (add_envs envs (Process_Env p, createEnvCacheMap (Process_Env p))).1 p)) s.

(** ** Devices *)

Record deviceInfo := mkDeviceInfo { deviceType : string; major : Z; minor : Z; fileMode : Z }.

Definition DeviceNode_toOCI (d : DeviceNode) : LinuxDevice :=
  mkLinuxDevice (Path d) (Type_ d) (Major d) (Minor d) (FileMode d) (UID d) (GID d).

Section Keyed.
Context {A : Type} (key : A -> string).

(** Drop the first element with the key. *)
Fixpoint remove_first (k : string) (l : list A) : list A :=
  match l with
  | [] => []
  | x :: l => if String.eqb (key x) k then l else x :: remove_first k l
  end.
(** Replace the first element with the key of [x], or append [x]. *)
Fixpoint replace_first (x : A) (l : list A) : list A :=
  match l with
  | [] => [x]
  | y :: l => if String.eqb (key y) (key x) then x :: l else y :: replace_first x l
  end.
End Keyed.

(** [initConfigLinux] *)
Definition get_linux (s : OCISpec.Spec) : Linux := default no_linux (Spec_Linux s).

Definition set_linux_devices (l : list LinuxDevice) (x : Linux) : Linux :=
  mkLinux l (OCISpec.NetDevices x) (Resources_Devices x) (Linux_IntelRdt x).
Definition RemoveDevice (path : string) (s : OCISpec.Spec) : OCISpec.Spec :=
  match Spec_Linux s with
  | None => s
  | Some x => set_linux (Some (set_linux_devices (remove_first Device_Path path (Linux_Devices x)) x)) s
  end.
Definition AddDevice (d : LinuxDevice) (s : OCISpec.Spec) : OCISpec.Spec :=
  let x := get_linux s in
  set_linux (Some (set_linux_devices (replace_first Device_Path d (Linux_Devices x)) x)) s.
Definition AddLinuxResourcesDevice (allow : bool) (devType : string) (major minor : option Z) (access : string)
  (s : OCISpec.Spec) : OCISpec.Spec :=
  let x := get_linux s in
  set_linux (Some (mkLinux (Linux_Devices x) (OCISpec.NetDevices x)
    (Resources_Devices x ++ [mkLinuxDeviceCgroup allow devType major minor access]) (Linux_IntelRdt x))) s.

(** ** Mounts, hooks and the rest *)

Definition Mount_toOCI (m : Mount) : OCISpec.Mount :=
  OCISpec.mkMount (ContainerPath m) (Mount_Type m) (Mount_HostPath m) (Options m).
Definition RemoveMount (dest : string) (s : OCISpec.Spec) : OCISpec.Spec :=
  set_mounts (remove_first Destination dest (Spec_Mounts s)) s.
Definition AddMount (m : OCISpec.Mount) (s : OCISpec.Spec) : OCISpec.Spec :=
  set_mounts (Spec_Mounts s ++ [m]) s.

(** [orderedMounts.parts] and the order of [sortMounts]; [sort.Stable] gives
    the one stable arrangement, which insertion computes. *)
Definition mount_parts (m : OCISpec.Mount) : nat := count_byte slash (clean (Destination m)).
Definition mount_less (a b : OCISpec.Mount) : bool := Nat.ltb (mount_parts a) (mount_parts b).
Definition sortMounts (s : OCISpec.Spec) : OCISpec.Spec :=
  set_mounts (insertion_sort mount_less (Spec_Mounts s)) s.

Definition Hook_toOCI (h : Hook) : OCISpec.Hook :=
  OCISpec.mkHook (Hook_Path h) (Hook_Args h) (Hook_Env h) (Hook_Timeout h).

(** [None] for an unknown name. *)
Definition add_hook (name : string) (k : OCISpec.Hook) (h : OCISpec.Hooks) : option OCISpec.Hooks :=
  let 'mkHooks a b c d e f := h in
  if String.eqb name "prestart" then Some (mkHooks (a ++ [k]) b c d e f)
  else if String.eqb name "poststart" then Some (mkHooks a b c d (e ++ [k]) f)
  else if String.eqb name "poststop" then Some (mkHooks a b c d e (f ++ [k]))
  else if String.eqb name "createRuntime" then Some (mkHooks a (b ++ [k]) c d e f)
  else if String.eqb name "createContainer" then Some (mkHooks a b (c ++ [k]) d e f)
  else if String.eqb name "startContainer" then Some (mkHooks a b c (d ++ [k]) e f)
  else None.

Definition IntelRdt_toOCI (i : IntelRdt) : LinuxIntelRdt :=
  mkLinuxIntelRdt (ClosID i) (L3CacheSchema i) (MemBwSchema i) (Schemata i) (EnableMonitoring i).
Definition specgenAddLinuxNetDevice (d : LinuxNetDevice) (s : OCISpec.Spec) : OCISpec.Spec :=
  let x := get_linux s in
  set_linux (Some (mkLinux (Linux_Devices x) (<[HostInterfaceName d := NetDevice_Name d]> (OCISpec.NetDevices x))
    (Resources_Devices x) (Linux_IntelRdt x))) s.
Definition set_intel_rdt (i : IntelRdt) (s : OCISpec.Spec) : OCISpec.Spec :=
  let x := get_linux s in
  set_linux (Some (mkLinux (Linux_Devices x) (OCISpec.NetDevices x) (Resources_Devices x)
    (Some (IntelRdt_toOCI i)))) s.
Definition AddProcessAdditionalGid (gid : Z) (s : OCISpec.Spec) : OCISpec.Spec :=
  let p := default no_process (Spec_Process s) in
  let gids := AdditionalGids (Process_User p) in
  set_process (Some (if bool_decide (gid ∈ gids) then p else set_additional_gids (gids ++ [gid]) p)) s.

Section Apply.
Context (deviceInfoFromPath : string -> result deviceInfo).

(** [DeviceNode.fillMissingInfo]. In the source it writes to the node of the
    edits; doing so again changes nothing ([fillMissingInfo_idem]). *)
Definition fillMissingInfo (d : DeviceNode) : result DeviceNode :=
  let hasMinimalSpecification :=
    negb (String.eqb (Type_ d) "") && (negb (Z.eqb (Major d) 0) || String.eqb (Type_ d) "p") in
  let hostPath := if String.eqb (HostPath d) "" then Path d else HostPath d in
  match deviceInfoFromPath hostPath with
  | Err e =>
      if hasMinimalSpecification
      then Ok (mkDeviceNode (Path d) hostPath (Type_ d) (Major d) (Minor d) (FileMode d) (Permissions d) (UID d) (GID d))
      else Err ("failed to stat CDI host device " +:+ quote hostPath +:+ ": " +:+ e)
  | Ok di =>
      let mode := match FileMode d with Some m => Some m | None => Some (fileMode di) end in
      let node t ma mi := mkDeviceNode (Path d) hostPath t ma mi mode (Permissions d) (UID d) (GID d) in
      if hasMinimalSpecification then Ok (node (Type_ d) (Major d) (Minor d))
      else
        let t := if String.eqb (Type_ d) "" then deviceType di else Type_ d in
        if negb (String.eqb t (deviceType di)) then
          Err ("CDI device (" +:+ quote (Path d) +:+ ", " +:+ quote hostPath +:+ "), host type mismatch (" +:+ t
            +:+ ", " +:+ deviceType di +:+ ")")
        else if String.eqb t "p" then Ok (node t (Major d) (Minor d))
        else if Z.eqb (Major d) 0 then Ok (node t (major di) (minor di))
        else Ok (node t (Major d) (Minor d))
  end.

(** The default owner of a device: a non-root user of the process. *)
Definition default_id (id : option Z) (user : User -> Z) (s : OCISpec.Spec) : option Z :=
  match id, Spec_Process s with
  | None, Some p => if Z.ltb 0 (user (Process_User p)) then Some (user (Process_User p)) else None
  | _, _ => id
  end.
Definition owned_device (dev : LinuxDevice) (s : OCISpec.Spec) : LinuxDevice :=
  mkLinuxDevice (Device_Path dev) (Device_Type dev) (Device_Major dev) (Device_Minor dev) (Device_FileMode dev)
    (default_id (Device_UID dev) User_UID s) (default_id (Device_GID dev) User_GID s).

Definition allow_device (dev : LinuxDevice) (permissions : string) (s : OCISpec.Spec) : OCISpec.Spec :=
  if String.eqb (Device_Type dev) "b" || String.eqb (Device_Type dev) "c"
  then AddLinuxResourcesDevice true (Device_Type dev) (Some (Device_Major dev)) (Some (Device_Minor dev))
         (if String.eqb permissions "" then "rwm" else permissions) s
  else s.

Fixpoint apply_devices (ds : list DeviceNode) (s : OCISpec.Spec) : OCISpec.Spec * option string :=
  match ds with
  | [] => (s, None)
  | d :: ds =>
      match fillMissingInfo d with
      | Err e => (s, Some e)
      | Ok dn =>
          let dev := owned_device (DeviceNode_toOCI dn) s in
          apply_devices ds
            (allow_device dev (Permissions d) (AddDevice dev (RemoveDevice (Device_Path dev) s)))
      end
  end.

Definition apply_mounts (ms : list Mount) (s : OCISpec.Spec) : OCISpec.Spec :=
  match ms with
  | [] => s
  | _ => sortMounts (foldl (fun s m => AddMount (Mount_toOCI m) (RemoveMount (ContainerPath m) s)) s ms)
  end.

Fixpoint apply_hooks (hs : list Hook) (s : OCISpec.Spec) : OCISpec.Spec * option string :=
  match hs with
  | [] => (s, None)
  | h :: hs =>
      match add_hook (HookName h) (Hook_toOCI h) (default no_hooks (Spec_Hooks s)) with
      | None => (s, Some ("unknown hook name " +:+ quote (HookName h)))
      | Some k => apply_hooks hs (set_hooks (Some k) s)
      end
  end.

Definition apply_gids (gids : list Z) (s : OCISpec.Spec) : OCISpec.Spec :=
  foldl (fun s g => if Z.eqb g 0 then s else AddProcessAdditionalGid g s) s gids.

(** [ContainerEdits.Apply] *)
Definition Apply (e : edits) : SpecModifier := fun s =>
  let s := match Env e with [] => s | _ => AddMultipleProcessEnv (Env e) s end in
  match apply_devices (DeviceNodes e) s with
  | (s, Some err) => (s, Some err)
  | (s, None) =>
      let s := foldl (fun s d => specgenAddLinuxNetDevice d s) s (CDISpec.NetDevices e) in
      let s := apply_mounts (Mounts e) s in
      match apply_hooks (Hooks e) s with
      | (s, Some err) => (s, Some err)
      | (s, None) =>
          let s := match IntelRdt_ e with None => s | Some i => set_intel_rdt i s end in
          (apply_gids (AdditionalGIDs e) s, None)
      end
  end.
End Apply.
