(* ===== verification/ApplyEditsProps.v ===== *)
(** * Properties of the application of container edits *)
From S2P Require Import Prelude GoStrings OCISpec CDISpec ApplyEdits.

(** ** Keyed lists as maps *)
Section KeyedProps.
Context {A : Type} (key : A -> string).

Definition keymap (l : list A) : gmap string A := list_to_map (map (fun x => (key x, x)) l).
Definition keyed (l : list A) : Prop := NoDup (map key l).

Lemma keymap_fst (l : list A) : (map (fun x => (key x, x)) l).*1 = map key l.
Proof. induction l as [|x l IH]; [done|]. cbn. f_equal. exact IH. Qed.

Lemma keymap_lookup l x : keyed l -> x ∈ l -> keymap l !! key x = Some x.
Proof.
  intros Hk Hx. apply elem_of_list_to_map; [by rewrite keymap_fst|].
  apply list_elem_of_fmap. by exists x.
Qed.

Lemma keymap_none l k : k ∉ map key l -> keymap l !! k = None.
Proof. intros Hk. apply not_elem_of_list_to_map. by rewrite keymap_fst. Qed.

Lemma remove_first_elem k l y : y ∈ map key (remove_first key k l) -> y ∈ map key l.
Proof.
  induction l as [|x l IH]; simpl; [done|]. case_match; [by right|].
  simpl. rewrite !elem_of_cons. by intros [->|Hy]; auto.
Qed.

Lemma remove_first_spec k l : keyed l ->
  keyed (remove_first key k l) /\ (k ∉ map key (remove_first key k l))
  /\ keymap (remove_first key k l) = delete k (keymap l).
Proof.
  unfold keyed. induction l as [|x l IH]; simpl; intros Hn.
  - split; [done|]. split; [by intros ?%elem_of_nil|]. unfold keymap. simpl. by rewrite delete_empty.
  - apply NoDup_cons in Hn as [Hx Hn]. destruct (IH Hn) as (IH1 & IH2 & IH3).
    destruct (String.eqb_spec (key x) k) as [<-|Hne].
    + split; [done|]. split; [done|]. unfold keymap at 2. simpl. fold (keymap l).
      by rewrite delete_insert_id by by apply keymap_none.
    + split; [|split].
      * simpl. apply NoDup_cons. split; [|done]. by intros ?%remove_first_elem.
      * simpl. apply not_elem_of_cons. by split.
      * unfold keymap. simpl. fold (keymap (remove_first key k l)) (keymap l).
        by rewrite IH3, delete_insert_ne.
Qed.

Lemma replace_first_fresh x l : key x ∉ map key l -> replace_first key x l = l ++ [x].
Proof.
  induction l as [|y l IH]; simpl; [done|]. intros [Hne Hn]%not_elem_of_cons.
  destruct (String.eqb_spec (key y) (key x)); [congruence|]. by rewrite IH.
Qed.

Lemma keymap_snoc x l : key x ∉ map key l -> keymap (l ++ [x]) = <[key x := x]> (keymap l).
Proof.
  induction l as [|y l IH]; simpl; [done|]. intros [Hne Hn]%not_elem_of_cons.
  unfold keymap. simpl. fold (keymap (l ++ [x])) (keymap l). rewrite IH by done.
  by rewrite insert_insert_ne.
Qed.

(** Removing an element by key and appending a new one is map insertion. *)
Lemma put_spec x l : keyed l ->
  keyed (remove_first key (key x) l ++ [x])
  /\ keymap (remove_first key (key x) l ++ [x]) = <[key x := x]> (keymap l).
Proof.
  intros Hk. destruct (remove_first_spec (key x) l Hk) as (Hk' & Hn & Hm). split.
  - unfold keyed. rewrite map_app. apply NoDup_app. split; [done|]. split; [|apply NoDup_singleton].
    intros y Hy ->%list_elem_of_singleton. done.
  - rewrite keymap_snoc by done. by rewrite Hm, insert_delete_eq.
Qed.

Lemma keymap_perm l1 l2 : l1 ≡ₚ l2 -> keyed l1 -> keymap l1 = keymap l2.
Proof.
  intros Hp Hk. apply list_to_map_proper; [by rewrite keymap_fst|]. by apply Permutation_map.
Qed.
Lemma keyed_perm l1 l2 : l1 ≡ₚ l2 -> keyed l1 -> keyed l2.
Proof. intros Hp Hk. unfold keyed. by rewrite <- Hp. Qed.
End KeyedProps.

(** ** What a container gets *)

Definition devices_of (s : OCISpec.Spec) : list LinuxDevice := Linux_Devices (get_linux s).
Definition rules_of (s : OCISpec.Spec) : list LinuxDeviceCgroup := Resources_Devices (get_linux s).
Definition well_keyed (s : OCISpec.Spec) : Prop :=
  keyed Device_Path (devices_of s) /\ keyed Destination (Spec_Mounts s).

(** The device node that a resolved CDI node stands for, for the process of
    the container, and its cgroup rule. *)
Definition device_for (s : OCISpec.Spec) (dn : DeviceNode) : LinuxDevice := owned_device (DeviceNode_toOCI dn) s.
Definition rule_for (dn : DeviceNode) : list LinuxDeviceCgroup :=
  if String.eqb (Type_ dn) "b" || String.eqb (Type_ dn) "c"
  then [mkLinuxDeviceCgroup true (Type_ dn) (Some (Major dn)) (Some (Minor dn))
          (if String.eqb (Permissions dn) "" then "rwm" else Permissions dn)]
  else [].
Definition put {A} (key : A -> string) (m : gmap string A) (x : A) : gmap string A := <[key x := x]> m.

Section ApplyProps.
Context (deviceInfoFromPath : string -> result deviceInfo).
Local Abbreviation fill := (fillMissingInfo deviceInfoFromPath).

Lemma fill_keeps d dn : fill d = Ok dn -> Path dn = Path d /\ Permissions dn = Permissions d.
Proof.
  unfold fillMissingInfo. intros H.
  repeat (case_match; try discriminate); injection H as <-; done.
Qed.

(** Filling in a node twice is filling it in once, so writing to a shared node
    does not matter. *)
Lemma fillMissingInfo_idem d dn : fill d = Ok dn -> fill dn = Ok dn.
Proof.
  unfold fillMissingInfo. set (hp := if String.eqb (HostPath d) "" then Path d else HostPath d).
  assert (Hq : (if String.eqb hp "" then Path d else hp) = hp).
  { unfold hp. destruct (String.eqb_spec (HostPath d) "") as [He|He].
    - destruct (String.eqb_spec (Path d) "") as [->|]; done.
    - by destruct (String.eqb_spec (HostPath d) ""). }
  destruct (deviceInfoFromPath hp) as [di|] eqn:Hdi.
  - destruct (negb (String.eqb (Type_ d) "") && _) eqn:Hmin; intros H.
    { injection H as <-. simpl. rewrite Hq, Hdi, Hmin. by destruct (FileMode d). }
    set (t := if String.eqb (Type_ d) "" then deviceType di else Type_ d) in H.
    destruct (String.eqb_spec t (deviceType di)) as [Ht|]; [simpl in H|done].
    assert (Hdn : exists ma mi, dn = mkDeviceNode (Path d) hp t ma mi
      (match FileMode d with Some m => Some m | None => Some (fileMode di) end) (Permissions d) (UID d) (GID d)
      /\ (t = "p" \/ ma <> 0%Z \/ (ma, mi) = (major di, minor di))).
    { destruct (String.eqb_spec t "p") as [Hp|Hp]; [injection H as <-; eauto 10|].
      destruct (Z.eqb_spec (Major d) 0); injection H as <-; eauto 10. }
    destruct Hdn as (ma & mi & -> & Hcase). simpl. rewrite Hq, Hdi.
    assert (Hmode : forall A (f : option Z -> A), f (match (match FileMode d with Some m => Some m | None =>
      Some (fileMode di) end) with Some m => Some m | None => Some (fileMode di) end)
      = f (match FileMode d with Some m => Some m | None => Some (fileMode di) end)).
    { intros. by destruct (FileMode d). }
    destruct (negb (String.eqb t "") && _) eqn:Hm2; [by rewrite (Hmode _ (fun m => Ok (mkDeviceNode _ _ _ _ _ m _ _ _)))|].
    assert (Ht2 : (if String.eqb t "" then deviceType di else t) = t).
    { destruct (String.eqb_spec t ""); congruence. }
    rewrite Ht2, (proj2 (String.eqb_eq _ _) Ht). simpl.
    rewrite !(Hmode _ (fun m => Ok (mkDeviceNode _ _ _ _ _ m _ _ _))).
    destruct (String.eqb_spec t "p") as [|Hp]; [done|]. destruct (Z.eqb_spec ma 0) as [->|]; [|done].
    destruct Hcase as [|[|[= <- <-]]]; done.
  - destruct (negb (String.eqb (Type_ d) "") && _) eqn:Hmin; intros H; [|done]. injection H as <-.
    simpl. by rewrite Hq, Hdi, Hmin.
Qed.

(** *** Devices *)

Lemma get_linux_set l s : get_linux (set_linux (Some l) s) = l.
Proof. done. Qed.

Lemma put_device d s : keyed Device_Path (devices_of s) ->
  devices_of (AddDevice d (RemoveDevice (Device_Path d) s)) = remove_first Device_Path (Device_Path d) (devices_of s) ++ [d].
Proof.
  intros Hk. destruct (remove_first_spec Device_Path (Device_Path d) _ Hk) as (_ & Hn & _).
  rewrite <- (replace_first_fresh Device_Path d) by done.
  unfold devices_of, AddDevice, RemoveDevice, get_linux. by destruct s as [? ? ? ? ? ? []].
Qed.

(** Everything but the devices and their rules. *)
Definition off_devices (s : OCISpec.Spec) : OCISpec.Spec * gmap string string * option LinuxIntelRdt :=
  (set_linux None s, OCISpec.NetDevices (get_linux s), Linux_IntelRdt (get_linux s)).

Lemma add_device_frame d s :
  off_devices (AddDevice d (RemoveDevice (Device_Path d) s)) = off_devices s
  /\ rules_of (AddDevice d (RemoveDevice (Device_Path d) s)) = rules_of s.
Proof. unfold off_devices, rules_of, AddDevice, RemoveDevice, get_linux. by destruct s as [? ? ? ? ? ? []]. Qed.

Lemma allow_device_frame dev perms s :
  off_devices (allow_device dev perms s) = off_devices s /\ devices_of (allow_device dev perms s) = devices_of s.
Proof. unfold allow_device. by destruct (String.eqb _ "b" || _). Qed.

Lemma owned_device_off dev s1 s2 : off_devices s1 = off_devices s2 -> owned_device dev s1 = owned_device dev s2.
Proof.
  intros H. assert (Hp : Spec_Process s1 = Spec_Process s2).
  { apply (f_equal (fun x => Spec_Process x.1.1)) in H. exact H. }
  unfold owned_device, default_id. by rewrite Hp.
Qed.

Lemma allow_device_rules d dn s s0 : fill d = Ok dn ->
  rules_of (allow_device (device_for s0 dn) (Permissions d) s) = rules_of s ++ rule_for dn.
Proof.
  intros [_ Hp]%fill_keeps. unfold allow_device, rule_for, device_for. simpl. rewrite Hp.
  destruct (String.eqb (Type_ dn) "b" || _); [done|]. by rewrite app_nil_r.
Qed.

Lemma apply_devices_spec ds s s' : keyed Device_Path (devices_of s) ->
  apply_devices deviceInfoFromPath ds s = (s', None) ->
  exists dns, Forall2 (fun d dn => fill d = Ok dn) ds dns
  /\ keyed Device_Path (devices_of s')
  /\ keymap Device_Path (devices_of s')
     = foldl (put Device_Path) (keymap Device_Path (devices_of s)) (map (device_for s) dns)
  /\ rules_of s' = rules_of s ++ concat (map rule_for dns)
  /\ off_devices s' = off_devices s.
Proof.
  revert s. induction ds as [|d ds IH]; simpl; intros s Hk H.
  { injection H as <-. exists []. simpl. by rewrite app_nil_r. }
  destruct (fill d) as [dn|] eqn:Hd; [|done]. fold (device_for s dn) in H.
  set (dev := device_for s dn) in *. set (s1 := AddDevice dev (RemoveDevice (Device_Path dev) s)) in *.
  destruct (put_spec Device_Path dev _ Hk) as [Hk1 Hm1].
  pose proof (put_device dev s Hk) as Hs1. fold s1 in Hs1. rewrite <- Hs1 in Hk1, Hm1.
  destruct (add_device_frame dev s) as [Ho1 Hr1]. fold s1 in Ho1, Hr1.
  destruct (allow_device_frame dev (Permissions d) s1) as [Ho2 Hd2].
  rewrite <- Hd2 in Hk1. destruct (IH _ Hk1 H) as (dns & Hf & Hk' & Hm & Hr & Ho).
  exists (dn :: dns). split; [by constructor|]. split; [done|]. simpl.
  pose proof (allow_device_rules d dn s1 s Hd) as Hrd. fold dev in Hrd.
  rewrite Hm, Hd2, Hm1, Hr, Hrd, Hr1, Ho, Ho2, Ho1.
  split; [|split; [by rewrite app_assoc|done]].
  f_equal. apply map_ext. intros x. apply owned_device_off. by rewrite Ho2, Ho1.
Qed.

Lemma apply_devices_frame ds s s' : apply_devices deviceInfoFromPath ds s = (s', None) ->
  set_linux None s' = set_linux None s.
Proof.
  revert s. induction ds as [|d ds IH]; simpl; intros s H; [by injection H as <-|].
  destruct (fill d) as [dn|]; [|done]. rewrite (IH _ H).
  destruct (allow_device_frame (owned_device (DeviceNode_toOCI dn) s) (Permissions d)
    (AddDevice (owned_device (DeviceNode_toOCI dn) s) (RemoveDevice (Path dn) s))) as [Ho _].
  apply (f_equal (fun x => x.1.1)) in Ho. simpl in Ho. rewrite Ho.
  destruct (add_device_frame (owned_device (DeviceNode_toOCI dn) s) s) as [Ho2 _].
  by apply (f_equal (fun x => x.1.1)) in Ho2.
Qed.

Lemma apply_devices_outcome ds s :
  (apply_devices deviceInfoFromPath ds s).2 = None <-> Forall (fun d => is_ok (fill d) = true) ds.
Proof.
  revert s. induction ds as [|d ds IH]; simpl; intros s; [by split; [constructor|]|].
  rewrite Forall_cons. destruct (fill d) as [dn|e]; simpl; [|by split; [|intros [? _]]].
  rewrite IH. naive_solver.
Qed.

(** *** Mounts *)

Lemma sorted_impl {A} (R S : A -> A -> Prop) l :
  (forall a b, R a b -> S a b) -> StronglySorted R l -> StronglySorted S l.
Proof.
  intros HRS. induction 1 as [|a l Hl IH Ha]; constructor; [done|]. eapply Forall_impl; [exact Ha|auto].
Qed.

Lemma apply_mounts_fold ms s : keyed Destination (Spec_Mounts s) ->
  let s' := foldl (fun s m => AddMount (Mount_toOCI m) (RemoveMount (ContainerPath m) s)) s ms in
  keyed Destination (Spec_Mounts s')
  /\ keymap Destination (Spec_Mounts s') = foldl (put Destination) (keymap Destination (Spec_Mounts s)) (map Mount_toOCI ms)
  /\ set_mounts [] s' = set_mounts [] s.
Proof.
  cbv zeta. revert s. induction ms as [|m ms IH]; simpl; intros s Hk; [done|].
  destruct (put_spec Destination (Mount_toOCI m) _ Hk) as [Hk1 Hm1].
  destruct (IH (AddMount (Mount_toOCI m) (RemoveMount (ContainerPath m) s)) Hk1) as (IH1 & IH2 & IH3).
  split; [exact IH1|]. split; [|exact IH3]. rewrite IH2. f_equal. exact Hm1.
Qed.

Lemma weak_order_mounts : weak_order mount_less.
Proof.
  unfold mount_less. split.
  - intros a. apply Nat.ltb_irrefl.
  - intros a b c ?%Nat.ltb_lt ?%Nat.ltb_lt. apply Nat.ltb_lt. lia.
  - intros a b c ?%Nat.ltb_lt. destruct (Nat.lt_ge_cases (mount_parts a) (mount_parts b)).
    + left. by apply Nat.ltb_lt.
    + right. apply Nat.ltb_lt. lia.
Qed.

Lemma apply_mounts_spec ms s : keyed Destination (Spec_Mounts s) ->
  keyed Destination (Spec_Mounts (apply_mounts ms s))
  /\ keymap Destination (Spec_Mounts (apply_mounts ms s))
     = foldl (put Destination) (keymap Destination (Spec_Mounts s)) (map Mount_toOCI ms)
  /\ set_mounts [] (apply_mounts ms s) = set_mounts [] s
  /\ (ms <> [] -> StronglySorted (fun a b => mount_parts a <= mount_parts b) (Spec_Mounts (apply_mounts ms s)))
  /\ (ms = [] -> Spec_Mounts (apply_mounts ms s) = Spec_Mounts s).
Proof.
  intros Hk. destruct ms as [|m ms]; [done|]. unfold apply_mounts.
  destruct (apply_mounts_fold (m :: ms) s Hk) as (H1 & H2 & H3).
  set (s1 := foldl _ s (m :: ms)) in *. unfold sortMounts. simpl Spec_Mounts.
  pose proof (insertion_sort_perm mount_less (Spec_Mounts s1)) as Hp.
  split; [apply (keyed_perm _ _ _ (symmetry Hp) H1)|]. split.
  { rewrite <- H2. symmetry. apply keymap_perm; [by symmetry|done]. }
  split; [exact H3|]. split; [|done]. intros _.
  apply (sorted_impl _ _ (insertion_sort mount_less (Spec_Mounts s1)))
    with (2 := insertion_sort_sorted _ _ weak_order_mounts).
  intros a b. unfold mount_less. by rewrite Nat.ltb_ge.
Qed.

(** *** Hooks *)

Definition hook_names : list string :=
  ["prestart"; "createRuntime"; "createContainer"; "startContainer"; "poststart"; "poststop"].
Definition hooks_of (name : string) (h : OCISpec.Hooks) : list OCISpec.Hook :=
  if String.eqb name "prestart" then Prestart h else if String.eqb name "poststart" then Poststart h
  else if String.eqb name "poststop" then Poststop h else if String.eqb name "createRuntime" then CreateRuntime h
  else if String.eqb name "createContainer" then CreateContainer h
  else if String.eqb name "startContainer" then StartContainer h else [].
Definition hooks_named (name : string) (s : OCISpec.Spec) : list OCISpec.Hook :=
  hooks_of name (default no_hooks (Spec_Hooks s)).

Lemma add_hook_spec n k h h' m : add_hook n k h = Some h' ->
  hooks_of m h' = hooks_of m h ++ (if String.eqb m n then [k] else []).
Proof.
  destruct h as [a b c d e f]. unfold add_hook. intros H.
  repeat match type of H with context [String.eqb n ?lit] => destruct (String.eqb_spec n lit) as [->|] end;
    try discriminate; injection H as <-; unfold hooks_of;
    repeat match goal with |- context [String.eqb m ?lit] => destruct (String.eqb_spec m lit) as [->|] end;
    simpl; rewrite ?app_nil_r; done.
Qed.

Lemma add_hook_known n k h : add_hook n k h = None <-> n ∉ hook_names.
Proof.
  destruct h as [a b c d e f]. unfold add_hook, hook_names.
  rewrite !not_elem_of_cons.
  repeat match goal with |- context [String.eqb n ?lit] => destruct (String.eqb_spec n lit) as [->|] end;
    (split; [intros [=]|try naive_solver]); repeat split; try done; apply not_elem_of_nil.
Qed.

Lemma apply_hooks_spec hs s s' m : apply_hooks hs s = (s', None) ->
  hooks_named m s' = hooks_named m s ++ map Hook_toOCI (List.filter (fun h => String.eqb m (HookName h)) hs)
  /\ set_hooks None s' = set_hooks None s.
Proof.
  revert s. induction hs as [|h hs IH]; simpl; intros s H; [injection H as <-; by rewrite app_nil_r|].
  destruct (add_hook _ _ _) as [k|] eqn:Hk; [|done].
  destruct (IH _ H) as [-> ->]. split; [|done]. unfold hooks_named at 1. simpl.
  rewrite (add_hook_spec _ _ _ _ m Hk). destruct (String.eqb m (HookName h)); simpl.
  - by rewrite <- app_assoc.
  - by rewrite app_nil_r.
Qed.

Lemma apply_hooks_outcome hs s : (apply_hooks hs s).2 = None <-> Forall (fun h => HookName h ∈ hook_names) hs.
Proof.
  revert s. induction hs as [|h hs IH]; simpl; intros s; [by split; [constructor|]|].
  rewrite Forall_cons. destruct (add_hook _ _ _) as [k|] eqn:Hk; simpl.
  - rewrite IH. assert (HookName h ∈ hook_names); [|naive_solver].
    destruct (decide (HookName h ∈ hook_names)) as [|Hn]; [done|].
    by rewrite (proj2 (add_hook_known _ _ _) Hn) in Hk.
  - apply add_hook_known in Hk. naive_solver.
Qed.

(** *** The remaining steps *)

Definition env_of (s : OCISpec.Spec) : list string := Process_Env (default no_process (Spec_Process s)).
Definition observe (s : OCISpec.Spec) :=
  (devices_of s, rules_of s, Spec_Mounts s, Spec_Hooks s, env_of s).

Lemma observe_gids gids s : observe (apply_gids gids s) = observe s.
Proof.
  unfold apply_gids. revert s. induction gids as [|g gids IH]; intros s; simpl; [done|]. rewrite IH.
  destruct (Z.eqb g 0); [done|]. unfold AddProcessAdditionalGid, observe, env_of. simpl.
  by destruct (bool_decide _).
Qed.

Lemma observe_netdevices ds s : observe (foldl (fun s d => specgenAddLinuxNetDevice d s) s ds) = observe s
  /\ Spec_Process (foldl (fun s d => specgenAddLinuxNetDevice d s) s ds) = Spec_Process s.
Proof. revert s. induction ds as [|d ds IH]; intros s; simpl; [done|]. by destruct (IH (specgenAddLinuxNetDevice d s)) as [-> ->]. Qed.

Lemma observe_rdt i s : observe (set_intel_rdt i s) = observe s.
Proof. done. Qed.

Definition with_env (envs : list string) (s : OCISpec.Spec) : OCISpec.Spec :=
  match envs with [] => s | _ => AddMultipleProcessEnv envs s end.

Lemma with_env_frame envs s :
  devices_of (with_env envs s) = devices_of s /\ rules_of (with_env envs s) = rules_of s
  /\ Spec_Mounts (with_env envs s) = Spec_Mounts s /\ Spec_Hooks (with_env envs s) = Spec_Hooks s
  /\ forall dn, device_for (with_env envs s) dn = device_for s dn.
Proof.
  destruct envs as [|v envs]; [done|]. repeat split. intros dn.
  unfold device_for, owned_device, default_id. simpl. by destruct (Spec_Process s), (UID dn), (GID dn).
Qed.

(** What the steps after the devices change. *)
Lemma Apply_rest e s s' : keyed Destination (Spec_Mounts s) ->
  Apply deviceInfoFromPath e s = (s', None) ->
  exists s2, apply_devices deviceInfoFromPath (DeviceNodes e) (with_env (Env e) s) = (s2, None)
  /\ devices_of s' = devices_of s2 /\ rules_of s' = rules_of s2
  /\ keyed Destination (Spec_Mounts s')
  /\ keymap Destination (Spec_Mounts s')
     = foldl (put Destination) (keymap Destination (Spec_Mounts s)) (map Mount_toOCI (Mounts e))
  /\ (Mounts e <> [] -> StronglySorted (fun a b => mount_parts a <= mount_parts b) (Spec_Mounts s'))
  /\ (Mounts e = [] -> Spec_Mounts s' = Spec_Mounts s)
  /\ (forall m, hooks_named m s' = hooks_named m s
        ++ map Hook_toOCI (List.filter (fun h => String.eqb m (HookName h)) (Hooks e)))
  /\ env_of s' = env_of (with_env (Env e) s).
Proof.
  intros Hk. unfold Apply. fold (with_env (Env e) s). set (s1 := with_env (Env e) s).
  destruct (apply_devices _ _ _) as [s2 [err|]] eqn:Hd; [done|]. intros H. exists s2. split; [done|].
  set (s3 := foldl _ s2 _) in H. set (s4 := apply_mounts (Mounts e) s3) in H.
  destruct (apply_hooks _ s4) as [s5 [err|]] eqn:Hh; [done|]. injection H as <-.
  destruct (with_env_frame (Env e) s) as (_ & _ & Hm1 & Hh1 & _). fold s1 in Hm1, Hh1.
  assert (Ho2 : set_linux None s2 = set_linux None s1).
  { apply (apply_devices_frame _ _ _ Hd). }
  destruct (observe_netdevices (CDISpec.NetDevices e) s2) as [Ho3 Hp3]. fold s3 in Ho3, Hp3.
  assert (Hm3 : Spec_Mounts s3 = Spec_Mounts s).
  { transitivity (Spec_Mounts s2); [exact (f_equal (fun x => x.1.1.2) Ho3)|].
    rewrite <- Hm1. exact (f_equal Spec_Mounts Ho2). }
  rewrite <- Hm3 in Hk. destruct (apply_mounts_spec (Mounts e) s3 Hk) as (Hk4 & Hm4 & Hf4 & Hs4 & He4). fold s4 in Hk4, Hm4, Hf4, Hs4, He4.
  pose proof (fun m => apply_hooks_spec _ _ _ m Hh) as Hh5. pose proof (proj2 (Hh5 "")) as Hf5.
  assert (Ho : forall s', observe s' = observe s5 -> devices_of s' = devices_of s2 /\ rules_of s' = rules_of s2
    /\ Spec_Mounts s' = Spec_Mounts s4 /\ Spec_Hooks s' = Spec_Hooks s5 /\ env_of s' = env_of s1).
  { intros s' [= -> -> -> -> ->]. unfold devices_of, rules_of, env_of, get_linux.
    injection Ho3 as Hd3 Hr3 _ _ _. unfold devices_of, rules_of, get_linux in Hd3, Hr3.
    assert (Spec_Linux s5 = Spec_Linux s3) as ->.
    { transitivity (Spec_Linux s4); [exact (f_equal Spec_Linux Hf5)|exact (f_equal Spec_Linux Hf4)]. }
    assert (Spec_Process s5 = Spec_Process s1) as ->.
    { transitivity (Spec_Process s4); [exact (f_equal Spec_Process Hf5)|].
      transitivity (Spec_Process s3); [exact (f_equal Spec_Process Hf4)|].
      rewrite Hp3. exact (f_equal Spec_Process Ho2). }
    split; [done|]. split; [done|]. split; [exact (f_equal Spec_Mounts Hf5)|]. done. }
  set (s' := apply_gids _ _). destruct (Ho s') as (-> & -> & -> & Hhk & ->).
  { unfold s'. rewrite observe_gids. by destruct (IntelRdt_ e). }
  split; [done|]. split; [done|]. split; [done|]. split; [by rewrite Hm4, Hm3|]. split; [done|].
  split; [intros Hn; by rewrite He4, Hm3|]. split; [|done]. intros m.
  unfold hooks_named at 1. rewrite Hhk. fold (hooks_named m s5). rewrite (proj1 (Hh5 m)). f_equal.
  unfold hooks_named. do 2 f_equal. transitivity (Spec_Hooks s3); [exact (f_equal Spec_Hooks Hf4)|].
  transitivity (Spec_Hooks s2); [exact (f_equal (fun x => x.1.2) Ho3)|].
  rewrite <- Hh1. exact (f_equal Spec_Hooks Ho2).
Qed.

(** C21. Applying container edits gives the container exactly these things: of
    every device path and mount destination the last of the edits, owned by
    the user of the container, with those the container already had at other
    paths; a cgroup rule per character or block device; and every hook at the
    end of the hooks of its kind. Mounts come out in the order of their depth
    and no path or destination is ever listed twice. *)
Theorem Apply_spec e s s' : well_keyed s -> Apply deviceInfoFromPath e s = (s', None) ->
  well_keyed s' /\ exists dns, Forall2 (fun d dn => fill d = Ok dn) (DeviceNodes e) dns
  /\ keymap Device_Path (devices_of s')
     = foldl (put Device_Path) (keymap Device_Path (devices_of s)) (map (device_for s) dns)
  /\ rules_of s' = rules_of s ++ concat (map rule_for dns)
  /\ keymap Destination (Spec_Mounts s')
     = foldl (put Destination) (keymap Destination (Spec_Mounts s)) (map Mount_toOCI (Mounts e))
  /\ (Mounts e <> [] -> StronglySorted (fun a b => mount_parts a <= mount_parts b) (Spec_Mounts s'))
  /\ (forall m, hooks_named m s' = hooks_named m s
        ++ map Hook_toOCI (List.filter (fun h => String.eqb m (HookName h)) (Hooks e))).
Proof.
  intros [Hkd Hkm] H. destruct (Apply_rest e s s' Hkm H) as (s2 & Hd & Hd' & Hr' & Hk' & Hm & Hs & _ & Hh & _).
  destruct (with_env_frame (Env e) s) as (Hwd & Hwr & _ & _ & Hwf). rewrite <- Hwd in Hkd.
  destruct (apply_devices_spec _ _ _ Hkd Hd) as (dns & Hf & Hk2 & Hm2 & Hr2 & _).
  split; [by split; [rewrite Hd'|]|]. exists dns. split; [done|].
  rewrite Hd', Hm2, Hwd, Hr', Hr2, Hwr. split; [|done]. f_equal. by apply map_ext.
Qed.

(** Applying edits fails exactly when a device cannot be read although its
    specification needs it, or when a hook has an unknown name. *)
Theorem Apply_outcome e s :
  (Apply deviceInfoFromPath e s).2 = None
  <-> Forall (fun d => is_ok (fill d) = true) (DeviceNodes e) /\ Forall (fun h => HookName h ∈ hook_names) (Hooks e).
Proof.
  unfold Apply. fold (with_env (Env e) s). rewrite <- (apply_devices_outcome _ (with_env (Env e) s)).
  destruct (apply_devices _ _ _) as [s2 [err|]]; simpl; [by split; [|intros [? _]]|].
  set (s4 := apply_mounts _ _). rewrite <- (apply_hooks_outcome _ s4).
  destruct (apply_hooks _ s4) as [s5 [err|]]; simpl; by split; [|intros [_ ?]].
Qed.

(** *** The environment *)

Lemma replace_first_found {A} (key : A -> string) x l i y :
  list_find (fun z => key z = key x) l = Some (i, y) ->
  replace_first key x l = <[i := x]> l /\ i < length l
  /\ forall k, fst <$> list_find (fun z => key z = k) (<[i := x]> l) = fst <$> list_find (fun z => key z = k) l.
Proof.
  revert i y. induction l as [|z l IH]; intros i y; simpl; [done|].
  destruct (decide (key z = key x)) as [He|Hne].
  - intros [= <- <-]. rewrite He, String.eqb_refl. split; [done|]. split; [simpl; lia|]. intros k. simpl.
    destruct (decide (key x = k)), (decide (key z = k)); try congruence; done.
  - destruct (list_find _ l) as [[j w]|] eqn:Hf; [|done]. intros [= <- <-].
    destruct (IH _ _ eq_refl) as (IH1 & IH2 & IH3).
    destruct (String.eqb_spec (key z) (key x)); [done|]. simpl. rewrite IH1. split; [done|]. split; [lia|].
    intros k. simpl. destruct (decide (key z = k)); [done|]. specialize (IH3 k).
    destruct (list_find _ (<[j:=x]> l)) as [[]|], (list_find (fun z => key z = k) l) as [[]|]; simpl in *; congruence.
Qed.

Lemma replace_first_missing {A} (key : A -> string) x l :
  list_find (fun z => key z = key x) l = None ->
  replace_first key x l = l ++ [x]
  /\ forall k, fst <$> list_find (fun z => key z = k) (l ++ [x])
     = match fst <$> list_find (fun z => key z = k) l with
       | Some i => Some i
       | None => if decide (key x = k) then Some (length l) else None
       end.
Proof.
  induction l as [|z l IH]; simpl.
  - intros _. split; [done|]. intros k. by destruct (decide (key x = k)).
  - destruct (decide (key z = key x)) as [He|Hne]; [done|]. destruct (list_find _ l) as [[]|] eqn:Hf; [done|].
    intros _. destruct (IH eq_refl) as [IH1 IH2]. destruct (String.eqb_spec (key z) (key x)); [done|].
    rewrite IH1. split; [done|]. intros k. simpl. destruct (decide (key z = k)); [done|]. specialize (IH2 k).
    destruct (list_find _ (l ++ [x])) as [[]|], (list_find (fun z => key z = k) l) as [[]|]; simpl in *;
      try congruence; destruct (decide (key x = k)); congruence.
Qed.

Definition set_entries (upd envs : list string) : list string :=
  foldl (fun upd v => replace_first env_key v upd) upd envs.

Lemma env_key_free v : has_byte "=" (env_key v) = false.
Proof.
  unfold env_key. destruct (cut "=" v) as [[k r]|] eqn:Hc.
  - by apply (cut_byte_some "="%char) in Hc as [_ ?].
  - by apply (cut_byte_none "="%char).
Qed.

Lemma add_envs_appends l0 envs upd m :
  (forall k, has_byte "=" k = false ->
    m !! k = (fun i => length l0 + i) <$> (fst <$> list_find (fun v => env_key v = k) upd)) ->
  (add_envs envs (l0 ++ upd, m)).1 = l0 ++ set_entries upd envs.
Proof.
  revert upd m. induction envs as [|v envs IH]; intros upd m Hm; [done|]. unfold add_envs, set_entries. simpl.
  fold (set_entries (replace_first env_key v upd) envs). unfold addEnv. simpl.
  rewrite Hm by apply env_key_free.
  destruct (list_find (fun z => env_key z = env_key v) upd) as [[i w]|] eqn:Hf; simpl.
  - destruct (replace_first_found _ _ _ _ _ Hf) as (-> & Hi & Hk).
    rewrite insert_app_r. apply IH. intros k Hfree. rewrite Hm by done. by rewrite Hk.
  - destruct (replace_first_missing _ _ _ Hf) as (-> & Hk). rewrite <- app_assoc. apply IH.
    intros k Hfree. rewrite Hk, length_app. destruct (decide (env_key v = k)) as [<-|Hne].
    + rewrite lookup_insert_eq, Hf. done.
    + rewrite lookup_insert_ne, Hm by done. by destruct (fst <$> _).
Qed.

Lemma cache_keys env k : has_byte "=" k = false -> Forall (fun v => has_byte "=" v = true) env ->
  createEnvCacheMap env !! k = None.
Proof.
  intros Hk He. unfold createEnvCacheMap.
  assert (Hi : forall l (m : gmap string nat), Forall (fun p => has_byte "=" p.2 = true) l -> m !! k = None ->
    foldl (fun m (kv : nat * string) => <[kv.2 := kv.1]> m) m l !! k = None).
  { induction l as [|p l IH]; intros m Hl Hm; [done|]. apply Forall_cons in Hl as [Hp Hl]. simpl.
    apply IH; [done|]. rewrite lookup_insert_ne; [done|]. intros <-. congruence. }
  apply Hi; [|done]. apply Forall_forall. intros [j v] Hin. apply elem_of_lookup_imap in Hin as (i & x & [= -> ->] & Hx).
  simpl. rewrite Forall_forall in He. apply He. by eapply list_elem_of_lookup_2.
Qed.

Lemma set_entries_keymap upd envs : keyed env_key upd ->
  keyed env_key (set_entries upd envs)
  /\ keymap env_key (set_entries upd envs) = foldl (put env_key) (keymap env_key upd) envs.
Proof.
  revert upd. induction envs as [|v envs IH]; intros upd Hk; [done|].
  assert (Hr : keyed env_key (replace_first env_key v upd)
    /\ keymap env_key (replace_first env_key v upd) = put env_key (keymap env_key upd) v).
  { clear IH. unfold keyed, put in *. induction upd as [|y upd IHu]; simpl in *.
    { split; [apply NoDup_singleton|done]. }
    apply NoDup_cons in Hk as [Hy Hk]. destruct (String.eqb_spec (env_key y) (env_key v)) as [He|Hne].
    - unfold keymap. simpl. rewrite <- He. split; [by apply NoDup_cons|]. by rewrite insert_insert_eq.
    - destruct (IHu Hk) as [IH1 IH2]. unfold keymap in *. simpl. rewrite IH2. split.
      + apply NoDup_cons. split; [|done]. intros Hin.
        assert (forall l, env_key y ∈ map env_key (replace_first env_key v l) -> env_key y ∈ map env_key l) as Hsub.
        { induction l as [|z l IHl]; simpl; [by rewrite list_elem_of_singleton|].
          destruct (String.eqb_spec (env_key z) (env_key v)) as [Hz|]; simpl; rewrite !elem_of_cons.
          - intros [Hy'|Hy']; [left; congruence|by right].
          - intros [Hy'|Hy']; [by left|right; by apply IHl]. }
        by apply Hy, Hsub.
      + by rewrite insert_insert_ne. }
  destruct Hr as [Hk' Hm']. destruct (IH _ Hk') as [IH1 IH2]. unfold set_entries in *. simpl.
  split; [done|]. by rewrite IH2, Hm'.
Qed.

(** The environment of the edits is added behind that of the container, the
    last entry of each name once. An entry that the container already has is
    never replaced, since the cache of the generator is keyed by whole entries
    and not by names. *)
Theorem Apply_env_appends e s s' : well_keyed s -> Forall (fun v => has_byte "=" v = true) (env_of s) ->
  Apply deviceInfoFromPath e s = (s', None) ->
  exists upd, env_of s' = env_of s ++ upd /\ NoDup (map env_key upd)
    /\ keymap env_key upd = foldl (put env_key) ∅ (Env e).
Proof.
  intros [_ Hkm] He H. destruct (Apply_rest e s s' Hkm H) as (_ & _ & _ & _ & _ & _ & _ & _ & _ & ->).
  exists (set_entries [] (Env e)). split; [|by apply set_entries_keymap; apply NoDup_nil_2].
  unfold with_env. destruct (Env e) as [|v envs] eqn:Henv; [by rewrite app_nil_r|].
  unfold AddMultipleProcessEnv, env_of. simpl. fold (env_of s).
  rewrite <- (app_nil_r (env_of s)) at 1. apply (add_envs_appends _ (v :: envs)).
  intros k Hk. by apply cache_keys.
Qed.
End ApplyProps.

(** ** Witnesses *)

Definition demo_info (path : string) : result deviceInfo :=
  if String.eqb path "/dev/nvidia0" then Ok (mkDeviceInfo "c" 195 0 438) else Err "no such file or directory".
Definition demo_spec : OCISpec.Spec :=
  OCISpec.mkSpec "1.0.2" (Some (mkProcess (mkUser 1000 1000 []) ["sh"] ["PATH=/bin"; "NVIDIA_VISIBLE_DEVICES=all"] None))
    None [OCISpec.mkMount "/proc" "proc" "proc" []; OCISpec.mkMount "/usr/lib/libcuda.so.1" "" "/old" []] None ∅
    (Some (mkLinux [mkLinuxDevice "/dev/nvidia0" "c" 1 1 None None None] ∅ [] None)).
Definition demo_edits : edits :=
  mkEdits ["NVIDIA_VISIBLE_DEVICES=void"] [mkDeviceNode "/dev/nvidia0" "" "" 0 0 None "" None None] []
    [mkHook "createContainer" "/usr/bin/nvidia-cdi-hook" ["nvidia-cdi-hook"; "update-ldcache"] [] None]
    [mkMount "/new" "/usr/lib/libcuda.so.1" ["ro"] ""; mkMount "/x" "/x" [] ""] None [44%Z].

Theorem Apply_spec_witness :
  exists s', well_keyed s'
  /\ devices_of s' = [mkLinuxDevice "/dev/nvidia0" "c" 195 0 (Some 438%Z) (Some 1000%Z) (Some 1000%Z)]
  /\ rules_of s' = [mkLinuxDeviceCgroup true "c" (Some 195%Z) (Some 0%Z) "rwm"]
  /\ map Destination (Spec_Mounts s') = ["/proc"; "/x"; "/usr/lib/libcuda.so.1"]
  /\ map Source (Spec_Mounts s') = ["proc"; "/x"; "/new"].
Proof.
  exists (Apply demo_info demo_edits demo_spec).1. split; [|vm_compute; repeat split].
  apply (Apply_spec demo_info demo_edits demo_spec).
  - split; [vm_compute; apply NoDup_singleton|evaluate].
  - vm_compute. reflexivity.
Defined.

Theorem Apply_env_appends_witness :
  env_of (Apply demo_info demo_edits demo_spec).1
    = ["PATH=/bin"; "NVIDIA_VISIBLE_DEVICES=all"; "NVIDIA_VISIBLE_DEVICES=void"]
  /\ exists upd, env_of (Apply demo_info demo_edits demo_spec).1 = env_of demo_spec ++ upd /\ NoDup (map env_key upd)
    /\ keymap env_key upd = foldl (put env_key) ∅ (Env demo_edits).
Proof.
  split; [vm_compute; reflexivity|].
  apply (Apply_env_appends demo_info demo_edits demo_spec).
  - split; [vm_compute; apply NoDup_singleton|evaluate].
  - vm_compute. repeat constructor.
  - vm_compute. reflexivity.
Defined.
