(* ===== verification/CDIParser.v ===== *)
(** * CDI device names

    The vendored package [pkg/parser] of the container device interface
    (src/vendor/tags.cncf.io/container-device-interface/pkg/parser/parser.go):
    qualified device names [vendor/class=name]. The characters of a name are
    compared one byte at a time; the bytes of a non-ASCII rune are all outside
    the accepted set, as the rune is. *)
From S2P Require Import Prelude.
From S2P Require Import GoStrings.

Definition QualifiedName (vendor class name : string) : string :=
  vendor +:+ "/" +:+ class +:+ "=" +:+ name.

Definition ParseQualifier (kind : string) : string * string :=
  match splitN 2 "/" kind with
  | [a; b] => if String.eqb a "" || String.eqb b "" then ("", kind) else (a, b)
  | _ => ("", kind)
  end.

Definition ParseDevice (device : string) : string * string * string :=
  if String.eqb device "" || has_prefix device "/" then ("", "", device)
  else match splitN 2 "=" device with
       | [a; name] =>
           if String.eqb a "" || String.eqb name "" then ("", "", device)
           else let '(vendor, class) := ParseQualifier a in
                if String.eqb vendor "" then ("", "", device) else (vendor, class, name)
       | _ => ("", "", device)
       end.

(** The last byte of a string. *)
Definition last_byte (s : string) : option ascii := head (bytes (srev s)).

Definition vendor_class_char (c : ascii) : bool :=
  is_alnum c || Ascii.eqb c "_" || Ascii.eqb c "-" || Ascii.eqb c ".".
Definition device_char (c : ascii) : bool := vendor_class_char c || Ascii.eqb c ":".

(** [name[1 : len(name)-1]] *)
Definition inner (s : string) : string := sdrop 1 (stake (String.length s - 1) s).

Definition ends_alnum (s : string) : bool :=
  match last_byte s with Some c => is_alnum c | None => false end.

(** Whether a vendor or class name is valid. [None] is a panic: for a name of
    one letter the slice expression [name[1:len(name)-1]] is [name[1:0]],
    whose bounds are out of range. *)
Definition validateVendorOrClassName (name : string) : option bool :=
  match name with
  | "" => Some false
  | String c rest =>
      if negb (is_letter c) then Some false
      else if String.eqb rest "" then None
      else Some (string_all vendor_class_char (inner name) && ends_alnum name)
  end.

Definition ValidateDeviceName (name : string) : bool :=
  match name with
  | "" => false
  | String c "" => is_alnum c
  | String c _ => is_alnum c && string_all device_char (inner name) && ends_alnum name
  end.

(** [None] is a panic. *)
Definition ParseQualifiedName (device : string)
  : option (result (string * string * string)) :=
  let '(vendor, class, name) := ParseDevice device in
  let unqualified what :=
    Some (Err ("unqualified device " +:+ quote device +:+ ", missing " +:+ what)) in
  let invalid := Some (Err ("invalid device " +:+ quote device)) in
  if String.eqb vendor "" then unqualified "vendor"
  else if String.eqb class "" then unqualified "class"
  else if String.eqb name "" then unqualified "device name"
  else
    ok ← validateVendorOrClassName vendor;
    if negb ok then invalid
    else
      ok ← validateVendorOrClassName class;
      if negb ok then invalid
      else if negb (ValidateDeviceName name) then invalid
      else Some (Ok (vendor, class, name)).

Definition IsQualifiedName (device : string) : option bool :=
  is_ok <$> ParseQualifiedName device.

(** ** Round trip *)

Definition valid_vendor (s : string) : Prop := validateVendorOrClassName s = Some true.

Lemma splitN_2 sep s :
  splitN 2 sep s = match cut sep s with Some (a, b) => [a; b] | None => [s] end.
Proof. simpl. by destruct (cut sep s) as [[a b]|]. Qed.

Lemma string_all_free f c s : string_all f s = true -> f c = false -> has_byte c s = false.
Proof.
  intros H Hc. unfold has_byte. induction s as [|d s IH]; simpl in *; [done|].
  apply andb_true_iff in H as [Hd Hs]. apply orb_false_iff. split; [|by apply IH].
  apply Ascii.eqb_neq. intros ->. congruence.
Qed.

Lemma string_all_app f a b : string_all f (a +:+ b) = string_all f a && string_all f b.
Proof. induction a as [|c a IH]; simpl; [done|]. by rewrite IH, andb_assoc. Qed.

Lemma stake_snoc a c : stake (String.length (a +:+ String c "") - 1) (a +:+ String c "") = a.
Proof. rewrite slength_app. simpl. rewrite Nat.add_sub. apply stake_app. Qed.

Lemma snoc_cases s : s = "" \/ exists a c, s = a +:+ String c "".
Proof.
  induction s as [|c s IH]; [by left|]. right. destruct IH as [->|(a & d & ->)].
  - by exists "", c.
  - by exists (String c a), d.
Qed.

Lemma last_byte_snoc a c : last_byte (a +:+ String c "") = Some c.
Proof. unfold last_byte. by rewrite srev_sapp. Qed.

(** Every byte of a valid vendor or class is a vendor/class character. *)
Lemma valid_vendor_chars s : valid_vendor s -> s <> "" /\ string_all vendor_class_char s = true.
Proof.
  unfold valid_vendor, validateVendorOrClassName. destruct s as [|c rest]; [done|].
  destruct (is_letter c) eqn:Ec; simpl; [|done].
  destruct (snoc_cases rest) as [->|(a & d & ->)]; [done|].
  destruct (String.eqb_spec (a +:+ String d "") "") as [|_]; [done|].
  intros [= [Hi He]%andb_true_iff]. split; [done|].
  change (String c (a +:+ String d "")) with (String c a +:+ String d "") in Hi, He.
  unfold inner in Hi. rewrite stake_snoc in Hi. simpl in Hi.
  unfold ends_alnum in He. rewrite last_byte_snoc in He.
  simpl. rewrite string_all_app. replace (sdrop 0 a) with a in Hi by by destruct a.
  rewrite Hi. simpl. unfold vendor_class_char, is_alnum in *. rewrite Ec, He. done.
Qed.

Lemma vendor_class_free s c :
  valid_vendor s -> vendor_class_char c = false -> has_byte c s = false.
Proof. intros [_ H]%valid_vendor_chars. by apply string_all_free. Qed.

Lemma ParseQualifier_qualified vendor class :
  vendor <> "" -> class <> "" -> has_byte slash vendor = false ->
  ParseQualifier (vendor +:+ "/" +:+ class) = (vendor, class).
Proof.
  intros Hv Hc Hs. unfold ParseQualifier. rewrite splitN_2.
  change ("/" +:+ class) with (String slash class). rewrite (cut_byte_app slash) by done.
  apply String.eqb_neq in Hv as ->. by apply String.eqb_neq in Hc as ->.
Qed.

Lemma QualifiedName_parse vendor class name :
  valid_vendor vendor -> valid_vendor class -> ValidateDeviceName name = true ->
  ParseQualifiedName (QualifiedName vendor class name) = Some (Ok (vendor, class, name)).
Proof.
  intros Hv Hc Hn.
  pose proof (valid_vendor_chars _ Hv) as [Hv0 _].
  pose proof (valid_vendor_chars _ Hc) as [Hc0 _].
  assert (name <> "") as Hn0 by by intros ->.
  assert (ParseDevice (QualifiedName vendor class name) = (vendor, class, name)) as Hp.
  { unfold ParseDevice, QualifiedName.
    rewrite eqb_app_ne, has_prefix_free by (try done; by apply vendor_class_free).
    simpl (false || _). rewrite splitN_2.
    replace (vendor +:+ "/" +:+ class +:+ "=" +:+ name)
      with ((vendor +:+ "/" +:+ class) +:+ String "=" name) by (change (String "=" name) with ("=" +:+ name); by rewrite !sapp_assoc).
    rewrite cut_byte_app; last first.
    { rewrite !has_byte_app. by rewrite (vendor_class_free vendor), (vendor_class_free class). }
    rewrite eqb_app_ne by done. apply String.eqb_neq in Hn0 as ->. simpl (false || _).
    rewrite ParseQualifier_qualified by (try done; by apply vendor_class_free).
    by apply String.eqb_neq in Hv0 as ->. }
  unfold ParseQualifiedName. rewrite Hp.
  apply String.eqb_neq in Hv0, Hc0, Hn0. rewrite Hv0, Hc0, Hn0.
  rewrite Hv, Hc. simpl. by rewrite Hn.
Qed.
