(* ===== verification/Transform.v ===== *)
(** * CDI specification transforms (src/pkg/nvcdi/transform)

    [dedupe] removes repeated entities, [remove] drops entities by identity,
    [simplify] removes from every device what the common edits already have,
    [sorter] orders device nodes, mounts and devices, [mergedDevice] adds a
    device that combines all others. A transformer works in place on a
    non-nil specification; here it returns the updated one. [json.Marshal] of
    the entity types cannot fail, so the identities are total.

    The transforms never write through an entity pointer, so entities are
    held by value. *)
From S2P Require Import Prelude GoStrings Json CDISpec CDIParser.

Definition Transformer : Type := spec -> result spec.

(** [for _, device := range spec.Devices { ...; updated = append(updated, device) }]
    with a function that cannot fail. *)
Definition map_device_edits (f : edits -> edits) (s : spec) : spec :=
  set_devices (map (fun d => set_device_edits (f (Device_Edits d)) d) (Devices s)) s.

(** ** dedupe *)

Definition deduplicateDeviceNodes (entities : list DeviceNode) : list DeviceNode :=
  dedup_by deviceNode_id ∅ entities.
Definition deduplicateEnvs (entities : list string) : list string :=
  dedup_by id ∅ entities.
Definition deduplicateHooks (entities : list Hook) : list Hook :=
  dedup_by hook_id ∅ entities.
Definition deduplicateMounts (entities : list Mount) : list Mount :=
  dedup_by mount_id ∅ entities.
Definition deduplicateAdditionalGIDs (entities : list Z) : list Z :=
  merge_sort Z.le (dedup_by id ∅ entities).

Definition dedupe_transformEdits (e : edits) : edits :=
  mkEdits (deduplicateEnvs (Env e)) (deduplicateDeviceNodes (DeviceNodes e)) (NetDevices e)
    (deduplicateHooks (Hooks e)) (deduplicateMounts (Mounts e)) (IntelRdt_ e)
    (deduplicateAdditionalGIDs (AdditionalGIDs e)).

Definition dedupe (s : spec) : spec :=
  map_device_edits dedupe_transformEdits
    (set_spec_edits (dedupe_transformEdits (Spec_Edits s)) s).

(** ** Identities of the entities of container edits *)

Definition IsEmpty (e : edits) : bool :=
  match DeviceNodes e, Env e, Hooks e, Mounts e with
  | [], [], [], [] => true
  | _, _, _, _ => false
  end.

(** [m[id] = true] for every id. *)
Definition id_map (ids : list string) : gmap string bool :=
  foldl (fun m id => <[id := true]> m) ∅ ids.
Definition getDeviceNodeIDs (e : edits) : gmap string bool := id_map (map deviceNode_id (DeviceNodes e)).
Definition getEnvIDs (e : edits) : gmap string bool := id_map (Env e).
Definition getHookIDs (e : edits) : gmap string bool := id_map (map hook_id (Hooks e)).
Definition getMountIDs (e : edits) : gmap string bool := id_map (map mount_id (Mounts e)).

Section Ranges.
Context `{MapRange}.

(** [for k := range m { uniqueIDs[k] = true }] *)
Definition add_ids (m uniqueIDs : gmap string bool) : gmap string bool :=
  foldl (fun u kv => <[kv.1 := true]> u) uniqueIDs (range m).
Definition getEntityIds (e : edits) : list string :=
  (range (add_ids (getMountIDs e) (add_ids (getHookIDs e)
    (add_ids (getEnvIDs e) (add_ids (getDeviceNodeIDs e) ∅))))).*1.
End Ranges.

(** ** remove *)

Definition newRemover (ids : list string) : gmap string bool := id_map ids.

(** [r[id]] is false for an id that is not in the map. *)
Definition removed (r : gmap string bool) (id : string) : bool := default false (r !! id).

Definition remove_transformEdits (r : gmap string bool) (e : edits) : edits :=
  mkEdits (List.filter (fun x => negb (removed r x)) (Env e))
    (List.filter (fun x => negb (removed r (deviceNode_id x))) (DeviceNodes e)) (NetDevices e)
    (List.filter (fun x => negb (removed r (hook_id x))) (Hooks e))
    (List.filter (fun x => negb (removed r (mount_id x))) (Mounts e)) (IntelRdt_ e)
    (AdditionalGIDs e).

(** The loop over the devices edits a copy of each device and drops it, so
    only the common edits change. *)
Definition remove (r : gmap string bool) (s : spec) : spec :=
  set_spec_edits (remove_transformEdits r (Spec_Edits s)) s.

(** ** simplify *)

Definition empty_spec : spec := mkSpec "" "" ∅ [] no_edits.

Definition simplify_device (toRemove : gmap string bool) (d : device) : device :=
  let deviceAsSpec := remove toRemove (set_spec_edits (Device_Edits d) empty_spec) in
  if negb (IsEmpty (Spec_Edits deviceAsSpec))
  then set_device_edits (Spec_Edits deviceAsSpec) d
  else d.

Definition simplify `{MapRange} (s : spec) : spec :=
  let s := dedupe s in
  let toRemove := newRemover (getEntityIds (Spec_Edits s)) in
  set_devices (map (simplify_device toRemove) (Devices s)) s.

(** ** sorter *)

Definition path_depth (p : string) : nat := count_byte slash (clean p).

Section Sorting.
Context `{SortSlice}.

Definition sortDevices (ds : list device) : list device :=
  sort_slice (fun a b => sltb (Device_Name a) (Device_Name b)) ds.
Definition sortDeviceNodes (entities : list DeviceNode) : list DeviceNode :=
  sort_slice (less_depth (fun x => path_depth (Path x)) Path) entities.
Definition sortMounts (entities : list Mount) : list Mount :=
  sort_slice (less_depth (fun x => path_depth (ContainerPath x)) ContainerPath) entities.

Definition sorter_transformEdits (e : edits) : edits :=
  mkEdits (Env e) (sortDeviceNodes (DeviceNodes e)) (NetDevices e) (Hooks e)
    (sortMounts (Mounts e)) (IntelRdt_ e) (AdditionalGIDs e).

Definition sorter (s : spec) : spec :=
  let s := map_device_edits sorter_transformEdits
    (set_spec_edits (sorter_transformEdits (Spec_Edits s)) s) in
  set_devices (sortDevices (Devices s)) s.
End Sorting.

(** ** Merge *)

Fixpoint merged (ts : list Transformer) (s : spec) : result spec :=
  match ts with
  | [] => Ok s
  | t :: ts => let? s := t s in merged ts s
  end.

Definition NewSimplifier `{MapRange} `{SortSlice} : Transformer :=
  merged [fun s => Ok (dedupe s); fun s => Ok (simplify s); fun s => Ok (sorter s)].

(** ** mergedDevice *)

Definition allDeviceName : string := "all".

Record mergedDevice := mkMergedDevice { name : string; skipIfExists : bool }.

Inductive MergedDeviceOption : Type :=
| WithName (name : string)
| WithSkipIfExists (skipIfExists : bool).

Definition apply_merged_option (m : mergedDevice) (o : MergedDeviceOption) : mergedDevice :=
  match o with
  | WithName n => mkMergedDevice n (skipIfExists m)
  | WithSkipIfExists b => mkMergedDevice (name m) b
  end.

(** The error names the device; the parser's reason is left out. *)
Definition NewMergedDevice (opts : list MergedDeviceOption) : result mergedDevice :=
  let m := foldl apply_merged_option (mkMergedDevice "" false) opts in
  let m := if String.eqb (name m) "" then mkMergedDevice allDeviceName (skipIfExists m) else m in
  if ValidateDeviceName (name m) then Ok m
  else Err ("invalid device name " ++ quote (name m)).

(** [None] is the nil device of the code: the name is taken. Entities are
    only passed on, so this is the same for values and for addresses. *)
Definition mergeDeviceSpecs {D H M} (deviceSpecs : list (Device D H M)) (mergedDeviceName : string)
  : option (Device D H M) :=
  if existsb (fun d => String.eqb (Device_Name d) mergedDeviceName) deviceSpecs then None
  else
    let mergedEdits := foldl (fun e d => Append e (Device_Edits d)) no_edits deviceSpecs in
    Some (mkDevice mergedDeviceName ∅ mergedEdits).

Definition mergedDevice_Transform `{MapRange} `{SortSlice} (m : mergedDevice) : Transformer := fun s =>
  match mergeDeviceSpecs (Devices s) (name m) with
  | None =>
      if skipIfExists m then Ok s
      else Err ("device " ++ quote (name m) ++ " already exists")
  | Some d =>
      wrap ("failed to simplify spec after merging device " ++ quote (name m))
        (NewSimplifier (set_devices (Devices s ++ [d]) s))
  end.
