(* ===== verification/TransformProps.v ===== *)
(** * Properties of the CDI specification transforms

    What simplification, sorting and merging do to the edits that a container
    gets: the edits of a device are the common edits together with the
    device's own. Strings are assumed to be valid UTF-8 where the identity of
    an entity has to determine the entity. *)
From S2P Require Import Prelude GoStrings Json CDISpec CDIParser Transform.

(** ** Sets of identities *)

Lemma id_map_removed ids k : removed (newRemover ids) k = bool_decide (k ∈ ids).
Proof.
  unfold newRemover, id_map, removed.
  cut (forall m : gmap string bool, default false (foldl (fun m id => <[id:=true]> m) m ids !! k)
       = (bool_decide (k ∈ ids) || default false (m !! k))%bool).
  { intros ->. by rewrite lookup_empty, orb_false_r. }
  induction ids as [|i ids IH]; intros m; simpl; [done|]. rewrite IH.
  destruct (decide (k = i)) as [->|Hne].
  - rewrite lookup_insert_eq. rewrite (bool_decide_eq_true_2 (i ∈ i :: ids)) by set_solver.
    by rewrite orb_true_r.
  - rewrite lookup_insert_ne by done. f_equal. apply bool_decide_ext. set_solver.
Qed.

Lemma id_map_dom ids k : is_Some (id_map ids !! k) <-> k ∈ ids.
Proof.
  unfold id_map.
  cut (forall m : gmap string bool, is_Some (foldl (fun m id => <[id:=true]> m) m ids !! k)
       <-> k ∈ ids \/ is_Some (m !! k)).
  { intros ->. rewrite lookup_empty. split; [|by left]. intros [?|[? [=]]]; done. }
  induction ids as [|i ids IH]; intros m; simpl; [set_solver|].
  rewrite IH, lookup_insert_is_Some', elem_of_cons. naive_solver.
Qed.

Section WithRange.
Context `{MapRange}.

Lemma add_ids_dom m u k : is_Some (add_ids m u !! k) <-> is_Some (m !! k) \/ is_Some (u !! k).
Proof.
  unfold add_ids.
  assert (Hr : is_Some (m !! k) <-> k ∈ (range m).*1).
  { rewrite list_elem_of_fmap. split.
    - intros [v Hv]. exists (k, v). by rewrite elem_of_range.
    - intros ([k' v] & -> & Hv). exists v. by apply elem_of_range. }
  rewrite Hr. clear Hr. revert u.
  induction (range m) as [|[k' v] l IH]; intros u; simpl; [set_solver|].
  rewrite IH, lookup_insert_is_Some', elem_of_cons. naive_solver.
Qed.

(** The identities of the entities of some edits. *)
Definition entity_ids (e : edits) : list string :=
  map deviceNode_id (DeviceNodes e) ++ Env e ++ map hook_id (Hooks e) ++ map mount_id (Mounts e).

Lemma getEntityIds_elem e k : k ∈ getEntityIds e <-> k ∈ entity_ids e.
Proof.
  assert (Hr : forall m : gmap string bool, k ∈ (range m).*1 <-> is_Some (m !! k)).
  { intros m. rewrite list_elem_of_fmap. split.
    - intros ([k' v] & -> & Hv). exists v. by apply elem_of_range.
    - intros [v Hv]. exists (k, v). by rewrite elem_of_range. }
  unfold getEntityIds. rewrite Hr, !add_ids_dom, lookup_empty.
  unfold getMountIDs, getHookIDs, getEnvIDs, getDeviceNodeIDs. rewrite !id_map_dom.
  unfold entity_ids. rewrite !elem_of_app. split; [|tauto].
  intros [?|[?|[?|[?|[? [=]]]]]]; tauto.
Qed.

Lemma removed_common e k :
  removed (newRemover (getEntityIds e)) k = bool_decide (k ∈ entity_ids e).
Proof. rewrite id_map_removed. apply bool_decide_ext, getEntityIds_elem. Qed.
End WithRange.

(** Entities of different kinds have different identities. *)
Lemma node_mount_id d m : deviceNode_id d <> mount_id m.
Proof. discriminate. Qed.
Lemma node_hook_id d h : deviceNode_id d <> hook_id h.
Proof. discriminate. Qed.
Lemma hook_mount_id h m : hook_id h <> mount_id m.
Proof. discriminate. Qed.

(** An environment entry that no identity can be mistaken for. *)
Definition plain_env (v : string) : Prop := has_prefix v "{" = false.
Lemma plain_not_object v fs : plain_env v -> v <> json_object fs.
Proof.
  intros Hv ->. destruct fs; unfold plain_env, json_object in Hv; [done|].
  by rewrite has_prefix_app in Hv.
Qed.

(** Edits whose entities are determined by their identities. *)
Record valid_edits (e : edits) : Prop := {
  valid_env : Forall plain_env (Env e);
  valid_nodes : Forall utf8_node (DeviceNodes e);
  valid_hooks : Forall utf8_hook (Hooks e);
  valid_mounts : Forall utf8_mount (Mounts e);
}.
Definition valid_spec (s : spec) : Prop :=
  valid_edits (Spec_Edits s) /\ Forall (fun d => valid_edits (Device_Edits d)) (Devices s).

(** ** What a container gets *)

(** The edits [c'] and [e'] together have the entities of [c] and [e]. *)
Record same_effects (c e c' e' : edits) : Prop := {
  same_env : forall x, x ∈ Env c' ++ Env e' <-> x ∈ Env c ++ Env e;
  same_nodes : forall x, x ∈ DeviceNodes c' ++ DeviceNodes e' <-> x ∈ DeviceNodes c ++ DeviceNodes e;
  same_hooks : forall x, x ∈ Hooks c' ++ Hooks e' <-> x ∈ Hooks c ++ Hooks e;
  same_mounts : forall x, x ∈ Mounts c' ++ Mounts e' <-> x ∈ Mounts c ++ Mounts e;
  same_gids : forall x, x ∈ AdditionalGIDs c' ++ AdditionalGIDs e' <->
    x ∈ AdditionalGIDs c ++ AdditionalGIDs e;
  same_net : NetDevices c' = NetDevices c /\ NetDevices e' = NetDevices e;
  same_rdt : IntelRdt_ c' = IntelRdt_ c /\ IntelRdt_ e' = IntelRdt_ e;
}.

(** Edits with the same entities. *)
Record same_entities (e e' : edits) : Prop := {
  ents_env : forall x, x ∈ Env e' <-> x ∈ Env e;
  ents_nodes : forall x, x ∈ DeviceNodes e' <-> x ∈ DeviceNodes e;
  ents_hooks : forall x, x ∈ Hooks e' <-> x ∈ Hooks e;
  ents_mounts : forall x, x ∈ Mounts e' <-> x ∈ Mounts e;
  ents_gids : forall x, x ∈ AdditionalGIDs e' <-> x ∈ AdditionalGIDs e;
  ents_net : NetDevices e' = NetDevices e;
  ents_rdt : IntelRdt_ e' = IntelRdt_ e;
}.

#[global] Instance same_entities_equiv : Equivalence same_entities.
Proof.
  split.
  - by split.
  - intros a b []. by split; intros; symmetry.
  - intros a b c [] []. split; intros; etrans; eauto.
Qed.

Lemma same_effects_entities c e c' e' c2 e2 c3 e3 :
  same_entities c c2 -> same_entities e e2 -> same_entities c' c3 -> same_entities e' e3 ->
  same_effects c e c' e' -> same_effects c2 e2 c3 e3.
Proof.
  intros Hc He Hc' He' [Hv Hn Hh Hm Hg [] []].
  split; [intros x..| |]; rewrite ?elem_of_app.
  - rewrite (ents_env _ _ Hc), (ents_env _ _ He), (ents_env _ _ Hc'), (ents_env _ _ He').
    rewrite <- !elem_of_app. apply Hv.
  - rewrite (ents_nodes _ _ Hc), (ents_nodes _ _ He), (ents_nodes _ _ Hc'), (ents_nodes _ _ He').
    rewrite <- !elem_of_app. apply Hn.
  - rewrite (ents_hooks _ _ Hc), (ents_hooks _ _ He), (ents_hooks _ _ Hc'), (ents_hooks _ _ He').
    rewrite <- !elem_of_app. apply Hh.
  - rewrite (ents_mounts _ _ Hc), (ents_mounts _ _ He), (ents_mounts _ _ Hc'), (ents_mounts _ _ He').
    rewrite <- !elem_of_app. apply Hm.
  - rewrite (ents_gids _ _ Hc), (ents_gids _ _ He), (ents_gids _ _ Hc'), (ents_gids _ _ He').
    rewrite <- !elem_of_app. apply Hg.
  - rewrite (ents_net _ _ Hc), (ents_net _ _ He), (ents_net _ _ Hc'), (ents_net _ _ He'). done.
  - rewrite (ents_rdt _ _ Hc), (ents_rdt _ _ He), (ents_rdt _ _ Hc'), (ents_rdt _ _ He'). done.
Qed.

#[global] Instance same_effects_proper :
  Proper (same_entities ==> same_entities ==> same_entities ==> same_entities ==> iff) same_effects.
Proof.
  intros c c2 Hc e e2 He c' c3 Hc' e' e3 He'. split; apply same_effects_entities; done.
Qed.

(** ** dedupe *)

Lemma dedup_by_mem {A} (idf : A -> string) (P : A -> Prop) l x :
  (forall a b, P a -> P b -> idf a = idf b -> a = b) -> Forall P l ->
  x ∈ dedup_by idf ∅ l <-> x ∈ l.
Proof.
  intros Hinj Hl. split; [apply dedup_by_sub|]. intros Hx.
  rewrite Forall_forall in Hl.
  assert (idf x ∈ map idf (dedup_by idf ∅ l)) as Hid.
  { rewrite dedup_by_elem. split; [by apply list_elem_of_fmap_2|set_solver]. }
  apply list_elem_of_fmap in Hid as (y & Hy & Hyl).
  rewrite (Hinj x y); [done| | |done]; apply Hl; [done|by eapply dedup_by_sub].
Qed.

Lemma deduplicateAdditionalGIDs_elem l x : x ∈ deduplicateAdditionalGIDs l <-> x ∈ l.
Proof. unfold deduplicateAdditionalGIDs. by rewrite merge_sort_Permutation, dedup_by_same. Qed.

Lemma dedupe_entities e : valid_edits e -> same_entities e (dedupe_transformEdits e).
Proof.
  intros []. split; simpl; try done; intros x.
  - apply dedup_by_same.
  - eapply dedup_by_mem; eauto using deviceNode_id_inj.
  - eapply dedup_by_mem; eauto using hook_id_inj.
  - eapply dedup_by_mem; eauto using mount_id_inj.
  - apply deduplicateAdditionalGIDs_elem.
Qed.

Lemma dedupe_valid e : valid_edits e -> valid_edits (dedupe_transformEdits e).
Proof.
  intros [Hv Hn Hh Hm]. split; simpl; rewrite Forall_forall in *;
    intros x Hx%dedup_by_sub; auto.
Qed.

(** Edits without repetitions. *)
Record deduped (e : edits) : Prop := {
  deduped_env : NoDup (map id (Env e));
  deduped_nodes : NoDup (map deviceNode_id (DeviceNodes e));
  deduped_hooks : NoDup (map hook_id (Hooks e));
  deduped_mounts : NoDup (map mount_id (Mounts e));
  deduped_gids : NoDup (map id (AdditionalGIDs e));
  sorted_gids : StronglySorted Z.le (AdditionalGIDs e);
}.

Lemma dedupe_deduped e : deduped (dedupe_transformEdits e).
Proof.
  split; simpl; auto with go; try apply dedup_by_NoDup.
  - unfold deduplicateAdditionalGIDs. rewrite merge_sort_Permutation. apply dedup_by_NoDup.
  - apply StronglySorted_merge_sort; apply _.
Qed.

Lemma deduped_dedupe e : deduped e -> dedupe_transformEdits e = e.
Proof.
  intros [Hv Hn Hh Hm Hg Hs]. destruct e. unfold dedupe_transformEdits. simpl in *.
  assert (Hd : forall A K `{Countable K} (key : A -> K) l, NoDup (map key l) -> dedup_by key ∅ l = l).
  { intros. by apply dedup_by_id; [|set_solver]. }
  unfold deduplicateEnvs, deduplicateDeviceNodes, deduplicateHooks, deduplicateMounts,
    deduplicateAdditionalGIDs. rewrite !Hd by done. f_equal.
  apply (StronglySorted_unique Z.le); [|done|apply merge_sort_Permutation].
  apply StronglySorted_merge_sort; apply _.
Qed.

(** ** Removing the common entities *)

Lemma entity_ids_env c v : plain_env v -> v ∈ entity_ids c -> v ∈ Env c.
Proof.
  intros Hv. unfold entity_ids. rewrite !elem_of_app, !list_elem_of_fmap.
  intros [(y & Hy & _)|[?|[(y & Hy & _)|(y & Hy & _)]]]; [|done| |];
    by destruct (plain_not_object _ _ Hv Hy).
Qed.
Lemma entity_ids_node c d : Forall plain_env (Env c) ->
  deviceNode_id d ∈ entity_ids c -> deviceNode_id d ∈ map deviceNode_id (DeviceNodes c).
Proof.
  intros Hp. unfold entity_ids. rewrite !elem_of_app.
  intros [?|[Hv|[(y & Hy & _)%list_elem_of_fmap|(y & Hy & _)%list_elem_of_fmap]]]; [done| | |].
  - rewrite Forall_forall in Hp. by destruct (plain_not_object _ _ (Hp _ Hv) eq_refl).
  - by apply node_hook_id in Hy.
  - by apply node_mount_id in Hy.
Qed.
Lemma entity_ids_hook c h : Forall plain_env (Env c) ->
  hook_id h ∈ entity_ids c -> hook_id h ∈ map hook_id (Hooks c).
Proof.
  intros Hp. unfold entity_ids. rewrite !elem_of_app.
  intros [(y & Hy & _)%list_elem_of_fmap|[Hv|[?|(y & Hy & _)%list_elem_of_fmap]]]; [| |done|].
  - symmetry in Hy. by apply node_hook_id in Hy.
  - rewrite Forall_forall in Hp. by destruct (plain_not_object _ _ (Hp _ Hv) eq_refl).
  - by apply hook_mount_id in Hy.
Qed.
Lemma entity_ids_mount c m : Forall plain_env (Env c) ->
  mount_id m ∈ entity_ids c -> mount_id m ∈ map mount_id (Mounts c).
Proof.
  intros Hp. unfold entity_ids. rewrite !elem_of_app.
  intros [(y & Hy & _)%list_elem_of_fmap|[Hv|[(y & Hy & _)%list_elem_of_fmap|?]]]; [| | |done].
  - symmetry in Hy. by apply node_mount_id in Hy.
  - rewrite Forall_forall in Hp. by destruct (plain_not_object _ _ (Hp _ Hv) eq_refl).
  - symmetry in Hy. by apply hook_mount_id in Hy.
Qed.

(** Dropping what the common list has leaves the two lists together as they were. *)
Lemma keep_uncommon {A} (idf : A -> string) (P : A -> Prop) (rm : string -> bool) (c l : list A) x :
  (forall a b, P a -> P b -> idf a = idf b -> a = b) -> Forall P c -> Forall P l ->
  (forall a, a ∈ l -> rm (idf a) = true -> idf a ∈ map idf c) ->
  x ∈ c ++ List.filter (fun a => negb (rm (idf a))) l <-> x ∈ c ++ l.
Proof.
  intros Hinj Hc Hl Hrm. rewrite !elem_of_app, !list_elem_of_In, filter_In, <- !list_elem_of_In.
  split; [tauto|]. intros [?|Hx]; [by left|].
  destruct (rm (idf x)) eqn:Hr; [|by right]. left.
  pose proof (Hrm x Hx Hr) as Hm. apply list_elem_of_fmap in Hm as (y & Hy & Hyc).
  rewrite Forall_forall in Hc, Hl. rewrite (Hinj x y); auto.
Qed.

Lemma remove_effects `{MapRange} c e : valid_edits c -> valid_edits e ->
  same_effects c e c (remove_transformEdits (newRemover (getEntityIds c)) e).
Proof.
  intros [Hcv Hcn Hch Hcm] [Hv Hn Hh Hm]. split; simpl; try done; intros x.
  - apply (keep_uncommon id plain_env); auto. intros a Ha. rewrite removed_common, bool_decide_eq_true.
    unfold id. rewrite list_fmap_id. apply entity_ids_env. by rewrite Forall_forall in Hv; apply Hv.
  - apply (keep_uncommon deviceNode_id utf8_node); auto using deviceNode_id_inj.
    intros a Ha. rewrite removed_common, bool_decide_eq_true. by apply entity_ids_node.
  - apply (keep_uncommon hook_id utf8_hook); auto using hook_id_inj.
    intros a Ha. rewrite removed_common, bool_decide_eq_true. by apply entity_ids_hook.
  - apply (keep_uncommon mount_id utf8_mount); auto using mount_id_inj.
    intros a Ha. rewrite removed_common, bool_decide_eq_true. by apply entity_ids_mount.
Qed.

Lemma simplify_device_spec r d :
  simplify_device r d =
  if IsEmpty (remove_transformEdits r (Device_Edits d)) then d
  else set_device_edits (remove_transformEdits r (Device_Edits d)) d.
Proof. unfold simplify_device. simpl. by destruct (IsEmpty _). Qed.

Lemma same_effects_refl c e : same_effects c e c e.
Proof. by split. Qed.

Lemma simplify_device_effects `{MapRange} c d : valid_edits c -> valid_edits (Device_Edits d) ->
  same_effects c (Device_Edits d) c
    (Device_Edits (simplify_device (newRemover (getEntityIds c)) d)).
Proof.
  intros Hc He. rewrite simplify_device_spec. destruct (IsEmpty _).
  - apply same_effects_refl.
  - by apply remove_effects.
Qed.

(** ** sorter *)

Lemma sorter_entities `{SortSlice} e : same_entities e (sorter_transformEdits e).
Proof.
  split; simpl; try done; intros x; unfold sortDeviceNodes, sortMounts; by rewrite sort_slice_perm.
Qed.

(** ** The simplified specification *)

Section Simplified.
Context `{MapRange} `{SortSlice}.

(** One device of the simplified specification, before devices are sorted. *)
Definition simplified_device (c : edits) (d : device) : device :=
  let d1 := set_device_edits (dedupe_transformEdits (Device_Edits d)) d in
  let d2 := simplify_device (newRemover (getEntityIds (dedupe_transformEdits c))) d1 in
  set_device_edits (sorter_transformEdits (Device_Edits d2)) d2.

Lemma NewSimplifier_eq s :
  NewSimplifier s = Ok (mkSpec (Version s) (Kind s) (Annotations s)
    (sortDevices (map (simplified_device (Spec_Edits s)) (Devices s)))
    (sorter_transformEdits (dedupe_transformEdits (Spec_Edits s)))).
Proof.
  unfold NewSimplifier. simpl. f_equal. unfold sorter, simplify, dedupe, map_device_edits. simpl.
  rewrite (deduped_dedupe (dedupe_transformEdits (Spec_Edits s))) by apply dedupe_deduped.
  unfold set_devices, set_spec_edits. simpl. f_equal. f_equal. rewrite !map_map.
  apply map_ext. intros d. unfold simplified_device. simpl.
  rewrite (deduped_dedupe (dedupe_transformEdits (Device_Edits d))) by apply dedupe_deduped. done.
Qed.

Lemma simplified_device_name c d :
  Device_Name (simplified_device c d) = Device_Name d
  /\ Device_Annotations (simplified_device c d) = Device_Annotations d.
Proof. unfold simplified_device. rewrite simplify_device_spec. by destruct (IsEmpty _). Qed.

Lemma simplified_device_effects c d : valid_edits c -> valid_edits (Device_Edits d) ->
  same_effects c (Device_Edits d) (sorter_transformEdits (dedupe_transformEdits c))
    (Device_Edits (simplified_device c d)).
Proof.
  intros Hc Hd. unfold simplified_device. simpl.
  rewrite <- (sorter_entities (dedupe_transformEdits c)), <- (sorter_entities (Device_Edits _)).
  pose proof (dedupe_entities c Hc) as Hce. pose proof (dedupe_entities _ Hd) as Hde.
  rewrite Hce at 1. rewrite Hde at 1.
  apply (simplify_device_effects (dedupe_transformEdits c)
    (set_device_edits (dedupe_transformEdits (Device_Edits d)) d)); by apply dedupe_valid.
Qed.
End Simplified.

(** Relation between a device and what became of it. *)
Definition device_preserved (c c' : edits) (d d' : device) : Prop :=
  Device_Name d' = Device_Name d /\ Device_Annotations d' = Device_Annotations d
  /\ same_effects c (Device_Edits d) c' (Device_Edits d').

Lemma simplified_devices_preserved `{MapRange} `{SortSlice} c ds :
  valid_edits c -> Forall (fun d => valid_edits (Device_Edits d)) ds ->
  Forall2 (device_preserved c (sorter_transformEdits (dedupe_transformEdits c))) ds
    (map (simplified_device c) ds).
Proof.
  intros Hc. induction 1 as [|d ds Hd _ IH]; simpl; constructor; [|done].
  destruct (simplified_device_name c d) as [Hn Ha].
  split; [done|]. split; [done|]. by apply simplified_device_effects.
Qed.

(** C35. Simplification never fails and does not change what a container
    gets: the devices of the result are those of the input, in another
    order, with the same names and annotations, and for every device the
    common edits together with the device's edits hold the same environment
    entries, device nodes, hooks, mounts and group ids as before. *)
Theorem NewSimplifier_preserves_edits `{MapRange} `{SortSlice} s : valid_spec s ->
  exists s' ds, NewSimplifier s = Ok s'
    /\ Version s' = Version s /\ Kind s' = Kind s /\ Annotations s' = Annotations s
    /\ Devices s' ≡ₚ ds
    /\ Forall2 (device_preserved (Spec_Edits s) (Spec_Edits s')) (Devices s) ds.
Proof.
  intros [Hc Hds]. rewrite NewSimplifier_eq.
  eexists _, (map (simplified_device (Spec_Edits s)) (Devices s)).
  split; [reflexivity|]. simpl. repeat (split; [done|]).
  split; [apply sort_slice_perm|]. by apply simplified_devices_preserved.
Qed.

(** What is left of edits, and what was dropped. *)
Lemma NoDup_map_filter {A K} (key : A -> K) (p : A -> bool) l :
  NoDup (map key l) -> NoDup (map key (List.filter p l)).
Proof.
  induction l as [|x l IH]; simpl; [done|]. intros [Hx Hl]%NoDup_cons.
  destruct (p x); simpl; [|by apply IH]. constructor; [|by apply IH].
  intros (y & Hy & Hyl)%list_elem_of_fmap. apply Hx. rewrite Hy.
  apply list_elem_of_fmap_2. rewrite list_elem_of_In, filter_In in Hyl.
  apply list_elem_of_In, Hyl.
Qed.

Lemma remove_deduped r e : deduped e -> deduped (remove_transformEdits r e).
Proof. intros []. split; simpl; try done; by apply NoDup_map_filter. Qed.

Lemma sorter_deduped `{SortSlice} e : deduped e -> deduped (sorter_transformEdits e).
Proof.
  intros []. split; simpl; try done; unfold sortDeviceNodes, sortMounts; by rewrite sort_slice_perm.
Qed.

Lemma sorter_ids `{SortSlice} e k : k ∈ entity_ids (sorter_transformEdits e) <-> k ∈ entity_ids e.
Proof. unfold entity_ids. simpl. unfold sortDeviceNodes, sortMounts. by rewrite !sort_slice_perm. Qed.

Lemma filter_kept_ids {A} (idf : A -> string) rm l k :
  k ∈ map idf (List.filter (fun a => negb (rm (idf a))) l) <-> k ∈ map idf l /\ rm k = false.
Proof.
  rewrite !list_elem_of_fmap. setoid_rewrite list_elem_of_In. setoid_rewrite filter_In.
  setoid_rewrite negb_true_iff. naive_solver.
Qed.

Lemma remove_ids r e k :
  k ∈ entity_ids (remove_transformEdits r e) <-> k ∈ entity_ids e /\ removed r k = false.
Proof.
  pose proof (filter_kept_ids id (removed r) (Env e) k) as He.
  rewrite !list_fmap_id in He. unfold id in He.
  unfold entity_ids. simpl. rewrite !elem_of_app, !filter_kept_ids. rewrite He. tauto.
Qed.

Lemma IsEmpty_ids e : IsEmpty e = true -> entity_ids e = [].
Proof. unfold IsEmpty, entity_ids. by destruct (DeviceNodes e), (Env e), (Hooks e), (Mounts e). Qed.

Lemma simplify_device_split `{MapRange} c d : deduped (Device_Edits d) ->
  let e := Device_Edits (simplify_device (newRemover (getEntityIds c)) d) in
  deduped e /\
  ((forall k, k ∈ entity_ids e -> k ∉ entity_ids c) \/ (forall k, k ∈ entity_ids e -> k ∈ entity_ids c)).
Proof.
  intros Hd. rewrite simplify_device_spec. destruct (IsEmpty _) eqn:He; simpl.
  - split; [done|]. right. intros k Hk. apply IsEmpty_ids in He.
    destruct (removed (newRemover (getEntityIds c)) k) eqn:Hr.
    + by rewrite removed_common, bool_decide_eq_true in Hr.
    + assert (k ∈ entity_ids (remove_transformEdits (newRemover (getEntityIds c)) (Device_Edits d))) as Hin
        by by apply remove_ids.
      rewrite He in Hin. by apply not_elem_of_nil in Hin.
  - split; [by apply remove_deduped|]. left. intros k [_ Hr]%remove_ids.
    by rewrite removed_common, bool_decide_eq_false in Hr.
Qed.

Lemma filter_idem {A} (p : A -> bool) l : List.filter p (List.filter p l) = List.filter p l.
Proof. induction l as [|x l IH]; simpl; [done|]. destruct (p x) eqn:E; simpl; rewrite ?E, ?IH; done. Qed.

Lemma set_device_edits_id (d : device) : set_device_edits (Device_Edits d) d = d.
Proof. by destruct d. Qed.

Lemma simplify_device_idem r d : simplify_device r (simplify_device r d) = simplify_device r d.
Proof.
  rewrite (simplify_device_spec r d).
  assert (Hi : forall e, remove_transformEdits r (remove_transformEdits r e) = remove_transformEdits r e).
  { intros e. unfold remove_transformEdits. simpl. by rewrite !filter_idem. }
  destruct (IsEmpty _) eqn:He; rewrite simplify_device_spec; simpl; [by rewrite He|].
  rewrite Hi, He. done.
Qed.

(** In a simplified specification the common edits have no repeated
    entity, no device has a repeated entity, and a device either shares no
    entity with the common edits or consists of common entities only (such a
    device keeps its edits, since a device without edits is invalid). *)
Theorem NewSimplifier_simplified `{MapRange} `{SortSlice} s s' : NewSimplifier s = Ok s' ->
  deduped (Spec_Edits s') /\
  Forall (fun d => deduped (Device_Edits d) /\
    ((forall k, k ∈ entity_ids (Device_Edits d) -> k ∉ entity_ids (Spec_Edits s'))
     \/ (forall k, k ∈ entity_ids (Device_Edits d) -> k ∈ entity_ids (Spec_Edits s')))) (Devices s').
Proof.
  rewrite NewSimplifier_eq. intros [= <-]. simpl. set (c := dedupe_transformEdits (Spec_Edits s)).
  split; [apply sorter_deduped, dedupe_deduped|].
  apply Forall_forall. intros d' Hd'. unfold sortDevices in Hd'. rewrite sort_slice_perm in Hd'.
  apply list_elem_of_fmap in Hd' as (d & -> & _). unfold simplified_device.
  fold c. set (d1 := set_device_edits (dedupe_transformEdits (Device_Edits d)) d).
  destruct (simplify_device_split c d1) as [Hdd Hids]; [apply dedupe_deduped|].
  split; [by apply sorter_deduped|]. simpl.
  destruct Hids as [Hids|Hids]; [left|right]; intros k; rewrite !sorter_ids; apply Hids.
Qed.

(** Simplifying the edits of a specification a second time changes nothing. *)
Theorem simplify_idempotent `{MapRange} s : simplify (simplify s) = simplify s.
Proof.
  unfold simplify, dedupe, map_device_edits, set_devices, set_spec_edits. simpl.
  set (c := dedupe_transformEdits (Spec_Edits s)).
  rewrite (deduped_dedupe c) by apply dedupe_deduped. f_equal. rewrite !map_map.
  apply map_ext. intros d. simpl.
  set (d1 := set_device_edits (dedupe_transformEdits (Device_Edits d)) d).
  destruct (simplify_device_split c d1) as [Hdd _]; [apply dedupe_deduped|].
  rewrite (deduped_dedupe _ Hdd), set_device_edits_id. apply simplify_device_idem.
Qed.

(** ** Order of mounts and device nodes *)

Lemma count_byte_app c a b : count_byte c (a +:+ b) = count_byte c a + count_byte c b.
Proof. induction a as [|x a IH]; simpl; [done|]. rewrite IH. destruct (Ascii.eqb c x); lia. Qed.
Lemma count_byte_free c s : has_byte c s = false -> count_byte c s = 0.
Proof.
  unfold has_byte. induction s as [|x s IH]; simpl; [done|].
  intros [Hx Hs]%orb_false_elim. rewrite Hx. by apply IH.
Qed.

Lemma count_byte_join cs : Forall proper cs -> count_byte slash (join "/" cs) = length cs - 1.
Proof.
  induction 1 as [|x cs (_ & _ & _ & Hx) Hcs IH]; [done|].
  destruct cs as [|y cs]; [by apply count_byte_free|].
  rewrite join_cons2, !count_byte_app, IH, (count_byte_free _ x) by done. simpl. lia.
Qed.

Lemma path_depth_abs cs : Forall proper cs -> path_depth (abs_path cs) = S (length cs - 1).
Proof.
  intros Hcs. unfold path_depth. rewrite clean_abs_path by done.
  unfold abs_path. rewrite count_byte_app, count_byte_join by done. done.
Qed.

(** A path is ordered before the paths below it. *)
Lemma less_below {A} (key : A -> string) a b cs ds :
  Forall proper (cs ++ ds) -> ds <> [] -> key a = abs_path cs -> key b = abs_path (cs ++ ds) ->
  less_depth (fun x => path_depth (key x)) key a b = true.
Proof.
  intros Hp Hds Ha Hb. unfold less_depth. rewrite Ha, Hb.
  assert (Forall proper cs) as Hc by (by apply Forall_app in Hp as [? _]).
  rewrite !path_depth_abs, length_app by done.
  destruct ds as [|d ds]; [done|]. simpl length.
  destruct cs as [|c cs].
  - simpl. destruct ds as [|d' ds]; [|done]. simpl.
    destruct d as [|c d]; [|done]. apply Forall_cons in Hp as [(? & _) _]. done.
  - simpl length. rewrite (proj2 (Nat.eqb_neq _ _)) by lia. apply Nat.ltb_lt. lia.
Qed.

(** In a simplified specification a mount always follows the mounts above
    its container path, in the common edits and in every device: applying the
    mounts in order never hides an earlier one. The same holds for device
    nodes. *)
Theorem NewSimplifier_parents_first `{MapRange} `{SortSlice} s s' e cs ds i j :
  NewSimplifier s = Ok s' ->
  e = Spec_Edits s' \/ (exists d, d ∈ Devices s' /\ e = Device_Edits d) ->
  Forall proper (cs ++ ds) -> ds <> [] ->
  (forall m n, Mounts e !! i = Some m -> Mounts e !! j = Some n ->
    ContainerPath m = abs_path cs -> ContainerPath n = abs_path (cs ++ ds) -> i < j)
  /\ (forall m n, DeviceNodes e !! i = Some m -> DeviceNodes e !! j = Some n ->
    Path m = abs_path cs -> Path n = abs_path (cs ++ ds) -> i < j).
Proof.
  rewrite NewSimplifier_eq. intros [= <-] He Hp Hds.
  assert (exists e0, e = sorter_transformEdits e0) as [e0 ->].
  { destruct He as [->|(d & Hd & ->)]; [by eexists|]. simpl in Hd. unfold sortDevices in Hd.
    rewrite sort_slice_perm in Hd. apply list_elem_of_fmap in Hd as (d0 & -> & _). by eexists. }
  clear He. split; intros m n Hi Hj Hm Hn.
  - eapply sorted_index; [apply weak_order_depth|apply sort_slice_sorted, weak_order_depth|exact Hi|exact Hj|].
    by eapply less_below.
  - eapply sorted_index; [apply weak_order_depth|apply sort_slice_sorted, weak_order_depth|exact Hi|exact Hj|].
    by eapply less_below.
Qed.

(** ** The merged device *)

Definition merged_edits {D H M} (ds : list (Device D H M)) : ContainerEdits D H M :=
  foldl (fun e d => Append e (Device_Edits d)) no_edits ds.

Lemma foldl_append {D H M A} (proj : ContainerEdits D H M -> list A) ds :
  proj no_edits = [] -> (forall a b, proj (Append a b) = proj a ++ proj b) ->
  proj (merged_edits ds) = concat (map (fun d => proj (Device_Edits d)) ds).
Proof.
  intros H0 Ha. unfold merged_edits.
  induction ds as [|d ds IH] using rev_ind; simpl; [done|].
  rewrite foldl_snoc, Ha, IH, map_app, concat_app. simpl. by rewrite app_nil_r.
Qed.

Lemma merged_elem {A} (proj : edits -> list A) ds x :
  proj no_edits = [] -> (forall a b, proj (Append a b) = proj a ++ proj b) ->
  x ∈ proj (merged_edits ds) <-> exists d, d ∈ ds /\ x ∈ proj (Device_Edits d).
Proof.
  intros H0 Ha. rewrite (foldl_append proj) by done.
  rewrite list_elem_of_In, in_concat. setoid_rewrite in_map_iff. setoid_rewrite list_elem_of_In.
  naive_solver.
Qed.

Lemma merged_valid ds :
  Forall (fun d => valid_edits (Device_Edits d)) ds -> valid_edits (merged_edits ds).
Proof.
  rewrite Forall_forall. intros Hds.
  split; apply Forall_forall; intros x Hx;
    [apply (merged_elem Env) in Hx|apply (merged_elem DeviceNodes) in Hx
    |apply (merged_elem Hooks) in Hx|apply (merged_elem Mounts) in Hx]; try done;
    destruct Hx as (d & Hd & Hx); destruct (Hds d Hd) as [He Hn Hh Hm];
    match goal with H : Forall ?P ?l, Hi : ?x ∈ ?l |- ?P ?x => exact (proj1 (Forall_forall P l) H x Hi) end.
Qed.

Lemma mergeDeviceSpecs_none (ds : list device) n :
  mergeDeviceSpecs ds n = None <-> n ∈ map Device_Name ds.
Proof.
  unfold mergeDeviceSpecs. rewrite list_elem_of_fmap.
  destruct (existsb _ ds) eqn:He.
  - split; [intros _|done]. apply existsb_exists in He as (d & Hd & Hn).
    exists d. rewrite list_elem_of_In. by apply String.eqb_eq in Hn.
  - split; [done|]. intros (d & -> & Hd). exfalso. apply list_elem_of_In in Hd.
    rewrite <- not_true_iff_false in He. apply He. apply existsb_exists.
    exists d. by rewrite String.eqb_refl.
Qed.

(** What the merged device gives a container. *)
Record combines (c : edits) (ds : list device) (c' e' : edits) : Prop := {
  combines_env : forall x, x ∈ Env c' ++ Env e' <->
    x ∈ Env c \/ exists d, d ∈ ds /\ x ∈ Env (Device_Edits d);
  combines_nodes : forall x, x ∈ DeviceNodes c' ++ DeviceNodes e' <->
    x ∈ DeviceNodes c \/ exists d, d ∈ ds /\ x ∈ DeviceNodes (Device_Edits d);
  combines_hooks : forall x, x ∈ Hooks c' ++ Hooks e' <->
    x ∈ Hooks c \/ exists d, d ∈ ds /\ x ∈ Hooks (Device_Edits d);
  combines_mounts : forall x, x ∈ Mounts c' ++ Mounts e' <->
    x ∈ Mounts c \/ exists d, d ∈ ds /\ x ∈ Mounts (Device_Edits d);
}.

Lemma same_effects_combines c ds c' e' :
  same_effects c (merged_edits ds) c' e' -> combines c ds c' e'.
Proof.
  intros [Hv Hn Hh Hm _ _ _].
  split; intros x; rewrite ?Hv, ?Hn, ?Hh, ?Hm, elem_of_app;
    [rewrite (merged_elem Env)|rewrite (merged_elem DeviceNodes)
    |rewrite (merged_elem Hooks)|rewrite (merged_elem Mounts)]; done.
Qed.

(** Adding a merged device: if the name is taken the specification is
    returned as it is or the call fails, as the options ask. Otherwise the
    call succeeds, every device keeps what it gives a container, and there is
    one more device with the requested name that gives a container everything
    that any of the devices gives. *)
Theorem mergedDevice_Transform_spec `{MapRange} `{SortSlice} m s : valid_spec s ->
  if decide (name m ∈ map Device_Name (Devices s)) then
    mergedDevice_Transform m s
    = if skipIfExists m then Ok s else Err ("device " ++ quote (name m) ++ " already exists")
  else exists s' ds md, mergedDevice_Transform m s = Ok s'
    /\ Devices s' ≡ₚ md :: ds
    /\ Forall2 (device_preserved (Spec_Edits s) (Spec_Edits s')) (Devices s) ds
    /\ Device_Name md = name m
    /\ combines (Spec_Edits s) (Devices s) (Spec_Edits s') (Device_Edits md).
Proof.
  intros [Hc Hds]. unfold mergedDevice_Transform.
  case_decide as Hn; [by apply mergeDeviceSpecs_none in Hn as ->|].
  destruct (mergeDeviceSpecs (Devices s) (name m)) as [d|] eqn:Hd; [|by apply mergeDeviceSpecs_none in Hd].
  unfold mergeDeviceSpecs in Hd. destruct (existsb _ _); [done|]. injection Hd as <-.
  fold (merged_edits (Devices s)). set (md := mkDevice (name m) ∅ (merged_edits (Devices s))).
  rewrite NewSimplifier_eq. simpl.
  eexists _, (map (simplified_device (Spec_Edits s)) (Devices s)), (simplified_device (Spec_Edits s) md).
  split; [reflexivity|]. simpl.
  split; [unfold sortDevices; rewrite sort_slice_perm, map_app; simpl; by rewrite Permutation_app_comm|].
  split; [by apply simplified_devices_preserved|].
  split; [apply simplified_device_name|].
  apply same_effects_combines, (simplified_device_effects (Spec_Edits s) md); [done|].
  by apply merged_valid.
Qed.

(** A merged device is created exactly when the requested name, [all] if
    none is given, is a valid CDI device name. *)
Theorem NewMergedDevice_valid opts m :
  NewMergedDevice opts = Ok m <->
  m = (let m := foldl apply_merged_option (mkMergedDevice "" false) opts in
       mkMergedDevice (if String.eqb (name m) "" then "all" else name m) (skipIfExists m))
  /\ ValidateDeviceName (name m) = true.
Proof.
  unfold NewMergedDevice. cbv zeta.
  destruct (foldl apply_merged_option (mkMergedDevice "" false) opts) as [n sk]. cbn [name skipIfExists].
  set (m0 := mkMergedDevice (if String.eqb n "" then "all" else n) sk).
  replace (if String.eqb n "" then _ else _) with m0 by (unfold m0; by destruct (String.eqb n "")).
  destruct (ValidateDeviceName (name m0)) eqn:Hv.
  - split; [intros [= <-]; done|]. by intros [-> _].
  - split; [done|]. intros [-> Hv']. congruence.
Qed.

(** ** Instances *)

Ltac plain_ascii := apply utf8_ascii; reflexivity.

Definition example_node (p : string) : DeviceNode := mkDeviceNode p "" "" 195 0 None "rwm" None None.
Definition example_mount (p : string) : Mount := mkMount p p ["ro"; "bind"] "".
Definition example_spec : spec :=
  mkSpec "0.5.0" "nvidia.com/gpu" ∅
    [ mkDevice "1" ∅ (mkEdits ["A=1"] [example_node "/dev/nvidia1"; example_node "/dev/nvidiactl"] [] []
        [] None [5; 3; 5]%Z);
      mkDevice "0" ∅ (mkEdits ["A=1"] [example_node "/dev/nvidia0"; example_node "/dev/nvidia0"] [] []
        [example_mount "/usr/lib/a/b"; example_mount "/usr/lib"] None []) ]
    (mkEdits ["A=1"; "A=1"] [example_node "/dev/nvidiactl"] [] [] [] None []).

Lemma example_node_utf8 p : string_all ascii7 p = true -> utf8_node (example_node p).
Proof. intros Hp. repeat split; try by apply utf8_ascii. Qed.
Lemma example_mount_utf8 p : string_all ascii7 p = true -> utf8_mount (example_mount p).
Proof.
  intros Hp. repeat split; try by apply utf8_ascii. by repeat constructor; apply utf8_ascii.
Qed.

Lemma example_spec_valid : valid_spec example_spec.
Proof.
  split; [|repeat (apply Forall_cons; split)]; try apply Forall_nil; try done;
    (split; simpl; repeat (apply Forall_cons; split); try apply Forall_nil; try done;
     first [by apply example_node_utf8 | by apply example_mount_utf8 | idtac]).
Qed.

Lemma NewSimplifier_preserves_edits_witness :
  exists s' ds, @NewSimplifier map_to_list_range insertion_sort_slice example_spec = Ok s'
    /\ Devices s' ≡ₚ ds
    /\ Forall2 (device_preserved (Spec_Edits example_spec) (Spec_Edits s')) (Devices example_spec) ds.
Proof.
  destruct (@NewSimplifier_preserves_edits map_to_list_range insertion_sort_slice _ example_spec_valid)
    as (s' & ds & ? & _ & _ & _ & ? & ?).
  by exists s', ds.
Defined.

Definition example_simplified : spec :=
  match @NewSimplifier map_to_list_range insertion_sort_slice example_spec with
  | Ok s => s | Err _ => example_spec
  end.
Example example_simplified_devices :
  map (fun d => (Device_Name d, map Path (DeviceNodes (Device_Edits d)), AdditionalGIDs (Device_Edits d),
                 map ContainerPath (Mounts (Device_Edits d)))) (Devices example_simplified)
  = [("0", ["/dev/nvidia0"], [], ["/usr/lib"; "/usr/lib/a/b"]); ("1", ["/dev/nvidia1"], [3; 5]%Z, [])].
Proof. vm_compute. reflexivity. Qed.

Lemma NewSimplifier_simplified_witness : deduped (Spec_Edits example_simplified).
Proof.
  apply (@NewSimplifier_simplified map_to_list_range insertion_sort_slice example_spec).
  vm_compute. reflexivity.
Defined.

Lemma NewSimplifier_parents_first_witness : 0 < 1.
Proof.
  destruct (Devices example_simplified) as [|d l] eqn:E; [vm_compute in E; discriminate|].
  apply (proj1 (@NewSimplifier_parents_first map_to_list_range insertion_sort_slice example_spec
    example_simplified (Device_Edits d) ["usr"; "lib"] ["a"; "b"] 0 1
    ltac:(vm_compute; reflexivity)
    ltac:(right; exists d; split; [rewrite E; apply list_elem_of_here|reflexivity])
    ltac:(evaluate) ltac:(discriminate))
    (example_mount "/usr/lib") (example_mount "/usr/lib/a/b"));
    vm_compute in E; injection E as <- _; vm_compute; reflexivity.
Defined.

Lemma mergedDevice_Transform_spec_witness :
  exists s' ds md, @mergedDevice_Transform map_to_list_range insertion_sort_slice
      (mkMergedDevice "all" false) example_spec = Ok s'
    /\ Devices s' ≡ₚ md :: ds /\ Device_Name md = "all".
Proof.
  pose proof (@mergedDevice_Transform_spec map_to_list_range insertion_sort_slice
    (mkMergedDevice "all" false) example_spec example_spec_valid) as H.
  rewrite decide_False in H by (simpl; rewrite !not_elem_of_cons; by repeat split; [| |apply not_elem_of_nil]).
  destruct H as (s' & ds & md & ? & ? & _ & ? & _). by exists s', ds, md.
Defined.
