(* ===== verification/RootTransform.v ===== *)
(** * Root transforms of CDI specifications (src/pkg/nvcdi/transform/root)

    The root transforms replace a path prefix in the entities of a
    specification. They write through the entity pointers, and a merged
    device shares its pointers with the devices it combines, so entities live
    in a heap here and a specification holds addresses. *)
From S2P Require Import Prelude GoStrings CDISpec Transform.

Definition loc : Type := nat.
Record heap := mkHeap {
  node_heap : gmap loc DeviceNode; hook_heap : gmap loc Hook; mount_heap : gmap loc Mount;
}.
Abbreviation pedits := (ContainerEdits loc loc loc).
Abbreviation pspec := (Spec loc loc loc).

(** ** Paths *)

Record transformer := mkTransformer { root : string; targetRoot : string }.

Definition transformPath (t : transformer) (path : string) : string :=
  if negb (has_prefix path (root t)) then path
  else path_join [targetRoot t; trim_prefix path (root t)].

(** One hook argument: a plain path, or [<target>::<link>]. *)
Definition transformArg (t : transformer) (arg : string) : string :=
  if negb (contains arg "::") then transformPath t arg
  else join "::" (map (transformPath t) (splitN 2 "::" arg)).

(** ** Entities *)

Definition set_node_path (p : string) (d : DeviceNode) : DeviceNode :=
  mkDeviceNode p (HostPath d) (Type_ d) (Major d) (Minor d) (FileMode d) (Permissions d) (UID d) (GID d).
Definition set_node_hostpath (p : string) (d : DeviceNode) : DeviceNode :=
  mkDeviceNode (Path d) p (Type_ d) (Major d) (Minor d) (FileMode d) (Permissions d) (UID d) (GID d).
Definition set_hook_path (p : string) (h : Hook) : Hook :=
  mkHook (HookName h) p (Hook_Args h) (Hook_Env h) (Hook_Timeout h).
Definition set_hook_args (l : list string) (h : Hook) : Hook :=
  mkHook (HookName h) (Hook_Path h) l (Hook_Env h) (Hook_Timeout h).

Module ContainerRoot.
Definition transformDeviceNode (t : transformer) (dn : DeviceNode) : DeviceNode :=
  set_node_path (transformPath t (Path dn)) dn.
Definition transformHook (t : transformer) (hook : Hook) : Hook :=
  let hook := if String.eqb (HookName hook) "startContainer"
              then set_hook_path (transformPath t (Hook_Path hook)) hook else hook in
  if negb (String.eqb (HookName hook) "createContainer")
     && negb (String.eqb (HookName hook) "startContainer") then hook
  else set_hook_args (map (transformArg t) (Hook_Args hook)) hook.
Definition transformMount (t : transformer) (m : Mount) : Mount :=
  mkMount (Mount_HostPath m) (transformPath t (ContainerPath m)) (Options m) (Mount_Type m).
End ContainerRoot.

Module HostRoot.
Definition transformDeviceNode (t : transformer) (dn : DeviceNode) : DeviceNode :=
  let dn := if String.eqb (HostPath dn) "" then set_node_hostpath (Path dn) dn else dn in
  set_node_hostpath (transformPath t (HostPath dn)) dn.
Definition transformHook (t : transformer) (hook : Hook) : Hook :=
  let hook := if negb (String.eqb (HookName hook) "startContainer")
              then set_hook_path (transformPath t (Hook_Path hook)) hook else hook in
  if String.eqb (HookName hook) "createContainer"
     || String.eqb (HookName hook) "startContainer" then hook
  else set_hook_args (map (transformArg t) (Hook_Args hook)) hook.
Definition transformMount (t : transformer) (m : Mount) : Mount :=
  mkMount (transformPath t (Mount_HostPath m)) (ContainerPath m) (Options m) (Mount_Type m).
End HostRoot.

(** ** Walking the specification *)

(** [for i, e := range entities { entities[i] = f(e) }] where [f] updates the
    pointee and returns its argument: the slice keeps its pointers. *)
Definition update_all {A} (f : A -> A) (ls : list loc) (h : gmap loc A) : gmap loc A :=
  foldl (fun h l => alter f l h) h ls.

Section Walk.
Context (fn : DeviceNode -> DeviceNode) (fh : Hook -> Hook) (fm : Mount -> Mount).

Definition applyToEdits (h : heap) (e : pedits) : heap :=
  mkHeap (update_all fn (DeviceNodes e) (node_heap h))
    (update_all fh (Hooks e) (hook_heap h)) (update_all fm (Mounts e) (mount_heap h)).

Definition walk (s : pspec) (h : heap) : heap :=
  let h := foldl (fun h d => applyToEdits h (Device_Edits d)) h (Devices s) in
  applyToEdits h (Spec_Edits s).
End Walk.

Definition containerRoot_Transform (t : transformer) : pspec -> heap -> heap :=
  walk (ContainerRoot.transformDeviceNode t) (ContainerRoot.transformHook t)
    (ContainerRoot.transformMount t).
Definition hostRoot_Transform (t : transformer) : pspec -> heap -> heap :=
  walk (HostRoot.transformDeviceNode t) (HostRoot.transformHook t) (HostRoot.transformMount t).

(** ** Construction *)

Record builder := mkBuilder { builder_transformer : transformer; relativeTo : string }.

Inductive Option_ : Type :=
| WithRoot (root : string)
| WithTargetRoot (root : string)
| WithRelativeTo (relativeTo : string).

Definition apply_option (b : builder) (o : Option_) : builder :=
  let t := builder_transformer b in
  match o with
  | WithRoot r => mkBuilder (mkTransformer r (targetRoot t)) (relativeTo b)
  | WithTargetRoot r => mkBuilder (mkTransformer (root t) r) (relativeTo b)
  | WithRelativeTo r => mkBuilder t r
  end.

Inductive RootTransformer : Type :=
| noop
| containerRootTransformer (t : transformer)
| hostRootTransformer (t : transformer).

Definition build (b : builder) : RootTransformer :=
  let t := builder_transformer b in
  if String.eqb (root t) (targetRoot t) then noop
  else if String.eqb (relativeTo b) "container" then containerRootTransformer t
  else hostRootTransformer t.

Definition New (opts : list Option_) : RootTransformer :=
  build (foldl apply_option (mkBuilder (mkTransformer "" "") "") opts).

Definition Transform (t : RootTransformer) (s : pspec) (h : heap) : heap :=
  match t with
  | noop => h
  | containerRootTransformer t => containerRoot_Transform t s h
  | hostRootTransformer t => hostRoot_Transform t s h
  end.

(** ** The driver root transformer *)

Record driverOptions := mkDriverOptions {
  driverRoot : string; targetDriverRoot : string; devRoot : string; targetDevRoot : string;
}.

Inductive DriverOption : Type :=
| WithDriverRoot (root : string)
| WithTargetDriverRoot (root : string)
| WithDevRoot (root : string)
| WithTargetDevRoot (root : string).

Definition apply_driver_option (d : driverOptions) (o : DriverOption) : driverOptions :=
  match o with
  | WithDriverRoot r => mkDriverOptions r (targetDriverRoot d) (devRoot d) (targetDevRoot d)
  | WithTargetDriverRoot r => mkDriverOptions (driverRoot d) r (devRoot d) (targetDevRoot d)
  | WithDevRoot r => mkDriverOptions (driverRoot d) (targetDriverRoot d) r (targetDevRoot d)
  | WithTargetDevRoot r => mkDriverOptions (driverRoot d) (targetDriverRoot d) (devRoot d) r
  end.

Definition or_default (s d : string) : string := if String.eqb s "" then d else s.

Definition ensureDev (p : string) : string :=
  path_join [trim_suffix (clean p) "/dev"; "/dev"].

(** The transformers that [transform.Merge] combines, in order. *)
Definition NewDriverTransformer (opts : list DriverOption) : list RootTransformer :=
  let d := foldl apply_driver_option (mkDriverOptions "" "" "" "") opts in
  let driver := or_default (driverRoot d) "/" in
  let targetDriver := or_default (targetDriverRoot d) "/" in
  let dev := or_default (devRoot d) driver in
  let targetDev := or_default (targetDevRoot d) targetDriver in
  (if String.eqb targetDev targetDriver then []
   else [New [WithRoot (ensureDev dev); WithTargetRoot (ensureDev targetDev)]])
  ++ [New [WithRoot driver; WithTargetRoot targetDriver]].

Definition Transform_all (ts : list RootTransformer) (s : pspec) (h : heap) : heap :=
  foldl (fun h t => Transform t s h) h ts.
