(* ===== verification/RootTransformProps.v ===== *)
(** * Properties of the root transforms *)
From S2P Require Import Prelude GoStrings GoPaths CDISpec Transform TransformProps RootTransform.

Lemma transformPath_below_root cs ts ds : Forall proper (cs ++ ds) -> Forall proper ts ->
  transformPath (mkTransformer (abs_path cs) (abs_path ts)) (abs_path (cs ++ ds)) = abs_path (ts ++ ds).
Proof.
  intros Hcd Hts. destruct (trim_root cs ds) as (Hpre & Hr1 & Hr2); [done|].
  unfold transformPath. cbn [root targetRoot]. rewrite Hpre. cbn [negb].
  rewrite path_join_abs by done. by rewrite Hr1.
Qed.

(** A path below the root is moved to the same place below the target
    root, and a path whose text does not start with the root is left alone. *)
Theorem transformPath_moves_below_root cs ts ds p :
  Forall proper (cs ++ ds) -> Forall proper ts -> has_prefix p (abs_path cs) = false ->
  let t := mkTransformer (abs_path cs) (abs_path ts) in
  transformPath t (abs_path (cs ++ ds)) = abs_path (ts ++ ds) /\ transformPath t p = p.
Proof.
  intros Hcd Hts Hp. split; [by apply transformPath_below_root|].
  unfold transformPath. simpl. by rewrite Hp.
Qed.

(** ** What happens to an entity *)

Lemma update_all_lookup {A} (f : A -> A) ls (h : gmap loc A) l :
  update_all f ls h !! l = Nat.iter (count_occ Nat.eq_dec ls l) f <$> h !! l.
Proof.
  unfold update_all. revert h. induction ls as [|l' ls IH]; intros h; simpl.
  - by destruct (h !! l).
  - rewrite IH. destruct (Nat.eq_dec l' l) as [->|Hne].
    + rewrite lookup_alter_eq. destruct (h !! l) as [a|]; simpl; [|done]. f_equal.
      by rewrite Nat.iter_swap.
    + by rewrite lookup_alter_ne.
Qed.

Lemma update_all_app {A} (f : A -> A) l1 l2 (h : gmap loc A) :
  update_all f (l1 ++ l2) h = update_all f l2 (update_all f l1 h).
Proof. unfold update_all. apply foldl_app. Qed.

(** The addresses that a specification mentions, in the order of the walk. *)
Definition node_ptrs (s : pspec) : list loc :=
  concat (map (fun d => DeviceNodes (Device_Edits d)) (Devices s)) ++ DeviceNodes (Spec_Edits s).
Definition hook_ptrs (s : pspec) : list loc :=
  concat (map (fun d => Hooks (Device_Edits d)) (Devices s)) ++ Hooks (Spec_Edits s).
Definition mount_ptrs (s : pspec) : list loc :=
  concat (map (fun d => Mounts (Device_Edits d)) (Devices s)) ++ Mounts (Spec_Edits s).

Lemma walk_heaps fn fh fm s h :
  walk fn fh fm s h
  = mkHeap (update_all fn (node_ptrs s) (node_heap h)) (update_all fh (hook_ptrs s) (hook_heap h))
      (update_all fm (mount_ptrs s) (mount_heap h)).
Proof.
  unfold walk, node_ptrs, hook_ptrs, mount_ptrs. generalize (Spec_Edits s). intros e.
  revert h. induction (Devices s) as [|d ds IH]; intros h; simpl; [done|].
  rewrite IH. simpl. by rewrite <- !app_assoc, !update_all_app.
Qed.

(** A root transform changes exactly the entities that the specification
    points to, each as often as it is pointed to: with distinct pointers every
    device node, hook and mount is transformed once, and an entity that is
    shared by two devices (as after merging devices) is transformed twice. *)
Theorem hostRoot_Transform_counts t s h l :
  node_heap (hostRoot_Transform t s h) !! l
  = Nat.iter (count_occ Nat.eq_dec (node_ptrs s) l) (HostRoot.transformDeviceNode t) <$> node_heap h !! l
  /\ hook_heap (hostRoot_Transform t s h) !! l
  = Nat.iter (count_occ Nat.eq_dec (hook_ptrs s) l) (HostRoot.transformHook t) <$> hook_heap h !! l
  /\ mount_heap (hostRoot_Transform t s h) !! l
  = Nat.iter (count_occ Nat.eq_dec (mount_ptrs s) l) (HostRoot.transformMount t) <$> mount_heap h !! l.
Proof. unfold hostRoot_Transform. rewrite walk_heaps. simpl. by rewrite !update_all_lookup. Qed.

(** After devices are merged, a host-root transform from [/] is applied
    twice to a device node of a device: the merged device holds the same
    pointer, so the target root is prepended twice to the host path. *)
Theorem merged_then_root_applied_twice (s : pspec) n md l dn ts ps h :
  mergeDeviceSpecs (Devices s) n = Some md ->
  count_occ Nat.eq_dec (concat (map (fun d => DeviceNodes (Device_Edits d)) (Devices s))) l = 1 ->
  l ∉ DeviceNodes (Spec_Edits s) ->
  node_heap h !! l = Some dn -> HostPath dn = "" -> Path dn = abs_path ps ->
  Forall proper ps -> Forall proper ts ->
  HostPath <$> (node_heap (hostRoot_Transform (mkTransformer "/" (abs_path ts))
    (set_devices (Devices s ++ [md]) s) h) !! l) = Some (abs_path (ts ++ ts ++ ps)).
Proof.
  intros Hmd Hc Hl Hn Hh Hp Hps Hts. unfold hostRoot_Transform. rewrite walk_heaps. simpl.
  rewrite update_all_lookup, Hn.
  replace (count_occ Nat.eq_dec _ l) with 2.
  - cbn [Nat.iter nat_rect fmap option_fmap option_map]. f_equal.
    unfold HostRoot.transformDeviceNode. rewrite Hh. cbn [HostPath set_node_hostpath String.eqb].
    pose proof (transformPath_below_root [] ts ps Hps Hts) as H1.
    assert (Forall proper ([] ++ ts ++ ps)) as Htp by (simpl; by apply Forall_app).
    pose proof (transformPath_below_root [] ts (ts ++ ps) Htp Hts) as H2.
    change (abs_path []) with "/" in H1, H2. simpl app in H1, H2.
    rewrite Hp, H1. replace (String.eqb (abs_path (ts ++ ps)) "") with false by done. exact H2.
  - unfold mergeDeviceSpecs in Hmd. destruct (existsb _ _); [done|]. injection Hmd as <-.
    unfold node_ptrs. simpl. fold (merged_edits (Devices s)).
    rewrite map_app, concat_app. simpl. rewrite app_nil_r.
    rewrite (foldl_append DeviceNodes) by done. unfold loc in *. rewrite !count_occ_app, Hc.
    rewrite list_elem_of_In in Hl. by rewrite (proj1 (count_occ_not_In Nat.eq_dec _ l) Hl).
Qed.

(** ** Siblings of the root *)

(** The root is compared as text: a path below a sibling directory whose
    name merely starts with the name of the root, such as
    [/run/nvidia/driver-libs] for the root [/run/nvidia/driver], is rewritten
    too, to a place below the target root that has lost the common part. *)
Theorem transformPath_sibling cs c x ts ds :
  Forall proper (x :: ds) -> Forall proper ts ->
  transformPath (mkTransformer (abs_path (cs ++ [c])) (abs_path ts))
    (abs_path (cs ++ (c +:+ x) :: ds)) = abs_path (ts ++ x :: ds).
Proof.
  intros Hx Hts. rewrite abs_path_glue. unfold transformPath. cbn [root targetRoot].
  rewrite has_prefix_app, trim_prefix_app. cbn [negb].
  rewrite path_join_abs; rewrite ?(split_join slash); try done.
  - by rewrite filter_proper.
  - by apply proper_free.
  - eapply Forall_impl; [exact Hx|]. by right.
  - by apply proper_free.
Qed.

(** ** The driver root transformer *)











(** Sharing is harmless when neither root is a textual prefix of the
    other: transforming a path below the root a second time changes nothing. *)
Theorem transformPath_twice cs ts ds : Forall proper (cs ++ ds) -> Forall proper ts ->
  has_prefix (abs_path ts) (abs_path cs) = false -> has_prefix (abs_path cs) (abs_path ts) = false ->
  let t := mkTransformer (abs_path cs) (abs_path ts) in
  transformPath t (transformPath t (abs_path (cs ++ ds))) = transformPath t (abs_path (cs ++ ds)).
Proof.
  intros Hcd Hts H1 H2. cbv zeta. rewrite (transformPath_below_root cs ts ds) by done.
  unfold transformPath. cbn [root targetRoot].
  destruct (has_prefix (abs_path (ts ++ ds)) (abs_path cs)) eqn:Hp; [|done]. exfalso.
  destruct (decide (ds = [])) as [->|Hds]; [rewrite app_nil_r in Hp; congruence|].
  destruct (decide (ts = [])) as [->|Hne].
  { change (abs_path []) with "/" in H2. unfold abs_path in H2. by rewrite has_prefix_app in H2. }
  rewrite abs_path_app in Hp by done. revert Hp H1 H2. generalize (abs_path ts) (abs_path cs) (abs_path ds).
  clear. intros a. induction a as [|c a IH]; intros b d Hp H1 H2; [by rewrite has_prefix_empty in H2|].
  destruct b as [|e b]; [by rewrite has_prefix_empty in H1|]. simpl in Hp.
  rewrite has_prefix_cons in Hp, H1, H2. apply andb_prop in Hp as [Hc Hp].
  apply Ascii.eqb_eq in Hc as ->. rewrite Ascii.eqb_refl in H1, H2. simpl in H1, H2. by apply (IH b d).
Qed.

(** ** Instances *)

Lemma transformPath_moves_below_root_witness :
  transformPath (mkTransformer "/driver-root" "/") "/driver-root/usr/lib" = "/usr/lib".
Proof.
  apply (proj1 (transformPath_moves_below_root ["driver-root"] [] ["usr"; "lib"] "/dev"
    ltac:(evaluate) ltac:(evaluate) eq_refl)).
Defined.

Definition shared_spec : pspec :=
  mkSpec "0.5.0" "nvidia.com/gpu" ∅ [mkDevice "0" ∅ (mkEdits [] [0] [] [] [] None [])] no_edits.
Definition shared_heap : heap :=
  mkHeap {[ 0 := mkDeviceNode "/dev/nvidia0" "" "" 195 0 None "" None None ]} ∅ ∅.

Lemma merged_then_root_applied_twice_witness : exists md,
  mergeDeviceSpecs (Devices shared_spec) "all" = Some md /\
  HostPath <$> (node_heap (hostRoot_Transform (mkTransformer "/" "/host")
    (set_devices (Devices shared_spec ++ [md]) shared_spec) shared_heap) !! 0)
  = Some "/host/host/dev/nvidia0".
Proof.
  eexists. split; [reflexivity|].
  refine (merged_then_root_applied_twice shared_spec "all" _ 0
    (mkDeviceNode "/dev/nvidia0" "" "" 195 0 None "" None None) ["host"] ["dev"; "nvidia0"] shared_heap
    eq_refl eq_refl _ eq_refl eq_refl eq_refl _ _).
  - apply not_elem_of_nil.
  - evaluate.
  - evaluate.
Defined.

Lemma transformPath_sibling_witness :
  transformPath (mkTransformer "/run/nvidia/driver" "/") "/run/nvidia/driver-libs/libcuda.so"
  = "/-libs/libcuda.so".
Proof.
  apply (transformPath_sibling ["run"; "nvidia"] "driver" "-libs" [] ["libcuda.so"]); evaluate.
Defined.


Lemma transformPath_twice_witness :
  let t := mkTransformer "/driver-root" "/run/nvidia/driver" in
  transformPath t (transformPath t "/driver-root/usr/lib") = transformPath t "/driver-root/usr/lib".
Proof.
  apply (transformPath_twice ["driver-root"] ["run"; "nvidia"; "driver"] ["usr"; "lib"]);
    first [evaluate | reflexivity].
Defined.
