(* ===== verification/SpecBuilder.v ===== *)
(** * Building and saving CDI specifications (src/pkg/nvcdi/spec)

    The option-driven builder of [spec.New], the minimum version transform
    that is applied on save (with the version tables of the vendored
    [specs-go/version.go]) and the normalization of the output path. Writing
    the file is the CDI cache's work and is left out; the current directory
    is a parameter. *)
From S2P Require Import Prelude GoStrings Semver CDISpec CDIParser Transform.

(** ** Versions (specs-go/version.go) *)

Definition CurrentVersion : string := "1.1.0".
Definition vCurrent : string := "v1.1.0".
Definition vEarliest : string := "v0.3.0".

Definition newVersion (v : string) : string := "v" +:+ trim_prefix v "v".
Definition version_String (v : string) : string := trim_prefix v "v".
Definition isGreaterThan (v o : string) : bool := Z.ltb 0 (Semver.Compare v o).
Definition isLatest (v : string) : bool := String.eqb v vCurrent.

(** [i.Schemata != nil || i.EnableMonitoring]; an empty schema list is nil. *)
Definition rdt_v110 (o : option IntelRdt) : bool :=
  match o with
  | Some i => match Schemata i with [] => EnableMonitoring i | _ => true end
  | None => false
  end.
Definition notEmpty {A} (l : list A) : bool := match l with [] => false | _ => true end.
Definition isSome {A} (o : option A) : bool := match o with Some _ => true | None => false end.

Definition requiresV110 (s : spec) : bool :=
  rdt_v110 (IntelRdt_ (Spec_Edits s)) || notEmpty (NetDevices (Spec_Edits s))
  || existsb (fun d => rdt_v110 (IntelRdt_ (Device_Edits d)) || notEmpty (NetDevices (Device_Edits d)))
       (Devices s).
Definition requiresV100 (_ : spec) : bool := false.
Definition requiresV080 (_ : spec) : bool := false.
Definition requiresV070 (s : spec) : bool :=
  isSome (IntelRdt_ (Spec_Edits s)) || notEmpty (AdditionalGIDs (Spec_Edits s))
  || existsb (fun d => isSome (IntelRdt_ (Device_Edits d)) || notEmpty (AdditionalGIDs (Device_Edits d)))
       (Devices s).
Definition requiresV060 (s : spec) : bool :=
  if decide (Annotations s <> ∅) then true
  else if existsb (fun d => bool_decide (Device_Annotations d <> ∅)) (Devices s) then true
  else match splitN 2 "/" (Kind s) with
       | [_; class] => contains class "."
       | _ => false
       end.
Definition requiresV050 (s : spec) : bool :=
  existsb (fun d => match Device_Name d with String c _ => is_digit c | "" => false end) (Devices s)
  || existsb (fun e => existsb (fun dn => negb (String.eqb (HostPath dn) "")) (DeviceNodes e))
       (map Device_Edits (Devices s) ++ [Spec_Edits s]).
Definition requiresV040 (s : spec) : bool :=
  existsb (fun e => existsb (fun m => negb (String.eqb (Mount_Type m) "")) (Mounts e))
    (map Device_Edits (Devices s) ++ [Spec_Edits s]).

Definition validSpecVersions : gmap string (option (spec -> bool)) :=
  list_to_map [("v0.1.0", None); ("v0.2.0", None); ("v0.3.0", None);
    ("v0.4.0", Some requiresV040); ("v0.5.0", Some requiresV050); ("v0.6.0", Some requiresV060);
    ("v0.7.0", Some requiresV070); ("v0.8.0", Some requiresV080); ("v1.0.0", Some requiresV100);
    ("v1.1.0", Some requiresV110)].

(** The loop over the version map, in the order of one iteration. *)
Fixpoint requiredVersion_loop (s : spec) (l : list (string * option (spec -> bool)))
    (minVersion : string) : string :=
  match l with
  | [] => minVersion
  | (_, None) :: l => requiredVersion_loop s l minVersion
  | (v, Some isRequired) :: l =>
      let minVersion := if isRequired s && isGreaterThan v minVersion then v else minVersion in
      if isLatest minVersion then minVersion else requiredVersion_loop s l minVersion
  end.
Definition MinimumRequiredVersion `{MapRange} (s : spec) : string :=
  version_String (requiredVersion_loop s (range validSpecVersions) vEarliest).

(** [setMinimumRequiredVersion.Transform]; the version lookup cannot fail. *)
Definition setMinimumRequiredVersion `{MapRange} : Transformer :=
  fun s => Ok (set_version (MinimumRequiredVersion s) s).

(** ** The builder *)

Definition DetectMinimumVersion : string := "DETECT_MINIMUM_VERSION".
Definition FormatJSON : string := "json".
Definition FormatYAML : string := "yaml".

Record builder := mkBuilder {
  raw : option spec; version : string; vendor : string; class : string;
  deviceSpecs : list device; builder_edits : edits; format : string;
  mergedDeviceOptions : list MergedDeviceOption; noSimplify : bool; permissions : Z;
  transformOnSave : bool;
}.
Definition empty_builder : builder := mkBuilder None "" "" "" [] no_edits "" [] false 0 false.

Inductive Option_ : Type :=
| WithDeviceSpecs (deviceSpecs : list device)
| WithEdits (edits : edits)
| WithVersion (version : string)
| WithVendor (vendor : string)
| WithClass (class : string)
| WithFormat (format : string)
| WithNoSimplify (noSimplify : bool)
| WithRawSpec (raw : option spec)
| WithPermissions (permissions : Z)
| WithMergedDeviceOptions (opts : list MergedDeviceOption).

Definition apply_option (b : builder) (o : Option_) : builder :=
  let '(mkBuilder r v vn c ds e f mo ns p t) := b in
  match o with
  | WithDeviceSpecs ds => mkBuilder r v vn c ds e f mo ns p t
  | WithEdits e => mkBuilder r v vn c ds e f mo ns p t
  | WithVersion v => mkBuilder r v vn c ds e f mo ns p t
  | WithVendor vn => mkBuilder r v vn c ds e f mo ns p t
  | WithClass c => mkBuilder r v vn c ds e f mo ns p t
  | WithFormat f => mkBuilder r v vn c ds e f mo ns p t
  | WithNoSimplify ns => mkBuilder r v vn c ds e f mo ns p t
  | WithRawSpec r => mkBuilder r v vn c ds e f mo ns p t
  | WithPermissions p => mkBuilder r v vn c ds e f mo ns p t
  | WithMergedDeviceOptions mo => mkBuilder r v vn c ds e f mo ns p t
  end.

Definition or_default (s d : string) : string := if String.eqb s "" then d else s.
Definition undetermined (v : string) : bool := String.eqb v "" || String.eqb v DetectMinimumVersion.

(** The defaults that [newBuilder] fills in after the options. *)
Definition fill_from_raw (b : builder) : builder :=
  match raw b with
  | None => b
  | Some r =>
      let '(rvendor, rclass) := ParseQualifier (Kind r) in
      mkBuilder (raw b) (if undetermined (version b) then Version r else version b)
        (or_default (vendor b) rvendor) (or_default (class b) rclass)
        (deviceSpecs b) (builder_edits b) (format b) (mergedDeviceOptions b) true (permissions b)
        (transformOnSave b)
  end.
Definition fill_defaults (b : builder) : builder :=
  mkBuilder (raw b) (if undetermined (version b) then CurrentVersion else version b)
    (or_default (vendor b) "nvidia.com") (or_default (class b) "gpu") (deviceSpecs b)
    (builder_edits b) (or_default (format b) FormatYAML) (mergedDeviceOptions b) (noSimplify b)
    (if Z.eqb (permissions b) 0 then 420 else permissions b)%Z
    (transformOnSave b || undetermined (version b)).
Definition newBuilder (opts : list Option_) : builder :=
  fill_defaults (fill_from_raw (foldl apply_option empty_builder opts)).

(** The built specification; [spec_transformOnSave] tells whether the minimum
    version is set on save. *)
Record built := mkBuilt {
  Raw : spec; built_format : string; built_permissions : Z; built_transformOnSave : bool;
}.

Section Build.
Context `{MapRange} `{SortSlice}.

Definition Build (o : builder) : result built :=
  let r := match raw o with
           | Some r => r
           | None => mkSpec (version o) (vendor o +:+ "/" +:+ class o) ∅ (deviceSpecs o) (builder_edits o)
           end in
  let r := if String.eqb (Version r) "" then set_version (version o) r else r in
  let? r := (if noSimplify o then Ok r
             else wrap "failed to simplify spec" (NewSimplifier r)) in
  let? r := (match mergedDeviceOptions o with
             | [] => Ok r
             | opts =>
                 let? m := wrap "failed to create merged device transformer" (NewMergedDevice opts) in
                 wrap "failed to merge devices" (mergedDevice_Transform m r)
             end) in
  Ok (mkBuilt r (format o) (permissions o) (transformOnSave o)).

Definition New (opts : list Option_) : result built := Build (newBuilder opts).
End Build.

(** ** Saving *)

Definition extension (s : built) : string :=
  if String.eqb (built_format s) FormatJSON then ".json"
  else if String.eqb (built_format s) FormatYAML then ".yaml" else ".yaml".

(** [getwd] is the result of [os.Getwd]. *)
Definition normalizePath (getwd : result string) (s : built) (path : string) : result string :=
  let ext := path_ext path in
  let path := if negb (String.eqb ext ".yaml") && negb (String.eqb ext ".json")
              then path +:+ extension s else path in
  if String.eqb (clean (path_dir path)) "." then
    let? pwd := wrap "failed to get current working directory" getwd in
    Ok (path_join [pwd; path])
  else Ok path.

(** The specification and the file that [Save] hands to the CDI cache. *)
Definition save_request `{MapRange} (getwd : result string) (s : built) (path : string)
  : result (spec * (string * string)) :=
  let? r := (if built_transformOnSave s
             then wrap "error applying transform" (setMinimumRequiredVersion (Raw s))
             else Ok (Raw s)) in
  let? path := wrap "failed to normalize path" (normalizePath getwd s path) in
  Ok (r, path_split path).
