(* ===== verification/SpecBuilderProps.v ===== *)
(** * Properties of the specification builder *)
From S2P Require Import Prelude GoStrings GoPaths Semver CDISpec CDIParser Transform TransformProps SpecBuilder.

(** ** The minimum version *)

Definition version_list : list (string * option (spec -> bool)) :=
  [("v0.1.0", None); ("v0.2.0", None); ("v0.3.0", None);
    ("v0.4.0", Some requiresV040); ("v0.5.0", Some requiresV050); ("v0.6.0", Some requiresV060);
    ("v0.7.0", Some requiresV070); ("v0.8.0", Some requiresV080); ("v1.0.0", Some requiresV100);
    ("v1.1.0", Some requiresV110)].

(** Position of a version in the list of releases. *)
Fixpoint position (v : string) (l : list string) : nat :=
  match l with
  | [] => 0
  | x :: l => if String.eqb v x then 0 else S (position v l)
  end.
Definition rank (v : string) : nat := position v version_list.*1.

Lemma version_entry v f :
  validSpecVersions !! v = Some f <-> (v, f) ∈ version_list.
Proof.
  symmetry. apply elem_of_list_to_map.
  apply (bool_decide_unpack (NoDup version_list.*1)). by vm_compute.
Qed.

Lemma isGreaterThan_rank v w : v ∈ version_list.*1 -> w ∈ version_list.*1 ->
  isGreaterThan v w = Nat.ltb (rank w) (rank v).
Proof.
  intros Hv Hw.
  assert (Hall : forallb (fun v => forallb (fun w => Bool.eqb (isGreaterThan v w) (Nat.ltb (rank w) (rank v)))
    version_list.*1) version_list.*1 = true) by by vm_compute.
  rewrite forallb_forall in Hall. specialize (Hall v (proj1 (list_elem_of_In _ _) Hv)).
  rewrite forallb_forall in Hall. specialize (Hall w (proj1 (list_elem_of_In _ _) Hw)).
  by apply eqb_prop.
Qed.

Lemma rank_max v : v ∈ version_list.*1 -> rank v <= rank vCurrent.
Proof.
  intros Hv.
  assert (Hall : forallb (fun v => Nat.leb (rank v) (rank vCurrent)) version_list.*1 = true) by by vm_compute.
  rewrite forallb_forall in Hall. by apply Nat.leb_le, Hall, list_elem_of_In.
Qed.
Lemma rank_inj v w : v ∈ version_list.*1 -> w ∈ version_list.*1 -> rank v = rank w -> v = w.
Proof.
  intros Hv Hw He.
  assert (Hall : forallb (fun v => forallb (fun w =>
     implb (Nat.eqb (rank v) (rank w)) (String.eqb v w)) version_list.*1) version_list.*1 = true) by by vm_compute.
  rewrite forallb_forall in Hall. specialize (Hall v (proj1 (list_elem_of_In _ _) Hv)).
  rewrite forallb_forall in Hall. specialize (Hall w (proj1 (list_elem_of_In _ _) Hw)).
  rewrite He, Nat.eqb_refl in Hall. by apply String.eqb_eq.
Qed.

(** [r] is the highest version that [s] requires among the entries of [l] and [m]. *)
Definition is_required (s : spec) (l : list (string * option (spec -> bool))) (v : string) : Prop :=
  exists f, (v, Some f) ∈ l /\ f s = true.

Lemma requiredVersion_loop_max s l m :
  (forall v f, (v, f) ∈ l -> (v, f) ∈ version_list) -> m ∈ version_list.*1 ->
  let r := requiredVersion_loop s l m in
  (r = m \/ is_required s l r) /\ rank m <= rank r /\ (forall v, is_required s l v -> rank v <= rank r).
Proof.
  revert m. induction l as [|[v [f|]] l IH]; intros m Hl Hm; simpl.
  - split; [by left|]. split; [lia|]. intros v (f & Hf & _). by apply not_elem_of_nil in Hf.
  - assert (Hv : v ∈ version_list.*1).
    { apply list_elem_of_fmap. exists (v, Some f). split; [done|]. apply Hl. left. }
    set (m' := if f s && isGreaterThan v m then v else m).
    assert (Hm' : m' ∈ version_list.*1) by (unfold m'; by destruct (_ && _)).
    assert (Hcase : (m' = m \/ (m' = v /\ f s = true)) /\ rank m <= rank m'
      /\ (f s = true -> rank v <= rank m')).
    { unfold m'. rewrite isGreaterThan_rank by done. destruct (f s); simpl; [|naive_solver lia].
      destruct (Nat.ltb_spec (rank m) (rank v)); naive_solver lia. }
    destruct Hcase as (Hm1 & Hm2 & Hm3).
    destruct (isLatest m') eqn:Hlatest.
    + apply String.eqb_eq in Hlatest. split; [|split; [done|]].
      * destruct Hm1 as [->|[-> Hf]]; [by left|]. right. exists f. split; [left|done].
      * intros w (g & Hg & _). rewrite Hlatest. apply rank_max, list_elem_of_fmap.
        exists (w, Some g). split; [done|]. by apply Hl.
    + destruct (IH m') as (H1 & H2 & H3); [by intros; apply Hl; right|done|].
      split; [|split; [lia|]].
      * destruct H1 as [->|(g & Hg & Hs)]; [|right; exists g; split; [by right|done]].
        destruct Hm1 as [->|[-> Hf]]; [by left|]. right. exists f. split; [left|done].
      * intros w (g & Hg & Hs). apply elem_of_cons in Hg as [[= -> ->]|Hg]; [|apply H3; by exists g].
        specialize (Hm3 Hs). lia.
  - destruct (IH m) as (H1 & H2 & H3); [by intros; apply Hl; right|done|].
    split; [|split; [done|]].
    + destruct H1 as [->|(g & Hg & Hs)]; [by left|]. right. exists g. split; [by right|done].
    + intros w (g & Hg & Hs). apply elem_of_cons in Hg as [[=]|Hg]. apply H3. by exists g.
Qed.

(** The minimum version by cases on the features in use. *)
Definition min_version (s : spec) : string :=
  if requiresV110 s then "v1.1.0" else if requiresV070 s then "v0.7.0"
  else if requiresV060 s then "v0.6.0" else if requiresV050 s then "v0.5.0"
  else if requiresV040 s then "v0.4.0" else "v0.3.0".

Ltac here := unfold version_list; repeat first [apply list_elem_of_here | apply list_elem_of_further].

(** The minimum version of a specification is that of the newest feature
    it uses, and at least 0.3.0, whatever the order in which the version map
    is visited. *)
Theorem MinimumRequiredVersion_newest `{MapRange} s :
  MinimumRequiredVersion s = version_String (min_version s).
Proof.
  unfold MinimumRequiredVersion. f_equal.
  assert (Hr : forall v f, (v, f) ∈ range validSpecVersions <-> (v, f) ∈ version_list).
  { intros v f. by rewrite elem_of_range, version_entry. }
  destruct (requiredVersion_loop_max s (range validSpecVersions) vEarliest) as (H1 & H2 & H3).
  { intros v f. apply Hr. } { apply (bool_decide_unpack _). by vm_compute. }
  set (r := requiredVersion_loop s (range validSpecVersions) vEarliest) in *.
  assert (Hreq : forall v, is_required s (range validSpecVersions) v <-> is_required s version_list v).
  { intros v. split; intros (f & Hf & Hs); exists f; (split; [by apply Hr|done]). }
  setoid_rewrite Hreq in H3. rewrite Hreq in H1.
  assert (Hrin : r ∈ version_list.*1).
  { destruct H1 as [->|(f & Hf & _)]; [apply (bool_decide_unpack _); by vm_compute|].
    apply list_elem_of_fmap. by exists (r, Some f). }
  assert (Hmin : min_version s ∈ version_list.*1).
  { unfold min_version. repeat case_goal; apply (bool_decide_unpack _); by vm_compute. }
  apply rank_inj; [done|done|]. apply Nat.le_antisymm.
  - destruct H1 as [->|(f & Hf & Hs)].
    + unfold min_version. repeat case_goal; apply Nat.leb_le; by vm_compute.
    + unfold version_list in Hf. unfold min_version.
      repeat (apply elem_of_cons in Hf; destruct Hf as [Hf|Hf];
        [first [discriminate Hf | injection Hf as Hv Hfeq; rewrite Hv; rewrite Hfeq in Hs;
           first [discriminate Hs | rewrite Hs; repeat case_goal; apply Nat.leb_le; by vm_compute]]|]).
      by apply not_elem_of_nil in Hf.
  - assert (Hin : forall v f, (v, Some f) ∈ version_list -> f s = true -> rank v <= rank r).
    { intros v f Hf Hs. apply H3. by exists f. }
    unfold min_version.
    destruct (requiresV110 s) eqn:E1; [eapply Hin; [|exact E1]; here|].
    destruct (requiresV070 s) eqn:E2; [eapply Hin; [|exact E2]; here|].
    destruct (requiresV060 s) eqn:E3; [eapply Hin; [|exact E3]; here|].
    destruct (requiresV050 s) eqn:E4; [eapply Hin; [|exact E4]; here|].
    destruct (requiresV040 s) eqn:E5; [eapply Hin; [|exact E5]; here|].
    done.
Qed.

(** ** What the builder builds *)

(** A specification built from device specs and common edits has the
    requested vendor and class, the current version until it is saved, and
    gives a container the same entities as the device specs and edits. *)
Theorem New_from_device_specs `{MapRange} `{SortSlice} ds e v c :
  valid_edits e -> Forall (fun d => valid_edits (Device_Edits d)) ds -> v <> "" -> c <> "" ->
  exists s' ds', New [WithDeviceSpecs ds; WithEdits e; WithVendor v; WithClass c]
      = Ok (mkBuilt s' "yaml" 420 true)
    /\ Kind s' = v +:+ "/" +:+ c /\ Version s' = CurrentVersion
    /\ Devices s' ≡ₚ ds' /\ Forall2 (device_preserved e (Spec_Edits s')) ds ds'.
Proof.
  intros He Hds Hv Hc. unfold New, newBuilder, fill_from_raw, fill_defaults, Build, or_default.
  cbn [foldl apply_option empty_builder raw version vendor class deviceSpecs builder_edits format
    mergedDeviceOptions noSimplify permissions transformOnSave undetermined String.eqb orb].
  apply String.eqb_neq in Hv, Hc. rewrite Hv, Hc. cbn -[NewSimplifier].
  rewrite NewSimplifier_eq. eexists _, (map (simplified_device e) ds).
  split; [reflexivity|]. simpl. split; [done|]. split; [done|].
  split; [apply sort_slice_perm|]. by apply simplified_devices_preserved.
Qed.

(** Loading a specification does not change it, apart from the version of
    one that has none; the minimum version is only set on save if the
    specification does not state a version. *)
Theorem New_from_raw `{MapRange} `{SortSlice} r :
  New [WithRawSpec (Some r)]
  = Ok (mkBuilt (if String.eqb (Version r) "" then set_version CurrentVersion r else r) "yaml" 420
          (undetermined (Version r))).
Proof.
  unfold New, newBuilder, fill_from_raw, fill_defaults, Build. simpl.
  destruct (ParseQualifier (Kind r)) as [vn cl]. simpl.
  destruct (String.eqb (Version r) "") eqn:E; simpl; [|done].
  unfold undetermined. by rewrite E.
Qed.

(** ** The file name *)

Definition has_format_ext (n : string) : bool :=
  String.eqb (path_ext n) ".yaml" || String.eqb (path_ext n) ".json".
Definition with_format_ext (s : built) (n : string) : string :=
  if has_format_ext n then n else n +:+ extension s.

Lemma extension_proper s : extension s = ".json" \/ extension s = ".yaml".
Proof. unfold extension. repeat case_goal; auto. Qed.

Lemma normalize_ext s path :
  (if negb (String.eqb (path_ext path) ".yaml") && negb (String.eqb (path_ext path) ".json")
   then path +:+ extension s else path) = with_format_ext s path.
Proof. unfold with_format_ext, has_format_ext. by destruct (String.eqb _ _), (String.eqb _ _). Qed.

Lemma with_format_ext_free s n : has_byte slash n = false -> has_byte slash (with_format_ext s n) = false.
Proof.
  intros Hn. unfold with_format_ext. destruct (has_format_ext n); [done|].
  rewrite has_byte_app, Hn. by destruct (extension_proper s) as [-> | ->].
Qed.
Lemma with_format_ext_proper s n : proper n -> proper (with_format_ext s n).
Proof.
  intros (H1 & H2 & H3 & H4). unfold with_format_ext. destruct (has_format_ext n); [done|].
  split; [by destruct n|]. split; [|split].
  - destruct n as [|x n]; [done|]. destruct (extension_proper s) as [-> | ->]; intros [= _ He];
      apply (f_equal String.length) in He; rewrite slength_app in He; simpl in He; lia.
  - destruct n as [|x n]; [done|]. destruct (extension_proper s) as [-> | ->]; intros [= _ He];
      apply (f_equal String.length) in He; rewrite slength_app in He; simpl in He; lia.
  - rewrite has_byte_app, H4. by destruct (extension_proper s) as [-> | ->].
Qed.

Lemma path_ext_abs ds n : has_byte slash n = false -> path_ext (abs_path (ds ++ [n])) = path_ext n.
Proof.
  intros Hn. apply path_ext_split. by rewrite path_split_abs, path_split_free.
Qed.

Lemma abs_path_snoc_app ds n e : abs_path (ds ++ [n]) +:+ e = abs_path (ds ++ [n +:+ e]).
Proof.
  rewrite abs_path_glue. destruct (decide (e = "")) as [->|]; simpl; by rewrite ?sapp_nil_r.
Qed.

(** The output path gets the extension of the format unless it has one of
    the two known extensions; a plain file name is placed in the current
    directory and an absolute path stays where it is. *)
Theorem normalizePath_spec s ws n : Forall proper ws -> proper n ->
  normalizePath (Ok (abs_path ws)) s n = Ok (abs_path (ws ++ [with_format_ext s n]))
  /\ (forall getwd, normalizePath getwd s (abs_path (ws ++ [n]))
      = Ok (abs_path (ws ++ [with_format_ext s n]))).
Proof.
  intros Hws Hn. pose proof (with_format_ext_proper s n Hn) as Hp.
  pose proof Hn as (_ & _ & _ & Hs). pose proof Hp as (_ & _ & _ & Hps).
  assert (Hsplit : List.filter nonempty (split_byte slash (with_format_ext s n)) = [with_format_ext s n]).
  { rewrite split_byte_free_id by done. apply filter_proper. by constructor. }
  split.
  - unfold normalizePath. rewrite normalize_ext, path_dir_free by done. simpl.
    f_equal. etrans; [apply path_join_abs; [done|]|by rewrite Hsplit].
    rewrite split_byte_free_id by done. constructor; [by right|constructor].
  - intros getwd. unfold normalizePath. rewrite normalize_ext.
    assert (with_format_ext s (abs_path (ws ++ [n])) = abs_path (ws ++ [with_format_ext s n])) as ->.
    { unfold with_format_ext, has_format_ext. rewrite !path_ext_abs by done.
      destruct (_ || _); [done|]. by rewrite abs_path_snoc_app. }
    rewrite path_dir_abs, clean_abs_path by done.
    unfold abs_path at 1. by destruct (String.eqb_spec ("/" +:+ join "/" ws) ".").
Qed.

(** ** Instances *)

Lemma New_from_device_specs_witness :
  exists s' ds', @New map_to_list_range insertion_sort_slice
      [WithDeviceSpecs (Devices example_spec); WithEdits (Spec_Edits example_spec);
       WithVendor "nvidia.com"; WithClass "gpu"] = Ok (mkBuilt s' "yaml" 420 true)
    /\ Devices s' ≡ₚ ds'.
Proof.
  destruct (@New_from_device_specs map_to_list_range insertion_sort_slice (Devices example_spec)
    (Spec_Edits example_spec) "nvidia.com" "gpu" (proj1 example_spec_valid) (proj2 example_spec_valid))
    as (s' & ds' & ? & _ & _ & ? & _); [done|done|]. by exists s', ds'.
Defined.

Lemma normalizePath_spec_witness :
  normalizePath (Ok "/var/run") (mkBuilt example_spec "json" 420 false) "nvidia"
  = Ok "/var/run/nvidia.json".
Proof.
  apply (proj1 (normalizePath_spec (mkBuilt example_spec "json" 420 false) ["var"; "run"] "nvidia"
    ltac:(evaluate) ltac:(evaluate))).
Defined.
