(* ===== verification/Image.v ===== *)
(** * CUDA container images

    [internal/config/image]: the view of a container that decides which
    devices, IMEX channels, driver capabilities and requirements it asks for
    (cuda_image.go, devices.go, capabilities.go, builder.go, privileged.go,
    envvars.go).

    A Go [map[string]bool] that only ever holds [true] is a [gset string]. A
    function whose result is an [option] here can panic in Go ([None]): the
    vendored CDI parser slices out of range on one-letter names. *)
From S2P Require Import Prelude.
From S2P Require Import GoStrings.
From S2P Require Import Semver.
From S2P Require Import CDIParser.
From S2P Require Import OCISpec.

Definition DeviceListAsVolumeMountsRoot := "/var/run/nvidia-container-devices".
Definition volumeMountDevicePrefixCDI := "cdi/".
Definition volumeMountDevicePrefixImex := "imex/".

Definition NvidiaRequirePrefix := "NVIDIA_REQUIRE_".
Definition EnvVarCudaVersion := "CUDA_VERSION".
Definition EnvVarNvidiaDisableRequire := "NVIDIA_DISABLE_REQUIRE".
Definition EnvVarNvidiaDriverCapabilities := "NVIDIA_DRIVER_CAPABILITIES".
Definition EnvVarNvidiaImexChannels := "NVIDIA_IMEX_CHANNELS".
Definition EnvVarNvidiaRequireCuda := NvidiaRequirePrefix +:+ "CUDA".
Definition EnvVarNvidiaRequireJetpack := NvidiaRequirePrefix +:+ "JETPACK".
Definition EnvVarNvidiaVisibleDevices := "NVIDIA_VISIBLE_DEVICES".

(** ** Visible devices (devices.go) *)

Record devices := mkDevices { d_len : nat; d_lookup : gmap string nat }.

Inductive VisibleDevices :=
| all
| none
| void
| some_devices (d : devices).

(** The nested loops of [newDevices] run over the comma-separated parts of
    all arguments with one counter. *)
Definition newDevices (idOrCommaSeparated : list string) : devices :=
  let ids := flat_map (split_byte ",") idOrCommaSeparated in
  foldl (fun d id => mkDevices (S (d_len d)) (<[id := d_len d]> (d_lookup d)))
    (mkDevices 0 ∅) ids.

Fixpoint NewVisibleDevices_loop (envvars todo : list string) : VisibleDevices :=
  match todo with
  | [] => some_devices (newDevices envvars)
  | envvar :: todo =>
      if String.eqb envvar "all" then all
      else if String.eqb envvar "none" then none
      else if String.eqb envvar "" || String.eqb envvar "void" then void
      else NewVisibleDevices_loop envvars todo
  end.
Definition NewVisibleDevices (envvars : list string) : VisibleDevices :=
  NewVisibleDevices_loop envvars envvars.

(** [list := make([]string, d.len); for id, i := range d.lookup { list[i] = id }] *)
Definition devices_List (rng : gmap string nat -> list (string * nat)) (d : devices) : list string :=
  foldl (fun l p => <[p.2 := p.1]> l) (replicate (d_len d) "") (rng (d_lookup d)).

Definition List_of `{MapRange} (v : VisibleDevices) : list string :=
  match v with
  | all => ["all"]
  | none => [""]
  | void => []
  | some_devices d => devices_List range d
  end.

Definition Has (v : VisibleDevices) (id : string) : bool :=
  match v with
  | all => negb (String.eqb id "")
  | none | void => false
  | some_devices d =>
      if String.eqb id "" then false else bool_decide (is_Some (d_lookup d !! id))
  end.

(** ** Driver capabilities (capabilities.go) *)

Module Caps.

Abbreviation DriverCapabilities := (gset string).

Definition NewDriverCapabilities (capabilities : list string) : DriverCapabilities :=
  foldl (fun dc c => let trimmed := trim_space c in
                     if String.eqb trimmed "" then dc else {[trimmed]} ∪ dc)
    ∅ (flat_map (split_byte ",") capabilities).

Definition DriverCapabilityAll := "all".
Definition DefaultDriverCapabilities := NewDriverCapabilities ["utility,compute"].
Definition SupportedDriverCapabilities :=
  NewDriverCapabilities ["compute,compat32,graphics,utility,video,display,ngx"].

Definition IsAll (c : DriverCapabilities) : bool := bool_decide (DriverCapabilityAll ∈ c).

Definition Has (c : DriverCapabilities) (capability : string) : bool :=
  if IsAll c then true else bool_decide (capability ∈ c).

Definition Any (c : DriverCapabilities) (capabilities : list string) : bool :=
  if IsAll c then true else existsb (Has c) capabilities.

Definition List (c : DriverCapabilities) : list string := sort_strings (elements c).

Definition String (c : DriverCapabilities) : string :=
  if IsAll c then "all" else join "," (List c).

Definition Intersection (c s2 : DriverCapabilities) : DriverCapabilities :=
  if IsAll s2 then c
  else if IsAll c then s2
  else filter (fun capability => capability ∈ c) s2.

Definition IsSuperset (c s2 : DriverCapabilities) : bool :=
  if IsAll c then true
  else forallb (fun capability => bool_decide (capability ∈ c)) (elements s2).

End Caps.

(** ** The image (cuda_image.go) *)

Record CUDA := mkCUDA {
  annotations : gmap string string;
  env : gmap string string;
  isPrivileged : bool;
  mounts : list Mount;
  annotationsPrefixes : list string;
  acceptDeviceListAsVolumeMounts : bool;
  acceptEnvvarUnprivileged : bool;
  ignoreImexChannelRequests : bool;
  preferredVisibleDeviceEnvVars : list string;
}.

(** [i.env[key]]: the zero value for a missing key. *)
Definition Getenv (i : CUDA) (key : string) : string := default "" (env i !! key).
Definition HasEnvvar (i : CUDA) (key : string) : bool := bool_decide (is_Some (env i !! key)).

Definition IsLegacy (i : CUDA) : bool :=
  negb (String.eqb (Getenv i EnvVarCudaVersion) "")
  && String.eqb (Getenv i EnvVarNvidiaRequireCuda) "".

Definition HasDisableRequire (i : CUDA) : bool :=
  match env i !! EnvVarNvidiaDisableRequire with
  | Some disable => default false (parse_bool disable)
  | None => false
  end.

(** The loop of [devicesFromEnvvars]: whether a variable is set, and the
    non-blank requests. *)
Definition requestedIn (i : CUDA) (envVars : list string) : bool * list string :=
  foldl (fun '(isSet, devices) envVar =>
           match env i !! envVar with
           | Some devs =>
               (true, devices ++ List.filter (fun t => negb (String.eqb t ""))
                                   (map trim_space (split_byte "," devs)))
           | None => (isSet, devices)
           end) (false, []) envVars.

Definition devicesFromEnvvars `{MapRange} (i : CUDA) (envVars : list string) : list string :=
  let '(isSet, devices) := requestedIn i envVars in
  let requested_void := bool_decide ("void" ∈ devices) in
  let devices :=
    if negb isSet && Nat.eqb (length devices) 0 && IsLegacy i then ["all"] else devices in
  let devices :=
    if Nat.eqb (length devices) 0 || requested_void then ["void"] else devices in
  List_of (NewVisibleDevices devices).

Definition GetDriverCapabilities (i : CUDA) : gset string :=
  list_to_set (split_byte "," (Getenv i EnvVarNvidiaDriverCapabilities)).

Definition parseMajorMinorVersion (version : string) : result string :=
  let vVersion := "v" +:+ trim_prefix version "v" in
  if negb (IsValid vVersion) then Err "invalid version string"
  else
    let majorMinor := trim_prefix (MajorMinor vVersion) "v" in
    let parts := split_byte "." majorMinor in
    match parse_uint 32 (default "" (parts !! 0)) with
    | None => Err "invalid major version"
    | Some _ =>
        match parse_uint 32 (default "" (parts !! 1)) with
        | None => Err "invalid minor version"
        | Some _ => Ok majorMinor
        end
    end.

Definition legacyVersion (i : CUDA) : result string :=
  let cudaVersion := Getenv i EnvVarCudaVersion in
  wrap ("invalid CUDA version " +:+ cudaVersion) (parseMajorMinorVersion cudaVersion).

Definition GetRequirements `{MapRange} (i : CUDA) : result (list string) :=
  if HasDisableRequire i then Ok []
  else
    let requirements :=
      map snd (List.filter
        (fun kv => has_prefix kv.1 NvidiaRequirePrefix
                   && negb (has_prefix kv.1 EnvVarNvidiaRequireJetpack))
        (range (env i))) in
    if IsLegacy i then
      let? v := wrap "failed to get version" (legacyVersion i) in
      Ok (requirements ++ ["cuda>=" +:+ v])
    else Ok requirements.

(** [visibleEnvVars]: the preferred variables that are set. *)
Definition visibleEnvVars (i : CUDA) : list string :=
  let envVars := List.filter (HasEnvvar i) (preferredVisibleDeviceEnvVars i) in
  if Nat.ltb 0 (length envVars) then envVars else [EnvVarNvidiaVisibleDevices].

Definition cdiDeviceRequestsFromAnnotations `{MapRange} (i : CUDA) : list string :=
  if Nat.eqb (length (annotationsPrefixes i)) 0 || Nat.eqb (size (annotations i)) 0 then []
  else
    let annotationKeys :=
      List.filter (fun key => existsb (has_prefix key) (annotationsPrefixes i))
        (range (annotations i)).*1 in
    flat_map (fun key => split_byte "," (default "" (annotations i !! key)))
      (sort_strings annotationKeys).

Definition visibleDevicesFromEnvVar `{MapRange} (i : CUDA) : list string :=
  devicesFromEnvvars i (visibleEnvVars i).

(** [cdiDeviceMountRequest.qualifiedName] *)
Definition qualifiedName (m : string) : option (result string) :=
  let invalid := Err ("invalid mount CDI device request: " +:+ m) in
  if negb (has_prefix m volumeMountDevicePrefixCDI) then Some invalid
  else
    let requestedDevice := trim_prefix m volumeMountDevicePrefixCDI in
    qualified ← IsQualifiedName requestedDevice;
    if (qualified : bool) then Some (Ok requestedDevice)
    else
      match splitN 3 "/" requestedDevice with
      | [a; b; c] => Some (Ok (a +:+ "/" +:+ b +:+ "=" +:+ c))
      | _ => Some invalid
      end.

(** The loop of [requestsFromMounts]. *)
Fixpoint requestsFromMounts_loop (root : string) (seen : gset string) (ms : list Mount)
  : list string :=
  match ms with
  | [] => []
  | m :: ms =>
      if negb (String.eqb (clean (Source m)) "/dev/null") then requestsFromMounts_loop root seen ms
      else
        let destination := clean (Destination m) in
        if decide (destination ∈ seen) then requestsFromMounts_loop root seen ms
        else
          let seen := {[destination]} ∪ seen in
          if negb (has_prefix destination root) then requestsFromMounts_loop root seen ms
          else
            let device := trim_byte slash (trim_prefix destination root) in
            if String.eqb device "" then requestsFromMounts_loop root seen ms
            else device :: requestsFromMounts_loop root seen ms
  end.

Definition requestsFromMounts (i : CUDA) : list string :=
  requestsFromMounts_loop (clean DeviceListAsVolumeMountsRoot) ∅ (mounts i).

Fixpoint visibleDevices_of_requests (requests : list string) : option (list string) :=
  match requests with
  | [] => Some []
  | device :: requests =>
      if has_prefix device volumeMountDevicePrefixImex then visibleDevices_of_requests requests
      else if has_prefix device volumeMountDevicePrefixCDI then
        name ← qualifiedName device;
        rest ← visibleDevices_of_requests requests;
        match name with Ok name => Some (name :: rest) | Err _ => Some rest end
      else
        rest ← visibleDevices_of_requests requests;
        Some (device :: rest)
  end.
Definition visibleDevicesFromMounts (i : CUDA) : option (list string) :=
  visibleDevices_of_requests (requestsFromMounts i).

(** [CUDA.VisibleDevices]: annotations, then volume mounts, then environment
    variables when the container may use them. *)
Definition VisibleDevices_of `{MapRange} (i : CUDA) : option (list string) :=
  let annotationDeviceRequests := cdiDeviceRequestsFromAnnotations i in
  if Nat.ltb 0 (length annotationDeviceRequests) then Some annotationDeviceRequests
  else
    volumeMountDeviceRequests ←
      (if acceptDeviceListAsVolumeMounts i then visibleDevicesFromMounts i else Some []);
    if Nat.ltb 0 (length volumeMountDeviceRequests) then Some volumeMountDeviceRequests
    else
      let envVarDeviceRequests := visibleDevicesFromEnvVar i in
      if Nat.eqb (length envVarDeviceRequests) 0 then Some []
      else if isPrivileged i || acceptEnvvarUnprivileged i then Some envVarDeviceRequests
      else Some [].

Fixpoint onlyFullyQualified (hasCDIdevice : bool) (ds : list string) : option bool :=
  match ds with
  | [] => Some hasCDIdevice
  | device :: ds =>
      q ← IsQualifiedName device;
      if (q : bool) then onlyFullyQualified true ds else Some false
  end.
Definition OnlyFullyQualifiedCDIDevices `{MapRange} (i : CUDA) : option bool :=
  ds ← VisibleDevices_of i; onlyFullyQualified false ds.

(** *** IMEX channels *)

Definition imexChannelsFromEnvVar `{MapRange} (i : CUDA) : list string :=
  let imexChannels := devicesFromEnvvars i [EnvVarNvidiaImexChannels] in
  match imexChannels with
  | ["all"] => []
  | _ => imexChannels
  end.

Definition imexChannelsFromMounts (i : CUDA) : list string :=
  map (fun d => trim_prefix d volumeMountDevicePrefixImex)
    (List.filter (fun d => has_prefix d volumeMountDevicePrefixImex) (requestsFromMounts i)).

Definition ImexChannelRequests `{MapRange} (i : CUDA) : list string :=
  if ignoreImexChannelRequests i then []
  else
    let volumeMountDeviceRequests :=
      if acceptDeviceListAsVolumeMounts i then imexChannelsFromMounts i else [] in
    if Nat.ltb 0 (length volumeMountDeviceRequests) then volumeMountDeviceRequests
    else
      let envVarDeviceRequests := imexChannelsFromEnvVar i in
      if Nat.eqb (length envVarDeviceRequests) 0 then []
      else if isPrivileged i || acceptEnvvarUnprivileged i then envVarDeviceRequests
      else [].

(** ** Privileges (privileged.go) *)

Definition capSysAdmin := "CAP_SYS_ADMIN".

Definition OCISpec_GetCapabilities (s : Spec) : list string :=
  match Spec_Process s with
  | None => []
  | Some p => match Capabilities p with None => [] | Some c => Bounding c end
  end.

(** [IsPrivileged]: [None] is the nil interface. *)
Definition IsPrivileged (caps : option (list string)) : bool :=
  match caps with
  | None => false
  | Some cs => existsb (fun c => String.eqb c capSysAdmin) cs
  end.

(** ** The builder (builder.go) *)

Record builder := mkBuilder {
  b_annotations : gmap string string;
  b_env : option (gmap string string);
  b_isPrivileged : bool;
  b_mounts : list Mount;
  b_annotationsPrefixes : list string;
  b_acceptDeviceListAsVolumeMounts : bool;
  b_acceptEnvvarUnprivileged : bool;
  b_ignoreImexChannelRequests : bool;
  b_preferred : list string;
  b_disableRequire : bool;
}.

Inductive Option_ :=
| WithAcceptDeviceListAsVolumeMounts (v : bool)
| WithAcceptEnvvarUnprivileged (v : bool)
| WithAnnotations (a : gmap string string)
| WithAnnotationsPrefixes (ps : list string)
| WithDisableRequire (v : bool)
| WithEnv (env : list string)
| WithEnvMap (env : gmap string string)
| WithIgnoreImexChannelRequests (v : bool)
| WithMounts (ms : list Mount)
| WithPreferredVisibleDevicesEnvVars (vs : list string)
| WithPrivileged (v : bool).

(** The loop of [WithEnv]. *)
Fixpoint env_entries (env : list string) : result (list (string * string)) :=
  match env with
  | [] => Ok []
  | e :: env =>
      match splitN 2 "=" e with
      | [k; v] => let? rest := env_entries env in Ok ((k, v) :: rest)
      | _ => Err ("invalid environment variable: " +:+ e)
      end
  end.

Definition normalize_envvars (vs : list string) : list string :=
  List.filter (fun t => negb (String.eqb t "")) (map trim_space (flat_map (split_byte ",") vs)).

Definition apply_option (o : Option_) (b : builder) : result builder :=
  let '(mkBuilder an ev pr ms ps adl aeu iic pv dr) := b in
  match o with
  | WithAcceptDeviceListAsVolumeMounts v => Ok (mkBuilder an ev pr ms ps v aeu iic pv dr)
  | WithAcceptEnvvarUnprivileged v => Ok (mkBuilder an ev pr ms ps adl v iic pv dr)
  | WithAnnotations a => Ok (mkBuilder a ev pr ms ps adl aeu iic pv dr)
  | WithAnnotationsPrefixes v => Ok (mkBuilder an ev pr ms v adl aeu iic pv dr)
  | WithDisableRequire v => Ok (mkBuilder an ev pr ms ps adl aeu iic pv v)
  | WithEnv v =>
      let? kvs := env_entries v in
      Ok (mkBuilder an (Some (map_of kvs)) pr ms ps adl aeu iic pv dr)
  | WithEnvMap v => Ok (mkBuilder an (Some v) pr ms ps adl aeu iic pv dr)
  | WithIgnoreImexChannelRequests v => Ok (mkBuilder an ev pr ms ps adl aeu v pv dr)
  | WithMounts v => Ok (mkBuilder an ev pr v ps adl aeu iic pv dr)
  | WithPreferredVisibleDevicesEnvVars v =>
      Ok (mkBuilder an ev pr ms ps adl aeu iic (normalize_envvars v) dr)
  | WithPrivileged v => Ok (mkBuilder an ev v ms ps adl aeu iic pv dr)
  end.

Fixpoint apply_options (os : list Option_) (b : builder) : result builder :=
  match os with [] => Ok b | o :: os => let? b := apply_option o b in apply_options os b end.

Definition initial_builder : builder :=
  mkBuilder ∅ None false [] [] false true false [] false.

Definition build (b : builder) : CUDA :=
  let ev := default ∅ (b_env b) in
  let ev := if b_disableRequire b then <[EnvVarNvidiaDisableRequire := "true"]> ev else ev in
  mkCUDA (b_annotations b) ev (b_isPrivileged b) (b_mounts b) (b_annotationsPrefixes b)
    (b_acceptDeviceListAsVolumeMounts b) (b_acceptEnvvarUnprivileged b)
    (b_ignoreImexChannelRequests b) (b_preferred b).

Definition New (opt : list Option_) : result CUDA :=
  let? b := apply_options opt initial_builder in Ok (build b).

Definition NewCUDAImageFromSpec (spec : option Spec) (opts : list Option_) : result CUDA :=
  match spec with
  | None => New opts
  | Some spec =>
      let env := match Spec_Process spec with Some p => Process_Env p | None => [] end in
      New (opts ++
        [ WithAnnotations (Annotations spec);
          WithEnv env;
          WithMounts (Spec_Mounts spec);
          WithPrivileged (IsPrivileged (Some (OCISpec_GetCapabilities spec))) ])
  end.
