(* ===== verification/ImageProps.v ===== *)
(** * CUDA container images: properties

    Theorems about the definitions of [Image]: what the requested device list
    is (duplicates, order, independence of map iteration), where a requested
    device can come from, and the algebra of driver capabilities. *)
From S2P Require Import Prelude.
From S2P Require Import GoStrings.
From S2P Require Import Semver.
From S2P Require Import CDIParser.
From S2P Require Import OCISpec.
From S2P Require Import Image.

(** ** Device lists *)

Section DeviceLists.
  Implicit Types (ids : list string) (id : string) (d : devices).

Definition add_id d id : devices := mkDevices (S (d_len d)) (<[id := d_len d]> (d_lookup d)).

Lemma add_ids_len ids d :
    d_len (foldl add_id d ids) = d_len d + length ids.
Proof. revert d. induction ids as [|id ids IH]; intros d; simpl; [lia|]. rewrite IH. simpl. lia. Qed.

(** The lookup table holds the position of the last occurrence of each id. *)
Lemma add_ids_lookup ids id i :
    d_lookup (foldl add_id (mkDevices 0 ∅) ids) !! id = Some i <->
    ids !! i = Some id /\ id ∉ drop (S i) ids.
Proof.
    revert i. induction ids as [|x ids IH] using rev_ind; intros i.
    - simpl. rewrite lookup_empty, lookup_nil. naive_solver.
    - rewrite foldl_snoc. cbn [add_id d_lookup]. rewrite add_ids_len. simpl.
      destruct (decide (x = id)) as [->|Hne].
      + rewrite lookup_insert_eq. split.
        * intros [= <-]. rewrite lookup_app_r, Nat.sub_diag by lia. split; [done|].
          rewrite drop_ge; [set_solver|]. rewrite length_app. simpl. lia.
        * intros [Hi Hn]. f_equal. apply lookup_lt_Some in Hi as Hlt.
          rewrite length_app in Hlt. simpl in Hlt.
          destruct (decide (i = length ids)) as [->|]; [done|].
          exfalso. apply Hn. rewrite drop_app_le by lia. set_solver.
      + rewrite lookup_insert_ne by done. rewrite IH.
        split; intros [Hi Hn].
        * apply lookup_lt_Some in Hi as Hlt. rewrite lookup_app_l by done. split; [done|].
          rewrite drop_app_le by lia. set_solver.
        * apply lookup_lt_Some in Hi as Hlt. rewrite length_app in Hlt. simpl in Hlt.
          destruct (decide (i = length ids)) as [->|].
          { rewrite lookup_app_r, Nat.sub_diag in Hi by lia. simpl in Hi. congruence. }
          rewrite lookup_app_l in Hi by lia. split; [done|].
          rewrite drop_app_le in Hn by lia. set_solver.
Qed.

(** The assignments [list[i] = id], one per entry. *)
Definition write_all (l : list string) (ps : list (string * nat)) : list string :=
    foldl (fun l p => <[p.2 := p.1]> l) l ps.

Lemma write_all_length ps l : length (write_all l ps) = length l.
Proof.
    unfold write_all. revert l. induction ps as [|p ps IH]; intros l; simpl; [done|].
    by rewrite IH, length_insert.
Qed.

Lemma write_all_other ps l i :
    i ∉ ps.*2 -> write_all l ps !! i = l !! i.
Proof.
    unfold write_all. revert l. induction ps as [|p ps IH]; intros l Hi; simpl; [done|].
    apply not_elem_of_cons in Hi as [Hne Hi]. rewrite IH by done.
    by rewrite list_lookup_insert_ne.
Qed.

Lemma write_all_lookup ps l id i :
    NoDup ps.*2 -> (id, i) ∈ ps -> i < length l -> write_all l ps !! i = Some id.
Proof.
    unfold write_all. revert l. induction ps as [|p ps IH]; intros l Hnd Hin Hlt; simpl.
    - by apply not_elem_of_nil in Hin.
    - inversion Hnd as [|? ? Hp Hnd']; subst. apply elem_of_cons in Hin as [<-|Hin].
      + change (write_all (<[i := id]> l) ps !! i = Some id).
        rewrite write_all_other by done. by apply list_lookup_insert_eq.
      + apply IH; [done..|]. by rewrite length_insert.
Qed.

(** The reference: every id but its last occurrence becomes empty. *)
Fixpoint last_only ids : list string :=
    match ids with
    | [] => []
    | id :: ids => (if decide (id ∈ ids) then "" else id) :: last_only ids
    end.

Lemma last_only_lookup ids i :
    last_only ids !! i =
    (fun id => if decide (id ∈ drop (S i) ids) then "" else id) <$> ids !! i.
Proof.
    revert i. induction ids as [|id ids IH]; intros [|i]; simpl; [done..| |].
    - by rewrite drop_0.
    - apply IH.
Qed.

Lemma last_only_NoDup ids : NoDup ids -> last_only ids = ids.
Proof.
    induction 1 as [|id ids Hid Hnd IH]; simpl; [done|].
    by rewrite decide_False, IH.
Qed.

Lemma last_only_elem ids id : id ∈ ids -> id ∈ last_only ids.
Proof.
    induction ids as [|x ids IH]; simpl; [done|].
    intros [->|Hin]%elem_of_cons; [|set_solver].
    case_decide; [apply elem_of_cons; right; by apply IH | set_solver].
Qed.

Lemma newDevices_add_ids l :
    newDevices l = foldl add_id (mkDevices 0 ∅) (flat_map (split_byte ",") l).
Proof. done. Qed.

Lemma devices_List_last_only rng l :
    (forall m, rng m ≡ₚ map_to_list m) ->
    devices_List rng (newDevices l) = last_only (flat_map (split_byte ",") l).
Proof.
    intros Hrng. rewrite newDevices_add_ids. set (ids := flat_map _ l).
    set (d := foldl add_id (mkDevices 0 ∅) ids).
    assert (d_len d = length ids) as Hlen by (subst d; by rewrite add_ids_len).
    assert (forall id i, (id, i) ∈ rng (d_lookup d) <-> ids !! i = Some id /\ id ∉ drop (S i) ids)
      as Hin by (intros; by rewrite Hrng, elem_of_map_to_list, <- add_ids_lookup).
    assert (NoDup (rng (d_lookup d)).*2) as Hnd.
    { apply NoDup_fmap_2_strong.
      - intros [id1 i1] [id2 i2] H1%Hin H2%Hin. simpl. intros ->. f_equal. naive_solver.
      - rewrite Hrng. apply NoDup_map_to_list. }
    change (write_all (replicate (d_len d) "") (rng (d_lookup d)) = last_only ids).
    apply list_eq. intros i. rewrite last_only_lookup.
    destruct (ids !! i) as [id|] eqn:Hi; simpl.
    - apply lookup_lt_Some in Hi as Hlt. case_decide as Hd.
      + rewrite write_all_other; [by apply lookup_replicate_2; lia|].
        intros ([id' i'] & -> & [Hi' Hd']%Hin)%list_elem_of_fmap. simpl in *. naive_solver.
      + apply write_all_lookup; [done | by apply Hin | rewrite length_replicate; lia].
    - apply lookup_ge_None in Hi. apply lookup_ge_None.
      rewrite write_all_length, length_replicate. lia.
Qed.
End DeviceLists.

(** The list of a [devices] value keeps the requested ids in order, but
    an id that is requested again later leaves an empty string at its earlier
    positions; so without duplicates the list is exactly the request. *)
Theorem newDevices_List `{MapRange} (l : list string) :
  List_of (some_devices (newDevices l)) = last_only (flat_map (split_byte ",") l) /\
  (NoDup (flat_map (split_byte ",") l) ->
   List_of (some_devices (newDevices l)) = flat_map (split_byte ",") l).
Proof.
  assert (List_of (some_devices (newDevices l)) = last_only (flat_map (split_byte ",") l)) as ->
    by apply devices_List_last_only, range_perm.
  split; [done|]. apply last_only_NoDup.
Qed.

Lemma newDevices_List_witness :
  NoDup (flat_map (split_byte ",") ["0,1"; "GPU-2"]) /\
  @List_of map_to_list_range (some_devices (newDevices ["0,1"; "GPU-2"])) = ["0"; "1"; "GPU-2"].
Proof.
  assert (NoDup (flat_map (split_byte ",") ["0,1"; "GPU-2"])) as H.
  { apply (bool_decide_eq_true_1 _). vm_compute. reflexivity. }
  split; [exact H|]. exact (proj2 (@newDevices_List map_to_list_range ["0,1"; "GPU-2"]) H).
Defined.

Example newDevices_List_duplicate :
  @List_of map_to_list_range (NewVisibleDevices ["0"; "0"]) = [""; "0"].
Proof. vm_compute. reflexivity. Qed.

(** ** Order of iteration *)

Lemma List_of_det (R1 R2 : MapRange) l :
  @List_of R1 (NewVisibleDevices l) = @List_of R2 (NewVisibleDevices l).
Proof.
  unfold NewVisibleDevices.
  cut (forall todo, @List_of R1 (NewVisibleDevices_loop l todo) =
                    @List_of R2 (NewVisibleDevices_loop l todo)); [done|].
  intros todo. induction todo as [|e todo IH]; simpl.
  - rewrite !devices_List_last_only by (intros; apply range_perm). done.
  - repeat case_match; done.
Qed.

Lemma devicesFromEnvvars_det (R1 R2 : MapRange) i vs :
  @devicesFromEnvvars R1 i vs = @devicesFromEnvvars R2 i vs.
Proof. unfold devicesFromEnvvars. destruct (requestedIn i vs). apply List_of_det. Qed.

Lemma filter_Permutation_bool {A} (f : A -> bool) l1 l2 :
  l1 ≡ₚ l2 -> List.filter f l1 ≡ₚ List.filter f l2.
Proof.
  induction 1; simpl; repeat case_match; try done; [by constructor|by constructor|by etrans].
Qed.

Lemma annotations_det (R1 R2 : MapRange) i :
  @cdiDeviceRequestsFromAnnotations R1 i = @cdiDeviceRequestsFromAnnotations R2 i.
Proof.
  unfold cdiDeviceRequestsFromAnnotations. case_match; [done|]. f_equal.
  apply sort_strings_unique, filter_Permutation_bool.
  by rewrite (@range_perm R1), (@range_perm R2).
Qed.

(** The visible devices of a container do not depend on the order in
    which Go iterates over the annotations and over the device table. *)
Theorem VisibleDevices_deterministic (R1 R2 : MapRange) (i : CUDA) :
  @VisibleDevices_of R1 i = @VisibleDevices_of R2 i.
Proof.
  unfold VisibleDevices_of, visibleDevicesFromEnvVar.
  by rewrite (annotations_det R1 R2), (devicesFromEnvvars_det R1 R2).
Qed.

(** ** Where a device request comes from *)

Section Provenance.
Context `{MapRange}.
  Implicit Types (i : CUDA) (d : string).

(** A mount of [/dev/null] below the volume-mount root. *)
Definition device_mount (m : Mount) d : Prop :=
    clean (Source m) = "/dev/null" /\
    exists rest, clean (Destination m) = DeviceListAsVolumeMountsRoot +:+ rest /\
                 d = trim_byte slash rest /\ d <> "".

Lemma requestsFromMounts_loop_from root seen ms d :
    d ∈ requestsFromMounts_loop root seen ms ->
    exists m, m ∈ ms /\ clean (Source m) = "/dev/null" /\
      exists rest, clean (Destination m) = root +:+ rest /\ d = trim_byte slash rest /\ d <> "".
Proof.
    revert seen. induction ms as [|m ms IH]; intros seen Hd; simpl in Hd;
      [by apply not_elem_of_nil in Hd|].
    destruct (String.eqb_spec (clean (Source m)) "/dev/null") as [Hs|]; simpl in Hd;
      [|apply IH in Hd as (m' & ? & ?); exists m'; set_solver].
    case_decide; [apply IH in Hd as (m' & ? & ?); exists m'; set_solver|].
    destruct (has_prefix (clean (Destination m)) root) eqn:Hp; simpl in Hd;
      [|apply IH in Hd as (m' & ? & ?); exists m'; set_solver].
    destruct (String.eqb_spec (trim_byte slash (trim_prefix (clean (Destination m)) root)) "")
      as [|Hne]; [apply IH in Hd as (m' & ? & ?); exists m'; set_solver|].
    apply elem_of_cons in Hd as [->|Hd]; [|apply IH in Hd as (m' & ? & ?); exists m'; set_solver].
    exists m. split; [set_solver|]. split; [done|]. eexists. split; [by apply trim_prefix_spec|].
    done.
Qed.

Lemma requestsFromMounts_from i d :
    d ∈ requestsFromMounts i -> exists m, m ∈ mounts i /\ device_mount m d.
Proof.
    intros Hd. apply requestsFromMounts_loop_from in Hd as (m & Hm & Hs & Hr).
    by exists m.
Qed.

(** A request as it appears in the result: plain, or a CDI name. *)
Definition mount_request (r d : string) : Prop :=
    (d = r /\ has_prefix r volumeMountDevicePrefixImex = false) \/
    qualifiedName r = Some (Ok d).

Lemma visibleDevices_of_requests_from rs ds d :
    visibleDevices_of_requests rs = Some ds -> d ∈ ds ->
    exists r, r ∈ rs /\ mount_request r d.
Proof.
    unfold mount_request. revert ds.
    induction rs as [|r rs IH]; intros ds Hds Hd; simpl in Hds; simplify_eq;
      [by apply not_elem_of_nil in Hd|].
    destruct (has_prefix r volumeMountDevicePrefixImex) eqn:Hi.
    { destruct (IH _ Hds Hd) as (r' & ? & ?). exists r'. set_solver. }
    destruct (has_prefix r volumeMountDevicePrefixCDI).
    - destruct (qualifiedName r) as [[name|e]|] eqn:Hq; simpl in Hds; [| |done];
        destruct (visibleDevices_of_requests rs) as [rest|]; simplify_eq/=;
        try (apply elem_of_cons in Hd as [->|Hd]; [exists r; set_solver|]);
        destruct (IH _ eq_refl Hd) as (r' & ? & ?); exists r'; set_solver.
    - destruct (visibleDevices_of_requests rs) as [rest|]; simplify_eq/=.
      apply elem_of_cons in Hd as [->|Hd]; [exists r; set_solver|].
      destruct (IH _ eq_refl Hd) as (r' & ? & ?). exists r'. set_solver.
Qed.

Definition annotation_request i d : Prop :=
    exists k v p, annotations i !! k = Some v /\ p ∈ annotationsPrefixes i /\
      has_prefix k p = true /\ d ∈ split_byte "," v.

Lemma cdiDeviceRequests_from i d :
    d ∈ cdiDeviceRequestsFromAnnotations i -> annotation_request i d.
Proof.
    unfold cdiDeviceRequestsFromAnnotations, annotation_request.
    case_match; [by intros ?%not_elem_of_nil|]. intros Hd.
    apply list_elem_of_In, in_flat_map in Hd as (k & Hk & Hd).
    apply list_elem_of_In in Hk, Hd. rewrite sort_strings_elem in Hk.
    apply list_elem_of_In, filter_In in Hk as [Hk Hp]. apply list_elem_of_In in Hk.
    apply existsb_exists in Hp as (p & Hp & Hkp). apply list_elem_of_In in Hp.
    apply list_elem_of_fmap in Hk as ([k' v] & -> & Hkv). simpl in *.
    apply elem_of_range in Hkv as Hl. rewrite Hl in Hd. simpl in Hd. eauto 10.
Qed.
End Provenance.

(** C22. Every visible device has a source that the configuration allows: an
    annotation under an accepted prefix, a mount of [/dev/null] at a path whose
    text starts with the volume-mount root (a sibling of the root included:
    the code compares text, [device_mount]) when volume mounts are accepted, or
    the environment of
    a container that is privileged or allowed to use it. In particular an
    unprivileged container cannot select devices by environment variable. *)
Theorem VisibleDevices_provenance `{MapRange} (i : CUDA) (ds : list string) (d : string)
  (Hds : VisibleDevices_of i = Some ds) (Hd : d ∈ ds) :
  annotation_request i d \/
  (acceptDeviceListAsVolumeMounts i = true /\
   exists m r, m ∈ mounts i /\ device_mount m r /\ mount_request r d) \/
  ((isPrivileged i = true \/ acceptEnvvarUnprivileged i = true) /\
   d ∈ devicesFromEnvvars i (visibleEnvVars i)).
Proof.
  unfold VisibleDevices_of in Hds.
  case_match; simplify_eq; [left; by apply cdiDeviceRequests_from|].
  apply bind_Some in Hds as (ms & Hms & Hds).
  destruct (Nat.ltb 0 (length ms)) eqn:?; simplify_eq.
  - right; left. destruct (acceptDeviceListAsVolumeMounts i); simplify_eq.
    split; [done|].
    destruct (visibleDevices_of_requests_from _ _ _ Hms Hd) as (r & Hr & Hrd).
    apply requestsFromMounts_from in Hr as (m & ? & ?). eauto.
  - repeat case_match; simplify_eq; try (by apply not_elem_of_nil in Hd);
      right; right; by rewrite <- orb_true_iff.
Qed.

Definition sample_image : CUDA :=
  mkCUDA ∅ {[EnvVarNvidiaVisibleDevices := "3"]} false
    [mkMount "/var/run/nvidia-container-devices//7" "" "/dev/null" []]
    [] true false false [].

Lemma VisibleDevices_provenance_witness :
  @VisibleDevices_of map_to_list_range sample_image = Some ["7"] /\
  (annotation_request sample_image "7" \/
   (acceptDeviceListAsVolumeMounts sample_image = true /\
    exists m r, m ∈ mounts sample_image /\ device_mount m r /\ mount_request r "7") \/
   ((isPrivileged sample_image = true \/ acceptEnvvarUnprivileged sample_image = true) /\
    "7" ∈ @devicesFromEnvvars map_to_list_range sample_image (visibleEnvVars sample_image))).
Proof.
  assert (@VisibleDevices_of map_to_list_range sample_image = Some ["7"]) as Hds
    by (vm_compute; reflexivity).
  split; [exact Hds|].
  exact (@VisibleDevices_provenance map_to_list_range sample_image ["7"] "7" Hds
           (list_elem_of_here "7" [])).
Defined.

(** ** Requests through the environment *)

Section EnvRequests.
Context `{MapRange}.

(** The non-blank parts of the values of the variables that are set. *)
Definition env_requests (i : CUDA) (vs : list string) : list string :=
    flat_map (fun v => match env i !! v with
                       | Some devs => List.filter (fun t => negb (String.eqb t ""))
                                        (map trim_space (split_byte "," devs))
                       | None => []
                       end) vs.

Definition env_isSet (i : CUDA) (vs : list string) : bool := existsb (HasEnvvar i) vs.

(** What the environment asks for: [void] or nothing gives no device, the
      first [all] or [none] decides, and otherwise the ids are listed. *)
Definition env_devices_spec (i : CUDA) (vs : list string) : list string :=
    let ds := env_requests i vs in
    if negb (env_isSet i vs) then (if IsLegacy i then ["all"] else [])
    else if decide (ds = [] \/ "void" ∈ ds) then []
    else match List.find (fun d => String.eqb d "all" || String.eqb d "none") ds with
         | Some d => if String.eqb d "all" then ["all"] else [""]
         | None => last_only (flat_map (split_byte ",") ds)
         end.

Lemma requestedIn_spec i vs : requestedIn i vs = (env_isSet i vs, env_requests i vs).
Proof.
    unfold requestedIn, env_isSet, env_requests.
    cut (forall b ds, foldl (fun '(isSet, devices) envVar =>
           match env i !! envVar with
           | Some devs => (true, devices ++ List.filter (fun t => negb (String.eqb t ""))
                                   (map trim_space (split_byte "," devs)))
           | None => (isSet, devices)
           end) (b, ds) vs = (b || existsb (HasEnvvar i) vs,
             ds ++ env_requests i vs)); [intros Hc; by rewrite Hc|].
    unfold env_requests, HasEnvvar. induction vs as [|v vs IH]; intros b ds; simpl.
    - by rewrite orb_false_r, app_nil_r.
    - destruct (env i !! v) as [devs|]; rewrite IH; simpl.
      + by rewrite orb_true_r, app_assoc.
      + done.
Qed.

Lemma env_requests_unset i vs : env_isSet i vs = false -> env_requests i vs = [].
Proof.
    unfold env_isSet, env_requests, HasEnvvar. induction vs as [|v vs IH]; simpl; [done|].
    intros [Hv Hvs]%orb_false_iff. rewrite IH by done.
    destruct (env i !! v); [done|]. done.
Qed.

Lemma env_requests_nonempty i vs d : d ∈ env_requests i vs -> d <> "".
Proof.
    unfold env_requests. intros Hd. apply list_elem_of_In, in_flat_map in Hd as (v & _ & Hd).
    destruct (env i !! v); [|done]. apply filter_In in Hd as [_ Hd].
    by destruct (String.eqb_spec d "").
Qed.

Lemma NewVisibleDevices_loop_plain l ds :
    (forall d, d ∈ ds -> d <> "" /\ d <> "void") ->
    List_of (NewVisibleDevices_loop l ds) =
    match List.find (fun d => String.eqb d "all" || String.eqb d "none") ds with
    | Some d => if String.eqb d "all" then ["all"] else [""]
    | None => last_only (flat_map (split_byte ",") l)
    end.
Proof.
    induction ds as [|d ds IH]; intros Hds; simpl.
    - apply devices_List_last_only, range_perm.
    - destruct (String.eqb d "all") eqn:Ea; simpl; [by rewrite Ea|].
      destruct (String.eqb d "none") eqn:En; simpl; [by rewrite Ea|].
      destruct (Hds d ltac:(set_solver)) as [H1%String.eqb_neq H2%String.eqb_neq].
      rewrite H1, H2. apply IH. set_solver.
Qed.
End EnvRequests.

(** C39. [devicesFromEnvvars] computes the request of the environment:
    [void], an empty request or (for a non-legacy image) no variable at all
    give no device, an unset variable of a legacy image gives all devices. *)
Theorem devicesFromEnvvars_spec `{MapRange} (i : CUDA) (vs : list string) :
  devicesFromEnvvars i vs = env_devices_spec i vs.
Proof.
  unfold devicesFromEnvvars, env_devices_spec. rewrite requestedIn_spec.
  set (ds := env_requests i vs).
  assert (forall d, d ∈ ds -> d <> "") as Hne by (intros; by eapply env_requests_nonempty).
  destruct (env_isSet i vs) eqn:Hs; simpl.
  - clearbody ds. destruct (decide (ds = [])) as [->|Hnil]; simpl; [done|].
    replace (Nat.eqb (length ds) 0) with false by by destruct ds.
    destruct (decide ("void" ∈ ds)) as [Hv|Hv].
    + rewrite bool_decide_eq_true_2 by done. rewrite decide_True by naive_solver. done.
    + rewrite bool_decide_eq_false_2 by done. rewrite decide_False by naive_solver.
      apply NewVisibleDevices_loop_plain. naive_solver.
  - subst ds. rewrite env_requests_unset by done. simpl. by destruct (IsLegacy i).
Qed.

(** ** Driver capabilities *)

(** [Intersection] is the intersection of what the two sets grant, where
    the capability [all] grants everything. *)
Theorem Caps_Intersection_spec (c s2 : gset string) (x : string) :
  Caps.Has (Caps.Intersection c s2) x = Caps.Has c x && Caps.Has s2 x.
Proof.
  unfold Caps.Intersection, Caps.Has.
  destruct (Caps.IsAll s2) eqn:Hs; [by rewrite andb_true_r|].
  destruct (Caps.IsAll c) eqn:Hc; [by rewrite Hs|].
  unfold Caps.IsAll in *. rewrite bool_decide_eq_false in Hs, Hc.
  rewrite bool_decide_eq_false_2 by set_solver.
  rewrite <- bool_decide_and. apply bool_decide_ext. set_solver.
Qed.

(** [IsSuperset] holds exactly when every capability of the argument is
    granted by the receiver. *)
Theorem Caps_IsSuperset_spec (c s2 : gset string) :
  Caps.IsSuperset c s2 = true <-> (forall x, x ∈ s2 -> Caps.Has c x = true).
Proof.
  unfold Caps.IsSuperset, Caps.Has. destruct (Caps.IsAll c); [done|].
  rewrite forallb_forall. setoid_rewrite <- list_elem_of_In.
  by setoid_rewrite elem_of_elements.
Qed.

Section CapsString.
  Implicit Types (c : gset string).

(** A capability name that survives printing and parsing. *)
Definition cap_name (x : string) : Prop :=
    trim_space x = x /\ x <> "" /\ has_byte "," x = false.

Lemma add_caps_elem l (dc : gset string) x :
    (forall y, y ∈ l -> trim_space y = y /\ y <> "") ->
    x ∈ foldl (fun dc e => let trimmed := trim_space e in
                     if String.eqb trimmed "" then dc else {[trimmed]} ∪ dc) (dc : gset string) l
    <-> x ∈ l \/ x ∈ dc.
Proof.
    revert dc. induction l as [|y l IH]; intros dc Hl; [set_solver|].
    cbn [foldl]. rewrite IH by set_solver.
    destruct (Hl y ltac:(set_solver)) as [-> Hy%String.eqb_neq]. rewrite Hy. set_solver.
Qed.

Lemma NewDriverCapabilities_join l :
    Forall cap_name l -> Caps.NewDriverCapabilities [join "," l] = list_to_set l.
Proof.
    intros Hl. unfold Caps.NewDriverCapabilities. simpl. rewrite app_nil_r.
    destruct l as [|x l]; [vm_compute; reflexivity|].
    rewrite split_join; [|done|eapply Forall_impl; [done|]; by intros ? (_ & _ & ?)].
    apply set_eq. intros y. rewrite add_caps_elem; [set_solver|].
    rewrite Forall_forall in Hl. intros z Hz. by destruct (Hl z Hz) as (? & ? & _).
Qed.
End CapsString.

(** Printing a capability set and parsing the string again grants the
    same capabilities. *)
Theorem Caps_String_roundtrip (c : gset string) (x : string)
  (Hc : forall y, y ∈ c -> cap_name y) :
  Caps.Has (Caps.NewDriverCapabilities [Caps.String c]) x = Caps.Has c x.
Proof.
  unfold Caps.String. destruct (Caps.IsAll c) eqn:Ha.
  - unfold Caps.Has at 2. rewrite Ha. done.
  - rewrite NewDriverCapabilities_join.
    + replace (list_to_set (Caps.List c) : gset string) with c; [done|].
      apply set_eq. intros y. unfold Caps.List.
      by rewrite elem_of_list_to_set, sort_strings_elem, elem_of_elements.
    + apply Forall_forall. intros y. unfold Caps.List.
      rewrite sort_strings_elem, elem_of_elements. apply Hc.
Qed.

Lemma Caps_String_roundtrip_witness :
  Caps.Has (Caps.NewDriverCapabilities [Caps.String ({["video"]} ∪ {["compute"]})]) "video"
  = Caps.Has ({["video"]} ∪ {["compute"]}) "video".
Proof.
  apply Caps_String_roundtrip. intros y [->%elem_of_singleton | ->%elem_of_singleton]%elem_of_union;
    repeat split; vm_compute; congruence.
Defined.

(** ** Environment parsing *)

(** The value of the last entry [key=value] of an environment list. *)
Fixpoint last_binding (env : list string) (key : string) : option string :=
  match env with
  | [] => None
  | e :: env =>
      match last_binding env key with
      | Some v => Some v
      | None => match cut "=" e with
                | Some (k, v) => if String.eqb k key then Some v else None
                | None => None
                end
      end
  end.

Lemma foldl_insert_lookup {V} (kvs : list (string * V)) (m : gmap string V) k :
  foldl (fun m kv => <[kv.1 := kv.2]> m) m kvs !! k =
  match map_of kvs !! k with Some v => Some v | None => m !! k end.
Proof.
  unfold map_of. revert m. induction kvs as [|[k' v'] kvs IH] using rev_ind; intros m; simpl.
  - by rewrite lookup_empty.
  - rewrite !foldl_snoc. simpl. destruct (decide (k' = k)) as [->|].
    + by rewrite !lookup_insert_eq.
    + by rewrite !lookup_insert_ne.
Qed.

Lemma map_of_cons {V} k (v : V) kvs k' :
  map_of ((k, v) :: kvs) !! k' =
  match map_of kvs !! k' with
  | Some v' => Some v'
  | None => if String.eqb k k' then Some v else None
  end.
Proof.
  unfold map_of at 1. simpl. rewrite foldl_insert_lookup.
  destruct (map_of kvs !! k'); [done|].
  destruct (String.eqb_spec k k') as [->|]; [by rewrite lookup_insert_eq|].
  by rewrite lookup_insert_ne.
Qed.

Lemma env_entries_ok env :
  (exists kvs, env_entries env = Ok kvs) <-> Forall (fun e => has_byte "=" e = true) env.
Proof.
  induction env as [|e env IH].
  - split; [constructor|]. intros _. by exists [].
  - cbn [env_entries]. rewrite splitN_2.
    destruct (cut "=" e) as [[k v]|] eqn:Hc.
    + rewrite Forall_cons, <- IH. apply cut_byte_some in Hc as [-> _].
      rewrite has_byte_app. change (has_byte "=" (String "=" v)) with true.
      rewrite orb_true_r. split.
      * intros [kvs Hkvs]. split; [done|]. destruct (env_entries env); simplify_eq/=. by eexists.
      * intros [_ [kvs ->]]. simpl. by eexists.
    + apply cut_byte_none in Hc. rewrite Forall_cons, Hc. split; [by intros [? ?]|naive_solver].
Qed.

Lemma env_entries_last env kvs key :
  env_entries env = Ok kvs -> map_of kvs !! key = last_binding env key.
Proof.
  revert kvs. induction env as [|e env IH]; intros kvs; cbn [env_entries last_binding].
  - intros [= <-]. apply lookup_empty.
  - rewrite splitN_2. destruct (cut "=" e) as [[k v]|]; [|done].
    destruct (env_entries env) as [rest|]; [|done]. intros [= <-].
    rewrite map_of_cons, (IH _ eq_refl). done.
Qed.

(** An image built from an environment list fails exactly when an entry
    has no [=]; otherwise looking a variable up gives the value after the
    first [=] of the last entry with that key. *)
Theorem New_WithEnv_spec (env : list string) :
  (Forall (fun e => has_byte "=" e = true) env <-> exists c, New [WithEnv env] = Ok c) /\
  (forall c key, New [WithEnv env] = Ok c -> Getenv c key = default "" (last_binding env key)).
Proof.
  unfold New. cbn -[env_entries map_of]. rewrite <- env_entries_ok.
  destruct (env_entries env) as [kvs|e] eqn:He; simpl; split.
  - split; eauto.
  - intros c key [= <-]. unfold Getenv. simpl. f_equal. by apply env_entries_last.
  - split; intros [? ?]; done.
  - done.
Qed.

Example New_WithEnv_run :
  (fun c => Getenv c "A") <$> (match New [WithEnv ["A=1"; "B="; "A=2=3"]] with Ok c => Some c | _ => None end)
  = Some "2=3".
Proof. vm_compute. reflexivity. Qed.

(** ** Requirements *)

(** Unless requirements are disabled or a legacy image has an invalid
    CUDA version, the requirements are the values of the [NVIDIA_REQUIRE_]
    variables without the Jetpack ones, in some order, followed for a legacy
    image by the constraint on its CUDA version. *)
Theorem GetRequirements_spec `{MapRange} (i : CUDA) :
  match GetRequirements i with
  | Ok rs =>
      if HasDisableRequire i then rs = []
      else exists vs,
        vs ≡ₚ map snd (List.filter (fun kv => has_prefix kv.1 NvidiaRequirePrefix
                   && negb (has_prefix kv.1 EnvVarNvidiaRequireJetpack)) (map_to_list (env i))) /\
        if IsLegacy i
        then exists v, parseMajorMinorVersion (Getenv i EnvVarCudaVersion) = Ok v /\
                       rs = vs ++ ["cuda>=" +:+ v]
        else rs = vs
  | Err _ =>
      HasDisableRequire i = false /\ IsLegacy i = true /\
      is_ok (parseMajorMinorVersion (Getenv i EnvVarCudaVersion)) = false
  end.
Proof.
  unfold GetRequirements, legacyVersion. destruct (HasDisableRequire i); [done|].
  destruct (IsLegacy i).
  - destruct (parseMajorMinorVersion _) as [v|e]; simpl; [|done].
    eexists. split; [|by exists v].
    by apply fmap_Permutation, filter_Permutation_bool, range_perm.
  - eexists. split; [|done]. by apply fmap_Permutation, filter_Permutation_bool, range_perm.
Qed.

(** ** Volume mounts: what the code accepts beyond its comments *)

(** The root check of volume-mount requests has no separator: a mount of
    [/dev/null] on a sibling such as [/var/run/nvidia-container-devices-x] is
    taken for a request of the device [-x]. *)
Theorem sibling_mount_is_request (i : CUDA) (sfx : string)
  (Hms : mounts i = [mkMount (DeviceListAsVolumeMountsRoot +:+ sfx) "" "/dev/null" []])
  (Hclean : clean (DeviceListAsVolumeMountsRoot +:+ sfx) = DeviceListAsVolumeMountsRoot +:+ sfx)
  (Hsfx : trim_byte slash sfx = sfx /\ sfx <> "") :
  requestsFromMounts i = [sfx].
Proof.
  unfold requestsFromMounts. rewrite Hms. cbn [requestsFromMounts_loop Source Destination].
  replace (clean "/dev/null") with "/dev/null" by (vm_compute; reflexivity).
  replace (clean DeviceListAsVolumeMountsRoot) with DeviceListAsVolumeMountsRoot
    by (vm_compute; reflexivity).
  rewrite Hclean, String.eqb_refl. cbv iota beta zeta delta [negb].
  rewrite decide_False by apply not_elem_of_empty.
  rewrite has_prefix_app, trim_prefix_app. destruct Hsfx as [-> Hne].
  apply String.eqb_neq in Hne as ->. done.
Qed.

Lemma sibling_mount_is_request_witness :
  requestsFromMounts (mkCUDA ∅ ∅ false
    [mkMount "/var/run/nvidia-container-devices-x" "" "/dev/null" []] [] true false false [])
  = ["-x"].
Proof.
  apply sibling_mount_is_request; [reflexivity | vm_compute; reflexivity |].
  split; [vm_compute; reflexivity | congruence].
Defined.

(** A CDI request by volume mount whose vendor is a single letter, such
    as [cdi/v/class=name], does not fail: it panics in the vendored parser. *)
Theorem one_letter_vendor_panics (v : ascii) (class name : string)
  (Hv : is_letter v = true) (Hc : class <> "" /\ has_byte "=" class = false) (Hn : name <> "") :
  qualifiedName (volumeMountDevicePrefixCDI +:+ QualifiedName (String v "") class name) = None.
Proof.
  unfold qualifiedName. rewrite has_prefix_app, trim_prefix_app. cbv iota beta zeta delta [negb].
  destruct Hc as [Hc Hce].
  assert (Ascii.eqb "/" v = false /\ Ascii.eqb "=" v = false) as [Hs He].
  { split; apply Ascii.eqb_neq; by intros <-. }
  assert (ParseDevice (QualifiedName (String v "") class name) = (String v "", class, name)) as Hp.
  { unfold ParseDevice, QualifiedName.
    rewrite eqb_app_ne by done.
    rewrite has_prefix_free; [|by unfold has_byte; cbn [string_any]; rewrite Hs | done].
    simpl (false || _). rewrite splitN_2.
    replace (String v "" +:+ "/" +:+ class +:+ "=" +:+ name)
      with ((String v "" +:+ "/" +:+ class) +:+ String "=" name)
      by (change (String "=" name) with ("=" +:+ name); by rewrite !sapp_assoc).
    rewrite cut_byte_app by (rewrite !has_byte_app, Hce; unfold has_byte; cbn [string_any]; by rewrite He).
    rewrite eqb_app_ne by done. apply String.eqb_neq in Hn as ->. simpl (false || _).
    rewrite ParseQualifier_qualified; [done..|]. unfold has_byte, slash. cbn [string_any].
    by rewrite Hs. }
  unfold IsQualifiedName, ParseQualifiedName. rewrite Hp.
  apply String.eqb_neq in Hc as ->. apply String.eqb_neq in Hn as ->.
  simpl. by rewrite Hv.
Qed.

Lemma one_letter_vendor_panics_witness :
  qualifiedName "cdi/v/gpu=0" = None.
Proof. apply (one_letter_vendor_panics "v" "gpu" "0"); [reflexivity | by split | congruence]. Defined.
