(* ===== verification/Discover.v ===== *)
(** * Discovering devices, mounts and hooks (src/internal/discover)

    A discoverer offers four operations that list entities; it is modelled by
    the results of these operations at one time. Locators and the functions
    that read the host are parameters of the discoverers that use them.
    [WithCache] is the one stateful discoverer: it is a state machine over
    operations of the discoverer that it wraps. *)
From S2P Require Import Prelude GoStrings Glob Lookup.

Record Device := mkDevice { Device_HostPath : string; Device_Path : string }.
Record EnvVar := mkEnvVar { EnvVar_Name : string; EnvVar_Value : string }.
Record Mount := mkMount { Mount_HostPath : string; Mount_Path : string; Mount_Options : list string }.
Record Hook := mkHook {
  Lifecycle : string; Hook_Path : string; Hook_Args : list string; Hook_Env : list string;
}.

Record Discover := mkDiscover {
  Devices : result (list Device);
  EnvVars : result (list EnvVar);
  Mounts : result (list Mount);
  Hooks : result (list Hook);
}.

(** [None] and the trivial discoverers. *)
Definition None_ : Discover := mkDiscover (Ok []) (Ok []) (Ok []) (Ok []).
Definition EnvVar_Discover (e : EnvVar) : Discover := mkDiscover (Ok []) (Ok [e]) (Ok []) (Ok []).
(** A nil hook pointer is a discoverer of nothing. *)
Definition Hook_Hooks (h : option Hook) : list Hook := match h with Some h => [h] | None => [] end.
Definition Hook_Discover (h : option Hook) : Discover := mkDiscover (Ok []) (Ok []) (Ok []) (Ok (Hook_Hooks h)).

(** ** Combining discoverers *)

Definition newline : string := String (ascii_of_N 10) "".
Definition discover_error (what : string) (i : nat) (e : string) : string :=
  "error discovering " +:+ what +:+ " for discoverer " +:+ fmt_nat i +:+ ": " +:+ e.

(** The loop of the four operations of [list]. *)
Fixpoint list_loop {A} (what : string) (get : Discover -> result (list A)) (i : nat) (ds : list Discover)
    (all : list A) : result (list A) :=
  match ds with
  | [] => Ok all
  | d :: ds =>
      match get d with
      | Err e => Err (discover_error what i e)
      | Ok l => list_loop what get (S i) ds (all ++ l)
      end
  end.
Definition list_Discover (ds : list Discover) : Discover :=
  mkDiscover (list_loop "devices" Devices 0 ds []) (list_loop "envs" EnvVars 0 ds [])
    (list_loop "mounts" Mounts 0 ds []) (list_loop "hooks" Hooks 0 ds []).
(** nil discoverers are skipped. *)
Definition Merge (discoverers : list (option Discover)) : Discover := list_Discover (omap id discoverers).

(** The loop of the operations of [firstOf] with the errors of the
    discoverers that failed; joining no error is nil. *)
Fixpoint first_valid_loop {A} (get : Discover -> result (list A)) (ds : list Discover) (errs : list string)
  : result (list A) + list string :=
  match ds with
  | [] => inr errs
  | d :: ds =>
      match get d with
      | Err e => first_valid_loop get ds (errs ++ [e])
      | Ok l => inl (Ok l)
      end
  end.
Definition nil_with_errs {A} (r : result (list A) + list string) : result (list A) :=
  match r with
  | inl r => r
  | inr [] => Ok []
  | inr errs => Err (join newline errs)
  end.
(** [Mounts] returns a nil error where the other operations return the errors. *)
Definition nil_without_errs {A} (r : result (list A) + list string) : result (list A) :=
  match r with inl r => r | inr _ => Ok [] end.
Definition firstOf_Discover (ds : list Discover) : Discover :=
  mkDiscover (nil_with_errs (first_valid_loop Devices ds [])) (nil_with_errs (first_valid_loop EnvVars ds []))
    (nil_without_errs (first_valid_loop Mounts ds [])) (nil_with_errs (first_valid_loop Hooks ds [])).
Definition FirstValid (discoverers : list (option Discover)) : Discover := firstOf_Discover (omap id discoverers).

(** ** Filtering *)

Definition filtered (filter : option (Device -> bool)) (d : Discover) : Discover :=
  mkDiscover
    (let? devices := Devices d in
     Ok match filter with None => devices | Some f => List.filter f devices end)
    (EnvVars d) (Mounts d) (Hooks d).

(** ** The cache *)

(** A slice that may be nil. The wrapped operation takes the state of the
    world and returns the new one: it may answer differently every time. *)
Section Cache.
Context {W A : Type} (op : W -> result (option (list A)) * W).

(** One call of [Devices], [EnvVars], [Hooks] or [Mounts] of a cache whose
    field for it is [cached]. *)
Definition cache_call (cached : option (list A)) (w : W)
  : result (option (list A)) * option (list A) * W :=
  match cached with
  | None =>
      match op w with
      | (Err e, w) => (Err e, None, w)
      | (Ok l, w) => (Ok l, l, w)
      end
  | Some _ => (Ok cached, cached, w)
  end.
End Cache.

(** ** Creating hooks *)

Definition AllHooks : string := "all".
Definition ChmodHook : string := "chmod".
Definition CreateSymlinksHook : string := "create-symlinks".
Definition DisableDeviceNodeModificationHook : string := "disable-device-node-modification".
Definition EnableCudaCompatHook : string := "enable-cuda-compat".
Definition UpdateLDCacheHook : string := "update-ldcache".
Definition defaultNvidiaCDIHookPath : string := "/usr/bin/nvidia-cdi-hook".
Definition defaultDisabledHooks : list string := [ChmodHook].
Definition CreateContainerHook : string := "createContainer".

Definition HookCreator : Type := string -> list string -> option Hook.

Record hookCreatorOptions := mkHookCreatorOptions {
  nvidiaCDIHookPath : string; ldconfigPath : string; disabledHooks : list string;
  enabledHooks : list string; debugLogging : bool;
}.

Inductive Option_ : Type :=
| WithDebugLogging (debugLogging : bool)
| WithDisabledHooks (hooks : list string)
| WithEnabledHooks (hooks : list string)
| WithLdconfigPath (ldconfigPath : string)
| WithNVIDIACDIHookPath (nvidiaCDIHookPath : string).

Definition apply_option (o : hookCreatorOptions) (opt : Option_) : hookCreatorOptions :=
  let '(mkHookCreatorOptions p l d e g) := o in
  match opt with
  | WithDebugLogging g => mkHookCreatorOptions p l d e g
  | WithDisabledHooks hs => mkHookCreatorOptions p l (d ++ hs) e g
  | WithEnabledHooks hs => mkHookCreatorOptions p l d (e ++ hs) g
  | WithLdconfigPath l => mkHookCreatorOptions p l d e g
  | WithNVIDIACDIHookPath p => mkHookCreatorOptions p l d e g
  end.

Record cdiHookCreator := mkCdiHookCreator {
  creator_path : string; creator_ldconfigPath : string; creator_disabledHooks : gmap string bool;
  fixedArgs : list string; creator_debugLogging : bool;
}.

Definition getFixedArgsForCDIHookCLI (nvidiaCDIHookPath : string) : list string :=
  let base := path_base nvidiaCDIHookPath in
  if String.eqb base "nvidia-ctk" then [base; "hook"] else [base].

Definition isDisabled (c : cdiHookCreator) (name : string) (args : list string) : bool :=
  match creator_disabledHooks c !! name with
  | Some disabled => disabled
  | None =>
      if default false (creator_disabledHooks c !! AllHooks) then true
      else if String.eqb name CreateSymlinksHook || String.eqb name ChmodHook
      then match args with [] => true | _ => false end
      else false
  end.

Definition requiredArgs (c : cdiHookCreator) (name : string) : list string := fixedArgs c ++ [name].

Definition flag_args (flag : string) (args : list string) : list string :=
  concat (map (fun a => [flag; a]) args).

Definition transformArgs (c : cdiHookCreator) (name : string) (args : list string) : list string :=
  if String.eqb name CreateSymlinksHook then flag_args "--link" args
  else if String.eqb name ChmodHook then ["--mode"; "755"] ++ flag_args "--path" args
  else if String.eqb name UpdateLDCacheHook then
    (if negb (String.eqb (creator_ldconfigPath c) "") then ["--ldconfig-path"; creator_ldconfigPath c] else [])
    ++ flag_args "--folder" args
  else args.

Definition Create (c : cdiHookCreator) : HookCreator := fun name args =>
  if isDisabled c name args then None
  else Some (mkHook CreateContainerHook (creator_path c) (requiredArgs c name ++ transformArgs c name args)
    ["NVIDIA_CTK_DEBUG=" +:+ fmt_bool (creator_debugLogging c)]).

Definition initial_options : hookCreatorOptions :=
  mkHookCreatorOptions defaultNvidiaCDIHookPath "" [] [] false.

Definition NewHookCreator (opts : list Option_) : HookCreator :=
  let o := foldl apply_option initial_options opts in
  let disabled : gmap string bool :=
    foldl (fun m h => <[h := true]> m) ∅ (disabledHooks o ++ defaultDisabledHooks) in
  if default false (disabled !! AllHooks) && (match enabledHooks o with [] => true | _ => false end)
  then fun _ _ => None
  else
    let disabled := foldl (fun m h => <[h := false]> m) disabled (enabledHooks o) in
    Create (mkCdiHookCreator (nvidiaCDIHookPath o) (ldconfigPath o) disabled
      (getFixedArgsForCDIHookCLI (nvidiaCDIHookPath o)) (debugLogging o)).

(** ** Mounts *)

Definition default_mount_options : list string := ["ro"; "nosuid"; "nodev"; "rbind"; "rprivate"].

Record mounts := mkMounts { lookup_ : option Locator; mounts_root : string; required : list string }.
Definition newMounts (lookup : option Locator) (root : string) (required : list string) : mounts :=
  mkMounts lookup (path_join ["/"; root]) required.

Definition relativeTo (d : mounts) (path : string) : string :=
  if String.eqb (mounts_root d) "/" then path else trim_prefix path (mounts_root d).

(** The mount of a located path. *)
Definition located_mount (d : mounts) (p : string) : Mount :=
  let r := relativeTo d p in
  mkMount p (if String.eqb r "" then p else r) default_mount_options.

(** The loop over the located paths with the paths seen so far. *)
Fixpoint located_loop (d : mounts) (located : list string) (seen : gset string) (acc : list Mount)
  : gset string * list Mount :=
  match located with
  | [] => (seen, acc)
  | p :: ps =>
      if decide (p ∈ seen) then located_loop d ps seen acc
      else located_loop d ps ({[p]} ∪ seen) (acc ++ [located_mount d p])
  end.
Fixpoint mounts_loop (d : mounts) (lookup : Locator) (candidates : list string) (seen : gset string)
    (acc : list Mount) : list Mount :=
  match candidates with
  | [] => acc
  | c :: cs =>
      match lookup c with
      | Failed _ | Found [] => mounts_loop d lookup cs seen acc
      | Found located =>
          let '(seen, acc) := located_loop d located seen acc in mounts_loop d lookup cs seen acc
      end
  end.
Definition mounts_Mounts (d : mounts) : result (list Mount) :=
  match lookup_ d with
  | None => Err "no lookup defined"
  | Some lookup => Ok (mounts_loop d lookup (required d) ∅ [])
  end.
Definition mounts_Discover (d : mounts) : Discover := mkDiscover (Ok []) (Ok []) (mounts_Mounts d) (Ok []).
(** Within one answer of the locators the cache makes no difference. *)
Definition NewMounts (lookup : option Locator) (root : string) (required : list string) : Discover :=
  mounts_Discover (newMounts lookup root required).

(** Character devices are located as mounts. *)
Definition charDevices_Devices (d : mounts) : result (list Device) :=
  let? ms := mounts_Mounts d in
  Ok (map (fun m => mkDevice (Mount_HostPath m) (Mount_Path m)) ms).
Definition charDevices (d : mounts) : Discover := mkDiscover (charDevices_Devices d) (Ok []) (Ok []) (Ok []).
Definition NewCharDeviceDiscoverer `{Host} (devRoot : string) (devices : list string) : Discover :=
  charDevices (newMounts (Some (NewCharDeviceLocator [WithRoot devRoot])) devRoot devices).
