(* ===== verification/DiscoverDriver.v ===== *)
(** * Discoverers for driver files (src/internal/discover)

    The discoverers that are built from locators and hook creators: IPC
    sockets, storage and network devices, library symlinks, the ldcache hook
    and the graphics files and DRM devices. Reading a library's SONAME and
    checking that a symlink exists are parameters. *)
From S2P Require Import Prelude GoStrings Glob Lookup DriverRoot ProcInfo Discover.

(** ** IPC sockets *)

Definition ipcMountOptions : list string := ["nosuid"; "nodev"; "rbind"; "rprivate"; "noexec"].

Definition ipcMounts_Mounts (d : mounts) : result (list Mount) :=
  let? ms := mounts_Mounts d in
  Ok (map (fun m => mkMount (Mount_HostPath m) (Mount_Path m) ipcMountOptions) ms).
Definition ipcMounts (d : mounts) : Discover := mkDiscover (Ok []) (Ok []) (ipcMounts_Mounts d) (Ok []).

Section WithHost.
Context `{Host}.

Definition NewIPCDiscoverer (driverRoot : string) : Discover :=
  let sockets := newMounts
    (Some (NewFileLocator [WithRoot driverRoot; WithSearchPaths ["/run"; "/var/run"]; WithCount 1]))
    driverRoot ["/nvidia-persistenced/socket"; "/nvidia-fabricmanager/socket"] in
  let mps := newMounts (Some (NewFileLocator [WithRoot driverRoot; WithCount 1])) driverRoot ["/tmp/nvidia-mps"] in
  Merge [Some (ipcMounts sockets); Some (ipcMounts mps)].

(** ** Storage and network devices *)

Definition NewGDRCopyDiscoverer (driver : Driver) : Discover :=
  NewCharDeviceDiscoverer (DevRoot driver) ["/dev/gdrdrv"].
Definition NewMOFEDDiscoverer (driver : Driver) : Discover :=
  NewCharDeviceDiscoverer (DevRoot driver) ["/dev/infiniband/uverbs*"; "/dev/infiniband/rdma_cm"].
Definition NewNvSwitchDiscoverer (driver : Driver) : Discover :=
  NewCharDeviceDiscoverer (DevRoot driver) ["/dev/nvidia-nvswitchctl"; "/dev/nvidia-nvswitch*"].

(** The mounts are only discovered when there are devices. *)
Definition gdsDeviceDiscoverer (devices ms : Discover) : Discover :=
  mkDiscover (Devices devices) (Ok [])
    (match Devices devices with Err _ | Ok [] => Ok [] | Ok _ => Mounts ms end) (Ok []).
Definition NewGDSDiscoverer (driver : Driver) : Discover :=
  let devices := NewCharDeviceDiscoverer (DevRoot driver) ["/dev/nvidia-fs*"] in
  let udev := NewMounts (Some (NewDirectoryLocator [WithRoot (Root driver)])) (Root driver) ["/run/udev"] in
  let cufile := NewMounts (Some (NewFileLocator [WithRoot (Root driver)])) (Root driver) ["/etc/cufile.json"] in
  gdsDeviceDiscoverer devices (Merge [Some udev; Some cufile]).
End WithHost.

(** ** Mounts below a container root *)

Fixpoint container_path_loop (locator : Locator) (containerRoot : string) (required : list string)
    (seen : gset string) (acc : list Mount) : result (list Mount) :=
  match required with
  | [] => Ok acc
  | target :: required =>
      if contains target "*" then Err ("wildcard patterns are not supported: " +:+ target)
      else
        match locator target with
        | Failed _ | Found [] => container_path_loop locator containerRoot required seen acc
        | Found (hostPath :: _) =>
            if decide (hostPath ∈ seen) then container_path_loop locator containerRoot required seen acc
            else container_path_loop locator containerRoot required ({[hostPath]} ∪ seen)
              (acc ++ [mkMount hostPath (path_join [containerRoot; target]) default_mount_options])
        end
  end.
Definition mountsToContainerPath (locator : Locator) (required : list string) (containerRoot : string) : Discover :=
  mkDiscover (Ok []) (Ok []) (container_path_loop locator containerRoot required ∅ []) (Ok []).

(** ** CUDA compatibility *)

Record EnableCUDACompatHookOptions := mkCompatOptions {
  HostDriverVersion : string; HostCUDAVersion : string; CUDACompatContainerRoot : string;
}.
Definition compat_args (o : option EnableCUDACompatHookOptions) : list string :=
  match o with
  | None => []
  | Some o =>
      (if negb (String.eqb (HostDriverVersion o) "") && negb (contains (HostDriverVersion o) "*")
       then ["--host-driver-version=" +:+ HostDriverVersion o] else [])
      ++ (if negb (String.eqb (HostCUDAVersion o) "") then ["--host-cuda-version=" +:+ HostCUDAVersion o] else [])
      ++ (if negb (String.eqb (CUDACompatContainerRoot o) "")
          then ["--cuda-compat-container-root=" +:+ CUDACompatContainerRoot o] else [])
  end.
Definition NewCUDACompatHookDiscoverer (hookCreator : HookCreator) (o : option EnableCUDACompatHookOptions)
  : Discover := Hook_Discover (hookCreator EnableCudaCompatHook (compat_args o)).

(** ** The ldcache hook *)

Definition isLibName (filename : string) : bool :=
  let base := path_base filename in
  if negb (matches "lib?*.so*" base) then false
  else
    let parts := split ".so" base in
    match parts with
    | [_] => true
    | _ => let l := default "" (last parts) in String.eqb l "" || has_prefix l "."
    end.
Definition getLibraryPaths (ms : list Mount) : list string :=
  List.filter isLibName (map Mount_Path ms).

(** [filepath.Dir] is never empty; the check is kept. *)
Definition uniqueFolders (libraries : list string) : list string :=
  dedup_by id ∅ (List.filter (fun d => negb (String.eqb d "")) (map path_dir libraries)).

Definition ldconfig_Hooks (mountsFrom : Discover) (hookCreator : HookCreator) : result (list Hook) :=
  let? ms := wrap "failed to discover mounts for ldcache update" (Mounts mountsFrom) in
  Ok (Hook_Hooks (hookCreator UpdateLDCacheHook (uniqueFolders (getLibraryPaths ms)))).
Definition NewLDCacheUpdateHook (mountsFrom : Discover) (hookCreator : HookCreator) : Discover :=
  mkDiscover (Ok []) (Ok []) (Ok []) (ldconfig_Hooks mountsFrom hookCreator).

(** ** Library symlinks *)

Definition Symlink_String (target link : string) : string := target +:+ "::" +:+ link.

(** The file name of the [.so] link: extensions are dropped up to [.so]. *)
Fixpoint getSoLink_fuel (fuel : nat) (soname : string) : string :=
  match fuel with
  | O => ""
  | S fuel =>
      let ext := path_ext soname in
      if String.eqb ext "" then ""
      else if String.eqb ext ".so" then soname
      else getSoLink_fuel fuel (trim_suffix soname ext)
  end.
(** Every step drops at least one byte. *)
Definition getSoLink (soname : string) : string := getSoLink_fuel (S (String.length soname)) soname.

Section Symlinks.
Context (getSoname : string -> result string) (linkExists : string -> result bool).

Definition isDriverLibrary (version libraryName filename : string) : bool :=
  matches (libraryName +:+ "." +:+ version) filename.

Definition getLinksForMount (version path : string) : list string :=
  let '(dir, filename) := path_split path in
  if isDriverLibrary version "libcuda.so" filename
  then [Symlink_String "libcuda.so.1" (path_join [dir; "libcuda.so"])]
  else if isDriverLibrary version "libGLX_nvidia.so" filename
  then [Symlink_String filename (path_join [dir; "libGLX_indirect.so.0"])]
  else if isDriverLibrary version "libnvidia-opticalflow.so" filename
  then [Symlink_String "libnvidia-opticalflow.so.1" (path_join [dir; "libnvidia-opticalflow.so"])]
  else [].

Definition linkExistsInDir (dir link : string) : bool :=
  if String.eqb link "" then false else ok_or false (linkExists (path_join [dir; link])).

Definition getDotSoSymlinks (version hostLibraryPath libraryContainerPath : string) : result (list string) :=
  let hostLibraryDir := path_dir hostLibraryPath in
  let '(containerLibraryDir, libraryName) := path_split libraryContainerPath in
  if negb (isDriverLibrary version "*" libraryName) then Ok []
  else
    let? soname := getSoname hostLibraryPath in
    let l1 := if negb (String.eqb soname libraryName) && linkExistsInDir hostLibraryDir soname
              then [Symlink_String libraryName (path_join [containerLibraryDir; soname])] else [] in
    let soTarget := if String.eqb soname "" then libraryName else soname in
    let soLink := getSoLink soTarget in
    let l2 := if negb (String.eqb soLink soTarget) && linkExistsInDir hostLibraryDir soLink
              then [Symlink_String soTarget (path_join [containerLibraryDir; soLink])] else [] in
    Ok (l1 ++ l2).

(** The links of one mount; an error of the soname is only logged. *)
Definition links_of_mount (version : string) (m : Mount) : list string :=
  getLinksForMount version (Mount_Path m)
  ++ ok_or [] (getDotSoSymlinks version (Mount_HostPath m) (Mount_Path m)).

(** The first mount of a container path counts; every link is added once. *)
Definition symlink_links (version : string) (ms : list Mount) : list string :=
  dedup_by id ∅ (concat (map (links_of_mount version) (dedup_by Mount_Path ∅ ms))).

Definition additionalSymlinks_Hooks (version : string) (d : Discover) (hookCreator : HookCreator)
  : result (list Hook) :=
  let? ms := wrap "failed to get library mounts" (Mounts d) in
  let? hooks := wrap "failed to get hooks" (Hooks d) in
  match symlink_links version ms with
  | [] => Ok hooks
  | links => Ok (hooks ++ Hook_Hooks (hookCreator CreateSymlinksHook links))
  end.
Definition WithDriverDotSoSymlinks (d : Discover) (version : string) (hookCreator : HookCreator) : Discover :=
  let version := if String.eqb version "" then "*.*" else version in
  mkDiscover (Devices d) (EnvVars d) (Mounts d) (additionalSymlinks_Hooks version d hookCreator).
End Symlinks.

(** ** Graphics libraries *)

Definition graphics_isDriverLibrary (filename libraryName : string) : bool :=
  matches (trim_suffix libraryName "." +:+ ".*.*") filename.

Definition graphics_Mounts (d : Discover) : result (list Mount) :=
  let? ms := wrap "failed to get library mounts" (Mounts d) in
  Ok (List.filter (fun m => negb (graphics_isDriverLibrary (path_base (Mount_Path m)) "libnvidia-allocator.so")) ms).

Definition graphics_link (path : string) : option string :=
  let '(dir, filename) := path_split path in
  if graphics_isDriverLibrary filename "libnvidia-allocator.so"
  then Some (Symlink_String "../libnvidia-allocator.so.1" (path_join [dir; "gbm"; "nvidia-drm_gbm.so"]))
  else if graphics_isDriverLibrary filename "libnvidia-vulkan-producer.so"
  then Some (Symlink_String filename (path_join [dir; "libnvidia-vulkan-producer.so"]))
  else if graphics_isDriverLibrary filename "libglxserver_nvidia.so"
  then Some (Symlink_String filename (path_join [dir; "libglxserver_nvidia.so"]))
  else None.

Definition graphics_Hooks (d : Discover) (hookCreator : HookCreator) : result (list Hook) :=
  let? ms := wrap "failed to get library mounts" (Mounts d) in
  match omap (fun m => graphics_link (Mount_Path m)) ms with
  | [] => Ok []
  | links => Ok (Hook_Hooks (hookCreator CreateSymlinksHook links))
  end.
Definition graphicsDriverLibraries (d : Discover) (hookCreator : HookCreator) : Discover :=
  mkDiscover (Devices d) (EnvVars d) (graphics_Mounts d) (graphics_Hooks d hookCreator).

Definition buildXOrgSearchPaths (libRoot : string) : list string :=
  (if negb (String.eqb libRoot "") then
     [ path_join [libRoot; "nvidia/xorg"]; path_join [libRoot; "xorg"; "modules"; "drivers"];
       path_join [libRoot; "xorg"; "modules"; "extensions"];
       path_join [libRoot; "xorg"; "modules/updates"; "drivers"];
       path_join [libRoot; "xorg"; "modules/updates"; "extensions"] ]
   else [])
  ++ concat (map (fun r => [ path_join [r; "modules"; "drivers"]; path_join [r; "modules"; "extensions"];
       path_join [r; "modules/updates"; "drivers"]; path_join [r; "modules/updates"; "extensions"] ])
     ["/usr/lib/xorg"; "/usr/lib64/xorg"; "/usr/X11R6/lib"; "/usr/X11R6/lib64"]).

(** The libraries and the search paths for the driver version and directory. *)
Definition newGraphicsLibrariesDiscoverer `{Host} (libraries : Locator) (driver : Driver)
    (cudaVersionPattern cudaLibRoot : string) (hookCreator : HookCreator) : Discover :=
  let libs := NewMounts (Some libraries) (Root driver)
    [ "libnvidia-egl-gbm.so.*.*"; "libnvidia-egl-wayland.so.*.*"; "libnvidia-egl-wayland2.so.*.*";
      "libnvidia-allocator.so." +:+ cudaVersionPattern;
      "libnvidia-vulkan-producer.so." +:+ cudaVersionPattern ] in
  let xorg := NewMounts
    (Some (NewFileLocator [WithRoot (Root driver); WithSearchPaths (buildXOrgSearchPaths cudaLibRoot); WithCount 1]))
    (Root driver) [ "nvidia_drv.so"; "libglxserver_nvidia.so." +:+ cudaVersionPattern ] in
  graphicsDriverLibraries (Merge [Some libs; Some xorg]) hookCreator.

(** [goarch] is [runtime.GOARCH]. *)
Definition newVulkanConfigsDiscover `{Host} (goarch : string) (driver : Driver) : Discover :=
  let required :=
    ["vulkan/icd.d/nvidia_icd.json"; "vulkan/icd.d/nvidia_layers.json"; "vulkan/implicit_layer.d/nvidia_layers.json"]
    ++ (if String.eqb goarch "amd64" then ["vulkan/icd.d/nvidia_icd.x86_64.json"]
        else if String.eqb goarch "arm64" then ["vulkan/icd.d/nvidia_icd.aarch64.json"] else []) in
  mountsToContainerPath (First [Some (Configs driver); Some (Files driver [])]) required "/etc".

Definition graphics_configs : list string :=
  [ "glvnd/egl_vendor.d/10_nvidia.json"; "egl/egl_external_platform.d/15_nvidia_gbm.json";
    "egl/egl_external_platform.d/10_nvidia_wayland.json"; "egl/egl_external_platform.d/09_nvidia_wayland2.json";
    "nvidia/nvoptix.bin"; "X11/xorg.conf.d/10-nvidia.conf"; "X11/xorg.conf.d/nvidia-drm-outputclass.conf" ].

(** The driver version and library directory are asked for in this order;
    [None] is a panic. *)
Definition NewGraphicsMountsDiscoverer `{Host} (goarch : string) (libraries : Locator) (driver : Driver)
    (hookCreator : HookCreator) : option (result Discover * Driver) :=
  let fail what e := Err ("failed to construct discoverer for graphics libraries: failed to get " +:+ what +:+ ": " +:+ e) in
  match Version libraries driver with
  | None => None
  | Some (Err e, driver) => Some (fail "driver version" e, driver)
  | Some (Ok v, driver) =>
      match GetDriverLibDirectory libraries driver with
      | None => None
      | Some (Err e, driver) => Some (fail "libcuda.so parent directory" e, driver)
      | Some (Ok dir, driver) =>
          Some (Ok (Merge [ Some (newGraphicsLibrariesDiscoverer libraries driver v dir hookCreator);
                            Some (NewMounts (Some (Configs driver)) (Root driver) graphics_configs);
                            Some (newVulkanConfigsDiscover goarch driver) ]), driver)
      end
  end.

(** ** DRM devices *)

(** The by-path links of the devices. A link that cannot be read is ignored,
    and so is a failing locator. *)
Definition getSpecificLinkArgs `{Host} (devRoot : string) (devices : list Device) : list string :=
  let selected := map (fun d => path_base (Device_HostPath d)) devices in
  match NewFileLocator [WithRoot devRoot] "/dev/dri/by-path/pci-*-*" with
  | Failed _ => []
  | Found candidates =>
      omap (fun c => match os_Readlink c with
                     | None => None
                     | Some device => if bool_decide (path_base device ∈ selected)
                                      then Some (Symlink_String device c) else None
                     end) candidates
  end.
Definition drmDevicesByPath_Hooks `{Host} (devRoot : string) (devicesFrom : Discover) (hookCreator : HookCreator)
  : result (list Hook) :=
  let? devices := wrap "failed to discover devices for by-path symlinks" (Devices devicesFrom) in
  match devices with
  | [] => Ok []
  | _ => match getSpecificLinkArgs devRoot devices with
         | [] => Ok []
         | links => Ok (Hook_Hooks (hookCreator CreateSymlinksHook links))
         end
  end.

Section DRMFilter.
Context `{Host} `{HostFiles}.

(** A missing field reads as the empty string. *)
Definition info_field (info : gmap string string) (field : string) : string := default "" (info !! field).
Definition gpu_selected (has : string -> bool) (info : gmap string string) : bool :=
  has (info_field info GPUInfoDeviceMinor) || has (info_field info GPUInfoGPUUUID)
  || has (info_field info GPUInfoBusLocation).

(** The bus ids of the visible GPUs; [has] is [devices.Has]. *)
Fixpoint selected_bus_ids (has : string -> bool) (files : list string) (acc : list string) : result (list string) :=
  match files with
  | [] => Ok acc
  | f :: files =>
      let? info := wrap ("failed to parse " +:+ f) (ParseGPUInformationFile f) in
      selected_bus_ids has files
        (if gpu_selected has info then acc ++ [info_field info GPUInfoBusLocation] else acc)
  end.
Fixpoint bus_nodes (busIDs : list string) (filter : gset string) : result (gset string) :=
  match busIDs with
  | [] => Ok filter
  | b :: bs =>
      let? nodes := wrap ("failed to determine DRM devices for " +:+ b) (GetDeviceNodesByBusID b) in
      bus_nodes bs (filter ∪ list_to_set nodes)
  end.
Definition newDRMDeviceFilter (has : string -> bool) (devRoot : string) : result (gset string) :=
  let? files := wrap "failed to read GPU information" (GetInformationFilePaths devRoot) in
  let? busIDs := selected_bus_ids has files [] in
  bus_nodes busIDs ∅.
Definition DeviceIsSelected (filter : gset string) (d : Device) : bool := bool_decide (Device_Path d ∈ filter).

Definition newDRMDeviceDiscoverer (has : string -> bool) (devRoot : string) : result Discover :=
  let? filter := wrap "failed to construct DRM device filter" (newDRMDeviceFilter has devRoot) in
  Ok (filtered (Some (DeviceIsSelected filter))
    (NewCharDeviceDiscoverer devRoot ["/dev/dri/card*"; "/dev/dri/renderD*"])).
Definition NewDRMNodesDiscoverer (has : string -> bool) (devRoot : string) (hookCreator : HookCreator)
  : result Discover :=
  let? nodes := wrap "failed to create DRM device discoverer" (newDRMDeviceDiscoverer has devRoot) in
  Ok (Merge [Some nodes; Some (mkDiscover (Ok []) (Ok []) (Ok []) (drmDevicesByPath_Hooks devRoot nodes hookCreator))]).
End DRMFilter.

(** [linkExists] of symlinks.go: a name that cannot be read counts as missing. *)
Definition linkExists `{Host} (linkPath : string) : result bool :=
  Ok match os_Lstat linkPath with Some info => IsSymlink info | None => false end.
