(* ===== verification/DiscoverProps.v ===== *)
(** * Properties of the discoverers *)
From S2P Require Import Prelude GoStrings GoPaths Glob Lookup DriverRoot ProcInfo Discover DiscoverDriver.

(** ** Merging *)

Lemma list_loop_ok {A} what (get : Discover -> result (list A)) i ds ls all :
  Forall2 (fun d l => get d = Ok l) ds ls -> list_loop what get i ds all = Ok (all ++ concat ls).
Proof.
  intros H. revert i all. induction H as [|d l ds ls Hd _ IH]; intros i all; simpl.
  - by rewrite app_nil_r.
  - by rewrite Hd, IH, <- app_assoc.
Qed.

Lemma list_loop_err {A} what (get : Discover -> result (list A)) i ds1 ls d e ds2 all :
  Forall2 (fun d l => get d = Ok l) ds1 ls -> get d = Err e ->
  list_loop what get i (ds1 ++ d :: ds2) all = Err (discover_error what (i + length ds1) e).
Proof.
  intros H He. revert i all. induction H as [|d1 l ds1 ls Hd _ IH]; intros i all; simpl.
  - by rewrite He, Nat.add_0_r.
  - rewrite Hd, IH. by rewrite Nat.add_succ_r.
Qed.

(** The mounts of a merged discoverer are the mounts of its parts in order;
    if a part fails, so does the merged discoverer, with the error of the
    first part that fails and its position. *)
Theorem Merge_mounts ds ls :
  Forall2 (fun d l => Mounts d = Ok l) ds ls ->
  Mounts (Merge (map Some ds)) = Ok (concat ls)
  /\ forall d e ds2, Mounts d = Err e ->
       Mounts (Merge (map Some (ds ++ d :: ds2))) = Err (discover_error "mounts" (length ds) e).
Proof.
  assert (Hom : forall l : list Discover, omap id (map Some l) = l).
  { induction l as [|x l IH]; [done|].
    change (omap id (map Some (x :: l))) with (x :: omap id (map Some l)). by rewrite IH. }
  intros H. unfold Merge. rewrite !Hom. split.
  - apply (list_loop_ok "mounts" Mounts 0 ds ls [] H).
  - intros d e ds2 He. rewrite Hom. apply (list_loop_err "mounts" Mounts 0 ds ls d e ds2 [] H He).
Qed.

Lemma first_valid_all_fail {A} (get : Discover -> result (list A)) ds es errs :
  Forall2 (fun d e => get d = Err e) ds es -> first_valid_loop get ds errs = inr (errs ++ es).
Proof.
  intros H. revert errs. induction H as [|d e ds es Hd _ IH]; intros errs; simpl.
  - by rewrite app_nil_r.
  - by rewrite Hd, IH, <- app_assoc.
Qed.

Lemma first_valid_skips {A} (get : Discover -> result (list A)) ds es d l ds2 errs :
  Forall2 (fun d e => get d = Err e) ds es -> get d = Ok l ->
  first_valid_loop get (ds ++ d :: ds2) errs = inl (Ok l).
Proof.
  intros H Hl. revert errs. induction H as [|d1 e ds es Hd _ IH]; intros errs; simpl; [by rewrite Hl|].
  by rewrite Hd, IH.
Qed.

(** A first-valid discoverer returns the result of the first part that
    succeeds. When all parts fail, the devices fail with all errors, but the
    mounts succeed with an empty list: the errors are lost. *)
Theorem FirstValid_hides_mount_errors ds des mes :
  ds <> [] ->
  Forall2 (fun d e => Devices d = Err e) ds des -> Forall2 (fun d e => Mounts d = Err e) ds mes ->
  Devices (firstOf_Discover ds) = Err (join newline des) /\ Mounts (firstOf_Discover ds) = Ok []
  /\ forall d l m ds2, Devices d = Ok l -> Mounts d = Ok m ->
       Devices (firstOf_Discover (ds ++ d :: ds2)) = Ok l /\ Mounts (firstOf_Discover (ds ++ d :: ds2)) = Ok m.
Proof.
  intros Hne Hd Hm. simpl. rewrite (first_valid_all_fail Devices ds des []) by done.
  rewrite (first_valid_all_fail Mounts ds mes []) by done. split; [|split].
  - destruct Hd; [done|]. done.
  - done.
  - intros d l m ds2 Hl Hmm.
    rewrite (first_valid_skips Devices ds des d l) by done.
    by rewrite (first_valid_skips Mounts ds mes d m) by done.
Qed.

(** ** The cache *)

(** A run of calls, with the state of the wrapped discoverer's world. *)
Fixpoint cache_run {W A} (op : W -> result (option (list A)) * W) (n : nat) (c : option (list A)) (w : W)
  : list (result (option (list A))) * option (list A) * W :=
  match n with
  | O => ([], c, w)
  | S n =>
      let '(r, c, w) := cache_call op c w in
      let '(rs, c, w) := cache_run op n c w in
      (r :: rs, c, w)
  end.

(** Once a call of a cached discoverer has returned a non-nil list, all later
    calls return this list and the wrapped discoverer is not called again. *)
Theorem cache_call_once {W A} (op : W -> result (option (list A)) * W) c w l c' w' n w'' :
  cache_call op c w = (Ok (Some l), c', w') ->
  cache_run op n c' w'' = (repeat (Ok (Some l)) n, c', w'').
Proof.
  intros Hc. assert (c' = Some l) as ->.
  { destruct c as [l0|]; simpl in Hc; [by simplify_eq|].
    destruct (op w) as [[o|e] w1]; simplify_eq. done. }
  clear Hc. induction n as [|n IH]; simpl; [done|]. by rewrite IH.
Qed.

(** ** Hook creation *)

Lemma foldl_insert_elem (b : bool) (hs : list string) (m : gmap string bool) k :
  foldl (fun m h => <[h := b]> m) m hs !! k = if decide (k ∈ hs) then Some b else m !! k.
Proof.
  revert m. induction hs as [|h hs IH]; intros m; simpl.
  - done.
  - rewrite IH. destruct (decide (k ∈ hs)) as [Hk|Hk].
    + by rewrite decide_True by (right; done).
    + destruct (decide (k = h)) as [->|Hne].
      * rewrite decide_True by left. by rewrite lookup_insert_eq.
      * rewrite decide_False by (rewrite not_elem_of_cons; done). by rewrite lookup_insert_ne.
Qed.

(** Whether a hook is disabled, from the options. *)
Definition hook_disabled (o : hookCreatorOptions) (name : string) (args : list string) : bool :=
  if bool_decide (name ∈ enabledHooks o) then false
  else if bool_decide (name ∈ disabledHooks o ++ defaultDisabledHooks) then true
  else if bool_decide ("all" ∈ disabledHooks o) && negb (bool_decide ("all" ∈ enabledHooks o)) then true
  else bool_decide (name = "create-symlinks") && bool_decide (args = []).

(** A hook is created unless it is disabled: an enabled hook wins over every
    way of disabling it, also when it has no arguments, then come the hooks
    disabled by name or by default, then disabling all hooks, and last the
    symlink hook without arguments. A created hook runs in the container
    namespace with the configured binary and the arguments of its kind. *)
Theorem NewHookCreator_spec opts name args :
  let o := foldl apply_option initial_options opts in
  NewHookCreator opts name args
  = if hook_disabled o name args then None
    else Some (mkHook "createContainer" (nvidiaCDIHookPath o)
      ((getFixedArgsForCDIHookCLI (nvidiaCDIHookPath o) ++ [name])
       ++ (if String.eqb name "create-symlinks" then flag_args "--link" args
           else if String.eqb name "chmod" then "--mode" :: "755" :: flag_args "--path" args
           else if String.eqb name "update-ldcache" then
             (if String.eqb (ldconfigPath o) "" then [] else ["--ldconfig-path"; ldconfigPath o])
             ++ flag_args "--folder" args
           else args))
      ["NVIDIA_CTK_DEBUG=" +:+ fmt_bool (debugLogging o)]).
Proof.
  cbv zeta. unfold NewHookCreator. set (o := foldl apply_option initial_options opts).
  set (dis := disabledHooks o ++ defaultDisabledHooks).
  assert (Hall : default false (foldl (fun m h => <[h := true]> m) (∅ : gmap string bool) dis !! AllHooks)
    = bool_decide ("all" ∈ disabledHooks o)).
  { rewrite foldl_insert_elem. unfold dis, defaultDisabledHooks. rewrite lookup_empty. simpl.
    destruct (decide _) as [Hin|Hin]; rewrite elem_of_app, list_elem_of_singleton in Hin; simpl.
    - destruct Hin as [?|[=]]. by rewrite bool_decide_eq_true_2.
    - rewrite bool_decide_eq_false_2; [done|naive_solver]. }
  rewrite Hall.
  destruct (bool_decide ("all" ∈ disabledHooks o) && _) eqn:Hno.
  - apply andb_prop in Hno as [Ha He]. destruct (enabledHooks o) eqn:Hen; [|done].
    unfold hook_disabled. rewrite Hen, Ha. rewrite !bool_decide_eq_false_2 by apply not_elem_of_nil. simpl.
    by destruct (bool_decide (name ∈ disabledHooks o ++ defaultDisabledHooks)).
  - unfold Create, isDisabled. cbn [creator_disabledHooks creator_path creator_debugLogging].
    assert (Hd : (match foldl (fun m h => <[h := false]> m) (foldl (fun m h => <[h := true]> m) (∅ : gmap string bool) dis) (enabledHooks o) !! name with
       | Some d => d
       | None => if default false (foldl (fun m h => <[h := false]> m) (foldl (fun m h => <[h := true]> m) (∅ : gmap string bool) dis) (enabledHooks o) !! AllHooks) then true
           else if String.eqb name CreateSymlinksHook || String.eqb name ChmodHook
                then match args with [] => true | _ => false end else false
       end) = hook_disabled o name args).
    { rewrite !(foldl_insert_elem false), !(foldl_insert_elem true), !lookup_empty.
      unfold hook_disabled. fold dis.
      destruct (decide (name ∈ enabledHooks o)) as [He|He];
        [by rewrite (bool_decide_eq_true_2 (name ∈ _))|].
      rewrite (bool_decide_eq_false_2 (name ∈ enabledHooks o)) by done.
      destruct (decide (name ∈ dis)) as [Hi|Hi]; [by rewrite (bool_decide_eq_true_2 (name ∈ dis))|].
      rewrite (bool_decide_eq_false_2 (name ∈ dis)) by done.
      assert (name <> ChmodHook) as Hc.
      { intros ->. apply Hi. unfold dis. apply elem_of_app. right. left. }
      apply String.eqb_neq in Hc. rewrite Hc, orb_false_r.
      assert (Hx : default false (if decide (AllHooks ∈ enabledHooks o) then Some false
          else if decide (AllHooks ∈ dis) then Some true else None)
        = bool_decide ("all" ∈ disabledHooks o) && negb (bool_decide ("all" ∈ enabledHooks o))).
      { rewrite foldl_insert_elem, lookup_empty in Hall. rewrite <- Hall.
        change "all" with AllHooks. destruct (decide (AllHooks ∈ enabledHooks o)) as [Hae|Hae].
        - rewrite (bool_decide_eq_true_2 (AllHooks ∈ enabledHooks o)) by done. by rewrite andb_false_r.
        - rewrite (bool_decide_eq_false_2 (AllHooks ∈ enabledHooks o)) by done. by rewrite andb_true_r. }
      rewrite Hx. destruct (_ && _); [done|].
      destruct (String.eqb_spec name CreateSymlinksHook) as [->|Hn].
      - by destruct args.
      - by rewrite (bool_decide_eq_false_2 (name = "create-symlinks")). }
    rewrite Hd. destruct (hook_disabled o name args); [done|].
    unfold requiredArgs, transformArgs. cbn [fixedArgs creator_ldconfigPath].
    change "create-symlinks" with CreateSymlinksHook. change "chmod" with ChmodHook.
    change "update-ldcache" with UpdateLDCacheHook.
    destruct (String.eqb name CreateSymlinksHook); [done|]. destruct (String.eqb name ChmodHook); [done|].
    destruct (String.eqb name UpdateLDCacheHook); [|done]. by destruct (String.eqb (ldconfigPath o) "").
Qed.

(** ** Mounts *)

Lemma located_loop_spec d located seen acc :
  located_loop d located seen acc
  = (seen ∪ list_to_set located, acc ++ map (located_mount d) (dedup_by id seen located)).
Proof.
  revert seen acc. induction located as [|p ps IH]; intros seen acc; simpl.
  - rewrite app_nil_r. f_equal. set_solver.
  - unfold id. case_decide as Hp; rewrite IH.
    + f_equal. set_solver.
    + rewrite <- app_assoc. f_equal. set_solver.
Qed.

Lemma dedup_by_app {A K} `{Countable K} (key : A -> K) seen l1 l2 :
  dedup_by key seen (l1 ++ l2) = dedup_by key seen l1 ++ dedup_by key (seen ∪ list_to_set (map key l1)) l2.
Proof.
  revert seen. induction l1 as [|x l1 IH]; intros seen; simpl.
  - f_equal. set_solver.
  - case_decide as Hx; rewrite IH; simpl.
    + do 2 f_equal. set_solver.
    + do 3 f_equal. set_solver.
Qed.

(** The paths that the locator finds for the required names. *)
Definition located_paths (lookup : Locator) (required : list string) : list string :=
  concat (map (fun c => match lookup c with Found l => l | Failed _ => [] end) required).

Lemma mounts_loop_spec d lookup cs seen acc :
  mounts_loop d lookup cs seen acc
  = acc ++ map (located_mount d) (dedup_by id seen (located_paths lookup cs)).
Proof.
  unfold located_paths. revert seen acc. induction cs as [|c cs IH]; intros seen acc; simpl.
  - by rewrite app_nil_r.
  - rewrite dedup_by_app, list_fmap_id, map_app, app_assoc.
    destruct (lookup c) as [[|p ps]|e] eqn:E.
    + rewrite IH. simpl. rewrite app_nil_r. do 3 f_equal. set_solver.
    + rewrite located_loop_spec. rewrite IH. done.
    + rewrite IH. simpl. rewrite app_nil_r. do 3 f_equal. set_solver.
Qed.

(** Mount discovery never fails when there is a locator: a name that is not
    found is skipped, and every path that is found is mounted read-only once,
    at the path relative to the root. *)
Theorem mounts_Mounts_spec lookup root required :
  Mounts (NewMounts (Some lookup) root required)
  = Ok (map (located_mount (newMounts (Some lookup) root required))
      (dedup_by id ∅ (located_paths lookup required))).
Proof. unfold NewMounts, mounts_Discover, mounts_Mounts. simpl. by rewrite mounts_loop_spec. Qed.

(** ** The .so link *)

Lemma path_ext_suffix s : path_ext s = "" \/ exists a e, s = a +:+ path_ext s /\ path_ext s = "." +:+ e.
Proof.
  unfold path_ext, path_split. destruct (cut "/" (srev s)) as [[f dd]|] eqn:Hc.
  - cbn [snd]. rewrite srev_involutive.
    change "/" with (String slash "") in Hc. apply cut_byte_some in Hc as [Hs _].
    destruct (cut "." f) as [[e r]|] eqn:Hd; [|by left]. right.
    change "." with (String "." "") in Hd. apply cut_byte_some in Hd as [-> _].
    apply (f_equal srev) in Hs. rewrite srev_involutive, srev_sapp in Hs.
    exists (srev dd +:+ "/" +:+ srev r), (srev e). split; [|done]. rewrite Hs.
    change (String slash dd) with ("/" +:+ dd). change (String "." r) with ("." +:+ r).
    rewrite !srev_sapp. simpl (srev "/"). simpl (srev "."). by rewrite <- !sapp_assoc.
  - cbn [snd]. destruct (cut "." (srev s)) as [[e r]|] eqn:Hd; [|by left]. right.
    change "." with (String "." "") in Hd. apply cut_byte_some in Hd as [Hs _].
    apply (f_equal srev) in Hs. rewrite srev_involutive in Hs.
    exists (srev r), (srev e). split; [|done]. rewrite Hs.
    change (String "." r) with ("." +:+ r). rewrite !srev_sapp. simpl (srev "."). by rewrite <- sapp_assoc.
Qed.

Lemma getSoLink_spec fuel s : String.length s < fuel ->
  getSoLink_fuel fuel s = "" \/
  exists a r, getSoLink_fuel fuel s = a +:+ ".so" /\ s = getSoLink_fuel fuel s +:+ r.
Proof.
  revert s. induction fuel as [|fuel IH]; intros s Hf; [lia|]. simpl.
  destruct (path_ext_suffix s) as [He|(a & e & Hs & He)]; [rewrite He; by left|].
  destruct (String.eqb_spec (path_ext s) ""); [by left|].
  destruct (String.eqb_spec (path_ext s) ".so") as [Hso|Hso].
  - right. exists a, "". split; [by rewrite <- Hso|by rewrite sapp_nil_r].
  - assert (Ht : trim_suffix s (path_ext s) = a) by (rewrite Hs at 1; apply trim_suffix_app).
    rewrite Ht. destruct (IH a) as [H|(b & r & H1 & H2)].
    + rewrite Hs, He, !slength_app in Hf. simpl in Hf. lia.
    + by left.
    + right. exists b, (r +:+ path_ext s). split; [done|]. by rewrite sapp_assoc, <- H2.
Qed.

(** The name of the [.so] link of a library is a prefix of the library's name
    that ends in [.so], or empty if there is none; dropping extensions ends. *)
Theorem getSoLink_prefix s :
  getSoLink s = "" \/ exists a r, getSoLink s = a +:+ ".so" /\ s = getSoLink s +:+ r.
Proof. apply getSoLink_spec. lia. Qed.

(** ** Driver library links *)

Lemma dedup_by_keeps_key {A K} `{Countable K} (key : A -> K) l x : x ∈ l ->
  exists y, y ∈ dedup_by key ∅ l /\ key y = key x.
Proof.
  intros Hx. assert (Hk : key x ∈ map key (dedup_by key ∅ l)).
  { rewrite dedup_by_elem. split; [by apply list_elem_of_fmap_2|set_solver]. }
  apply list_elem_of_fmap in Hk as (y & Hy & Hin). by exists y.
Qed.

Lemma string_all_app2 f a b : string_all f (a +:+ b) = string_all f a && string_all f b.
Proof. induction a as [|c a IH]; simpl; [done|]. by rewrite IH, andb_assoc. Qed.

(** Every mounted [libcuda.so] of the driver version gets a
    [libcuda.so -> libcuda.so.1] link next to it, and no link is requested
    twice. *)
Theorem symlink_links_libcuda getSoname linkExists version ms m ds :
  string_all plain_char version = true -> has_byte slash version = false ->
  Forall proper ds -> m ∈ ms -> Mount_Path m = abs_path (ds ++ ["libcuda.so." +:+ version]) ->
  Symlink_String "libcuda.so.1" (abs_path (ds ++ ["libcuda.so"])) ∈ symlink_links getSoname linkExists version ms
  /\ NoDup (symlink_links getSoname linkExists version ms).
Proof.
  intros Hplain Hs Hds Hm Hp. split; [|].
  - unfold symlink_links. apply dedup_by_same.
    destruct (dedup_by_keeps_key Mount_Path ms m Hm) as (y & Hy & Hpath). rewrite Hp in Hpath.
    apply list_elem_of_In, in_concat. exists (links_of_mount getSoname linkExists version y).
    split; [apply in_map; by apply list_elem_of_In|]. apply list_elem_of_In.
    unfold links_of_mount. apply elem_of_app. left. unfold getLinksForMount. rewrite Hpath.
    assert (Hfree : has_byte slash ("libcuda.so." +:+ version) = false) by by rewrite has_byte_app.
    rewrite path_split_abs by done.
    assert (isDriverLibrary version "libcuda.so" ("libcuda.so." +:+ version) = true) as ->.
    { unfold isDriverLibrary. apply matches_plain; [|done].
      rewrite !string_all_app2. by rewrite Hplain. }
    replace (path_join [if decide (ds = []) then "/" else abs_path ds +:+ "/"; "libcuda.so"])
      with (abs_path (ds ++ ["libcuda.so"])); [left|].
    case_decide as Hd; [by subst|]. symmetry.
    change (path_join [abs_path ds +:+ "/"; "libcuda.so"])
      with (clean ((abs_path ds +:+ "/") +:+ String slash "libcuda.so")).
    rewrite <- sapp_assoc. change ("/" +:+ String slash "libcuda.so") with (String slash "/libcuda.so").
    change (clean (abs_path ds +:+ String slash "/libcuda.so")) with (path_join [abs_path ds; "/libcuda.so"]).
    rewrite path_join_abs; [done|done|].
    constructor; [by left|]. constructor; [right; evaluate|constructor].
  - unfold symlink_links. pose proof (dedup_by_NoDup (@id string) ∅
      (concat (map (links_of_mount getSoname linkExists version) (dedup_by Mount_Path ∅ ms)))) as Hnd.
    by rewrite list_fmap_id in Hnd.
Qed.

(** ** DRM devices *)

Section DRM.
Context `{Host} `{HostFiles}.

Lemma selected_bus_ids_spec has files acc ids : selected_bus_ids has files acc = Ok ids ->
  forall b, b ∈ ids <-> b ∈ acc \/ exists f i, f ∈ files /\ ParseGPUInformationFile f = Ok i
    /\ b = info_field i GPUInfoBusLocation /\ gpu_selected has i = true.
Proof.
  revert acc. induction files as [|f files IH]; intros acc; cbn [selected_bus_ids].
  - intros [= <-] b. split; [by left|]. intros [?|(f & i & Hin & _)]; [done|by apply not_elem_of_nil in Hin].
  - destruct (ParseGPUInformationFile f) as [i|e] eqn:Hp; cbn [wrap rbind]; [|done]. intros He b.
    rewrite (IH _ He). split.
    + intros [Hb|(f' & i' & Hin & Hrest)]; [|right; exists f', i'; split; [by right|done]].
      destruct (gpu_selected has i) eqn:Hs; [|by left].
      apply elem_of_app in Hb as [Hb|Hb%list_elem_of_singleton]; [by left|].
      right. exists f, i. split; [by left|done].
    + intros [Hb|(f' & i' & Hin & Hp' & -> & Hs)].
      { left. destruct (gpu_selected has i); [|done]. apply elem_of_app. by left. }
      apply elem_of_cons in Hin as [->|Hin]; [|right; by exists f', i'].
      rewrite Hp in Hp'. injection Hp' as <-. left. rewrite Hs. apply elem_of_app. right. by left.
Qed.

Lemma bus_nodes_spec ids acc f : bus_nodes ids acc = Ok f ->
  forall d, d ∈ f <-> d ∈ acc \/ exists b ns, b ∈ ids /\ GetDeviceNodesByBusID b = Ok ns /\ d ∈ ns.
Proof.
  revert acc. induction ids as [|b ids IH]; intros acc; cbn [bus_nodes].
  - intros [= <-] d. split; [by left|]. intros [?|(b & ns & Hin & _)]; [done|by apply not_elem_of_nil in Hin].
  - destruct (GetDeviceNodesByBusID b) as [ns|e] eqn:Hb; cbn [wrap rbind]; [|done]. intros He d. rewrite (IH _ He).
    rewrite elem_of_union, elem_of_list_to_set. split.
    + intros [[?|?]|(b' & ns' & Hin & Hn & Hd)]; [by left| |].
      * right. exists b, ns. split; [left|done].
      * right. exists b', ns'. split; [by right|done].
    + intros [?|(b' & ns' & Hin & Hn & Hd)]; [by left; left|].
      apply elem_of_cons in Hin as [->|Hin]; [|right; by exists b', ns'].
      left. right. rewrite Hb in Hn. by injection Hn as ->.
Qed.

(** A DRM device node is injected exactly when it belongs to the PCI device of
    a GPU whose information file shows that it is visible by minor number,
    UUID or bus id. *)
Theorem newDRMDeviceFilter_spec has devRoot filter files d :
  newDRMDeviceFilter has devRoot = Ok filter -> GetInformationFilePaths devRoot = Ok files ->
  DeviceIsSelected filter d = true <->
  exists f i ns, f ∈ files /\ ParseGPUInformationFile f = Ok i /\ gpu_selected has i = true
    /\ GetDeviceNodesByBusID (info_field i GPUInfoBusLocation) = Ok ns /\ Device_Path d ∈ ns.
Proof.
  intros Hf Hi. unfold newDRMDeviceFilter in Hf. rewrite Hi in Hf. cbn [wrap rbind] in Hf.
  destruct (selected_bus_ids has files []) as [ids|e] eqn:Hids; cbn [rbind] in Hf; [|done].
  unfold DeviceIsSelected. rewrite bool_decide_eq_true, (bus_nodes_spec _ _ _ Hf).
  pose proof (selected_bus_ids_spec _ _ _ _ Hids) as Hb. split.
  - intros [[]%not_elem_of_empty|(b & ns & Hin & Hn & Hd)].
    apply Hb in Hin as [[]%not_elem_of_nil|(f & i & Hin & Hp & -> & Hs)]. by exists f, i, ns.
  - intros (f & i & ns & Hin & Hp & Hs & Hn & Hd). right. exists (info_field i GPUInfoBusLocation), ns.
    split; [|done]. apply Hb. right. by exists f, i.
Qed.
End DRM.

(** ** Instances *)

Lemma cache_call_once_witness :
  cache_run (fun n : nat => (Ok (Some [n]), S n)) 3 (Some [7]) 9 = (repeat (Ok (Some [7])) 3, Some [7], 9).
Proof. apply (cache_call_once (fun n : nat => (Ok (Some [n]), S n)) None 7 [7] (Some [7]) 8). reflexivity. Defined.

Definition failing : Discover := mkDiscover (Err "d") (Err "e") (Err "m") (Err "h").

Lemma FirstValid_hides_mount_errors_witness :
  Devices (firstOf_Discover [failing]) = Err "d" /\ Mounts (firstOf_Discover [failing]) = Ok [].
Proof.
  destruct (FirstValid_hides_mount_errors [failing] ["d"] ["m"]) as (H1 & H2 & _);
    [done|by repeat constructor|by repeat constructor|]. by split.
Defined.

Lemma Merge_mounts_witness : Mounts (Merge (map Some [None_; None_])) = Ok [].
Proof. apply (Merge_mounts [None_; None_] [[]; []]). by repeat constructor. Defined.

Lemma symlink_links_libcuda_witness :
  Symlink_String "libcuda.so.1" "/usr/lib/libcuda.so"
  ∈ symlink_links (fun _ => Err "") (fun _ => Ok false) "550.54"
      [mkMount "/usr/lib/libcuda.so.550.54" "/usr/lib/libcuda.so.550.54" []].
Proof.
  apply (symlink_links_libcuda (fun _ => Err "") (fun _ => Ok false) "550.54" _
    (mkMount "/usr/lib/libcuda.so.550.54" "/usr/lib/libcuda.so.550.54" []) ["usr"; "lib"]).
  - reflexivity.
  - reflexivity.
  - evaluate.
  - left.
  - reflexivity.
Defined.

Definition gpu_host : Host := {|
  os_Stat := fun _ => None; os_Lstat := fun _ => None; os_Readlink := fun _ => None; EvalSymlinks := Some;
  filepath_Glob := fun p => if String.eqb p "/proc/driver/nvidia/gpus/*/information"
    then ["/proc/driver/nvidia/gpus/0000:06:00.0/information"]
    else if String.eqb p "/sys/bus/pci/devices/0000:06:00.0/drm/*"
    then ["/sys/bus/pci/devices/0000:06:00.0/drm/card1"; "/sys/bus/pci/devices/0000:06:00.0/drm/renderD128"] else [];
  filepath_Abs := Some; os_LookupEnv := fun _ => None |}.
Definition gpu_files : HostFiles := {| os_ReadFile := fun _ =>
  Some ("GPU UUID: 	 GPU-1" +:+ newline +:+ "Bus Location: 	 0000:06:00.0" +:+ newline +:+ "Device Minor: 	 0");
  os_ReadError := fun _ => NotExist; os_ReadDir := fun _ => None |}.
Lemma newDRMDeviceFilter_spec_witness :
  exists filter, @newDRMDeviceFilter gpu_host gpu_files (String.eqb "0") "/" = Ok filter
  /\ DeviceIsSelected filter (mkDevice "/dev/dri/card1" "/dev/dri/card1") = true.
Proof.
  eexists. split; [vm_compute; reflexivity|].
  eapply (@newDRMDeviceFilter_spec gpu_host gpu_files (String.eqb "0") "/" _
    ["/proc/driver/nvidia/gpus/0000:06:00.0/information"]); [vm_compute; reflexivity..|].
  eexists _, _, _. split; [left|]. split; [reflexivity|]. split; [vm_compute; reflexivity|].
  split; [vm_compute; reflexivity|]. left.
Defined.
