(* ===== verification/Edits.v ===== *)
(** * From discovered entities to CDI container edits (src/internal/edits)

    [DeviceFromPath] is the libcontainer function that reads a device node;
    it is a parameter. Its error is replaced by a minimal device node. *)
From S2P Require Import Prelude GoStrings CDISpec Discover.

(** What is read of a device node. *)
Record DeviceInfo := mkDeviceInfo {
  info_Major : Z; info_Minor : Z; info_FileMode : Z; info_Permissions : string; info_Gid : Z;
}.

Definition ptrIfNonZero (id : Z) : option Z := if Z.eqb id 0 then None else Some id.

Definition isWorldReadable (m : Z) : bool := negb (Z.eqb (Z.land m 4) 0).
Definition isWorldWriteable (m : Z) : bool := negb (Z.eqb (Z.land m 2) 0).
(** [fs.FileMode.Perm] *)
Definition mode_perm (m : Z) : Z := Z.land m 511.

Section Edits.
Context (DeviceFromPath : string -> option DeviceInfo) (noAdditionalGIDs : bool).

Definition fromPathOrDefault (d : Discover.Device) : DeviceNode :=
  let path := if String.eqb (Device_HostPath d) "" then Device_Path d else Device_HostPath d in
  match DeviceFromPath path with
  | None => mkDeviceNode (Device_Path d) (Device_HostPath d) "" 0 0 None "" None None
  | Some dn =>
      mkDeviceNode (Device_Path d) (Device_HostPath d) "" (info_Major dn) (info_Minor dn)
        (ptrIfNonZero (info_FileMode dn)) (info_Permissions dn) None (ptrIfNonZero (info_Gid dn))
  end.

(** The host path is cleared when it equals the path. *)
Definition device_toSpec (d : Discover.Device) : DeviceNode :=
  let s := fromPathOrDefault d in
  if String.eqb (HostPath s) (Device_Path d)
  then mkDeviceNode (Path s) "" (Type_ s) (Major s) (Minor s) (FileMode s) (Permissions s) (UID s) (GID s)
  else s.

Definition getAdditionalGIDs (dn : DeviceNode) : list Z :=
  if noAdditionalGIDs then []
  else
    match GID dn with
    | None => []
    | Some gid =>
        if Z.eqb gid 0 then []
        else
          match FileMode dn with
          | None => []
          | Some mode =>
              if isWorldReadable (mode_perm mode) && isWorldWriteable (mode_perm mode) then []
              else [gid]
          end
    end.

Definition device_toEdits (d : Discover.Device) : edits :=
  let deviceNode := device_toSpec d in
  mkEdits [] [deviceNode] [] [] [] None (getAdditionalGIDs deviceNode).

Definition envvar_toEdits (d : EnvVar) : edits :=
  mkEdits [EnvVar_Name d +:+ "=" +:+ EnvVar_Value d] [] [] [] [] None [].

Definition mount_toSpec (d : Discover.Mount) : CDISpec.Mount :=
  CDISpec.mkMount (Discover.Mount_HostPath d) (Mount_Path d) (Mount_Options d) "".
Definition mount_toEdits (d : Discover.Mount) : edits := mkEdits [] [] [] [] [mount_toSpec d] None [].

Definition hook_toSpec (d : Discover.Hook) : CDISpec.Hook :=
  CDISpec.mkHook (Lifecycle d) (Discover.Hook_Path d) (Discover.Hook_Args d) (Discover.Hook_Env d) None.
Definition hook_toEdits (d : Discover.Hook) : edits := mkEdits [] [] [] [hook_toSpec d] [] None [].

(** [EmptyFactory.New] *)
Definition empty_New : edits := no_edits.

Definition append_all {A} (toEdits : A -> edits) (l : list A) (c : edits) : edits :=
  foldl (fun c x => Append c (toEdits x)) c l.

(** [factory.FromDiscoverer] *)
Definition FromDiscoverer (d : Discover) : result edits :=
  let? devices := wrap "failed to discover devices" (Discover.Devices d) in
  let? envs := wrap "failed to discover environment variables" (EnvVars d) in
  let? mounts := wrap "failed to discover mounts" (Discover.Mounts d) in
  let? hooks := wrap "failed to discover hooks" (Discover.Hooks d) in
  Ok (append_all hook_toEdits hooks (append_all mount_toEdits mounts
    (append_all envvar_toEdits envs (append_all device_toEdits devices empty_New)))).

(** [empty.FromDiscoverer] *)
Definition empty_FromDiscoverer (_ : Discover) : result edits := Ok empty_New.

(** ** Properties *)

Lemma append_all_proj {A B} (toEdits : A -> edits) (proj : edits -> list B) l c :
  (forall a b, proj (Append a b) = proj a ++ proj b) ->
  proj (append_all toEdits l c) = proj c ++ concat (map (fun x => proj (toEdits x)) l).
Proof.
  intros Hp. unfold append_all. revert c. induction l as [|x l IH]; intros c; simpl.
  - by rewrite app_nil_r.
  - by rewrite IH, Hp, <- app_assoc.
Qed.

Lemma append_all_IntelRdt {A} (toEdits : A -> edits) l c :
  (forall x, IntelRdt_ (toEdits x) = None) -> IntelRdt_ (append_all toEdits l c) = IntelRdt_ c.
Proof.
  intros Hp. unfold append_all. revert c. induction l as [|x l IH]; intros c; [done|].
  simpl. rewrite IH. simpl. by rewrite Hp.
Qed.

Lemma concat_nil {A B} (l : list A) : concat (map (fun _ => @nil B) l) = [].
Proof. by induction l. Qed.
Lemma concat_single {A B} (f : A -> B) l : concat (map (fun x => [f x]) l) = map f l.
Proof. induction l as [|x l IH]; simpl; [done|]. by rewrite IH. Qed.

Lemma edits_eq (e : edits) a b c f g i j :
  CDISpec.Env e = a -> CDISpec.DeviceNodes e = b -> CDISpec.NetDevices e = c -> CDISpec.Hooks e = f ->
  CDISpec.Mounts e = g -> IntelRdt_ e = i -> AdditionalGIDs e = j -> e = mkEdits a b c f g i j.
Proof. destruct e. simpl. by intros -> -> -> -> -> -> ->. Qed.

(** The edits of a discoverer hold exactly its entities, each converted by
    itself and in the order of discovery, with the group ids of the devices;
    an error of any of the four discoveries is reported and nothing is
    returned. *)
Theorem FromDiscoverer_spec d :
  (forall ds es ms hs,
    Discover.Devices d = Ok ds -> EnvVars d = Ok es -> Discover.Mounts d = Ok ms -> Discover.Hooks d = Ok hs ->
    FromDiscoverer d = Ok (mkEdits (map (fun e => EnvVar_Name e +:+ "=" +:+ EnvVar_Value e) es)
      (map device_toSpec ds) [] (map hook_toSpec hs) (map mount_toSpec ms) None
      (concat (map (fun x => getAdditionalGIDs (device_toSpec x)) ds))))
  /\ (is_ok (FromDiscoverer d)
      = is_ok (Discover.Devices d) && is_ok (EnvVars d) && is_ok (Discover.Mounts d) && is_ok (Discover.Hooks d)).
Proof.
  unfold FromDiscoverer. split.
  - intros ds es ms hs -> -> -> ->. cbn [wrap rbind]. f_equal.
    apply edits_eq; [| | | | |rewrite !append_all_IntelRdt; done|].
    all: rewrite !append_all_proj by done; simpl; by rewrite ?concat_nil, ?concat_single, ?app_nil_r.
  - by destruct (Discover.Devices d), (EnvVars d), (Discover.Mounts d), (Discover.Hooks d).
Qed.

(** A device node is recorded under its path, and under its host path only if
    that differs; its group becomes an additional group of the container
    exactly when the group is not root and the mode is known and does not let
    everybody read and write. *)
Theorem device_toEdits_spec d :
  let dn := device_toSpec d in
  Path dn = Device_Path d
  /\ HostPath dn = (if String.eqb (Device_HostPath d) (Device_Path d) then "" else Device_HostPath d)
  /\ (forall g, g ∈ AdditionalGIDs (device_toEdits d) <->
      noAdditionalGIDs = false /\ exists i,
        DeviceFromPath (if String.eqb (Device_HostPath d) "" then Device_Path d else Device_HostPath d) = Some i
        /\ g = info_Gid i /\ g <> 0%Z /\ info_FileMode i <> 0%Z
        /\ (Z.land (info_FileMode i) 4 = 0%Z \/ Z.land (info_FileMode i) 2 = 0%Z)).
Proof.
  cbv zeta. unfold device_toEdits. simpl AdditionalGIDs.
  assert (HG : GID (device_toSpec d) = GID (fromPathOrDefault d)
    /\ FileMode (device_toSpec d) = FileMode (fromPathOrDefault d)
    /\ Path (device_toSpec d) = Path (fromPathOrDefault d)
    /\ HostPath (device_toSpec d) = if String.eqb (HostPath (fromPathOrDefault d)) (Device_Path d) then ""
         else HostPath (fromPathOrDefault d)).
  { unfold device_toSpec. by destruct (String.eqb _ _). }
  destruct HG as (HG & HF & HP & HH). rewrite HP, HH. unfold getAdditionalGIDs. rewrite HG, HF.
  assert (Hperm : forall m b, Z.land (mode_perm m) b = Z.land m (Z.land 511 b)).
  { intros m b. unfold mode_perm. by rewrite Z.land_assoc. }
  unfold isWorldReadable, isWorldWriteable. unfold fromPathOrDefault.
  destruct (DeviceFromPath _) as [i|]; simpl; (split; [done|split; [done|]]); intros g.
  - unfold ptrIfNonZero. destruct noAdditionalGIDs; [split; [by intros []%not_elem_of_nil|by intros [[=] _]]|].
    destruct (Z.eqb_spec (info_Gid i) 0) as [Hg|Hg].
    { split; [by intros []%not_elem_of_nil|]. intros (_ & i' & [= <-] & -> & ? & _). done. }
    destruct (Z.eqb_spec (info_Gid i) 0); [done|].
    destruct (Z.eqb_spec (info_FileMode i) 0) as [Hm|Hm].
    { split; [by intros []%not_elem_of_nil|]. intros (_ & i' & [= <-] & _ & _ & ? & _). done. }
    rewrite !Hperm. change (Z.land 511 4) with 4%Z. change (Z.land 511 2) with 2%Z.
    destruct (Z.eqb_spec (Z.land (info_FileMode i) 4) 0), (Z.eqb_spec (Z.land (info_FileMode i) 2) 0); simpl;
      rewrite ?list_elem_of_singleton; split; try (intros ->; split; [done|]; exists i; naive_solver);
      try (intros (_ & i' & [= <-] & -> & _); done).
    + by intros []%not_elem_of_nil.
    + intros (_ & i' & [= <-] & _ & _ & _ & [?|?]); done.
  - split; [|by intros (_ & i & [=] & _)]. destruct noAdditionalGIDs; by intros []%not_elem_of_nil.
Qed.
End Edits.
