(* ===== verification/Requirements.v ===== *)
(** * Requirement constraints

    [internal/requirements] and [internal/requirements/constraints]: the
    language of [NVIDIA_REQUIRE_*] variables. A requirement is a disjunction
    (spaces) of conjunctions (commas) of comparisons of a property with a
    value; properties of the host are versions (cuda, arch, driver) or strings
    (brand). The second half relates the constraint objects that the factory
    builds to what the requirement strings mean. *)
From S2P Require Import Prelude.
From S2P Require Import GoStrings.
From S2P Require Import Semver.

(** ** Properties (property.go) *)

Inductive Property :=
| stringProperty (name value : string)
| versionProperty (name value : string).

Definition Name (p : Property) : string :=
  match p with stringProperty n _ | versionProperty n _ => n end.
Definition Value (p : Property) : string :=
  match p with stringProperty _ v | versionProperty _ v => v end.
Definition Property_String (p : Property) : string := Name p +:+ "=" +:+ Value p.

Definition ensurePrefix (s prefix : string) : string := prefix +:+ trim_prefix s prefix.

Definition Validate (p : Property) (value : string) : result unit :=
  match p with
  | stringProperty _ _ => Ok ()
  | versionProperty _ _ =>
      if IsValid (ensurePrefix value "v") then Ok ()
      else Err ("invailid value " +:+ value +:+ "; expected a valid version string")
  end.

Definition CompareTo (p : Property) (other : string) : result Z :=
  match p with
  | stringProperty _ value =>
      Ok (if sltb value other then -1 else if sltb other value then 1 else 0)%Z
  | versionProperty name value =>
      let? _ := wrap ("invailid value for " +:+ name) (Validate p other) in
      Ok (Compare (ensurePrefix value "v") (ensurePrefix other "v"))
  end.

#[local] Set Warnings "-register-all".

(** ** Constraints (binary.go, logical.go, constants.go) *)

Inductive Constraint :=
| always
| binary (left_ : option Property) (operator right_ : string)
| and_ (operands : list Constraint)
| or_ (operands : list Constraint).

Fixpoint Constraint_String (c : Constraint) : string :=
  match c with
  | always => "true"
  | binary left_ op right_ =>
      match left_ with Some p => Name p | None => "" end +:+ op +:+ right_
  | and_ cs => join "&&" (map Constraint_String cs)
  | or_ cs => join "||" (map Constraint_String cs)
  end.

(** [binary.eval] *)
Definition eval (left_ : option Property) (operator right_ : string) : result bool :=
  match left_ with
  | None => Ok true
  | Some p =>
      let? compare := CompareTo p right_ in
      if String.eqb operator "=" then Ok (compare =? 0)%Z
      else if String.eqb operator "!=" then Ok (negb (compare =? 0)%Z)
      else if String.eqb operator "<" then Ok (compare <? 0)%Z
      else if String.eqb operator "<=" then Ok (compare <=? 0)%Z
      else if String.eqb operator ">" then Ok (0 <? compare)%Z
      else if String.eqb operator ">=" then Ok (0 <=? compare)%Z
      else Err ("invalid operator " +:+ operator)
  end.

(** [Assert]: [and] stops at the first error, [or] at the first success. *)
Fixpoint Assert (c : Constraint) : result unit :=
  match c with
  | always => Ok ()
  | binary left_ op right_ =>
      let? satisfied := eval left_ op right_ in
      if (satisfied : bool) then Ok ()
      else Err ("unsatisfied condition: " +:+ Constraint_String c +:+ " (" +:+
                match left_ with Some p => Property_String p | None => "" end +:+ ")")
  | and_ cs =>
      (fix go l := match l with
                   | [] => Ok ()
                   | o :: l => match Assert o with Ok _ => go l | Err e => Err e end
                   end) cs
  | or_ cs =>
      (fix go l := match l with
                   | [] => Err (Constraint_String c +:+ " not met")
                   | o :: l => match Assert o with Ok _ => Ok () | Err _ => go l end
                   end) cs
  end.

Definition AND (cs : list Constraint) : Constraint :=
  match cs with [] => always | [c] => c | _ => and_ cs end.

(** [None] is the nil constraint. *)
Definition OR (cs : list Constraint) : option Constraint :=
  match cs with [] => None | [c] => Some c | _ => Some (or_ cs) end.

(** ** The factory (factory.go) *)

Definition is_blank (s : string) : bool := String.eqb (trim_space s) "".

Definition op_char (c : ascii) : bool :=
  Ascii.eqb c "<" || Ascii.eqb c ">" || Ascii.eqb c "=" || Ascii.eqb c "!".

Definition operators : list string := ["!="; "<="; ">="; "="; "<"; ">"].

Section Factory.
Context (properties : gmap string Property).

Definition parse (condition : string) : result (option Constraint) :=
    if is_blank condition then Ok None
    else
      match index_any op_char condition with
      | None => Err ("invalid constraint: " +:+ condition)
      | Some propertyEnd =>
          let property := stake propertyEnd condition in
          let condition := trim_prefix condition property in
          match properties !! property with
          | None => Ok None
          | Some p =>
              let op := default "" (List.find (has_prefix condition) operators) in
              let value := trim_prefix condition op in
              let? _ := Validate p value in
              Ok (Some (binary (Some p) op value))
          end
      end.

(** The inner loop over the factors of a term. *)
Fixpoint parse_factors (fs : list string) : result (list Constraint) :=
    match fs with
    | [] => Ok []
    | factor :: fs =>
        let? f := parse factor in
        let? rest := parse_factors fs in
        Ok (match f with Some f => f :: rest | None => rest end)
    end.

Fixpoint parse_terms (ts : list string) : result (list Constraint) :=
    match ts with
    | [] => Ok []
    | term :: ts =>
        let? factors := parse_factors (split_byte "," term) in
        let? rest := parse_terms ts in
        Ok (match factors with
            | [] => rest
            | [f] => f :: rest
            | _ => and_ factors :: rest
            end)
    end.

Definition newConstraintFromRequirement (requirement : string) : result (option Constraint) :=
    if is_blank requirement then Ok None
    else let? terms := parse_terms (split_byte " " requirement) in Ok (OR terms).

Fixpoint parse_requirements (rs : list string) : result (list Constraint) :=
    match rs with
    | [] => Ok []
    | r :: rs =>
        let? c := newConstraintFromRequirement r in
        let? rest := parse_requirements rs in
        Ok (match c with Some c => c :: rest | None => rest end)
    end.

Definition New (requirements : list string) : result Constraint :=
    match requirements with
    | [] => Ok always
    | _ => let? cs := parse_requirements requirements in Ok (AND cs)
    end.
End Factory.

(** ** Requirements (requirements.go) *)

Abbreviation constraints_New := New.
Abbreviation constraints_Assert := Assert.

Module Req.

Record Requirements := mkRequirements {
  requirements : list string;
  properties : gmap string Property;
}.

Definition ARCH := "arch".
Definition BRAND := "brand".
Definition CUDA := "cuda".
Definition DRIVER := "driver".

Definition New (requirements : list string) : Requirements :=
  mkRequirements requirements
    (<[CUDA := versionProperty CUDA ""]>
     (<[ARCH := versionProperty ARCH ""]>
      (<[DRIVER := versionProperty DRIVER ""]>
       (<[BRAND := stringProperty BRAND ""]> ∅)))).

Definition AddVersionProperty (name value : string) (r : Requirements) : Requirements :=
  mkRequirements (requirements r) (<[name := versionProperty name value]> (properties r)).
Definition AddStringProperty (name value : string) (r : Requirements) : Requirements :=
  mkRequirements (requirements r) (<[name := stringProperty name value]> (properties r)).

Definition Assert (r : Requirements) : result unit :=
  match requirements r with
  | [] => Ok ()
  | _ => let? c := constraints_New (properties r) (requirements r) in constraints_Assert c
  end.

End Req.
