(* ===== verification/RequirementsProps.v ===== *)
(** * Requirement constraints: properties *)
From S2P Require Import Prelude.
From S2P Require Import GoStrings.
From S2P Require Import Semver.
From S2P Require Import Requirements.

(** ** Assertion of logical operators *)

Lemma Assert_and cs : Assert (and_ cs) = Ok () <-> Forall (fun c => Assert c = Ok ()) cs.
Proof.
  simpl. induction cs as [|c cs IH]; [done|].
  rewrite Forall_cons, <- IH. destruct (Assert c) as [[]|e]; naive_solver.
Qed.

Lemma Assert_or cs : Assert (or_ cs) = Ok () <-> Exists (fun c => Assert c = Ok ()) cs.
Proof.
  cbn [Assert]. generalize (Constraint_String (or_ cs) +:+ " not met") as msg. intros msg.
  induction cs as [|c cs IH]; [by rewrite Exists_nil|].
  rewrite Exists_cons, <- IH. destruct (Assert c) as [[]|e]; naive_solver.
Qed.

Lemma Assert_AND cs : Assert (AND cs) = Ok () <-> Forall (fun c => Assert c = Ok ()) cs.
Proof.
  destruct cs as [|c [|c' cs]]; [done| |apply Assert_and].
  rewrite Forall_singleton. done.
Qed.

Lemma Assert_OR cs c :
  OR cs = Some c -> Assert c = Ok () <-> Exists (fun c => Assert c = Ok ()) cs.
Proof.
  destruct cs as [|c1 [|c2 cs]]; simpl; intros [= <-].
  - rewrite Exists_cons, Exists_nil. tauto.
  - apply Assert_or.
Qed.

(** ** What requirement strings mean *)

Section Meaning.
Context (props : gmap string Property).

(** The comparisons of a term that concern a known property. *)
Definition factors (term : string) : list Constraint :=
    omap (fun f => match parse props f with Ok c => c | Err _ => None end) (split_byte "," term).

(** The terms of a requirement that have such a comparison. *)
Definition terms (r : string) : list (list Constraint) :=
    List.filter (fun t => negb (Nat.eqb (length t) 0)) (map factors (split_byte " " r)).

(** A requirement is met when it says nothing about the known properties or
      when all comparisons of one of its terms are met. *)
Definition met (r : string) : Prop :=
    is_blank r = true \/ terms r = [] \/
    exists t, t ∈ terms r /\ forall c, c ∈ t -> Assert c = Ok ().

Lemma parse_factors_ok fs cs :
    parse_factors props fs = Ok cs ->
    cs = omap (fun f => match parse props f with Ok c => c | Err _ => None end) fs.
Proof.
    revert cs. induction fs as [|f fs IH]; intros cs; simpl; [by intros [= <-]|].
    destruct (parse props f) as [c|]; simpl; [|done].
    destruct (parse_factors props fs) as [rest|]; simpl; [|done].
    intros [= <-]. rewrite (IH _ eq_refl). by destruct c.
Qed.

(** The constraint that a non-empty term becomes. *)
Definition term_constraint (t : list Constraint) : Constraint :=
    match t with [f] => f | _ => and_ t end.

Lemma Assert_term_constraint t :
    Assert (term_constraint t) = Ok () <-> forall c, c ∈ t -> Assert c = Ok ().
Proof.
    rewrite <- Forall_forall.
    destruct t as [|c [|c' t]]; [done| |apply Assert_and].
    by rewrite Forall_singleton.
Qed.

Lemma parse_terms_ok ts cs :
    parse_terms props ts = Ok cs ->
    cs = map term_constraint
           (List.filter (fun t => negb (Nat.eqb (length t) 0)) (map factors ts)).
Proof.
    revert cs. induction ts as [|t ts IH]; intros cs; simpl; [by intros [= <-]|].
    destruct (parse_factors props _) as [fs|] eqn:Hf; simpl; [|done].
    apply parse_factors_ok in Hf.
    destruct (parse_terms props ts) as [rest|]; simpl; [|done].
    intros [= <-]. rewrite (IH _ eq_refl). fold (factors t) in Hf. rewrite <- Hf.
    by destruct fs as [|f [|f' fs]].
Qed.

Lemma newConstraint_met r c :
    newConstraintFromRequirement props r = Ok c ->
    match c with Some c => Assert c = Ok () | None => True end <-> met r.
Proof.
    unfold newConstraintFromRequirement, met. destruct (is_blank r).
    { intros [= <-]. split; auto. }
    destruct (parse_terms props _) as [cs|] eqn:Hts; simpl; [|done].
    apply parse_terms_ok in Hts. fold (terms r) in Hts. intros [= <-].
    destruct (OR cs) as [c|] eqn:Hor.
    - rewrite (Assert_OR _ _ Hor), Hts, Exists_exists.
      setoid_rewrite list_elem_of_fmap. split.
      + intros (x & (t & -> & Ht) & Hx). right; right. exists t.
        by rewrite <- Assert_term_constraint.
      + intros [?|[Hnil|(t & Ht & Hall)]]; [done| |].
        * rewrite Hnil in Hts. by subst cs.
        * eexists. split; [by exists t|]. by apply Assert_term_constraint.
    - destruct cs as [|? [|? ?]]; try done. split; [|done]. intros _.
      right; left. by destruct (terms r).
Qed.

Lemma parse_requirements_met rs cs :
    parse_requirements props rs = Ok cs ->
    Forall (fun c => Assert c = Ok ()) cs <-> forall r, r ∈ rs -> met r.
Proof.
    revert cs. induction rs as [|r rs IH]; intros cs; simpl.
    { intros [= <-]. split; [by intros _ ? ?%not_elem_of_nil|constructor]. }
    destruct (newConstraintFromRequirement props r) as [c|] eqn:Hc; simpl; [|done].
    destruct (parse_requirements props rs) as [rest|]; simpl; [|done].
    intros [= <-]. specialize (IH _ eq_refl). apply newConstraint_met in Hc.
    setoid_rewrite elem_of_cons. destruct c as [c|]; rewrite ?Forall_cons, IH; naive_solver.
Qed.

(** The value after the operator. *)
Definition compared_value (rest : string) : string :=
    trim_prefix rest (default "" (List.find (has_prefix rest) operators)).

(** A comparison that the factory rejects: no operator, or a value that is
      not a version where a version is compared. *)
Definition malformed (factor : string) : Prop :=
    is_blank factor = false /\
    match index_any op_char factor with
    | None => True
    | Some n => exists p, props !! stake n factor = Some p /\
        is_ok (Validate p (compared_value (trim_prefix factor (stake n factor)))) = false
    end.

Lemma parse_err f : is_ok (parse props f) = false <-> malformed f.
Proof.
    unfold parse, malformed. destruct (is_blank f); [naive_solver|].
    destruct (index_any op_char f) as [n|]; [|simpl; tauto]. cbn zeta.
    destruct (props !! stake n f) as [p|] eqn:Hp.
    - fold (compared_value (trim_prefix f (stake n f))).
      destruct (Validate p _) eqn:Hv; simpl.
      + split; [done|]. intros (_ & p' & [= <-] & H). by rewrite Hv in H.
      + split; [|done]. intros _. split; [done|]. exists p. by rewrite Hv.
    - split; [done|]. by intros (_ & p & ? & _).
Qed.

Lemma parse_factors_err fs :
    is_ok (parse_factors props fs) = false <-> exists f, f ∈ fs /\ malformed f.
Proof.
    setoid_rewrite <- parse_err. induction fs as [|f fs IH]; simpl.
    - split; [done|]. by intros (? & ?%not_elem_of_nil & _).
    - setoid_rewrite elem_of_cons. destruct (parse props f) eqn:Hf; simpl.
      + destruct (parse_factors props fs); simpl in *.
        * split; [done|]. intros (f' & [->|Hin] & He); [by rewrite Hf in He|]. apply IH. eauto.
        * split; [|done]. intros _. destruct (proj1 IH eq_refl) as (f' & ? & ?). eauto.
      + split; [|done]. intros _. exists f. rewrite Hf. eauto.
Qed.

Lemma parse_terms_err ts :
    is_ok (parse_terms props ts) = false <->
    exists t f, t ∈ ts /\ f ∈ split_byte "," t /\ malformed f.
Proof.
    induction ts as [|t ts IH]; simpl.
    - split; [done|]. by intros (? & ? & ?%not_elem_of_nil & _).
    - pose proof (parse_factors_err (split_byte "," t)) as Hfe.
      setoid_rewrite elem_of_cons. destruct (parse_factors props _); simpl in *.
      + destruct (parse_terms props ts); simpl in *.
        * split; [done|]. intros (t' & f & [->|Ht] & Hf & Hm); [apply Hfe; eauto|].
          apply IH. eauto.
        * split; [|done]. intros _. destruct (proj1 IH eq_refl) as (? & ? & ? & ? & ?). eauto 6.
      + split; [|done]. intros _. destruct (proj1 Hfe eq_refl) as (? & ? & ?). eauto 6.
Qed.

Lemma parse_requirements_err rs :
    is_ok (parse_requirements props rs) = false <->
    exists r t f, r ∈ rs /\ is_blank r = false /\ t ∈ split_byte " " r /\
                  f ∈ split_byte "," t /\ malformed f.
Proof.
    induction rs as [|r rs IH]; simpl.
    - split; [done|]. by intros (? & ? & ? & ?%not_elem_of_nil & _).
    - setoid_rewrite elem_of_cons. unfold newConstraintFromRequirement.
      pose proof (parse_terms_err (split_byte " " r)) as Hte.
      destruct (is_blank r) eqn:Hb; simpl.
      + destruct (parse_requirements props rs); simpl in *; naive_solver.
      + destruct (parse_terms props _); simpl in *;
          [destruct (parse_requirements props rs); simpl in *|]; naive_solver.
Qed.
End Meaning.

(** C37. Requirements are conjunctions of disjunctions of conjunctions: when
    the constraint is built, it is satisfied exactly when every requirement
    string is met. *)
Theorem New_Assert_met (props : gmap string Property) (rs : list string) (c : Constraint)
  (Hc : New props rs = Ok c) :
  Assert c = Ok () <-> forall r, r ∈ rs -> met props r.
Proof.
  destruct rs as [|r rs].
  - injection Hc as <-. split; [by intros _ ? ?%not_elem_of_nil|done].
  - unfold New in Hc. destruct (parse_requirements props (r :: rs)) as [cs|] eqn:Hr;
      simpl in Hc; [|done]. injection Hc as <-.
    rewrite Assert_AND. by apply parse_requirements_met.
Qed.

Definition sample_props : gmap string Property :=
  {[ "cuda" := versionProperty "cuda" "11.4" ]}.

Lemma New_Assert_met_witness :
  exists c, New sample_props ["cuda>=11.6 cuda>=11.0,cuda<12"] = Ok c /\
  (Assert c = Ok () <->
   forall r, r ∈ ["cuda>=11.6 cuda>=11.0,cuda<12"] -> met sample_props r).
Proof.
  eexists. split; [vm_compute; reflexivity|].
  apply (New_Assert_met sample_props). vm_compute. reflexivity.
Defined.

(** Building the constraint fails exactly when a requirement that is not
    blank has a malformed comparison: contrary to the comment of
    [newConstraintFromRequirement], invalid constraints are not ignored. *)
Theorem New_fails_iff_malformed (props : gmap string Property) (rs : list string) :
  is_ok (New props rs) = false <->
  exists r t f, r ∈ rs /\ is_blank r = false /\ t ∈ split_byte " " r /\
                f ∈ split_byte "," t /\ malformed props f.
Proof.
  rewrite <- parse_requirements_err. destruct rs as [|r rs]; [done|].
  unfold New. by destruct (parse_requirements props (r :: rs)).
Qed.

(** ** Version comparisons are numeric *)

Definition op_holds (op : string) (c : comparison) : Prop :=
  match op, c with
  | "=", Eq | "!=", Lt | "!=", Gt | "<", Lt | "<=", Lt | "<=", Eq
  | ">", Gt | ">=", Gt | ">=", Eq => True
  | _, _ => False
  end.

Lemma eval_op op z c :
  op ∈ operators -> z = sgn_of c ->
  (if String.eqb op "=" then Ok (z =? 0)%Z
   else if String.eqb op "!=" then Ok (negb (z =? 0)%Z)
   else if String.eqb op "<" then Ok (z <? 0)%Z
   else if String.eqb op "<=" then Ok (z <=? 0)%Z
   else if String.eqb op ">" then Ok (0 <? z)%Z
   else if String.eqb op ">=" then Ok (0 <=? z)%Z
   else Err ("invalid operator " +:+ op)) = Ok true <-> op_holds op c.
Proof.
  intros Hop ->. unfold operators in Hop. rewrite !elem_of_cons in Hop.
  destruct Hop as [->|[->|[->|[->|[->|[->|Hop]]]]]]; [..|by apply not_elem_of_nil in Hop];
    destruct c; vm_compute; (split; [by intros|by intros]) || done.
Qed.

(** C38. A version comparison between releases holds exactly when it holds
    for the numeric order of (major, minor, patch): 11.10 is above 11.9. *)
Theorem version_requirement_numeric (name value op other : string) (pv pw : parsed)
  (Hop : op ∈ operators)
  (Hv : Semver.parse (ensurePrefix value "v") = Some pv)
  (Hw : Semver.parse (ensurePrefix other "v") = Some pw)
  (Hpre : p_prerelease pv = "" /\ p_prerelease pw = "") :
  Assert (binary (Some (versionProperty name value)) op other) = Ok () <->
  op_holds op (cmp_release (release_of pv) (release_of pw)).
Proof.
  destruct Hpre as [Hpv Hpw].
  rewrite <- (eval_op op _ _ Hop (Compare_release _ _ _ _ Hv Hw Hpv Hpw)).
  cbn [Assert eval CompareTo Validate]. unfold IsValid. rewrite Hw. cbn [wrap rbind].
  destruct (if String.eqb op "=" then _ else _) as [[]|]; simpl; naive_solver.
Qed.

Lemma version_requirement_numeric_witness :
  Assert (binary (Some (versionProperty "cuda" "11.10")) ">=" "11.9") = Ok () <->
  op_holds ">=" (cmp_release (11, 10, 0)%Z (11, 9, 0)%Z).
Proof.
  apply (version_requirement_numeric "cuda" "11.10" ">=" "11.9"
           (mkParsed "11" "10" "0" ".0" "" "") (mkParsed "11" "9" "0" ".0" "" "")).
  - apply (bool_decide_eq_true_1 _). vm_compute. reflexivity.
  - vm_compute. reflexivity.
  - vm_compute. reflexivity.
  - split; reflexivity.
Defined.
