(* ===== verification/Config.v ===== *)
(** * The toolkit configuration (src/api/config/v1)

    The typed configuration with its defaults (config.go, cli.go, runtime.go,
    hook.go, features.go), its validity check and the resolution of paths of
    executables. Decoding the TOML file into a configuration is the work of a
    library and a parameter; toml.go, which edits and saves the TOML tree of
    that library, is in CtkConfig.v. *)
From S2P Require Import Prelude GoStrings Lookup ProcInfo Image.

Record ContainerCLIConfig := mkCLIConfig {
  CLI_Root : string; CLI_Path : string; Environment : list string; Debug : string; Ldcache : string;
  LoadKmods : bool; NoPivot : bool; NoCgroups : bool; CLI_User : string; Ldconfig : string;
}.
Record CTKConfig := mkCTKConfig { CTK_Path : string }.
Record cdiModeConfig := mkCDIModeConfig {
  SpecDirs : list string; DefaultKind : string; AnnotationPrefixes : list string;
}.
Record csvModeConfig := mkCSVModeConfig { MountSpecPath : string; CompatContainerRoot : string }.
Record modesConfig := mkModesConfig {
  Modes_CSV : csvModeConfig; Modes_CDI : cdiModeConfig; NVCDIFeatureFlags : list string; CUDACompatMode : string;
}.
Record RuntimeConfig := mkRuntimeConfig {
  DebugFilePath : string; LogLevel : string; Runtimes : list string; Mode : string; Modes : modesConfig;
}.
Record RuntimeHookConfig := mkHookConfig { Hook_Path : string; SkipModeDetection : bool }.
(** A feature is a pointer to a flag. *)
Record features := mkFeatures {
  AllowCUDACompatLibsFromContainer : option bool; AllowLDConfigFromContainer : option bool;
  AllowUnknownOCISpecFields : option bool; DisableCUDACompatLibHook : option bool;
  DisableImexChannelCreation : option bool; IgnoreImexChannelRequests : option bool;
  NoAdditionalGIDsForDeviceNodes : option bool;
}.
Definition IsEnabled (f : option bool) : bool := match f with Some b => b | None => false end.

Record Config := mkConfig {
  DisableRequire : bool; SwarmResource : string; AcceptEnvvarUnprivileged : bool;
  AcceptDeviceListAsVolumeMounts : bool; SupportedDriverCapabilities : string;
  CLIConfig : ContainerCLIConfig; NVIDIACTKConfig : CTKConfig; NVIDIAContainerRuntimeConfig : RuntimeConfig;
  HookConfig : RuntimeHookConfig; Features : features;
}.

Definition RelativeFilePath : string := "nvidia-container-runtime/config.toml".
Definition nvidiaCTKExecutable : string := "nvidia-ctk".
Definition nvidiaCTKDefaultFilePath : string := "/usr/bin/nvidia-ctk".
Definition nvidiaCDIHookDefaultFilePath : string := "/usr/bin/nvidia-cdi-hook".
Definition nvidiaContainerRuntimeHookDefaultPath : string := "/usr/bin/nvidia-container-runtime-hook".
Definition NVIDIAContainerRuntimeHookExecutable : string := "nvidia-container-runtime-hook".
Definition NVIDIAContainerToolkitExecutable : string := "nvidia-container-toolkit".
Definition CUDACompatModeHook : string := "hook".
Definition CUDACompatModeLdconfig : string := "ldconfig".

(** ** The ldconfig path *)

Definition isHostRelative (p : string) : bool := has_prefix p "@".
Definition ldconfigPath_assertValid (p : string) (allowContainerRelativePath : bool) : result unit :=
  if isHostRelative p then Ok tt
  else if allowContainerRelativePath then Ok tt
  else Err ("nvidia-container-cli.ldconfig value " +:+ quote p +:+ " is not host-relative (does not start with a '@')").
Definition normalize `{Host} (p : string) : string :=
  if negb (isHostRelative p) then p
  else
    let trimmedPath := trim_suffix (trim_prefix p "@") ".real" in
    match os_Stat (trimmedPath +:+ ".real") with
    | Some _ => "@" +:+ trimmedPath +:+ ".real"
    | None => "@" +:+ trimmedPath
    end.

(** ** Defaults *)

Fixpoint dist_ids (lines : list string) : list string :=
  match lines with
  | [] => []
  | line :: lines =>
      if has_prefix line "ID_LIKE=" then split " " (trim_byte dquote (trim_prefix line "ID_LIKE=")) else dist_ids lines
  end.
Definition getDistIDLike `{HostFiles} : list string :=
  match os_ReadFile "/etc/os-release" with None => [] | Some text => dist_ids (scan_lines text) end.
Definition isSuse `{HostFiles} : bool :=
  existsb (fun id => String.eqb id "suse" || String.eqb id "opensuse") getDistIDLike.
Definition getUserGroup `{HostFiles} : string := if isSuse then "root:video" else "".

Definition no_features : features := mkFeatures None None None None None None None.
Definition GetDefault `{Host} `{HostFiles} : Config :=
  mkConfig false "" true false (Caps.String Caps.SupportedDriverCapabilities)
    (mkCLIConfig "" "" [] "" "" true false false getUserGroup (normalize "@/sbin/ldconfig"))
    (mkCTKConfig nvidiaCTKExecutable)
    (mkRuntimeConfig "/dev/null" "info" ["runc"; "crun"] "auto"
      (mkModesConfig (mkCSVModeConfig "/etc/nvidia-container-runtime/host-files-for-container.d" "")
        (mkCDIModeConfig ["/etc/cdi"; "/var/run/cdi"] "nvidia.com/gpu" ["cdi.k8s.io/"]) [] CUDACompatModeLdconfig))
    (mkHookConfig NVIDIAContainerRuntimeHookExecutable false) no_features.

Definition Config_assertValid (c : Config) : result unit :=
  match ldconfigPath_assertValid (Ldconfig (CLIConfig c)) (IsEnabled (AllowLDConfigFromContainer (Features c))) with
  | Err e => Err (e +:+ str1 10 +:+ "invalid config value")
  | Ok _ => Ok tt
  end.

(** ** Loading *)

Definition GetConfigFilePath `{Host} : string :=
  let getenv k := default "" (os_LookupEnv k) in
  if negb (String.eqb (getenv "NVIDIA_CTK_CONFIG_FILE_PATH") "") then getenv "NVIDIA_CTK_CONFIG_FILE_PATH"
  else
    let configRoot := if Nat.eqb (String.length (getenv "XDG_CONFIG_HOME")) 0 then "/etc" else getenv "XDG_CONFIG_HOME" in
    path_join [configRoot; RelativeFilePath].

(** [config.New] fails with [os.ErrNotExist] or with a message. *)
Inductive load_error : Type := ErrNotExist | LoadError (text : string).
Definition load_error_text (e : load_error) : string := match e with ErrNotExist => "file does not exist" | LoadError e => e end.
Section Load.
(** The parser of TOML: an error, or a tree, which is known by how it is
    unmarshalled: it sets the fields of a configuration that it has. *)
Context (load_toml : string -> result (Config -> result Config)) `{Host} `{HostFiles}.
(** The tree of the default configuration, which the code marshals and reads
    back. *)
Definition default_tree (_ : Config) : result Config := Ok GetDefault.
(** [options.loadConfigToml], of [config.New] with the name of a file *)
Definition loadConfigToml (required : bool) (filename : string) : load_error + (Config -> result Config) :=
  if String.eqb filename "" then inr default_tree
  else match os_ReadFile filename with
       | Some text => match load_toml text with Ok tree => inr tree | Err e => inl (LoadError e) end
       | None =>
           match os_ReadError filename with
           | NotExist => if required then inl ErrNotExist else inr default_tree
           | NotOpened e => inl (LoadError ("failed to load specified config file: " +:+ e))
           | NotRead e => inl (LoadError e)
           end
       end.
(** [Toml.Config] *)
Definition Toml_Config (tree : Config -> result Config) : result Config :=
  let? cfg := wrap "failed to unmarshal config" (tree GetDefault) in
  let? _ := Config_assertValid cfg in Ok cfg.
Definition GetConfig : result Config :=
  match loadConfigToml false GetConfigFilePath with
  | inl e => Err (load_error_text e)
  | inr tree => Toml_Config tree
  end.
End Load.

(** ** Executables *)

(** [targets[0]] is out of range on an empty list: [None]. *)
Definition resolveWithDefault `{Host} (path defaultPath : string) : option string :=
  if is_abs path then Some path
  else
    let path := if String.eqb path "" then path_base defaultPath else path in
    match NewExecutableLocator "" path with
    | Failed _ => Some defaultPath
    | Found targets => targets !! 0
    end.
Definition ResolveNVIDIACTKPath `{Host} (nvidiaCTKPath : string) : option string :=
  resolveWithDefault nvidiaCTKPath nvidiaCTKDefaultFilePath.
Definition ResolveNVIDIACDIHookPath `{Host} (nvidiaCDIHookPath : string) : option string :=
  if String.eqb (path_base nvidiaCDIHookPath) "nvidia-ctk"
  then resolveWithDefault nvidiaCDIHookPath nvidiaCTKDefaultFilePath
  else resolveWithDefault nvidiaCDIHookPath nvidiaCDIHookDefaultFilePath.
Definition ResolveNVIDIAContainerRuntimeHookPath `{Host} (p : string) : option string :=
  resolveWithDefault p nvidiaContainerRuntimeHookDefaultPath.

(** ** Properties *)

Section Props.
Context `{Host}.

(** A path whose [ldconfig] is accepted names the host's binary unless the
    feature gate allows others; normalizing a host path keeps it one and is
    idempotent. *)
Lemma normalize_host_relative p : isHostRelative p = true -> isHostRelative (normalize p) = true.
Proof.
  intros Hp. unfold normalize. rewrite Hp. cbn [negb]. destruct (os_Stat _); apply (has_prefix_app "@").
Qed.

Lemma Config_assertValid_spec c :
  is_ok (Config_assertValid c)
  = has_prefix (Ldconfig (CLIConfig c)) "@" || IsEnabled (AllowLDConfigFromContainer (Features c)).
Proof.
  unfold Config_assertValid, ldconfigPath_assertValid, isHostRelative.
  by destruct (has_prefix _ "@"), (IsEnabled _).
Qed.

Lemma asRequired_nonempty l pattern : asRequired l pattern <> Found [].
Proof. unfold asRequired. by destruct (l pattern) as [[|]|]. Qed.

Lemma NewExecutableLocator_nonempty root pattern : NewExecutableLocator root pattern <> Found [].
Proof.
  unfold NewExecutableLocator, newExecutableLocator. destruct (contains pattern "/").
  - by destruct (assertExecutable pattern).
  - apply asRequired_nonempty.
Qed.

(** Resolving an executable always gives a path, which is the configured one
    if that is absolute, and otherwise one that the search of the PATH found
    or the default. *)
Theorem resolveWithDefault_spec path defaultPath :
  exists p, resolveWithDefault path defaultPath = Some p
  /\ (is_abs path = true -> p = path)
  /\ (is_abs path = false -> p = defaultPath \/ exists targets,
        NewExecutableLocator "" (if String.eqb path "" then path_base defaultPath else path) = Found targets
        /\ p ∈ targets).
Proof.
  unfold resolveWithDefault. destruct (is_abs path); [by exists path|].
  pose proof (NewExecutableLocator_nonempty "" (if String.eqb path "" then path_base defaultPath else path)) as Hn.
  destruct (NewExecutableLocator _ _) as [[|t ts]|e]; [done| |].
  - exists t. split; [done|]. split; [done|]. intros _. right. exists (t :: ts). split; [done|left].
  - exists defaultPath. split; [done|]. split; [done|]. intros _. by left.
Qed.
End Props.
