(* ===== verification/Tegra.v ===== *)
(** * Tegra systems (src/internal/platform-support/tegra)

    The CSV files that list what a container needs (csv/csv.go,
    csv/mount_spec.go), sources of mount specs and their transformers
    (mount_specs.go, filter.go, csv.go) and the discoverer made from them
    (tegra.go, symlinks.go).

    A source of mount specs returns a Go map, and transformers change this map
    in place. Maps are therefore addresses of a store: evaluating a transformed
    source changes the map of the source it transforms. *)
From S2P Require Import Prelude GoStrings Glob Lookup DriverRoot ProcInfo Discover DiscoverDriver.

(** ** CSV files *)

Definition MountSpecDev : string := "dev".
Definition MountSpecDir : string := "dir".
Definition MountSpecLib : string := "lib".
Definition MountSpecSym : string := "sym".

Record MountSpec := mkMountSpec { MountSpec_Type : string; MountSpec_Path : string }.

Definition NewMountSpec (mountType path : string) : result MountSpec :=
  if negb (String.eqb mountType MountSpecDev || String.eqb mountType MountSpecLib
           || String.eqb mountType MountSpecSym || String.eqb mountType MountSpecDir)
  then Err ("unexpected mount type: " +:+ mountType)
  else if String.eqb path "" then Err "invalid path: "
  else Ok (mkMountSpec mountType path).
Definition NewMountSpecFromLine (line : string) : result MountSpec :=
  match cut "," (trim_space line) with
  | None => Err ("failed to parse line: " +:+ line)
  | Some (t, p) => NewMountSpec (trim_space t) (trim_space p)
  end.
(** Invalid lines are skipped. *)
Definition parseFromReader (contents : string) : list MountSpec :=
  omap (fun line => match NewMountSpecFromLine line with Ok m => Some m | Err _ => None end) (scan_lines contents).

Definition DefaultMountSpecPath : string := "/etc/nvidia-container-runtime/host-files-for-container.d".
Definition DefaultFileList : list string :=
  map (fun f => path_join [DefaultMountSpecPath; f]) ["devices.csv"; "drivers.csv"; "l4t.csv"].

(** [strings.ToLower] on the extension: it is [.csv] exactly when the letters
    are those of [.csv] in either case, as no other rune has one of these as
    its lower case. *)
Definition lower (c : ascii) : ascii :=
  if in_range "A" "Z" c then ascii_of_N (byte_of c + 32) else c.
Fixpoint to_lower (s : string) : string :=
  match s with "" => "" | String c s => String (lower c) (to_lower s) end.
Definition GetFileList `{HostFiles} (root : string) : list string :=
  match os_ReadDir root with
  | None => []
  | Some contents =>
      omap (fun c : string * bool =>
        if c.2 then None
        else if String.eqb c.1 ".csv" then None
        else if negb (String.eqb (to_lower (path_ext c.1)) ".csv") then None
        else Some (path_join [root; c.1])) contents
  end.
Definition BaseFilesOnly (filenames : list string) : list string :=
  List.filter (fun f => let base := path_base f in
    String.eqb base "l4t.csv" || String.eqb base "drivers.csv" || String.eqb base "devices.csv") filenames.

(** ** Filters *)

Definition basenamePattern_MatchString (d input : string) : bool :=
  matches (trim_prefix d "**/") (path_base input).
Definition pathPattern_MatchString (d input : string) : bool :=
  if has_prefix d "**/" then basenamePattern_MatchString d input else matches d input.
Definition pathPatterns_MatchString (ds : list string) (input : string) : bool :=
  existsb (fun d => pathPattern_MatchString d input) ds.
(** The regular expression [^/dev/nvidia[0-9]+$]. *)
Definition regular_device_node (input : string) : bool :=
  has_prefix input "/dev/nvidia" &&
  let n := trim_prefix input "/dev/nvidia" in negb (String.eqb n "") && string_all is_digit n.

Inductive filter : Type :=
| removeAll
| matcherAsFilter (MatchString : string -> bool).
Definition apply (f : filter) (input : list string) : list string :=
  match f with
  | removeAll => []
  | matcherAsFilter MatchString => List.filter (fun path => negb (MatchString path)) input
  end.

(** [ignoreSymlinkMountSpecPatterns.match] *)
Definition ignore_match (patterns : list string) (name : string) : bool :=
  existsb (fun pattern =>
    if has_prefix pattern "**/" then matches (trim_prefix pattern "**/") (path_base name)
    else matches pattern name) patterns.

(** ** Sources and transformers *)

Abbreviation specs_map := (gmap string (list string)).
Abbreviation loc := nat.

#[warnings="-register-all"]
Inductive typer : Type :=
| Raw (l : loc)                                        (* MountSpecPathsByType *)
| Collection (ts : list (option typer))                (* mountSpecPathsByTypers and merge *)
| Transformed (ts : list (option transformer)) (input : typer)
with transformer : Type :=
| filterByMountSpecType (f : gmap string filter)
| filterByMountSpecPathsByTyper (m : typer)
| ignoreSymlinkMountSpecPatterns (patterns : list string).

Abbreviation Store := (list specs_map).
Definition get (s : Store) (l : loc) : specs_map := default ∅ (s !! l).
Definition alloc (m : specs_map) (s : Store) : loc * Store := (length s, s ++ [m]).
Definition update (f : specs_map -> specs_map) (l : loc) (s : Store) : Store := <[l := f (get s l)]> s.

(** The loops over maps below treat every key by itself, so the order of
    iteration does not matter. *)
Definition merge_into (merged m : specs_map) : specs_map := union_with (fun a b => Some (a ++ b)) merged m.
(** [filterByMountSpecType.Apply] on the map of the input. *)
Definition filter_types (f : gmap string filter) (ms : specs_map) : specs_map :=
  map_imap (fun t paths => match f !! t with
                           | None => Some paths
                           | Some flt => Some (if Nat.eqb (length paths) 0 then paths else apply flt paths)
                           end) ms.
Definition ignore_symlinks (patterns : list string) (ms : specs_map) : specs_map :=
  alter (List.filter (fun name => negb (ignore_match patterns name))) MountSpecSym ms.
Definition filters_of (ms : specs_map) : gmap string filter :=
  (fun paths => matcherAsFilter (pathPatterns_MatchString paths)) <$> ms.

(** [MountSpecPathsByType] of every source, and [Apply], which evaluates its
    input [cur] when it is called. *)
Fixpoint eval (t : typer) (s : Store) {struct t} : loc * Store :=
  match t with
  | Raw l => (l, s)
  | Collection ts =>
      let '(s, merged) :=
        (fix go (ts : list (option typer)) (s : Store) (merged : specs_map) : Store * specs_map :=
           match ts with
           | [] => (s, merged)
           | None :: ts => go ts s merged
           | Some t :: ts => let '(l, s) := eval t s in go ts s (merge_into merged (get s l))
           end) ts s ∅ in
      alloc merged s
  | Transformed ts input =>
      (fix go (ts : list (option transformer)) (cur : Store -> loc * Store) (s : Store) : loc * Store :=
         match ts with
         | [] => cur s
         | None :: ts => go ts cur s
         | Some t :: ts => let '(l, s) := Apply t cur s in go ts (fun s => (l, s)) s
         end) ts (eval input) s
  end
with Apply (t : transformer) (cur : Store -> loc * Store) (s : Store) {struct t} : loc * Store :=
  match t with
  | filterByMountSpecType f => let '(l, s) := cur s in (l, update (filter_types f) l s)
  | filterByMountSpecPathsByTyper m =>
      let '(lm, s) := eval m s in
      let f := filters_of (get s lm) in
      let '(l, s) := cur s in (l, update (filter_types f) l s)
  | ignoreSymlinkMountSpecPatterns patterns =>
      let '(l, s) := cur s in (l, update (ignore_symlinks patterns) l s)
  end.

Definition OnlyDeviceNodes : transformer :=
  filterByMountSpecType (<[MountSpecDir := removeAll]> (<[MountSpecLib := removeAll]> {[MountSpecSym := removeAll]})).
Definition WithoutDeviceNodes : transformer := filterByMountSpecType {[MountSpecDev := removeAll]}.
Definition WithoutRegularDeviceNodes : transformer :=
  filterByMountSpecType {[MountSpecDev := matcherAsFilter regular_device_node]}.
Definition Without (m : typer) : transformer := filterByMountSpecPathsByTyper m.
Definition IgnoreSymlinkMountSpecsByPattern (patterns : list string) : transformer :=
  ignoreSymlinkMountSpecPatterns patterns.
(** Constructors of sources allocate their map. *)
Definition DeviceNodes (dn : list string) (s : Store) : typer * Store :=
  let '(l, s) := alloc {[MountSpecDev := dn]} s in (Raw l, s).

(** The map of one CSV file, and of a list of files; a file that cannot be
    read or has no valid line is skipped. *)
Definition targets_by_type (targets : list MountSpec) : specs_map :=
  foldl (fun m t => <[MountSpec_Type t := default [] (m !! MountSpec_Type t) ++ [MountSpec_Path t]]> m) ∅ targets.
Definition loadCSVFile `{HostFiles} (filename : string) : result (list MountSpec) :=
  match os_ReadFile filename with
  | None => Err ("failed to parse CSV file: failed to open " +:+ filename +:+ " for reading")
  | Some contents =>
      match parseFromReader contents with
      | [] => Err "CSV file is empty"
      | targets => Ok targets
      end
  end.
Definition specs_of_files `{HostFiles} (csvFilePaths : list string) : specs_map :=
  foldl merge_into ∅
    (omap (fun f => match loadCSVFile f with Ok ts => Some (targets_by_type ts) | Err _ => None end) csvFilePaths).
Definition MountSpecsFromCSVFiles `{HostFiles} (csvFilePaths : list string) (s : Store) : typer * Store :=
  let '(l, s) := alloc (specs_of_files csvFilePaths) s in (Raw l, s).

(** ** The discoverer *)

Section Discoverer.
Context `{Host} (hookCreator : HookCreator) (getSoname : string -> result string).

Fixpoint csv_links (candidates : list string) (created : gset string) (links : list string) : list string :=
  match candidates with
  | [] => links
  | c :: cs =>
      match Resolve c with
      | None => csv_links cs created links
      | Some target =>
          if String.eqb target c then csv_links cs created links
          else
            let link := target +:+ "::" +:+ c in
            if decide (link ∈ created) then csv_links cs created links
            else csv_links cs ({[link]} ∪ created) (links ++ [link])
      end
  end.
Definition getSymlinkCandidates (symlinkChainLocator : Locator) (targets : list string) : list string :=
  concat (map (fun t => match symlinkChainLocator t with Found chain => chain | Failed _ => [] end) targets).
Definition getCSVFileSymlinks (symlinkChainLocator : Locator) (targets : list string) : list string :=
  csv_links (getSymlinkCandidates symlinkChainLocator targets) ∅ [].
Definition createCSVSymlinkHooks (symlinkChainLocator : Locator) (targets : list string) : Discover :=
  mkDiscover (Ok []) (Ok []) (Ok [])
    (Ok (Hook_Hooks (hookCreator CreateSymlinksHook (getCSVFileSymlinks symlinkChainLocator targets)))).

Definition newDiscovererFromMountSpecs (driver : Driver) (symlinkLocator symlinkChainLocator : Locator)
  (targetsByType : specs_map) : Discover :=
  if Nat.eqb (size targetsByType) 0 then None_
  else
    let paths t := default [] (targetsByType !! t) in
    Merge [
      Some (NewCharDeviceDiscoverer (DevRoot driver) (paths MountSpecDev));
      Some (NewMounts (Some (NewDirectoryLocator [WithRoot (Root driver)])) (Root driver) (paths MountSpecDir));
      Some (WithDriverDotSoSymlinks getSoname linkExists
        (NewMounts (Some symlinkLocator) (Root driver) (paths MountSpecLib)) "" hookCreator);
      Some (NewMounts (Some symlinkLocator) (Root driver) (paths MountSpecSym));
      Some (createCSVSymlinkHooks symlinkChainLocator (paths MountSpecSym)) ].

(** [New]; [resolveChain] is [symlinks.ResolveChain]. *)
Definition New (resolveChain : string -> option (list string)) (driver : Driver) (librarySearchPaths : list string)
  (mountSpecs : typer) (s : Store) : Discover * Store :=
  let symlinkLocator := NewSymlinkLocator
    [WithRoot (Root driver); WithSearchPaths (librarySearchPaths ++ ["/"])] in
  let symlinkChainLocator := NewSymlinkChainLocator resolveChain [WithRoot (Root driver)] in
  let '(l, s) := eval mountSpecs s in
  (Merge [ Some (newDiscovererFromMountSpecs driver symlinkLocator symlinkChainLocator (get s l));
           Some (NewMounts (Some (NewFileLocator [])) "" ["/etc/nv_tegra_release"]) ], s).
End Discoverer.

(** ** Mount specs of a device (src/pkg/nvcdi/lib-csv.go) *)

Inductive csvGeneratorMode := dGPUGeneratorMode | iGPUGeneratorMode | noGeneratorMode.

Definition control_nodes : list string :=
  ["/dev/nvidia-modeset"; "/dev/nvidia-uvm-tools"; "/dev/nvidia-uvm"; "/dev/nvidiactl"].
Definition deviceNodeMountSpecs `{HostFiles} (files : list string) (mode : csvGeneratorMode) (s : Store)
  : typer * Store :=
  let '(csv, s) := MountSpecsFromCSVFiles files s in
  let mountSpecs := Transformed [Some OnlyDeviceNodes] csv in
  match mode with
  | dGPUGeneratorMode =>
      let '(control, s) := DeviceNodes control_nodes s in
      (Transformed [Some WithoutRegularDeviceNodes; Some (Without control)] mountSpecs, s)
  | iGPUGeneratorMode =>
      let '(nvidia1, s) := DeviceNodes ["/dev/nvidia1"] s in
      let '(nvidia2, s) := DeviceNodes ["/dev/nvidia2"] s in
      (Collection [Some (Transformed [Some (Without nvidia1)] mountSpecs); Some nvidia2], s)
  | noGeneratorMode => (mountSpecs, s)
  end.
(** The mount specs of the driver, which have no device nodes. *)
Definition driverMountSpecs `{HostFiles} (files ignorePatterns : list string) (s : Store) : typer * Store :=
  let '(csv, s) := MountSpecsFromCSVFiles files s in
  (Transformed [Some (IgnoreSymlinkMountSpecsByPattern ignorePatterns)] (Transformed [Some WithoutDeviceNodes] csv), s).
