(* ===== verification/TegraProps.v ===== *)
(** * Properties of mount specs on Tegra systems *)
From S2P Require Import Prelude GoStrings Glob Lookup DriverRoot ProcInfo Discover DiscoverDriver Tegra.

(** The paths of a type. *)
Definition paths_of (m : specs_map) (t : string) : list string := default [] (m !! t).

Lemma apply_nil f : apply f [] = [].
Proof. by destruct f. Qed.

Lemma paths_filter_types f m t :
  paths_of (filter_types f m) t = match f !! t with None => paths_of m t | Some flt => apply flt (paths_of m t) end.
Proof.
  unfold paths_of, filter_types. rewrite map_lookup_imap.
  destruct (m !! t) as [ps|]; simpl; destruct (f !! t) as [flt|]; simpl; rewrite ?apply_nil; try done.
  destruct ps; simpl; by rewrite ?apply_nil.
Qed.

Lemma paths_merge a b t : paths_of (merge_into a b) t = paths_of a t ++ paths_of b t.
Proof.
  unfold paths_of, merge_into. rewrite lookup_union_with.
  destruct (a !! t), (b !! t); simpl; by rewrite ?app_nil_r.
Qed.

Lemma paths_ignore_symlinks ps m t :
  paths_of (ignore_symlinks ps m) t
  = if String.eqb t MountSpecSym then List.filter (fun n => negb (ignore_match ps n)) (paths_of m t) else paths_of m t.
Proof.
  unfold paths_of, ignore_symlinks. destruct (String.eqb_spec t MountSpecSym) as [->|Hne].
  - rewrite lookup_alter_eq. by destruct (m !! MountSpecSym).
  - by rewrite lookup_alter_ne.
Qed.

Lemma get_update f l s : l < length s -> get (update f l s) l = f (get s l).
Proof. intros Hl. unfold get, update. by rewrite list_lookup_insert_eq. Qed.
Lemma get_alloc m s : get (alloc m s).2 (alloc m s).1 = m.
Proof. unfold get, alloc. simpl. by rewrite lookup_app_r, Nat.sub_diag. Qed.
Lemma get_app s1 s2 l : l < length s1 -> get (s1 ++ s2) l = get s1 l.
Proof. intros Hl. unfold get. by rewrite lookup_app_l. Qed.

(** A path pattern without special characters matches itself. *)
Lemma pattern_plain p x : string_all plain_char p = true -> has_prefix p "**/" = false ->
  pathPattern_MatchString p x = String.eqb x p.
Proof.
  intros Hp Hs. unfold pathPattern_MatchString. rewrite Hs. apply eq_bool_prop_intro. split; intros H.
  - apply Is_true_true. apply String.eqb_eq. by apply matches_plain, Is_true_true.
  - apply Is_true_true, matches_plain; [done|]. by apply String.eqb_eq, Is_true_true.
Qed.

Definition other_type (t : string) : Prop := t = MountSpecDir \/ t = MountSpecLib \/ t = MountSpecSym.

Lemma paths_OnlyDeviceNodes m :
  let m' := filter_types (<[MountSpecDir := removeAll]> (<[MountSpecLib := removeAll]> {[MountSpecSym := removeAll]})) m in
  paths_of m' MountSpecDev = paths_of m MountSpecDev /\ forall t, other_type t -> paths_of m' t = [].
Proof.
  cbv zeta. split.
  - rewrite paths_filter_types. by simplify_map_eq.
  - intros t Ht. rewrite paths_filter_types. destruct Ht as [-> |[-> | ->]]; by simplify_map_eq.
Qed.

Lemma insert_get m l s : l < length s -> get (<[l := m]> s) l = m.
Proof. intros Hl. unfold get. by rewrite list_lookup_insert_eq. Qed.
Lemma insert_get_ne m l l' s : l <> l' -> get (<[l := m]> s) l' = get s l'.
Proof. intros Hl. unfold get. by rewrite list_lookup_insert_ne. Qed.
Lemma update_update f g l (s : Store) : l < length s -> update g l (update f l s) = <[l := g (f (get s l))]> s.
Proof. intros Hl. unfold update. by rewrite insert_get, list_insert_insert_eq. Qed.

Definition device_map (dn : list string) : specs_map := {[MountSpecDev := dn]}.

Lemma paths_Without dn m :
  Forall (fun p => string_all plain_char p = true /\ has_prefix p "**/" = false) dn ->
  let m' := filter_types (filters_of (device_map dn)) m in
  paths_of m' MountSpecDev = List.filter (fun d => negb (bool_decide (d ∈ dn))) (paths_of m MountSpecDev)
  /\ forall t, other_type t -> paths_of m' t = paths_of m t.
Proof.
  intros Hdn. cbv zeta. unfold filters_of, device_map. rewrite map_fmap_singleton. split.
  - rewrite paths_filter_types, lookup_singleton_eq. simpl. apply filter_ext. intros d. f_equal.
    induction Hdn as [|p dn [Hp Hs] Hdn IH]; simpl; [done|]. rewrite pattern_plain, IH by done.
    destruct (String.eqb_spec d p) as [->|Hne]; simpl.
    + symmetry. apply bool_decide_eq_true. left.
    + apply bool_decide_ext. rewrite elem_of_cons. naive_solver.
  - intros t Ht. rewrite paths_filter_types. by destruct Ht as [-> |[-> | ->]].
Qed.

Lemma paths_WithoutRegular m :
  let m' := filter_types {[MountSpecDev := matcherAsFilter regular_device_node]} m in
  paths_of m' MountSpecDev = List.filter (fun d => negb (regular_device_node d)) (paths_of m MountSpecDev)
  /\ forall t, other_type t -> paths_of m' t = paths_of m t.
Proof.
  cbv zeta. split; [by rewrite paths_filter_types, lookup_singleton_eq|].
  intros t Ht. rewrite paths_filter_types. by destruct Ht as [-> |[-> | ->]].
Qed.

Lemma filter_filter {A} (f g : A -> bool) l : List.filter f (List.filter g l) = List.filter (fun x => g x && f x) l.
Proof. induction l as [|x l IH]; simpl; [done|]. destruct (g x); simpl; [destruct (f x)|]; by rewrite IH. Qed.

(** The device nodes that a generator of the mode keeps of a list. *)
Definition mode_devices (mode : csvGeneratorMode) (devs : list string) : list string :=
  match mode with
  | dGPUGeneratorMode =>
      List.filter (fun d => negb (regular_device_node d) && negb (bool_decide (d ∈ control_nodes))) devs
  | iGPUGeneratorMode => List.filter (fun d => negb (bool_decide (d ∈ ["/dev/nvidia1"]))) devs
  | noGeneratorMode => devs
  end.
Definition mode_extra (mode : csvGeneratorMode) : list string :=
  match mode with iGPUGeneratorMode => ["/dev/nvidia2"] | _ => [] end.

(** The source that [deviceNodeMountSpecs] builds over the map at [l]. *)
Definition mode_source (mode : csvGeneratorMode) (l : loc) : typer :=
  let base := Transformed [Some OnlyDeviceNodes] (Raw l) in
  match mode with
  | dGPUGeneratorMode => Transformed [Some WithoutRegularDeviceNodes; Some (Without (Raw (S l)))] base
  | iGPUGeneratorMode => Collection [Some (Transformed [Some (Without (Raw (S l)))] base); Some (Raw (S (S l)))]
  | noGeneratorMode => base
  end.
Definition mode_maps (mode : csvGeneratorMode) : list specs_map :=
  match mode with
  | dGPUGeneratorMode => [device_map control_nodes]
  | iGPUGeneratorMode => [device_map ["/dev/nvidia1"]; device_map ["/dev/nvidia2"]]
  | noGeneratorMode => []
  end.
Definition mode_store (mode : csvGeneratorMode) (l : loc) (m : specs_map) (s : Store) : Prop :=
  l < length s /\ get s l = m
  /\ forall i mi, mode_maps mode !! i = Some mi -> l + S i < length s /\ get s (l + S i) = mi.

Lemma eval_mode mode l m s : mode_store mode l m s ->
  let '(l', s') := eval (mode_source mode l) s in
  paths_of (get s' l') MountSpecDev = mode_devices mode (paths_of m MountSpecDev) ++ mode_extra mode
  /\ (forall t, other_type t -> paths_of (get s' l') t = [])
  /\ exists m', mode_store mode l m' s' /\ paths_of m' MountSpecDev = mode_devices mode (paths_of m MountSpecDev).
Proof.
  intros (Hl & Hm & Hi). destruct (paths_OnlyDeviceNodes m) as [Hd Ho]. set (m1 := filter_types _ m) in *.
  assert (Hplain : forall dn, bool_decide (Forall (fun p => string_all plain_char p = true
    /\ has_prefix p "**/" = false) dn) = true -> Forall (fun p => string_all plain_char p = true
    /\ has_prefix p "**/" = false) dn) by (intros dn; apply bool_decide_eq_true).
  destruct mode; unfold mode_source.
  - destruct (Hi 0 _ eq_refl) as [Hc1 Hc2]. rewrite Nat.add_1_r in Hc1, Hc2.
    cbn [eval Apply OnlyDeviceNodes WithoutRegularDeviceNodes Without].
    rewrite !(update_update _ _ l s), Hm by done. fold m1.
    destruct (paths_WithoutRegular m1) as [Hr1 Hr2]. set (m2 := filter_types _ m1) in *.
    rewrite insert_get_ne, Hc2 by lia. unfold update. rewrite !(insert_get m2 l s), list_insert_insert_eq by done.
    destruct (paths_Without control_nodes m2) as [Hw1 Hw2]; [apply Hplain; reflexivity|].
    set (m3 := filter_types _ m2) in *. rewrite insert_get by done.
    assert (Hdev : paths_of m3 MountSpecDev = mode_devices dGPUGeneratorMode (paths_of m MountSpecDev)).
    { rewrite Hw1, Hr1, Hd. apply filter_filter. }
    split; [by rewrite app_nil_r|]. split; [intros t Ht; by rewrite Hw2, Hr2, Ho|].
    exists m3. split; [|done]. split; [by rewrite length_insert|]. split; [by apply insert_get|].
    intros i mi Hmi. destruct (Hi i mi Hmi). rewrite length_insert, insert_get_ne by lia. done.
  - destruct (Hi 0 _ eq_refl) as [Hc1 Hc2], (Hi 1 _ eq_refl) as [Hx1 Hx2].
    rewrite Nat.add_1_r in Hc1, Hc2. replace (l + 2) with (S (S l)) in Hx1, Hx2 by lia.
    cbn [eval Apply OnlyDeviceNodes Without]. rewrite Hc2, !(update_update _ _ l s), Hm by done. fold m1.
    destruct (paths_Without ["/dev/nvidia1"] m1) as [Hw1 Hw2]; [apply Hplain; reflexivity|].
    set (m2 := filter_types _ m1) in *. rewrite insert_get by done. rewrite insert_get_ne, Hx2 by lia.
    set (mr := merge_into _ _). rewrite (surjective_pairing (alloc _ _)).
    cbn beta iota. rewrite get_alloc. unfold mr. split.
    { rewrite !paths_merge, Hw1, Hd. done. }
    split.
    { intros t Ht. rewrite !paths_merge, Hw2, Ho by done. by destruct Ht as [-> |[-> | ->]]. }
    exists m2. split; [|by rewrite Hw1, Hd]. unfold alloc. cbn [snd]. split; [rewrite length_app, length_insert; lia|].
    split; [rewrite get_app by (rewrite length_insert; lia); by apply insert_get|].
    intros i mi Hmi. destruct (Hi i mi Hmi). rewrite length_app, length_insert. split; [lia|].
    rewrite get_app by (rewrite length_insert; lia). rewrite insert_get_ne by lia. done.
  - cbn [eval Apply OnlyDeviceNodes]. unfold update. rewrite Hm. fold m1. rewrite insert_get by done.
    split; [by rewrite app_nil_r|]. split; [done|]. exists m1. split; [|done].
    split; [by rewrite length_insert|]. split; [by apply insert_get|]. intros i mi Hmi. done.
Qed.

(** The device nodes of a generated device: those of the CSV files without
    those of other GPUs, as its mode asks, and no mounts or symlinks. The
    source gives the same when it is evaluated again, although the first
    evaluation has changed the map of the CSV files. *)
Theorem deviceNodeMountSpecs_spec `{HostFiles} files mode s :
  let devs := paths_of (specs_of_files files) MountSpecDev in
  let '(t, s1) := deviceNodeMountSpecs files mode s in
  let '(l, s2) := eval t s1 in
  let '(l', s3) := eval t s2 in
  paths_of (get s2 l) MountSpecDev = mode_devices mode devs ++ mode_extra mode
  /\ (forall ty, other_type ty -> paths_of (get s2 l) ty = [])
  /\ forall ty, ty = MountSpecDev \/ other_type ty -> paths_of (get s3 l') ty = paths_of (get s2 l) ty.
Proof.
  cbv zeta. set (m := specs_of_files files).
  assert (Hsrc : exists s1, deviceNodeMountSpecs files mode s = (mode_source mode (length s), s1)
    /\ mode_store mode (length s) m s1).
  { exists (s ++ m :: mode_maps mode). split.
    - unfold deviceNodeMountSpecs, MountSpecsFromCSVFiles, alloc. fold m. cbn beta iota zeta.
      destruct mode; unfold DeviceNodes, alloc; cbn beta iota zeta;
        rewrite ?length_app; simpl; rewrite <- ?app_assoc, ?Nat.add_1_r, ?Nat.add_assoc; try done.
    - split; [rewrite length_app; simpl; lia|]. split.
      + unfold get. by rewrite lookup_app_r, Nat.sub_diag by lia.
      + intros i mi Hmi. pose proof (lookup_lt_Some _ _ _ Hmi). split; [rewrite length_app; simpl; lia|].
        unfold get. rewrite lookup_app_r by lia. replace (length s + S i - length s) with (S i) by lia.
        simpl. by rewrite Hmi. }
  destruct Hsrc as (s1 & -> & Hs1). pose proof (eval_mode mode _ m s1 Hs1) as H1.
  destruct (eval _ s1) as [l s2]. destruct H1 as (Hd & Ho & m' & Hs2 & Hm').
  pose proof (eval_mode mode _ m' s2 Hs2) as H2. destruct (eval _ s2) as [l' s3].
  destruct H2 as (Hd' & Ho' & _). split; [done|]. split; [done|]. intros ty [->|Hty].
  - rewrite Hd', Hd, Hm'. f_equal. destruct mode; simpl; [| |done]; rewrite filter_filter;
      apply filter_ext; intros d; by rewrite andb_diag.
  - by rewrite Ho', Ho.
Qed.
