(* ===== verification/Nvml.v ===== *)
(** * The driver libraries (go-nvml, go-nvlib, src/internal/nvsandboxutils)

    The interface to the management library of the driver and to the sandbox
    library, identifiers of devices, and the monad in which CDI specifications
    are generated. The state counts the references to the two libraries, as
    their [Init] and [Shutdown] do, and records every call that is made while
    the library is not loaded. *)
From S2P Require Import Prelude GoStrings Lookup DriverRoot ProcInfo Tegra.

(** ** Identifiers of devices (go-nvlib, google/uuid) *)

Definition is_hex (c : ascii) : bool := is_digit c || in_range "a" "f" c || in_range "A" "F" c.
Definition hex_at (s : string) (i : nat) : bool :=
  match String.get i s with Some c => is_hex c | None => false end.
Definition dash_at (s : string) (i : nat) : bool :=
  match String.get i s with Some c => Ascii.eqb c "-" | None => false end.
Definition uuid_offsets : list nat := [0; 2; 4; 6; 9; 11; 14; 16; 19; 21; 24; 26; 28; 30; 32; 34].
Definition uuid_body (s : string) : bool :=
  forallb (dash_at s) [8; 13; 18; 23] && forallb (fun x => hex_at s x && hex_at s (x + 1)) uuid_offsets.
(** Whether [uuid.Parse] succeeds. *)
Definition uuid_Parse (s : string) : bool :=
  let n := String.length s in
  if Nat.eqb n 36 then uuid_body s
  else if Nat.eqb n 45 then String.eqb (to_lower (stake 9 s)) "urn:uuid:" && uuid_body (sdrop 9 s)
  else if Nat.eqb n 38 then uuid_body (sdrop 1 s)
  else if Nat.eqb n 32 then forallb (hex_at s) (seq 0 32)
  else false.

Definition is_uint (s : string) : bool := match parse_uint 64 s with Some _ => true | None => false end.
Definition IsGpuIndex (i : string) : bool := is_uint i.
Definition IsMigIndex (i : string) : bool :=
  match split_byte ":" i with [a; b] => IsGpuIndex a && IsGpuIndex b | _ => false end.
Definition IsGpuUUID (i : string) : bool := has_prefix i "GPU-" && uuid_Parse (trim_prefix i "GPU-").
Definition IsMigUUID (i : string) : bool :=
  has_prefix i "MIG-" &&
  let suffix := trim_prefix i "MIG-" in
  uuid_Parse suffix ||
  match split_byte "/" suffix with [gpu; gi; ci] => IsGpuUUID gpu && is_uint gi && is_uint ci | _ => false end.
Definition IsUUID (i : string) : bool := IsGpuUUID i || IsMigUUID i.
(** [isOrinGPUID] *)
Definition isOrinGPUID (id : string) : bool := uuid_Parse id.

(** [info.IsIntegratedGPUName] *)
Definition IsIntegratedGPUName (name : string) : bool := contains name "(nvgpu)" || contains name "NVIDIA Thor".

(** ** The platform (go-nvlib) *)

Class PropertyExtractor := {
  HasDXCore : bool; HasTegraFiles : bool; HasNvml : bool; HasAnIntegratedGPU : bool;
}.
Inductive Platform := PlatformNVML | PlatformTegra | PlatformWSL | PlatformUnknown.
(** [platformResolver.ResolvePlatform] with the platform "auto". *)
Definition ResolvePlatform `{PropertyExtractor} : Platform :=
  if HasDXCore then PlatformWSL
  else if HasTegraFiles && negb HasNvml || HasAnIntegratedGPU then PlatformTegra
  else if HasNvml then PlatformNVML
  else PlatformUnknown.

(** ** The libraries *)

(** The answers of the management library while it is loaded; an error is the
    text of the return code. [dev_PciInfo] is [None] for
    [ERROR_NOT_SUPPORTED]. The last group belongs to go-nvlib. *)
Class Nvml := {
  Handle : Type;
  nvml_Init : option string;
  nvml_SUCCESS : string;           (* the text of the return code SUCCESS *)
  DeviceGetCount : result Z;
  DeviceGetHandleByIndex : Z -> result Handle;
  DeviceGetHandleByUUID : string -> result Handle;
  SystemGetDriverVersion : result string;
  SystemGetCudaDriverVersion : result Z;
  dev_GetUUID : Handle -> result string;
  dev_GetIndex : Handle -> result Z;
  dev_GetMinorNumber : Handle -> result Z;
  dev_GetName : Handle -> result string;
  dev_GetPciInfo : Handle -> option (result (Z * Z * Z));
  dev_IsMigDeviceHandle : Handle -> result bool;
  dev_GetMigDeviceHandleByIndex : Handle -> Z -> result Handle;
  dev_GetDeviceHandleFromMigDeviceHandle : Handle -> result Handle;
  dev_GetGpuInstanceId : Handle -> result Z;
  dev_GetComputeInstanceId : Handle -> result Z;
  dev_GetPCIBusID : Handle -> result string;
  dev_IsMigEnabled : Handle -> result bool;
  dev_IsCoherent : Handle -> result bool;
  dev_isSkipped : Handle -> result bool;
  dev_MigDevices : Handle -> result (list (Z * Handle));
}.

(** The kinds of files of the sandbox library that the code tells apart. *)
Inductive SubType :=
| NV_DEV_NVIDIA | NV_DEV_DRI_CARD | NV_DEV_DRI_RENDERD | NV_DEV_DRI_CARD_SYMLINK | NV_DEV_DRI_RENDERD_SYMLINK
| NV_DEV_NVIDIA_CAPS_NVIDIA_CAP | OtherSubType.
Record GpuFileInfo := mkGpuFileInfo { info_Path : string; info_SubType : SubType; info_isContent : bool }.
(** The sandbox library: the argument of the version is whether the library is
    loaded. *)
Class Sandbox := {
  sandbox_Init : string -> option string;
  GetDriverVersion : bool -> result string;
  GetGpuResource : string -> result (list GpuFileInfo);
  GetFileContent : string -> result string;
}.

(** ** The monad *)

Record St := mkSt {
  st_driver : Driver;
  st_nvml : nat;                 (* references to the management library *)
  st_sandbox : option nat;       (* references to the sandbox library, if the handle is not nil *)
  st_misuse : list string;       (* calls to a library that was not loaded *)
}.
Definition set_driver (d : Driver) (s : St) : St := mkSt d (st_nvml s) (st_sandbox s) (st_misuse s).
Definition set_nvml (n : nat) (s : St) : St := mkSt (st_driver s) n (st_sandbox s) (st_misuse s).
Definition set_sandbox (o : option nat) (s : St) : St := mkSt (st_driver s) (st_nvml s) o (st_misuse s).
Definition add_misuse (call : string) (s : St) : St :=
  mkSt (st_driver s) (st_nvml s) (st_sandbox s) (st_misuse s ++ [call]).

(** [None] is a panic. *)
Definition G (A : Type) : Type := St -> option (result A * St).
Definition ret {A} (a : A) : G A := fun s => Some (Ok a, s).
Definition fail {A} (e : string) : G A := fun s => Some (Err e, s).
Definition lift {A} (r : result A) : G A := fun s => Some (r, s).
Definition bind {A B} (m : G A) (k : A -> G B) : G B := fun s =>
  match m s with
  | None => None
  | Some (Err e, s) => Some (Err e, s)
  | Some (Ok a, s) => k a s
  end.
Definition gwrap {A} (msg : string) (m : G A) : G A := fun s =>
  match m s with Some (r, s) => Some (wrap msg r, s) | None => None end.
(** [m] and, if that fails, the handler. *)
Definition catch {A} (m : G A) (h : string -> G A) : G A := fun s =>
  match m s with
  | None => None
  | Some (Err e, s) => h e s
  | Some (Ok a, s) => Some (Ok a, s)
  end.
(** A deferred call runs whether [m] fails or not. *)
Definition defer {A} (m : G A) (final : St -> St) : G A := fun s =>
  match m s with Some (r, s) => Some (r, final s) | None => None end.
Definition get_driver : G Driver := fun s => Some (Ok (st_driver s), s).
Definition with_driver {A} (f : Driver -> option (result A * Driver)) : G A := fun s =>
  match f (st_driver s) with Some (r, d) => Some (r, set_driver d s) | None => None end.

Declare Scope nvcdi_scope.
Delimit Scope nvcdi_scope with nvcdi.
Notation "'use' x '<-' m ';' k" := (bind m (fun x => k))
  (at level 10, x name, m at level 100, k at level 200) : nvcdi_scope.
Notation "'use_' m ';' k" := (bind m (fun _ => k)) (at level 10, m at level 100, k at level 200) : nvcdi_scope.
#[local] Open Scope nvcdi_scope.

Fixpoint map_G {A B} (f : A -> G B) (l : list A) : G (list B) :=
  match l with
  | [] => ret []
  | x :: l => use y <- f x; use ys <- map_G f l; ret (y :: ys)
  end.

(** A query of the management library; without a reference to it the answer
    is an error. *)
Definition query {A} (call : string) (r : result A) : G A := fun s =>
  match st_nvml s with
  | O => Some (Err "ERROR_UNINITIALIZED", add_misuse call s)
  | S _ => Some (r, s)
  end.
Definition sandbox_query {A} (call : string) (r : result A) : G A := fun s =>
  match st_sandbox s with
  | Some (S _) => Some (r, s)
  | _ => Some (r, add_misuse call s)
  end.

Section Libraries.
Context `{Nvml} `{Sandbox}.

(** [nvmllib.init]: a sandbox library that cannot be initialised is given up. *)
Definition sandbox_init (s : St) : St :=
  match st_sandbox s with
  | None => s
  | Some n => match sandbox_Init (Root (st_driver s)) with
              | None => set_sandbox (Some (S n)) s
              | Some _ => set_sandbox None s
              end
  end.
Definition init : G unit := fun s =>
  match nvml_Init with
  | Some e => Some (Err ("failed to initialize NVML: " +:+ e), s)
  | None => Some (Ok tt, sandbox_init (set_nvml (S (st_nvml s)) s))
  end.
(** [nvmllib.tryShutdown]. Shutting down a loaded library succeeds. *)
Definition sandbox_shutdown (s : St) : St :=
  match st_sandbox s with None => s | Some n => set_sandbox (Some (pred n)) s end.
Definition tryShutdown (s : St) : St :=
  let s := sandbox_shutdown s in set_nvml (pred (st_nvml s)) s.
(** [init] followed by a deferred [tryShutdown]. *)
Definition with_init {A} (m : G A) : G A := use_ init; defer m tryShutdown.

(** [devicelib.VisitDevices] with the visited indices and handles. *)
Fixpoint visit_loop {A} (visit : Z -> Handle -> G A) (idx : list Z) : G (list A) :=
  match idx with
  | [] => ret []
  | i :: idx =>
      use d <- gwrap ("error getting device handle for index '" +:+ fmt_Z i +:+ "'")
        (query "DeviceGetHandleByIndex" (DeviceGetHandleByIndex i));
      use skipped <- gwrap "error checking whether device is skipped" (query "isSkipped" (dev_isSkipped d));
      if (skipped : bool) then visit_loop visit idx
      else
        use a <- gwrap "error visiting device" (visit i d);
        use rest <- visit_loop visit idx;
        ret (a :: rest)
  end.
Definition indices (count : Z) : list Z := map Z.of_nat (seq 0 (Z.to_nat count)).
Definition VisitDevices {A} (visit : Z -> Handle -> G A) : G (list A) :=
  use count <- gwrap "error getting device count" (query "DeviceGetCount" DeviceGetCount);
  visit_loop visit (indices count).
(** [devicelib.VisitMigDevices] *)
Definition VisitMigDevices {A} (visit : Z -> Handle -> Z -> Handle -> G A) : G (list (list A)) :=
  gwrap "error visiting devices" (VisitDevices (fun i d =>
    use migs <- gwrap "error visiting device" (query "GetMigDevices" (dev_MigDevices d));
    gwrap "error visiting device" (map_G (fun jm : Z * Handle => gwrap "error visiting MIG device" (visit i d jm.1 jm.2)) migs))).
End Libraries.
