(* ===== verification/Dgpu.v ===== *)
(** * Discrete GPUs (src/internal/platform-support/dgpu)

    The discoverers of a full GPU and of a MIG device: through the sandbox
    library if it is available (nvsandboxutils.go), otherwise through the
    management library (nvml.go, by-path-hooks.go). The operations of a
    discoverer are evaluated when it is made; the source evaluates them right
    after, in the same run, and caches them ([WithCache]). *)
From S2P Require Import Prelude GoStrings Glob Lookup DriverRoot ProcInfo Discover DiscoverDriver Nvml.
#[local] Open Scope nvcdi_scope.

Definition attempt {A} (m : G A) : G (result A) := fun s =>
  match m s with None => None | Some (r, s) => Some (Ok r, s) end.

Section Dgpu.
Context `{Host} `{HostFiles} `{Nvml} `{Sandbox} (hookCreator : HookCreator).

(** ** Links to DRM nodes (by-path-hooks.go) *)

Definition by_path_link (devRoot : string) (selectedDevices : list string) (c : string) : option string :=
  let linkPath := path_join [devRoot; c] in
  match os_Readlink linkPath with
  | None => None
  | Some device =>
      let deviceNode := if is_abs device then device else path_join [path_dir linkPath; device] in
      if bool_decide (deviceNode ∈ selectedDevices) then Some (device +:+ "::" +:+ linkPath) else None
  end.
Definition deviceNodeLinks (devRoot pciBusID : string) (deviceNodes : Discover) : result (list string) :=
  let? devices := wrap "failed to discover device nodes" (Devices deviceNodes) in
  match devices with
  | [] => Ok []
  | _ => Ok (omap (by_path_link devRoot (map Device_HostPath devices))
           ["/dev/dri/by-path/pci-" +:+ pciBusID +:+ "-card"; "/dev/dri/by-path/pci-" +:+ pciBusID +:+ "-render"])
  end.
Definition byPathHookDiscoverer (devRoot pciBusID : string) (deviceNodes : Discover) : Discover :=
  mkDiscover (Ok []) (Ok []) (Ok [])
    (let? links := wrap "failed to discover DRA device links" (deviceNodeLinks devRoot pciBusID deviceNodes) in
     Ok (match links with [] => [] | _ => Hook_Hooks (hookCreator CreateSymlinksHook links) end)).

(** ** The management library (nvml.go) *)

Definition GetMinorNumber (d : Handle) : G Z := query "GetMinorNumber" (dev_GetMinorNumber d).
Definition getDevNodePath (d : Handle) : G string :=
  use minor <- gwrap "error getting GPU device minor number" (GetMinorNumber d);
  ret ("/dev/nvidia" +:+ fmt_Z minor).

Definition newNvmlDGPUDiscoverer (d : Handle) : G Discover :=
  use path <- gwrap "error getting device node path" (getDevNodePath d);
  use pciBusID <- gwrap "error getting PCI info for device" (query "GetPCIBusID" (dev_GetPCIBusID d));
  use drmDeviceNodes <- gwrap ("failed to determine DRM devices for " +:+ pciBusID) (lift (GetDeviceNodesByBusID pciBusID));
  use driver <- get_driver;
  let deviceNodes := NewCharDeviceDiscoverer (DevRoot driver) (path :: drmDeviceNodes) in
  ret (Merge [Some deviceNodes; Some (byPathHookDiscoverer (DevRoot driver) pciBusID deviceNodes)]).

Definition getPlacementInfo (parent mig : Handle) : G (Z * Z * Z) :=
  use gpu <- gwrap "error getting GPU minor" (GetMinorNumber parent);
  use gi <- gwrap "error getting GPU Instance ID" (query "GetGpuInstanceId" (dev_GetGpuInstanceId mig));
  use ci <- gwrap "error getting Compute Instance ID" (query "GetComputeInstanceId" (dev_GetComputeInstanceId mig));
  ret (gpu, gi, ci).
Definition newNvmlMigDiscoverer (parent mig : Handle) : G Discover :=
  match NewMigCaps with
  | Err e => fail ("error getting MIG capability device paths: " +:+ e)
  | Ok None => fail "error getting MIG capability device paths: <nil>"
  | Ok (Some migCaps) =>
      use info <- gwrap "error getting placement info" (getPlacementInfo parent mig);
      let '(gpu, gi, ci) := info in
      use giCapDevicePath <- gwrap "failed to get GI cap device path"
        (lift (GetCapDevicePath migCaps (NewGPUInstanceCap gpu gi)));
      use ciCapDevicePath <- gwrap "failed to get CI cap device path"
        (lift (GetCapDevicePath migCaps (NewComputeInstanceCap gpu gi ci)));
      use parentPath <- getDevNodePath parent;
      use driver <- get_driver;
      ret (NewCharDeviceDiscoverer (DevRoot driver) [parentPath; giCapDevicePath; ciCapDevicePath])
  end.

(** ** The sandbox library (nvsandboxutils.go) *)

(** The loop of [Devices] with the links that it leaves behind, also when it
    fails. *)
Definition sandbox_device (devRoot : string) (info : GpuFileInfo) : Device :=
  mkDevice (info_Path info)
    (if String.eqb devRoot "/" then info_Path info else trim_prefix (info_Path info) devRoot).
Fixpoint sandbox_walk (devRoot : string) (isMig : bool) (infos : list GpuFileInfo) (devices : list Device)
  (links : list string) : G (result (list Device) * list string) :=
  match infos with
  | [] => ret (Ok devices, links)
  | info :: infos =>
      match info_SubType info with
      | NV_DEV_DRI_CARD | NV_DEV_DRI_RENDERD =>
          sandbox_walk devRoot isMig infos (if isMig then devices else devices ++ [sandbox_device devRoot info]) links
      | NV_DEV_NVIDIA | NV_DEV_NVIDIA_CAPS_NVIDIA_CAP =>
          sandbox_walk devRoot isMig infos (devices ++ [sandbox_device devRoot info]) links
      | NV_DEV_DRI_CARD_SYMLINK | NV_DEV_DRI_RENDERD_SYMLINK =>
          if isMig || negb (info_isContent info) then sandbox_walk devRoot isMig infos devices links
          else
            use target <- attempt (sandbox_query "GetFileContent" (GetFileContent (info_Path info)));
            match target with
            | Err e => ret (Err ("failed to get symlink: " +:+ e), links)
            | Ok target => sandbox_walk devRoot isMig infos devices (links ++ [target +:+ "::" +:+ info_Path info])
            end
      | OtherSubType => sandbox_walk devRoot isMig infos devices links
      end
  end.
Definition sandbox_Devices (devRoot : string) (isMig : bool) (uuid : string)
  : G (result (list Device) * list string) :=
  use infos <- attempt (sandbox_query "GetGpuResource" (GetGpuResource uuid));
  match infos with
  | Err e => ret (Err ("failed to get GPU resource: " +:+ e), [])
  | Ok infos => sandbox_walk devRoot isMig infos [] []
  end.

Definition sandbox_available : G bool := fun s =>
  Some (Ok (match st_sandbox s with Some _ => true | None => false end), s).
Definition newNvsandboxutilsDGPUDiscoverer (isMig : bool) (d : Handle) : G (option Discover) :=
  use available <- sandbox_available;
  if negb (available : bool) then ret None
  else
    use uuid <- gwrap "failed to get device UUID" (query "GetUUID" (dev_GetUUID d));
    use driver <- get_driver;
    use r <- sandbox_Devices (trim_suffix (clean (DevRoot driver)) "/dev") isMig uuid;
    let '(devices, links) := r in
    ret (Some (mkDiscover devices (Ok []) (Ok [])
      (Ok (match links with [] => [] | _ => Hook_Hooks (hookCreator CreateSymlinksHook links) end)))).

(** ** The discoverers (dgpu.go) *)

Definition first_valid (sandbox : result (option Discover)) (nvml : result Discover) : G Discover :=
  let ds := match sandbox with Ok (Some d) => [Some d] | _ => [] end ++ match nvml with Ok d => [Some d] | Err _ => [] end in
  match ds with
  | [] => fail (join newline (match sandbox with Err e => [e] | Ok _ => [] end ++ match nvml with Err e => [e] | Ok _ => [] end))
  | _ => ret (FirstValid ds)
  end.
Definition NewForDevice (d : Handle) : G Discover :=
  use sandbox <- attempt (newNvsandboxutilsDGPUDiscoverer false d);
  use nvml <- attempt (newNvmlDGPUDiscoverer d);
  first_valid sandbox nvml.
Definition NewForMigDevice (d mig : Handle) : G Discover :=
  use sandbox <- attempt (newNvsandboxutilsDGPUDiscoverer true mig);
  use nvml <- attempt (newNvmlMigDiscoverer d mig);
  first_valid sandbox nvml.
End Dgpu.
