(* ===== verification/NvcdiDriver.v ===== *)
(** * Driver files in CDI specifications (src/pkg/nvcdi)

    The discoverers of driver libraries, firmware and binaries
    (driver-nvml.go, common-nvml.go), of the WSL driver (driver-wsl.go,
    device-wsl.go), of management devices (management.go) and of the hook for
    folders of device nodes (workarounds-device-folder-permissions.go).

    The release of the kernel, the paths that dxcore reports, the sonames of
    libraries and the linker cache are parameters. *)
From S2P Require Import Prelude GoStrings Glob Lookup DriverRoot ProcInfo Discover DiscoverDriver Nvml.
#[local] Open Scope nvcdi_scope.

(** ** Folders of device nodes *)

Definition allowedPaths : list string := ["/dev/dri"; "/dev/nvidia-caps"].
Fixpoint device_folders (devices : list Device) (seen folders : list string) : list string :=
  match devices with
  | [] => folders
  | d :: devices =>
      let df := path_dir (Device_Path d) in
      if bool_decide (df ∈ seen) || negb (bool_decide (df ∈ allowedPaths)) then device_folders devices seen folders
      else
        let folders := folders ++ [df] in
        if Nat.eqb (length folders) (length allowedPaths) then folders
        else device_folders devices (df :: seen) folders
  end.
Definition getDeviceSubfolders (devices : Discover) : result (list string) :=
  let? devices := wrap "failed to get devices" (Devices devices) in Ok (device_folders devices [] []).
Definition newDeviceFolderPermissionHookDiscoverer (hookCreator : HookCreator) (devices : Discover) : Discover :=
  mkDiscover (Ok []) (Ok []) (Ok [])
    (let? folders := wrap "failed to get device subfolders" (getDeviceSubfolders devices) in
     Ok (Hook_Hooks (hookCreator ChmodHook folders))).

(** ** Management devices *)

Definition management_patterns : list string :=
  ["/dev/nvidia*"; "/dev/nvidia-caps/nvidia-cap*"; "/dev/nvidia-modeset"; "/dev/nvidia-uvm-tools"; "/dev/nvidia-uvm";
   "/dev/nvidiactl"; "/dev/nvidia-caps-imex-channels/channel*"].
Definition nodeIsBlocked (path : string) : bool :=
  existsb (has_prefix (path_base path)) ["nvidia-fs"; "nvidia-nvswitch"; "nvidia-nvlink"].
Definition managementDiscoverer (d : Discover) : Discover :=
  mkDiscover (let? devices := Devices d in Ok (List.filter (fun x => negb (nodeIsBlocked (Device_HostPath x))) devices))
    (EnvVars d) (Mounts d) (Hooks d).
Definition newManagementDeviceDiscoverer `{Host} (devRoot : string) (hookCreator : HookCreator) : Discover :=
  let deviceNodes := NewCharDeviceDiscoverer devRoot management_patterns in
  Merge [Some (managementDiscoverer deviceNodes); Some (newDeviceFolderPermissionHookDiscoverer hookCreator deviceNodes)].

(** ** WSL *)

Definition dxgDeviceNode : string := "/dev/dxg".
Definition requiredDriverStoreFiles : list string :=
  ["libcuda.so.1.1"; "libcuda_loader.so"; "libnvidia-ptxjitcompiler.so.1"; "libnvidia-ml.so.1"; "libnvidia-ml_loader.so";
   "libdxcore.so"; "libnvdxgdmal.so.1"; "nvcubins.bin"; "nvidia-smi"].
Definition newDXGDeviceDiscoverer `{Host} (devRoot : string) : Discover := NewCharDeviceDiscoverer devRoot [dxgDeviceNode].

Definition nvidiaSMI_target (ms : list Mount) : string :=
  match List.find (fun m => String.eqb (path_base (Mount_Path m)) "nvidia-smi") ms with
  | Some m => Mount_Path m
  | None => ""
  end.
Definition nvidiaSMISimlinkHook (mountsFrom : Discover) (hookCreator : HookCreator) : Discover :=
  mkDiscover (Ok []) (Ok []) (Ok [])
    (let? ms := wrap "failed to discover mounts" (Mounts mountsFrom) in
     let target := nvidiaSMI_target ms in
     Ok (if String.eqb target "" then []
         else Hook_Hooks (hookCreator CreateSymlinksHook [target +:+ "::" +:+ "/usr/bin/nvidia-smi"]))).

(** [adapters] are the store paths of the adapters or the error of
    [dxcore.Init]. *)
Definition GetDriverStorePaths (adapters : list string) : list string := dedup_by id ∅ adapters.
Definition newWSLDriverDiscoverer `{Host} (adapters : result (list string)) (driverRoot : string)
  (hookCreator : HookCreator) : result Discover :=
  let? adapters := wrap "failed to initialize dxcore" adapters in
  match GetDriverStorePaths adapters with
  | [] => Err "no driver store paths found"
  | driverStorePaths =>
      let driverStoreMounts :=
        NewMounts (Some (NewFileLocator [WithSearchPaths (driverStorePaths ++ ["/usr/lib/wsl/lib"]); WithCount 1]))
          driverRoot requiredDriverStoreFiles in
      Ok (Merge [Some driverStoreMounts; Some (nvidiaSMISimlinkHook driverStoreMounts hookCreator);
                 Some (NewLDCacheUpdateHook driverStoreMounts hookCreator)])
  end.

(** ** Driver files *)

Definition control_device_nodes : list string :=
  ["/dev/nvidia-modeset"; "/dev/nvidia-uvm-tools"; "/dev/nvidia-uvm"; "/dev/nvidiactl"].
Definition explicitLibraries : list string :=
  ["libEGL.so"; "libGL.so"; "libGLESv1_CM.so"; "libGLESv2.so"; "libGLX.so"; "libGLdispatch.so"; "libOpenCL.so";
   "libOpenGL.so"; "libnvidia-api.so"; "libnvidia-egl-xcb.so"; "libnvidia-egl-xlib.so"].
Definition driver_binaries : list string :=
  ["nvidia-smi"; "nvidia-debugdump"; "nvidia-persistenced"; "nvidia-cuda-mps-control"; "nvidia-cuda-mps-server";
   "nvidia-imex"; "nvidia-imex-ctl"].

Section Driver.
Context `{Host} `{HostFiles} (hookCreator : HookCreator) (goarch : string) (uname : result string)
  (getSoname : string -> result string) (resolve : string -> option (list string))
  (libs64 : string -> option (list string)) (explicit : bool).

Definition libraries_of (d : DriverRoot.Driver) : Locator := DriverRoot.Libraries resolve libs64 d.
Definition driver_version : G string := with_driver (fun d => DriverRoot.Version (libraries_of d) d).
Definition driver_lib_directory : G string := with_driver (fun d => DriverRoot.GetDriverLibDirectory (libraries_of d) d).
Definition driver_library_locator (additionalDirs : list string) : G Locator :=
  gwrap "failed to get driver library locator"
    (with_driver (fun d => DriverRoot.DriverLibraryLocator (libraries_of d) d additionalDirs)).

Definition getVersionLibs (version : string) : G (list string) :=
  use libraries <- driver_library_locator ["vdpau"];
  use driver <- get_driver;
  match libraries ("*.so." +:+ version) with
  | Failed e => fail ("failed to locate libraries for driver version " +:+ version +:+ ": " +:+ msg e)
  | Found libs =>
      let root := DriverRoot.Root driver in
      ret (if String.eqb root "/" || String.eqb root "" then libs else map (fun lib => trim_prefix lib root) libs)
  end.
Definition getVersionSuffixDriverLibraryMounts (version : string) : G Discover :=
  use paths <- gwrap "failed to get libraries for driver version" (getVersionLibs version);
  use driver <- get_driver;
  let root := DriverRoot.Root driver in
  ret (NewMounts (Some (NewFileLocator [WithRoot root])) root paths).
Definition getExplicitDriverLibraryMounts : G (option Discover) :=
  if negb explicit then ret None
  else
    use locator <- driver_library_locator [];
    use driver <- get_driver;
    ret (Some (NewMounts (Some locator) (DriverRoot.Root driver) explicitLibraries)).

Definition NewDriverLibraryDiscoverer (version : string) : G Discover :=
  use versionSuffixLibraryMounts <- getVersionSuffixDriverLibraryMounts version;
  use explicitLibraryMounts <- getExplicitDriverLibraryMounts;
  let libraries := Merge [Some versionSuffixLibraryMounts; explicitLibraryMounts] in
  use driverLibDirectory <- gwrap "failed to get libcuda.so parent directory path" driver_lib_directory;
  ret (Merge [Some (WithDriverDotSoSymlinks getSoname linkExists libraries "" hookCreator);
              Some (NewCUDACompatHookDiscoverer hookCreator (Some (mkCompatOptions version "" "")));
              Some (NewLDCacheUpdateHook libraries hookCreator);
              Some (Hook_Discover (hookCreator DisableDeviceNodeModificationHook []));
              Some (EnvVar_Discover (mkEnvVar "NVIDIA_CTK_LIBCUDA_DIR" driverLibDirectory))]).

Definition getCustomFirmwareClassPath : string :=
  match os_ReadFile "/sys/module/firmware_class/parameters/path" with None => "" | Some p => trim_space p end.
Definition getFirmwareSearchPaths : result (list string) :=
  let p := getCustomFirmwareClassPath in
  let? utsRelease := wrap "failed to get UTS_RELEASE" uname in
  Ok ((if String.eqb p "" then [] else [p]) ++
      [path_join ["/lib/firmware/updates/"; utsRelease]; "/lib/firmware/updates/";
       path_join ["/lib/firmware/"; utsRelease]; "/lib/firmware/"]).
Definition newDriverFirmwareDiscoverer (root version : string) : result Discover :=
  let? paths := wrap "failed to get firmware search paths" getFirmwareSearchPaths in
  Ok (NewMounts (Some (NewFileLocator [WithRoot root; WithSearchPaths paths])) root
        [path_join ["nvidia"; version; "gsp*.bin"]]).
Definition newDriverBinariesDiscoverer (root : string) : Discover :=
  NewMounts (Some (NewExecutableLocator root)) root driver_binaries.

Definition newDriverVersionDiscoverer : G Discover :=
  use version <- gwrap "failed to determine driver version" driver_version;
  if String.eqb version "" || String.eqb version "*.*"
  then fail ("failed to determine driver version (" +:+ quote version +:+ "): %!w(<nil>)")
  else
    use_ gwrap "failed to get libcuda.so parent path" driver_lib_directory;
    use libraries <- gwrap "failed to create discoverer for driver libraries" (NewDriverLibraryDiscoverer version);
    use driver <- get_driver;
    let root := DriverRoot.Root driver in
    use firmwares <- gwrap "failed to create discoverer for GSP firmware"
      (lift (newDriverFirmwareDiscoverer root version));
    ret (Merge [Some libraries; Some (NewIPCDiscoverer root); Some firmwares; Some (newDriverBinariesDiscoverer root)]).

Definition controlDeviceNodeDiscoverer (devRoot : string) : Discover :=
  NewCharDeviceDiscoverer devRoot control_device_nodes.
(** A failure to find the graphics files is only logged. *)
Definition newCommonNVMLDiscoverer : G Discover :=
  use graphicsMounts <- catch
    (use g <- with_driver (fun d => NewGraphicsMountsDiscoverer goarch (libraries_of d) d hookCreator); ret (Some g))
    (fun _ => ret None);
  use driverFiles <- gwrap "failed to create discoverer for driver files" newDriverVersionDiscoverer;
  use driver <- get_driver;
  ret (Merge [Some (controlDeviceNodeDiscoverer (DriverRoot.DevRoot driver)); graphicsMounts; Some driverFiles]).
End Driver.
