(* ===== verification/NvcdiOptions.v ===== *)
(** * Options of the CDI generator (src/pkg/nvcdi)

    Modes (mode.go), names of devices (namer.go), the options (options.go) and
    the interface [SpecGenerator] through which the runtime uses the
    generator; Nvcdi.v implements it. *)
From S2P Require Import Prelude GoStrings CDISpec Transform Discover Nvml Tegra.

(** ** Modes *)

Definition ModeAuto : string := "auto".
Definition ModeNvml : string := "nvml".
Definition ModeWsl : string := "wsl".
Definition ModeManagement : string := "management".
Definition ModeGdrcopy : string := "gdrcopy".
Definition ModeGds : string := "gds".
Definition ModeMofed : string := "mofed".
Definition ModeCSV : string := "csv".
Definition ModeImex : string := "imex".
Definition ModeNvswitch : string := "nvswitch".
Definition AllModes : list string :=
  [ModeAuto; ModeCSV; ModeGdrcopy; ModeGds; ModeImex; ModeManagement; ModeMofed; ModeNvml; ModeNvswitch; ModeWsl].
Definition IsValidMode (mode : string) : bool := bool_decide (mode ∈ AllModes).
(** [options.resolveMode] *)
Definition resolveMode `{PropertyExtractor} (mode : string) : string :=
  if negb (String.eqb mode ModeAuto) then mode
  else match ResolvePlatform with
       | PlatformNVML => ModeNvml
       | PlatformTegra => ModeCSV
       | PlatformWSL => ModeWsl
       | PlatformUnknown => ModeNvml
       end.

(** ** Names of devices *)

(** A [DeviceNamer]; [UUIDer]s are the results of their [GetUUID]. *)
Record DeviceNamer := mkDeviceNamer {
  GetDeviceName : Z -> result string -> result string;
  GetMigDeviceName : Z -> result string -> Z -> result string -> result string;
}.
Definition deviceNameIndex (gpuPrefix migPrefix : string) : DeviceNamer :=
  mkDeviceNamer (fun i _ => Ok (gpuPrefix +:+ fmt_Z i)) (fun i _ j _ => Ok (migPrefix +:+ fmt_Z i +:+ ":" +:+ fmt_Z j)).
Definition deviceNameUUID : DeviceNamer :=
  mkDeviceNamer (fun _ d => wrap "failed to get device UUID" d) (fun _ _ _ mig => wrap "failed to get device UUID" mig).
Definition DeviceNameStrategyIndex : string := "index".
Definition DeviceNameStrategyTypeIndex : string := "type-index".
Definition DeviceNameStrategyUUID : string := "uuid".
Definition NewDeviceNamer (strategy : string) : result DeviceNamer :=
  if String.eqb strategy DeviceNameStrategyIndex then Ok (deviceNameIndex "" "")
  else if String.eqb strategy DeviceNameStrategyTypeIndex then Ok (deviceNameIndex "gpu" "mig")
  else if String.eqb strategy DeviceNameStrategyUUID then Ok deviceNameUUID
  else Err ("invalid device name strategy: " +:+ strategy).

Definition collect_names (name : DeviceNamer -> result string) (l : list DeviceNamer) : result (list string) :=
  let? names := rmap name l in
  match List.filter (fun n => negb (String.eqb n "")) names with
  | [] => Err "no names defined"
  | names => Ok names
  end.
Definition GetDeviceNames (l : list DeviceNamer) (i : Z) (d : result string) : result (list string) :=
  collect_names (fun n => GetDeviceName n i d) l.
Definition GetMigDeviceNames (l : list DeviceNamer) (i : Z) (d : result string) (j : Z) (mig : result string)
  : result (list string) := collect_names (fun n => GetMigDeviceName n i d j mig) l.

(** ** Options *)

Definition FeatureEnableExplicitDriverLibraries : string := "enable-explicit-driver-libraries".
Definition FeatureDisableNvsandboxUtils : string := "disable-nvsandboxutils".
Definition FeatureEnableCoherentAnnotations : string := "enable-coherent-annotations".
Definition FeatureDisableMultipleCSVDevices : string := "disable-multiple-csv-devices".
Definition FeatureNoAdditionalGIDsForDeviceNodes : string := "no-additional-gids-for-device-nodes".
Definition defaultOrinCompatContainerRoot : string := "/usr/local/cuda/compat_orin".
Definition classImexChannel : string := "imex-channel".

Record csvOptions := mkCsvOptions { Files : list string; IgnorePatterns : list string; CompatContainerRoot : string }.
(** The factory of edits is known by whether it leaves out additional GIDs. *)
Record options := mkOptions {
  mode : string; deviceNamers : list DeviceNamer; driverRoot : string; devRoot : string;
  nvidiaCDIHookPath : string; ldconfigPath : string; configSearchPaths : list string;
  librarySearchPaths : list string; csv : csvOptions; vendor : string; class : string;
  mergedDeviceOptions : list MergedDeviceOption; featureFlags : gset string;
  disabledHooks : list string; enabledHooks : list string; editsFactory : option bool;
}.
Definition initial_options : options :=
  mkOptions ModeAuto [] "/" "" "/usr/bin/nvidia-cdi-hook" "" [] [] (mkCsvOptions [] [] "") "" "" [] ∅ [] [] None.

Inductive Option_ : Type :=
| WithDeviceNamers (namers : list DeviceNamer)
| WithDriverRoot (root : string)
| WithDevRoot (root : string)
| WithEditsFactory (noAdditionalGIDs : bool)
| WithNVIDIACDIHookPath (path : string)
| WithLdconfigPath (path : string)
| WithMode (mode : string)
| WithVendor (vendor : string)
| WithClass (class : string)
| WithMergedDeviceOptions (opts : list MergedDeviceOption)
| WithCSVFiles (csvFiles : list string)
| WithCSVIgnorePatterns (csvIgnorePatterns : list string)
| WithCSVCompatContainerRoot (csvCompatContainerRoot : string)
| WithConfigSearchPaths (paths : list string)
| WithLibrarySearchPaths (paths : list string)
| WithDisabledHooks (hooks : list string)
| WithEnabledHooks (hooks : list string)
| WithFeatureFlags (featureFlags : list string).

(** The first release of the flag had a typo. *)
Definition normalize_flag (f : string) : string :=
  if String.eqb f "disable-nvsandbox-utils" then FeatureDisableNvsandboxUtils else f.

Definition apply_option (o : options) (opt : Option_) : options :=
  let '(mkOptions m ns dr dv hp lp cp sp cs vn cl mo ff dh eh ef) := o in
  match opt with
  | WithDeviceNamers ns => mkOptions m ns dr dv hp lp cp sp cs vn cl mo ff dh eh ef
  | WithDriverRoot dr => mkOptions m ns dr dv hp lp cp sp cs vn cl mo ff dh eh ef
  | WithDevRoot dv => mkOptions m ns dr dv hp lp cp sp cs vn cl mo ff dh eh ef
  | WithEditsFactory b => mkOptions m ns dr dv hp lp cp sp cs vn cl mo ff dh eh (Some b)
  | WithNVIDIACDIHookPath hp => mkOptions m ns dr dv hp lp cp sp cs vn cl mo ff dh eh ef
  | WithLdconfigPath lp => mkOptions m ns dr dv hp lp cp sp cs vn cl mo ff dh eh ef
  | WithMode m => mkOptions m ns dr dv hp lp cp sp cs vn cl mo ff dh eh ef
  | WithVendor vn => mkOptions m ns dr dv hp lp cp sp cs vn cl mo ff dh eh ef
  | WithClass cl => mkOptions m ns dr dv hp lp cp sp cs vn cl mo ff dh eh ef
  | WithMergedDeviceOptions mo => mkOptions m ns dr dv hp lp cp sp cs vn cl mo ff dh eh ef
  | WithCSVFiles l => mkOptions m ns dr dv hp lp cp sp (mkCsvOptions l (IgnorePatterns cs) (CompatContainerRoot cs)) vn cl mo ff dh eh ef
  | WithCSVIgnorePatterns l => mkOptions m ns dr dv hp lp cp sp (mkCsvOptions (Files cs) l (CompatContainerRoot cs)) vn cl mo ff dh eh ef
  | WithCSVCompatContainerRoot r => mkOptions m ns dr dv hp lp cp sp (mkCsvOptions (Files cs) (IgnorePatterns cs) r) vn cl mo ff dh eh ef
  | WithConfigSearchPaths cp => mkOptions m ns dr dv hp lp cp sp cs vn cl mo ff dh eh ef
  | WithLibrarySearchPaths sp => mkOptions m ns dr dv hp lp cp sp cs vn cl mo ff dh eh ef
  | WithDisabledHooks hs => mkOptions m ns dr dv hp lp cp sp cs vn cl mo ff (dh ++ hs) eh ef
  | WithEnabledHooks hs => mkOptions m ns dr dv hp lp cp sp cs vn cl mo ff dh (eh ++ hs) ef
  | WithFeatureFlags fs => mkOptions m ns dr dv hp lp cp sp cs vn cl mo (ff ∪ list_to_set (map normalize_flag fs)) dh eh ef
  end.

Definition has_flag (o : options) (f : string) : bool := bool_decide (f ∈ featureFlags o).

(** [populateOptions] without the libraries. *)
Definition populateOptions `{PropertyExtractor} (opts : list Option_) : options :=
  let '(mkOptions m ns dr dv hp lp cp sp cs vn cl mo ff dh eh ef) := foldl apply_option initial_options opts in
  let ns := match ns with [] => [deviceNameIndex "" ""] | _ => ns end in
  let dv := if String.eqb dv "" then dr else dv in
  let m := resolveMode m in
  let files := if String.eqb m ModeCSV then match Files cs with [] => DefaultFileList | l => l end else Files cs in
  let compat := if String.eqb m ModeCSV && String.eqb (CompatContainerRoot cs) "" then defaultOrinCompatContainerRoot
                else CompatContainerRoot cs in
  let dh := if String.eqb m ModeManagement then dh ++ [EnableCudaCompatHook; DisableDeviceNodeModificationHook] else dh in
  let ef := match ef with None => Some (bool_decide (FeatureNoAdditionalGIDsForDeviceNodes ∈ ff)) | Some b => Some b end in
  mkOptions m ns dr dv hp lp cp sp (mkCsvOptions files (IgnorePatterns cs) compat) vn cl mo ff dh eh ef.

Definition getVendorOrDefault (o : options) : string :=
  if negb (String.eqb (vendor o) "") then vendor o
  else if String.eqb (mode o) ModeManagement then "management.nvidia.com" else "nvidia.com".
Definition getClassOrDefault (o : options) : string :=
  if negb (String.eqb (class o) "") then class o
  else if String.eqb (mode o) ModeImex then classImexChannel
  else if existsb (String.eqb (mode o)) [ModeGdrcopy; ModeGds; ModeMofed; ModeNvswitch] then mode o
  else "gpu".

(** ** The generator as the runtime sees it *)

(** The result of [New] and, inside, of [GetSpec]; [None] is a panic. *)
Class SpecGenerator := {
  GetSpec : list Option_ -> list string -> option (result (result spec));
}.
