(* ===== verification/Nvcdi.v ===== *)
(** * Generating CDI specifications (src/pkg/nvcdi)

    The generators of the modes nvml (lib-nvml.go, full-gpu-nvml.go,
    mig-device-nvml.go), csv (lib-csv.go), management (management.go), wsl
    (lib-wsl.go), imex (lib-imex.go) and of the gated modes (gated.go), the
    library that chooses among them (lib.go) and the wrapper that makes the
    specification (wrapper.go).

    A generator of device specs is an action that can run later: as in the
    source, the generators that use the management library initialise it again
    when they run. *)
From S2P Require Import Prelude GoStrings GoPaths Glob Lookup DriverRoot ProcInfo CDISpec Transform SpecBuilder Image Discover DiscoverDriver Edits Tegra Nvml Dgpu NvcdiDriver NvcdiOptions.
#[local] Open Scope nvcdi_scope.

(** [DeviceSpecGenerator] *)
Definition Generator : Type := G (list device).
(** [DeviceSpecGenerators.GetDeviceSpecs] *)
Definition all_specs (gs : list Generator) : Generator := use ls <- map_G id gs; ret (concat ls).

Definition named_devices (names : list string) (annotations : gmap string string) (e : edits) : list device :=
  map (fun name => CDISpec.mkDevice name annotations e) names.
Definition all_device (e : edits) : list device := named_devices ["all"] ∅ e.

Section Nvcdi.
Context `{MapRange} `{SortSlice} `{Host} `{HostFiles} `{PropertyExtractor} `{Nvml} `{Sandbox}
  (DeviceFromPath : string -> option DeviceInfo) (goarch : string) (uname : result string)
  (getSoname : string -> result string) (resolve : string -> option (list string))
  (libs64 : string -> option (list string)) (resolveChain : string -> option (list string))
  (dxcore_adapters : result (list string)).
(** The library: its populated options. *)
Context (o : NvcdiOptions.options).

Definition hookCreator : HookCreator :=
  NewHookCreator [Discover.WithNVIDIACDIHookPath (NvcdiOptions.nvidiaCDIHookPath o);
    Discover.WithEnabledHooks (NvcdiOptions.enabledHooks o); Discover.WithLdconfigPath (NvcdiOptions.ldconfigPath o);
    Discover.WithDisabledHooks (NvcdiOptions.disabledHooks o)].
Definition FromDiscoverer (d : Discover) : G edits :=
  lift (Edits.FromDiscoverer DeviceFromPath (default false (editsFactory o)) d).

(** ** Full GPUs *)

Definition NewDeviceByUUID (uuid : string) : G Handle :=
  gwrap ("error getting device handle for uuid '" +:+ uuid +:+ "'")
    (query "DeviceGetHandleByUUID" (DeviceGetHandleByUUID uuid)).

Definition newFullGPUDiscoverer (additionalDiscoverers : list Discover) (d : Handle) : G Discover :=
  use deviceNodes <- gwrap "failed to create device discoverer" (NewForDevice hookCreator d);
  ret (Merge (map Some ([deviceNodes; newDeviceFolderPermissionHookDiscoverer hookCreator deviceNodes]
                        ++ additionalDiscoverers))).
Definition full_getDeviceEdits (uuid : string) (additionalDiscoverers : list Discover) : G edits :=
  use d <- NewDeviceByUUID uuid;
  use discoverer <- gwrap "failed to create device discoverer" (newFullGPUDiscoverer additionalDiscoverers d);
  gwrap "failed to create container edits for device" (FromDiscoverer discoverer).
Definition getDeviceAnnotations (flags : gset string) (uuid : string) : G (gmap string string) :=
  if negb (bool_decide (FeatureEnableCoherentAnnotations ∈ flags)) then ret ∅
  else
    use d <- NewDeviceByUUID uuid;
    use isCoherent <- gwrap "failed to check device coherence" (query "IsCoherent" (dev_IsCoherent d));
    ret {["gpu.nvidia.com/coherent" := fmt_bool isCoherent]}.
(** [fullGPUDeviceSpecGenerator.GetDeviceSpecs]; an error of the annotations
    is only logged. *)
Definition full_GetDeviceSpecs (uuid : string) (index : Z) (flags : gset string)
  (additionalDiscoverers : list Discover) : Generator :=
  use deviceEdits <- gwrap "failed to get CDI device edits" (full_getDeviceEdits uuid additionalDiscoverers);
  use names <- gwrap "failed to get device names" (lift (GetDeviceNames (deviceNamers o) index (Ok uuid)));
  use annotations <- catch (getDeviceAnnotations flags uuid) (fun _ => ret ∅);
  ret (named_devices names annotations deviceEdits).

Definition newFullGPUDeviceSpecGeneratorFromDevice (index : Z) (d : Handle) : G Generator :=
  use uuid <- gwrap "failed to get device UUID" (query "GetUUID" (dev_GetUUID d));
  ret (full_GetDeviceSpecs uuid index (featureFlags o) []).
Definition newFullGPUDeviceSpecGeneratorFromNVMLDevice (uuid : string) (d : Handle) : G Generator :=
  use index <- gwrap "failed to get device index" (query "GetIndex" (dev_GetIndex d));
  ret (full_GetDeviceSpecs uuid index (featureFlags o) []).

(** ** MIG devices *)

Definition NewMigDevice (d : Handle) : G Handle :=
  use isMig <- gwrap "error checking if device is a MIG device" (query "IsMigDeviceHandle" (dev_IsMigDeviceHandle d));
  if (isMig : bool) then ret d else fail "not a MIG device".
Definition mig_getDeviceEdits (uuid migUUID : string) : G edits :=
  use d <- NewDeviceByUUID uuid;
  use handle <- NewDeviceByUUID migUUID;
  use mig <- NewMigDevice handle;
  use deviceNodes <- gwrap "failed to create device discoverer" (NewForMigDevice hookCreator d mig);
  gwrap "failed to create container edits for Compute Instance" (FromDiscoverer deviceNodes).
Definition mig_GetDeviceSpecs (uuid : string) (index : Z) (migUUID : string) (migIndex : Z) : Generator :=
  use deviceEdits <- gwrap "failed to get CDI device edits" (mig_getDeviceEdits uuid migUUID);
  use names <- gwrap "failed to get device names"
    (lift (GetMigDeviceNames (deviceNamers o) index (Ok uuid) migIndex (Ok migUUID)));
  ret (named_devices names ∅ deviceEdits).
Definition newMIGDeviceSpecGeneratorFromDevice (i : Z) (d : Handle) (j : Z) (m : Handle) : G Generator :=
  use uuid <- gwrap "failed to get device UUID" (query "GetUUID" (dev_GetUUID d));
  use migUUID <- gwrap "failed to get MIG UUID" (query "GetUUID" (dev_GetUUID m));
  ret (mig_GetDeviceSpecs uuid i migUUID j).
Definition newMIGDeviceSpecGeneratorFromNVMLDevice (d : Handle) : G Generator :=
  use mig <- NewMigDevice d;
  use parent <- gwrap "failed to get parent device handle"
    (query "GetDeviceHandleFromMigDeviceHandle" (dev_GetDeviceHandleFromMigDeviceHandle mig));
  use parentIndex <- gwrap "failed to get parent device index" (query "GetIndex" (dev_GetIndex parent));
  use migDeviceIndex <- gwrap "failed to get MIG device index" (query "GetIndex" (dev_GetIndex d));
  newMIGDeviceSpecGeneratorFromDevice parentIndex parent migDeviceIndex mig.

(** ** The nvml mode *)

Definition emptyDeviceSpecGenerator (name : string) : Generator :=
  ret (named_devices [name] ∅ (mkEdits ["NVCT_EMPTY_DEVICE="] [] [] [] [] None [])).

Definition parse_index (s : string) : G Z :=
  match atoi s with None => fail "failed to convert device index to an int" | Some i => ret i end.
(** [normalizeDeviceID] *)
Definition normalizeDeviceID (id : string) : G string :=
  if IsUUID id then ret id
  else if IsGpuIndex id then
    use idx <- parse_index id;
    use dev <- gwrap "failed to get device handle from index" (query "DeviceGetHandleByIndex" (DeviceGetHandleByIndex idx));
    gwrap "failed to get device UUID" (query "GetUUID" (dev_GetUUID dev))
  else if IsMigIndex id then
    match cut ":" id with
    | None => fun _ => None
    | Some (a, b) =>
        use gpuIdx <- parse_index a;
        use migIdx <- parse_index b;
        use parent <- gwrap "failed to get parent device handle"
          (query "DeviceGetHandleByIndex" (DeviceGetHandleByIndex gpuIdx));
        use mig <- gwrap "failed to get MIG handle by index"
          (query "GetMigDeviceHandleByIndex" (dev_GetMigDeviceHandleByIndex parent migIdx));
        gwrap "failed to get MIG UUID" (query "GetUUID" (dev_GetUUID mig))
    end
  else fail ("identifier is not a valid UUID or index: " +:+ quote id).
Definition normalizeDeviceIDs (ids : list string) : G (list string) := map_G normalizeDeviceID ids.

Definition newDeviceSpecGeneratorFromNVMLDevice (id : string) (d : Handle) : G Generator :=
  use isMig <- query "IsMigDeviceHandle" (dev_IsMigDeviceHandle d);
  if (isMig : bool) then newMIGDeviceSpecGeneratorFromNVMLDevice d
  else newFullGPUDeviceSpecGeneratorFromNVMLDevice id d.

Definition getDeviceSpecGeneratorsForAllDevices : G (list Generator) :=
  use full <- gwrap "failed to get full GPU device editors" (VisitDevices (fun i d =>
    use isMigEnabled <- query "IsMigEnabled" (dev_IsMigEnabled d);
    if (isMigEnabled : bool) then ret [] else use g <- newFullGPUDeviceSpecGeneratorFromDevice i d; ret [g]));
  use mig <- gwrap "failed to get MIG device editors" (VisitMigDevices newMIGDeviceSpecGeneratorFromDevice);
  ret (concat full ++ concat mig).

(** The loop over the identifiers: "none" and "all" end it. *)
Fixpoint special_id (ids : list string) : option string :=
  match ids with
  | [] => None
  | id :: ids => if String.eqb id "none" || String.eqb id "all" then Some id else special_id ids
  end.
Definition getDeviceSpecGeneratorsForIDs (ids : list string) : G (list Generator) :=
  match special_id ids with
  | Some s => if String.eqb s "none" then ret [emptyDeviceSpecGenerator "none"] else getDeviceSpecGeneratorsForAllDevices
  | None =>
      use uuids <- normalizeDeviceIDs ids;
      map_G (fun uuid =>
        use d <- gwrap "failed to get device handle from UUID" (query "DeviceGetHandleByUUID" (DeviceGetHandleByUUID uuid));
        newDeviceSpecGeneratorFromNVMLDevice uuid d) uuids
  end.
(** [withInit] *)
Definition withInit (g : Generator) : Generator := with_init g.
Definition nvml_DeviceSpecGenerators (ids : list string) : G Generator :=
  use gs <- with_init (getDeviceSpecGeneratorsForIDs ids); ret (withInit (all_specs gs)).
Definition nvml_GetCommonEdits : G edits :=
  use common <- gwrap "failed to create discoverer for common entities"
    (newCommonNVMLDiscoverer hookCreator goarch uname getSoname resolve libs64
       (has_flag o FeatureEnableExplicitDriverLibraries));
  FromDiscoverer common.

(** ** The csv mode *)

Definition deviceNodeDiscoverer (m : csvGeneratorMode) : G Discover :=
  use driver <- get_driver;
  let '(mountSpecs, store) := deviceNodeMountSpecs (NvcdiOptions.Files (csv o)) m [] in
  ret (Tegra.New hookCreator getSoname resolveChain driver (NvcdiOptions.librarySearchPaths o) mountSpecs store).1.
Definition csv_GetDeviceSpecs (index : Z) (uuid : string) (m : csvGeneratorMode) : Generator :=
  use discoverer <- gwrap "failed to create discoverer for device nodes from CSV files" (deviceNodeDiscoverer m);
  use e <- gwrap "failed to create container edits for CSV files" (FromDiscoverer discoverer);
  use names <- gwrap "failed to get device name" (lift (GetDeviceNames (deviceNamers o) index (Ok uuid)));
  ret (named_devices names ∅ e).

(** Errors and a missing library all mean a single device. *)
Definition usePureCSVDeviceSpecGenerator : G bool :=
  if has_flag o FeatureDisableMultipleCSVDevices || negb HasNvml then ret true
  else catch (with_init (use numDevices <- query "DeviceGetCount" DeviceGetCount; ret (Z.leb numDevices 1)))
         (fun _ => ret true).
Definition purecsvDeviceSpecGenerators (ids : list string) : G Generator :=
  match List.find (fun id => negb (String.eqb id "all" || String.eqb id "0")) ids with
  | Some id => fail ("unsupported device id: " +:+ id)
  | None => ret (csv_GetDeviceSpecs 0 "" noGeneratorMode)
  end.

Definition isIntegratedGPU (d : Handle) : G bool :=
  match dev_GetPciInfo d with
  | None =>
      use _name <- gwrap "failed to get device name" (query "GetName" (dev_GetName d));
      ret (IsIntegratedGPUName _name)
  | Some pciInfo =>
      use info <- gwrap "failed to get PCI info" (query "GetPciInfo" pciInfo);
      let '(domain, bus, dev) := info in
      ret (Z.eqb domain 0 && Z.eqb bus 1 && Z.eqb dev 0)
  end.
Definition dGPUDeviceSpecGenerator (index : Z) (uuid : string) : G Generator :=
  if negb (Z.eqb index 1) then fail ("unexpected device index for dGPU: " +:+ fmt_Z index)
  else
    use csvDeviceNodeDiscoverer <- gwrap "failed to create discoverer for devices nodes" (deviceNodeDiscoverer dGPUGeneratorMode);
    use driver <- get_driver;
    ret (withInit (full_GetDeviceSpecs uuid index (featureFlags o)
      [controlDeviceNodeDiscoverer (DriverRoot.DevRoot driver); csvDeviceNodeDiscoverer])).
Definition iGPUDeviceSpecGenerator (index : Z) (uuid : string) : G Generator :=
  if negb (Z.eqb index 0) then fail ("unexpected device index for iGPU: " +:+ fmt_Z index)
  else ret (csv_GetDeviceSpecs index uuid iGPUGeneratorMode).
Definition csvDeviceSpecGenerator (index : Z) (uuid : string) (d : Handle) : G Generator :=
  use isIntegrated <- catch (isIntegratedGPU d)
    (fun _ => fail ("is-integrated check failed for device (index=" +:+ fmt_Z index +:+ ",uuid=" +:+ uuid +:+ ")"));
  if (isIntegrated : bool) then iGPUDeviceSpecGenerator index uuid else dGPUDeviceSpecGenerator index uuid.

Definition deviceSpecGeneratorForId (id : string) : G Generator :=
  if IsGpuUUID id || isOrinGPUID id then
    use d <- gwrap ("failed to get device handle from UUID " +:+ quote id)
      (query "DeviceGetHandleByUUID" (DeviceGetHandleByUUID id));
    use index <- gwrap "failed to get device index" (query "GetIndex" (dev_GetIndex d));
    csvDeviceSpecGenerator index id d
  else if IsGpuIndex id then
    use index <- parse_index id;
    use d <- gwrap "failed to get device handle from index" (query "DeviceGetHandleByIndex" (DeviceGetHandleByIndex index));
    use uuid <- gwrap "failed to get UUID" (query "GetUUID" (dev_GetUUID d));
    csvDeviceSpecGenerator index uuid d
  else if IsMigUUID id || IsMigIndex id
  then fail ("generating a CDI spec for MIG id " +:+ quote id +:+ " is not supported in CSV mode")
  else fail ("identifier is not a valid UUID or index: " +:+ quote id).

Definition getAllDeviceIndices : G (list string) :=
  use numDevices <- gwrap "faled to get device count" (query "DeviceGetCount" DeviceGetCount);
  ret (map fmt_Z (indices numDevices)).
Definition mixed_DeviceSpecGenerators (ids : list string) : G Generator :=
  use_ gwrap "failed to initialize nvml" init;
  defer
    (use ids <- (if existsb (String.eqb "all") ids
                 then gwrap "failed to get device indices" getAllDeviceIndices else ret ids);
     use gs <- map_G (fun id => gwrap ("failed to create device spec generator for device " +:+ quote id)
                                 (deviceSpecGeneratorForId id)) ids;
     ret (all_specs gs))
    tryShutdown.
Definition csv_DeviceSpecGenerators (ids : list string) : G Generator :=
  use pure <- usePureCSVDeviceSpecGenerator;
  if (pure : bool) then purecsvDeviceSpecGenerators ids
  else catch (mixed_DeviceSpecGenerators ids) (fun _ => purecsvDeviceSpecGenerators ids).

(** [Init] and a deferred [Shutdown] of the management library alone. *)
Definition with_nvml {A} (m : G A) : G A := fun s =>
  match nvml_Init with
  | Some e => Some (Err ("failed to initialize NVML: " +:+ e), s)
  | None => defer m (fun s => set_nvml (pred (st_nvml s)) s) (set_nvml (S (st_nvml s)) s)
  end.
Definition hasOrinDevices : G bool :=
  catch (use names <- VisitDevices (fun i d => gwrap ("device " +:+ fmt_Z i) (query "GetName" (dev_GetName d)));
         ret (existsb (fun n => contains n "Orin (nvgpu)") names))
    (fun _ => ret false).
Definition getCUDAVersionString : G string :=
  use v <- query "SystemGetCudaDriverVersion" SystemGetCudaDriverVersion;
  ret (fmt_Z (Z.quot v 1000) +:+ "." +:+ fmt_Z (Z.quot (Z.rem v 1000) 10)).
(** [nil] without the library. The error of the version is formatted with the
    return code of [Init]. *)
Definition getEnableCUDACompatHookOptions : G (option EnableCUDACompatHookOptions) :=
  if negb HasNvml then ret None
  else with_nvml
    (use orin <- hasOrinDevices;
     use hostCUDAVersion <- catch getCUDAVersionString
       (fun _ => fail ("failed to get host CUDA version: " +:+ nvml_SUCCESS));
     ret (Some (mkCompatOptions "" hostCUDAVersion (if (orin : bool) then CompatContainerRoot (csv o) else "")))).
Definition cudaCompatDiscoverer : G (option Discover) :=
  use c <- catch getEnableCUDACompatHookOptions (fun _ => ret None);
  ret (match c with None => None | Some c => Some (NewCUDACompatHookDiscoverer hookCreator (Some c)) end).
Definition driverDiscoverer : G Discover :=
  use driver <- get_driver;
  let '(mountSpecs, store) := driverMountSpecs (NvcdiOptions.Files (csv o)) (IgnorePatterns (csv o)) [] in
  let d := (Tegra.New hookCreator getSoname resolveChain driver (NvcdiOptions.librarySearchPaths o) mountSpecs store).1 in
  use compat <- cudaCompatDiscoverer;
  ret (Merge [Some d; compat; Some (NewLDCacheUpdateHook d hookCreator)]).
Definition csv_GetCommonEdits : G edits :=
  use d <- gwrap "failed to create driver discoverer from CSV files" driverDiscoverer; FromDiscoverer d.

(** ** The other modes *)

Definition management_GetDeviceSpecs : Generator :=
  use driver <- get_driver;
  use e <- gwrap "failed to create edits from discoverer"
    (FromDiscoverer (newManagementDeviceDiscoverer (DriverRoot.DevRoot driver) hookCreator));
  match CDISpec.DeviceNodes e with
  | [] => fail "no NVIDIA device nodes found"
  | _ => ret (all_device e)
  end.
(** The sandbox library is initialised as in [init]. *)
Definition management_GetCommonEdits : G edits :=
  let body :=
    use driver <- gwrap "failed to create driver library discoverer"
      (newDriverVersionDiscoverer hookCreator uname getSoname resolve libs64
         (has_flag o FeatureEnableExplicitDriverLibraries));
    gwrap "failed to create edits from discoverer" (FromDiscoverer driver) in
  fun s => defer body sandbox_shutdown (sandbox_init s).

Definition wsl_GetDeviceSpecs : Generator :=
  use driver <- get_driver;
  use e <- gwrap "failed to create container edits for DXG device"
    (FromDiscoverer (newDXGDeviceDiscoverer (DriverRoot.DevRoot driver)));
  ret (all_device e).
Definition wsl_GetCommonEdits : G edits :=
  use driver <- get_driver;
  use d <- gwrap "failed to create discoverer for WSL driver"
    (lift (newWSLDriverDiscoverer dxcore_adapters (DriverRoot.Root driver) hookCreator));
  FromDiscoverer d.

Definition getModeDiscoverer (driver : Driver) : result Discover :=
  let m := NvcdiOptions.mode o in
  if String.eqb m ModeGdrcopy then Ok (NewGDRCopyDiscoverer driver)
  else if String.eqb m ModeGds then Ok (NewGDSDiscoverer driver)
  else if String.eqb m ModeMofed then Ok (NewMOFEDDiscoverer driver)
  else if String.eqb m ModeNvswitch then Ok (NewNvSwitchDiscoverer driver)
  else Err "unrecognized mode".
Definition gated_GetDeviceSpecs : Generator :=
  use driver <- get_driver;
  use discoverer <- gwrap ("failed to create discoverer for mode " +:+ quote (NvcdiOptions.mode o))
    (lift (getModeDiscoverer driver));
  use e <- gwrap "failed to create container edits" (FromDiscoverer discoverer);
  ret (all_device e).

Definition getAllChannelIDs (devRoot : string) : result (list string) :=
  let? channels := Discover.Devices (NewCharDeviceDiscoverer devRoot ["/dev/nvidia-caps-imex-channels/channel*"]) in
  Ok (map (fun c => trim_prefix (path_base (Device_Path c)) "channel") channels).
Fixpoint getChannelIDs (devRoot : string) (ids channelIDs : list string) : result (list string) :=
  match ids with
  | [] => Ok channelIDs
  | id :: ids =>
      let trimmed := trim_prefix id "channel" in
      if String.eqb trimmed "all" then getAllChannelIDs devRoot
      else match parse_uint 64 trimmed with
           | None => Err ("invalid channel ID " +:+ id)
           | Some _ => getChannelIDs devRoot ids (channelIDs ++ [trimmed])
           end
  end.
Definition imexChannel_GetDeviceSpecs (devRoot id : string) : list device :=
  let path := "/dev/nvidia-caps-imex-channels/channel" +:+ id in
  named_devices [id] ∅
    (mkEdits [] [mkDeviceNode path (path_join [devRoot; path]) "" 0 0 None "" None None] [] [] [] None []).
Definition imex_DeviceSpecGenerators (ids : list string) : G Generator :=
  use driver <- get_driver;
  use channels <- lift (getChannelIDs (DriverRoot.DevRoot driver) ids []);
  ret (all_specs (map (fun id => ret (imexChannel_GetDeviceSpecs (DriverRoot.DevRoot driver) id)) channels)).

(** ** The library and the wrapper *)

Record deviceSpecGeneratorFactory := mkGeneratorFactory {
  DeviceSpecGenerators : list string -> G Generator; factory_GetCommonEdits : G edits;
}.
Definition factory_of_mode : result deviceSpecGeneratorFactory :=
  let m := NvcdiOptions.mode o in
  let fixed g common := Ok (mkGeneratorFactory (fun _ => ret g) common) in
  if String.eqb m ModeCSV then Ok (mkGeneratorFactory csv_DeviceSpecGenerators csv_GetCommonEdits)
  else if String.eqb m ModeManagement then fixed management_GetDeviceSpecs management_GetCommonEdits
  else if String.eqb m ModeNvml then Ok (mkGeneratorFactory nvml_DeviceSpecGenerators nvml_GetCommonEdits)
  else if String.eqb m ModeWsl then fixed wsl_GetDeviceSpecs wsl_GetCommonEdits
  else if existsb (String.eqb m) [ModeGdrcopy; ModeGds; ModeMofed; ModeNvswitch]
  then fixed gated_GetDeviceSpecs (FromDiscoverer None_)
  else if String.eqb m ModeImex then Ok (mkGeneratorFactory imex_DeviceSpecGenerators (FromDiscoverer None_))
  else Err ("unknown mode " +:+ quote m).

(** [wrapper] *)
Definition GetDeviceSpecsByID (f : deviceSpecGeneratorFactory) (devices : list string) : G (list device) :=
  use generators <- gwrap "failed to construct device spec generators" (DeviceSpecGenerators f devices); generators.
Definition GetCommonEdits (f : deviceSpecGeneratorFactory) : G edits :=
  use e <- factory_GetCommonEdits f;
  ret (mkEdits (CDISpec.Env e ++ [EnvVarNvidiaVisibleDevices +:+ "=void"]) (CDISpec.DeviceNodes e) (NetDevices e) (CDISpec.Hooks e)
         (CDISpec.Mounts e) (IntelRdt_ e) (AdditionalGIDs e)).
Definition wrapper_GetSpec (f : deviceSpecGeneratorFactory) (devices : list string) : G built :=
  let devices := match devices with [] => ["all"] | _ => devices end in
  use deviceSpecs <- GetDeviceSpecsByID f devices;
  use e <- GetCommonEdits f;
  lift (SpecBuilder.New [WithDeviceSpecs deviceSpecs; WithEdits e; SpecBuilder.WithVendor (getVendorOrDefault o);
    SpecBuilder.WithClass (getClassOrDefault o); SpecBuilder.WithMergedDeviceOptions (NvcdiOptions.mergedDeviceOptions o)]).

(** *** Constructing the library *)

Definition located_lib (name : string) : option unit :=
  match NewLibraryLocator resolve libs64 [WithRoot (driverRoot o); WithSearchPaths (NvcdiOptions.librarySearchPaths o)] name with
  | Found [] => None
  | _ => Some tt
  end.
(** [getNvsandboxUtilsLib]: the library is initialised and shut down again. *)
Definition getNvsandboxUtilsLib : option nat :=
  if has_flag o FeatureDisableNvsandboxUtils then None
  else match sandbox_Init (driverRoot o) with Some _ => None | None => Some 0 end.

Definition sandbox_Version : G string := fun s =>
  match st_sandbox s with
  | None => Some (Err "libnvsandboxutils is not available", s)
  | Some n => sandbox_query "GetDriverVersion" (GetDriverVersion (Nat.ltb 0 n)) s
  end.
Definition nvml_Version : G string :=
  with_nvml (gwrap "failed to get driver version" (query "SystemGetDriverVersion" SystemGetDriverVersion)).
(** [FirstOf] of both. *)
Definition first_Version : G string :=
  use v <- attempt sandbox_Version;
  match v with
  | Ok v => ret v
  | Err e => use w <- attempt nvml_Version; lift (FirstOf [Some (fun _ => Err e); Some (fun _ => w)])
  end.
(** [getDriverOptions] and [root.New]; an error of the version is logged. *)
Definition new_driver : G unit :=
  use version <- attempt first_Version;
  fun s => Some (Ok tt, set_driver (DriverRoot.New (DriverRoot.mkOptions (driverRoot o) (devRoot o)
    (NvcdiOptions.librarySearchPaths o) (NvcdiOptions.configSearchPaths o)
    (Some (match version with Ok v => (v, true) | Err _ => ("", false) end)))) s).
Definition initial_state : St := mkSt (mkDriver "" "" [] [] "" "") 0 getNvsandboxUtilsLib [].
End Nvcdi.

Section New.
Context `{MapRange} `{SortSlice} `{Host} `{HostFiles} `{PropertyExtractor} `{Nvml} `{Sandbox}
  (DeviceFromPath : string -> option DeviceInfo) (goarch : string) (uname : result string)
  (getSoname : string -> result string) (resolve : string -> option (list string))
  (libs64 : string -> option (list string)) (resolveChain : string -> option (list string))
  (dxcore_adapters : result (list string)).

(** [New] followed by an action on the library: the result of [New], inside
    that of the action, and the state at the end. *)
Definition New_run {A} (opts : list NvcdiOptions.Option_) (action : NvcdiOptions.options -> deviceSpecGeneratorFactory -> G A)
  : option (result (result A) * St) :=
  let o := populateOptions opts in
  _ ← (if has_flag o FeatureDisableNvsandboxUtils then Some tt else located_lib resolve libs64 o "libnvidia-sandboxutils.so.1");
  _ ← located_lib resolve libs64 o "libnvidia-ml.so.1";
  match new_driver o (initial_state o) with
  | Some (Ok tt, s) =>
      match factory_of_mode DeviceFromPath goarch uname getSoname resolve libs64 resolveChain dxcore_adapters o with
      | Err e => Some (Err e, s)
      | Ok f => match action o f s with
                | None => None
                | Some (r, s) => Some (Ok r, s)
                end
      end
  | Some (Err e, s) => Some (Err e, s)
  | None => None
  end.
(** [New] followed by [GetSpec]. *)
Definition New_GetSpec (opts : list NvcdiOptions.Option_) (devices : list string)
  : option (result (result built) * St) := New_run opts (fun o f => wrapper_GetSpec o f devices).

(** The interface of the runtime. *)
Definition nvcdi_generator : SpecGenerator := {|
  GetSpec opts devices :=
    match New_GetSpec opts devices with
    | None => None
    | Some (Err e, _) => Some (Err e)
    | Some (Ok b, _) => Some (Ok (let? b := b in Ok (SpecBuilder.Raw b)))
    end |}.
End New.
