(* ===== verification/NvcdiProps.v ===== *)
(** * Properties of the CDI generator *)
From S2P Require Import Prelude GoStrings GoPaths Glob Lookup DriverRoot ProcInfo CDISpec Transform SpecBuilder Image Discover DiscoverDriver Edits Tegra Nvml Dgpu NvcdiDriver NvcdiOptions Nvcdi CDIParser.
#[local] Open Scope nvcdi_scope.

(** ** A machine with a GPU and a GPU in MIG mode

    Concrete answers of the host and the driver libraries, on which the
    generators are run. *)
Definition lab_nodes : list string :=
  ["/dev/nvidia0"; "/dev/nvidia1"; "/dev/nvidia-caps/nvidia-cap12"; "/dev/nvidia-caps/nvidia-cap13"].
Definition lab_libs : list string :=
  ["/usr/lib/x86_64-linux-gnu/libcuda.so.550.54"; "/usr/lib/x86_64-linux-gnu/libnvidia-ml.so.550.54"].
Definition lab_stat (p : string) : option file_info :=
  if bool_decide (p ∈ lab_nodes) then Some (mkFileInfo false false true 438)
  else if bool_decide (p ∈ lab_libs) then Some (mkFileInfo false false false 420) else None.
Definition lab_host : Host := {|
  os_Stat := lab_stat; os_Lstat := lab_stat; os_Readlink := fun _ => None; EvalSymlinks := Some;
  filepath_Glob := fun p => List.filter (matches p) (lab_nodes ++ lab_libs); filepath_Abs := Some;
  os_LookupEnv := fun _ => None |}.
Definition lab_files : HostFiles := {|
  os_ReadFile := fun p => if String.eqb p "/proc/driver/nvidia-caps/mig-minors"
    then Some ("gpu1/gi3/access 12" +:+ newline +:+ "gpu1/gi3/ci0/access 13") else None;
  os_ReadError := fun _ => NotExist; os_ReadDir := fun _ => None |}.
Definition lab_device (p : string) : option DeviceInfo :=
  if bool_decide (p ∈ lab_nodes) then Some (mkDeviceInfo 195 0 8630 "rwm" 0) else None.
Definition lab_platform : PropertyExtractor := {|
  HasDXCore := false; HasTegraFiles := false; HasNvml := true; HasAnIntegratedGPU := false |}.
Definition lab_uuid (d : Z) : string := "GPU-00000000-0000-0000-0000-00000000000" +:+ fmt_Z d.
(** The second GPU is in MIG mode with one MIG device, whose handle is 2. *)
Definition lab_nvml : Nvml := {|
  Handle := Z;
  nvml_Init := None;
  nvml_SUCCESS := "SUCCESS";
  DeviceGetCount := Ok 2%Z;
  DeviceGetHandleByIndex := fun i => if Z.eqb i 0 || Z.eqb i 1 then Ok i else Err "ERROR_INVALID_ARGUMENT";
  DeviceGetHandleByUUID := fun u =>
    if String.eqb u (lab_uuid 0) then Ok 0%Z else if String.eqb u (lab_uuid 1) then Ok 1%Z else Ok 2%Z;
  SystemGetDriverVersion := Ok "550.54";
  SystemGetCudaDriverVersion := Ok 12040%Z;
  dev_GetUUID := fun d => Ok (if Z.eqb d 2 then "MIG-" +:+ trim_prefix (lab_uuid 2) "GPU-" else lab_uuid d);
  dev_GetIndex := fun d => Ok (if Z.eqb d 2 then 0%Z else d);
  dev_GetMinorNumber := fun d => Ok d;
  dev_GetName := fun _ => Ok "NVIDIA H100";
  dev_GetPciInfo := fun _ => None;
  dev_IsMigDeviceHandle := fun d => Ok (Z.eqb d 2);
  dev_GetMigDeviceHandleByIndex := fun d j => if Z.eqb d 1 && Z.eqb j 0 then Ok 2%Z else Err "ERROR_NOT_FOUND";
  dev_GetDeviceHandleFromMigDeviceHandle := fun _ => Ok 1%Z;
  dev_GetGpuInstanceId := fun _ => Ok 3%Z;
  dev_GetComputeInstanceId := fun _ => Ok 0%Z;
  dev_GetPCIBusID := fun d => Ok ("0000:0" +:+ fmt_Z d +:+ ":00.0");
  dev_IsMigEnabled := fun d => Ok (Z.eqb d 1);
  dev_IsCoherent := fun _ => Ok false;
  dev_isSkipped := fun _ => Ok false;
  dev_MigDevices := fun d => Ok (if Z.eqb d 1 then [(0%Z, 2%Z)] else []);
|}.
Definition lab_sandbox : Sandbox := {|
  sandbox_Init := fun _ => None;
  GetDriverVersion := fun initialised => if initialised then Ok "550.54" else Err "ERROR_UNINITIALIZED";
  GetGpuResource := fun _ => Err "ERROR_NOT_FOUND";
  GetFileContent := fun _ => Err "ERROR_NOT_FOUND" |}.
Definition lab_options : NvcdiOptions.options := @populateOptions lab_platform [].
Definition lab_state : St := mkSt (mkDriver "/" "/" [] [] "550.54" "") 0 (Some 0) [].
Definition lab_devices : list string -> G Generator :=
  @nvml_DeviceSpecGenerators lab_host lab_files lab_nvml lab_sandbox lab_device lab_options.

(** [New] and [GetSpec] on the machine. *)
Definition lab_GetSpec (opts : list NvcdiOptions.Option_) (devices : list string) : option (result (result built) * St) :=
  @New_GetSpec map_to_list_range insertion_sort_slice lab_host lab_files lab_platform lab_nvml lab_sandbox lab_device "amd64"
    (Ok "6.8.0") (fun _ => Err "no soname") (fun p => match lab_stat p with Some _ => Some [p] | None => None end) (fun _ => None)
    (fun p => Some [p]) (Ok ["/usr/lib/wsl/drivers/nv"]) opts devices.

(** ** Use of the driver libraries

    [runs P Q m]: from a state where [P] holds, [m] leaves the numbers of
    references to the libraries as they were (the sandbox library may be given
    up), makes no call to a library that is not loaded, and its result
    satisfies [Q]. *)
Definition keeps (s s' : St) : Prop :=
  st_nvml s' = st_nvml s /\ st_misuse s' = st_misuse s /\ (st_sandbox s' = st_sandbox s \/ st_sandbox s' = None).
Definition loaded (s : St) : Prop := 0 < st_nvml s /\ st_sandbox s <> Some 0.
Definition anywhere (s : St) : Prop := True.
Definition runs {A} (P : St -> Prop) (Q : A -> Prop) (m : G A) : Prop :=
  forall s r s', P s -> m s = Some (r, s') -> keeps s s' /\ forall a, r = Ok a -> Q a.
Definition any {A} (_ : A) : Prop := True.

Class Stable (P : St -> Prop) := stable : forall s s', keeps s s' -> P s -> P s'.
#[export] Instance loaded_stable : Stable loaded.
Proof. intros s s' (Hn & _ & Hs) [H1 H2]. split; [by rewrite Hn|]. destruct Hs as [-> | ->]; done. Qed.
#[export] Instance anywhere_stable : Stable anywhere.
Proof. done. Qed.

Lemma keeps_refl s : keeps s s.
Proof. split; [done|]. split; [done|]. by left. Qed.
Lemma keeps_trans s1 s2 s3 : keeps s1 s2 -> keeps s2 s3 -> keeps s1 s3.
Proof.
  intros (H1 & H2 & H3) (H4 & H5 & H6). split; [congruence|]. split; [congruence|].
  destruct H6 as [-> | ->]; [|by right]. done.
Qed.

Section Rules.
#[local] Set Default Proof Using "Type*".
Context {P : St -> Prop} `{!Stable P}.

Lemma runs_ret {A} (Q : A -> Prop) a : Q a -> runs P Q (ret a).
Proof. intros HQ s r s' _ [= <- <-]. split; [apply keeps_refl|]. by intros a' [= <-]. Qed.
Lemma runs_fail {A} (Q : A -> Prop) e : runs P Q (fail e).
Proof. intros s r s' _ [= <- <-]. by split; [apply keeps_refl|]. Qed.
Lemma runs_lift {A} (r : result A) : runs P any (lift r).
Proof. intros s r' s' _ [= <- <-]. by split; [apply keeps_refl|]. Qed.
Lemma runs_bind {A B} (Q : A -> Prop) (R : B -> Prop) m k :
  runs P Q m -> (forall a, Q a -> runs P R (k a)) -> runs P R (bind m k).
Proof.
  intros Hm Hk s r s' HP. unfold bind. destruct (m s) as [[[a|e] s1]|] eqn:Hs; [|intros [= <- <-]|done].
  - destruct (Hm _ _ _ HP Hs) as [Hkeep HQ]. intros Hr.
    destruct (Hk a (HQ a eq_refl) s1 r s' (stable _ _ Hkeep HP) Hr) as [Hkeep' HR].
    split; [by eapply keeps_trans|done].
  - by split; [apply (Hm _ _ _ HP Hs)|].
Qed.
Lemma runs_gwrap {A} (Q : A -> Prop) msg m : runs P Q m -> runs P Q (gwrap msg m).
Proof.
  intros Hm s r s' HP. unfold gwrap. destruct (m s) as [[r1 s1]|] eqn:Hs; [|done]. intros [= <- <-].
  destruct (Hm _ _ _ HP Hs) as [Hkeep HQ]. split; [done|]. intros a Ha. apply HQ. by destruct r1.
Qed.
Lemma runs_catch {A} (Q : A -> Prop) m h : runs P Q m -> (forall e, runs P Q (h e)) -> runs P Q (catch m h).
Proof.
  intros Hm Hh s r s' HP. unfold catch. destruct (m s) as [[[a|e] s1]|] eqn:Hs; [intros [= <- <-]| |done].
  - by apply (Hm _ _ _ HP Hs).
  - destruct (Hm _ _ _ HP Hs) as [Hkeep _]. intros Hr.
    destruct (Hh e s1 r s' (stable _ _ Hkeep HP) Hr) as [Hkeep' HQ]. split; [by eapply keeps_trans|done].
Qed.
Lemma runs_attempt {A} (Q : A -> Prop) m : runs P Q m -> runs P any (attempt m).
Proof.
  intros Hm s r s' HP. unfold attempt. destruct (m s) as [[r1 s1]|] eqn:Hs; [|done]. intros [= <- <-].
  split; [|done]. by apply (Hm _ _ _ HP Hs).
Qed.
Lemma runs_lift_ok {A} (r : result A) : runs P (fun a => r = Ok a) (lift r).
Proof. intros s r' s' _ [= <- <-]. by split; [apply keeps_refl|]. Qed.
Lemma runs_map {A B} (Q : B -> Prop) (f : A -> G B) l :
  Forall (fun a => runs P Q (f a)) l -> runs P (Forall Q) (map_G f l).
Proof.
  induction 1 as [|a l Ha Hl IH]; [by apply runs_ret|]. simpl. eapply runs_bind; [done|]. intros b Hb.
  eapply runs_bind; [done|]. intros bs Hbs. apply runs_ret. by constructor.
Qed.
Lemma runs_weaken {A} (Q R : A -> Prop) m : (forall a, Q a -> R a) -> runs P Q m -> runs P R m.
Proof. intros HQR Hm s r s' HP Hs. destruct (Hm _ _ _ HP Hs) as [? HQ]. split; [done|]. eauto. Qed.
Lemma runs_get_driver : runs P any get_driver.
Proof. intros s r s' _ [= <- <-]. by split; [apply keeps_refl|]. Qed.
Lemma runs_with_driver {A} (f : Driver -> option (result A * Driver)) : runs P any (with_driver f).
Proof.
  intros s r s' _. unfold with_driver. destruct (f _) as [[r1 d]|]; [|done]. intros [= <- <-].
  split; [|done]. split; [done|]. split; [done|]. by left.
Qed.
Lemma runs_panic {A} (Q : A -> Prop) : runs P Q (fun _ => None).
Proof. intros s r s' _ [=]. Qed.
Lemma runs_any {A} (Q : A -> Prop) m : runs P Q m -> runs P any m.
Proof. by apply runs_weaken. Qed.
End Rules.

Lemma anywhere_loaded {A} (Q : A -> Prop) m : runs anywhere Q m -> runs loaded Q m.
Proof. intros Hm s r s' _. by apply Hm. Qed.
Definition nvml_loaded (s : St) : Prop := 0 < st_nvml s.
#[export] Instance nvml_loaded_stable : Stable nvml_loaded.
Proof. intros s s' (Hn & _) Hl. unfold nvml_loaded. by rewrite Hn. Qed.
Class Loads (P : St -> Prop) := loads : forall s, P s -> 0 < st_nvml s.
#[export] Instance loaded_loads : Loads loaded.
Proof. by intros s [? _]. Qed.
#[export] Instance nvml_loaded_loads : Loads nvml_loaded.
Proof. by intros s Hs. Qed.
Lemma runs_query_ok P `{!Loads P} {A} call (r : result A) : runs P (fun a => r = Ok a) (query call r).
Proof.
  intros s r' s' Hn%loads. unfold query. destruct (st_nvml s); [lia|]. intros [= <- <-].
  by split; [apply keeps_refl|].
Qed.
Lemma runs_query P `{!Loads P} {A} call (r : result A) : runs P any (query call r).
Proof. intros s r' s' HP Hs. by destruct (runs_query_ok P call r s r' s' HP Hs). Qed.

Create HintDb runs.
#[local] Hint Resolve runs_ret runs_fail runs_lift runs_gwrap runs_get_driver runs_with_driver runs_panic runs_query : runs.
(** One step of a monadic program. *)
Ltac run :=
  lazymatch goal with
  | |- runs _ _ (bind _ _) => eapply runs_bind; [|intros]
  | |- runs _ _ (gwrap _ _) => apply runs_gwrap
  | |- runs _ _ (catch _ _) => apply runs_catch; [|intros]
  | |- runs _ _ (attempt _) => eapply runs_attempt
  | |- runs _ _ (ret _) => first [exact (runs_ret any _ I) | apply runs_ret]
  | |- runs _ _ (fail _) => apply runs_fail
  | |- runs _ _ (lift _) => apply runs_lift
  | |- runs _ _ get_driver => apply runs_get_driver
  | |- runs _ _ (with_driver _) => apply runs_with_driver
  | |- runs _ _ (query _ _) => apply (runs_query _)
  | |- runs _ _ (fun _ => None) => apply runs_panic
  | |- runs _ _ (if ?b then _ else _) => destruct b
  | |- runs _ _ (match ?x with _ => _ end) => destruct x
  | |- runs _ _ (let '(_, _) := ?x in _) => destruct x
  end.
Ltac run_all := repeat run; try solve [eauto with runs].

(** *** The discoverers *)

Section Discipline.
Context `{MapRange} `{SortSlice} `{Host} `{HostFiles} `{PropertyExtractor} `{Nvml} `{Sandbox}
  (DeviceFromPath : string -> option DeviceInfo) (goarch : string) (uname : result string)
  (getSoname : string -> result string) (resolve : string -> option (list string))
  (libs64 : string -> option (list string)) (resolveChain : string -> option (list string))
  (dxcore_adapters : result (list string)).
#[local] Set Default Proof Using "Type*".

Lemma runs_sandbox_query {A} call (r : result A) s r' s' :
  match st_sandbox s with Some (S _) => True | _ => False end ->
  sandbox_query call r s = Some (r', s') -> r' = r /\ s' = s.
Proof. unfold sandbox_query. destruct (st_sandbox s) as [[|n]|]; [done| |done]. by intros _ [= <- <-]. Qed.

(** With a sandbox library, a loaded state has it loaded. *)
Definition sandboxed (s : St) : Prop := match st_sandbox s with Some (S _) => True | _ => False end.
Lemma sandbox_walk_pure devRoot isMig infos : forall devices links s r s',
  sandboxed s -> sandbox_walk devRoot isMig infos devices links s = Some (r, s') -> s' = s.
Proof.
  induction infos as [|i infos IH]; intros devices links s r s' Hs; simpl; [by intros [= _ <-]|].
  destruct (info_SubType i); try by apply IH.
  all: destruct (isMig || negb (info_isContent i)); [by apply IH|].
  all: unfold bind, attempt; destruct (sandbox_query _ _ s) as [[r1 s1]|] eqn:Hq; [|done].
  all: apply runs_sandbox_query in Hq as [-> ->]; [|done].
  all: destruct (GetFileContent _); [by apply IH|by intros [= _ <-]].
Qed.

Lemma runs_sandbox_discoverer hc isMig d : runs loaded any (newNvsandboxutilsDGPUDiscoverer hc isMig d).
Proof.
  intros s r s' [Hn Hs]. unfold newNvsandboxutilsDGPUDiscoverer, bind at 1, sandbox_available.
  destruct (st_sandbox s) as [[|n]|] eqn:Hsb; [done| |intros [= <- <-]; by split; [apply keeps_refl|]].
  simpl. unfold bind at 1, gwrap, query. destruct (st_nvml s) as [|k] eqn:Hk; [lia|].
  destruct (wrap _ (dev_GetUUID d)) as [uuid|e]; [|intros [= <- <-]; by split; [apply keeps_refl|]].
  unfold bind at 1, get_driver. unfold bind at 1, sandbox_Devices, bind at 1, attempt.
  destruct (sandbox_query _ _ s) as [[r1 s1]|] eqn:Hq; [|done].
  apply runs_sandbox_query in Hq as [-> ->]; [|by rewrite Hsb].
  destruct (GetGpuResource uuid) as [infos|e].
  - destruct (sandbox_walk _ _ infos [] [] s) as [[[[devs links]|e] s2]|] eqn:Hw; [| |done].
    + apply sandbox_walk_pure in Hw as ->; [|unfold sandboxed; by rewrite Hsb]. intros [= <- <-].
      by split; [apply keeps_refl|].
    + apply sandbox_walk_pure in Hw as ->; [|unfold sandboxed; by rewrite Hsb]. intros [= <- <-].
      by split; [apply keeps_refl|].
  - intros [= <- <-]. by split; [apply keeps_refl|].
Qed.

Lemma runs_nvml_discoverer hc d : runs loaded any (newNvmlDGPUDiscoverer hc d).
Proof. unfold newNvmlDGPUDiscoverer, getDevNodePath, GetMinorNumber. run_all. Qed.
Lemma runs_mig_discoverer parent mig : runs loaded any (newNvmlMigDiscoverer parent mig).
Proof. unfold newNvmlMigDiscoverer, getPlacementInfo, getDevNodePath, GetMinorNumber. run_all. Qed.
Lemma runs_first_valid a b : runs loaded any (first_valid a b).
Proof. unfold first_valid. run_all. Qed.
#[local] Hint Resolve runs_sandbox_discoverer runs_nvml_discoverer runs_mig_discoverer runs_first_valid : runs.
Lemma runs_NewForDevice hc d : runs loaded any (NewForDevice hc d).
Proof. unfold NewForDevice. run_all. Qed.
Lemma runs_NewForMigDevice hc d mig : runs loaded any (NewForMigDevice hc d mig).
Proof. unfold NewForMigDevice. run_all. Qed.

(** *** Initialisation *)

Lemma runs_init {A} msg (Q : A -> Prop) m :
  runs loaded Q m -> runs anywhere Q (use_ gwrap msg init; defer m tryShutdown).
Proof.
  intros Hm s r s' _. unfold bind, gwrap, init. destruct nvml_Init as [e|].
  { intros [= <- <-]. by split; [apply keeps_refl|]. }
  set (s1 := sandbox_init _). assert (Hload : loaded s1 /\ st_nvml s1 = S (st_nvml s) /\ st_misuse s1 = st_misuse s
    /\ (st_sandbox s1 = S <$> st_sandbox s \/ st_sandbox s1 = None)).
  { unfold s1, sandbox_init, loaded. change (st_sandbox (set_nvml _ s)) with (st_sandbox s).
    destruct (st_sandbox s) as [n|] eqn:Hs; [destruct (sandbox_Init _)|]; simpl; rewrite ?Hs;
      repeat split; try done; try lia; by (left + right). }
  destruct Hload as (Hload & Hn & Hmis & Hsb). unfold defer. destruct (m s1) as [[r1 s2]|] eqn:Hs; [|done].
  intros [= <- <-]. destruct (Hm _ _ _ Hload Hs) as [(Hn2 & Hmis2 & Hsb2) HQ]. split; [|done].
  unfold tryShutdown, sandbox_shutdown. split; [|split].
  - destruct (st_sandbox s2); simpl; by rewrite Hn2, Hn.
  - destruct (st_sandbox s2); simpl; congruence.
  - destruct (st_sandbox s2) as [k|] eqn:Hk; [|by right].
    destruct Hsb2 as [Hsb2|Hsb2]; [|done]. destruct Hsb as [Hsb|Hsb]; rewrite Hsb in Hsb2; [|done].
    left. destruct (st_sandbox s); [|done]. by injection Hsb2 as ->.
Qed.

Lemma with_init_gwrap {A} (m : G A) s r s' : with_init m s = Some (r, s') ->
  exists r', (use_ gwrap "" init; defer m tryShutdown) s = Some (r', s') /\ (forall a, r = Ok a -> r' = Ok a).
Proof.
  unfold with_init, bind, gwrap, init. destruct nvml_Init; simpl; [|by eauto]. intros [= <- <-]. by eexists.
Qed.
Lemma runs_with_init {A} (Q : A -> Prop) m : runs loaded Q m -> runs anywhere Q (with_init m).
Proof.
  intros Hm s r s' _ (r' & Hr & Hok)%with_init_gwrap. destruct (runs_init "" Q m Hm s r' s' I Hr) as [Hk HQ].
  split; [done|]. eauto.
Qed.

Lemma runs_with_nvml P {A} (Q : A -> Prop) m : runs nvml_loaded Q m -> runs P Q (with_nvml m).
Proof.
  intros Hm s r s' _. unfold with_nvml, defer. destruct nvml_Init as [e|].
  { intros [= <- <-]. by split; [apply keeps_refl|]. }
  destruct (m _) as [[r1 s2]|] eqn:Hs; [|done]. intros [= <- <-].
  assert (Hload : nvml_loaded (set_nvml (S (st_nvml s)) s)) by (unfold nvml_loaded; simpl; lia).
  destruct (Hm _ _ _ Hload Hs) as [(Hn & Hmis & Hsb) HQ]. split; [|done].
  split; [simpl; by rewrite Hn|]. split; [done|]. done.
Qed.

Lemma runs_sandbox {A} (Q : A -> Prop) m : runs anywhere Q m -> runs anywhere Q (fun s => defer m sandbox_shutdown (sandbox_init s)).
Proof.
  intros Hm s r s' _. unfold defer. destruct (m _) as [[r1 s2]|] eqn:Hs; [|done]. intros [= <- <-].
  destruct (Hm _ _ _ I Hs) as [(Hn & Hmis & Hsb) HQ]. split; [|done].
  assert (Hi : st_nvml (sandbox_init s) = st_nvml s /\ st_misuse (sandbox_init s) = st_misuse s
    /\ (st_sandbox (sandbox_init s) = S <$> st_sandbox s \/ st_sandbox (sandbox_init s) = None)).
  { unfold sandbox_init. destruct (st_sandbox s) as [n|] eqn:Hb; [|repeat split; by left].
    destruct (sandbox_Init _); repeat split; by (left + right). }
  destruct Hi as (Hn1 & Hmis1 & Hsb1). rewrite Hn1 in Hn. rewrite Hmis1 in Hmis. unfold sandbox_shutdown.
  split; [by destruct (st_sandbox s2)|]. split; [by destruct (st_sandbox s2)|].
  destruct (st_sandbox s2) as [k|] eqn:Hk; [|by right].
  destruct Hsb as [Hsb|Hsb]; [|done]. destruct Hsb1 as [Hsb1|Hsb1]; rewrite Hsb1 in Hsb; [|done].
  left. destruct (st_sandbox s); [|done]. by injection Hsb as ->.
Qed.

(** *** The generators *)

Context (o : NvcdiOptions.options).
Local Abbreviation FD := (FromDiscoverer DeviceFromPath o).

Lemma runs_FromDiscoverer P `{!Stable P} d : runs P any (FD d).
Proof. unfold FromDiscoverer. run_all. Qed.
Lemma runs_visit P `{!Stable P} `{!Loads P} {A} (Q : A -> Prop) (visit : Z -> Handle -> G A) :
  (forall i d, runs P Q (visit i d)) -> runs P (Forall Q) (VisitDevices visit).
Proof.
  intros Hv. unfold VisitDevices. repeat run. generalize (indices a). intros idx. induction idx as [|i idx IH]; [by apply runs_ret|].
  simpl. run; [repeat run|]. run; [repeat run|]. run; [done|]. eapply runs_bind; [run; apply Hv|]. intros b Hb.
  eapply runs_bind; [apply IH|]. intros rest Hrest. apply runs_ret. by constructor.
Qed.
Lemma runs_visit_mig P `{!Stable P} `{!Loads P} {A} (Q : A -> Prop) (visit : Z -> Handle -> Z -> Handle -> G A) :
  (forall i d j m, runs P Q (visit i d j m)) -> runs P (Forall (Forall Q)) (VisitMigDevices visit).
Proof.
  intros Hv. unfold VisitMigDevices. run. apply runs_visit; [done..|]. intros i d. repeat run.
  apply runs_map. apply Forall_true. intros jm. run. apply Hv.
Qed.
#[local] Hint Resolve runs_FromDiscoverer runs_NewForDevice runs_NewForMigDevice : runs.

Lemma runs_full_edits uuid ds : runs loaded any (full_getDeviceEdits DeviceFromPath o uuid ds).
Proof. unfold full_getDeviceEdits, newFullGPUDiscoverer, NewDeviceByUUID. run_all. apply runs_FromDiscoverer; apply _. Qed.
Lemma runs_annotations flags uuid : runs loaded any (getDeviceAnnotations flags uuid).
Proof. unfold getDeviceAnnotations, NewDeviceByUUID. run_all. Qed.
Lemma runs_mig_edits uuid mig : runs loaded any (mig_getDeviceEdits DeviceFromPath o uuid mig).
Proof. unfold mig_getDeviceEdits, NewMigDevice, NewDeviceByUUID. run_all. apply runs_FromDiscoverer; apply _. Qed.
(** The devices have the names that the namers give. *)
Lemma runs_full_specs uuid i flags ds :
  runs loaded (fun l => GetDeviceNames (deviceNamers o) i (Ok uuid) = Ok (map Device_Name l))
    (full_GetDeviceSpecs DeviceFromPath o uuid i flags ds).
Proof.
  unfold full_GetDeviceSpecs. eapply runs_bind; [run; apply runs_full_edits|]. intros e _.
  eapply runs_bind; [run; apply runs_lift_ok|]. intros names Hnames. eapply runs_bind; [run; [apply runs_annotations|run]|].
  intros ann _. apply runs_ret. rewrite Hnames. f_equal. unfold named_devices. by rewrite map_map, map_id.
Qed.
Lemma runs_mig_specs uuid i mig j :
  runs loaded (fun l => GetMigDeviceNames (deviceNamers o) i (Ok uuid) j (Ok mig) = Ok (map Device_Name l))
    (mig_GetDeviceSpecs DeviceFromPath o uuid i mig j).
Proof.
  unfold mig_GetDeviceSpecs. eapply runs_bind; [run; apply runs_mig_edits|]. intros e _.
  eapply runs_bind; [run; apply runs_lift_ok|]. intros names Hnames. apply runs_ret. rewrite Hnames. f_equal.
  unfold named_devices. by rewrite map_map, map_id.
Qed.
Lemma runs_all_specs P `{!Stable P} (gs : list Generator) : Forall (runs P any) gs -> runs P any (all_specs gs).
Proof. intros Hgs. unfold all_specs. eapply runs_bind; [by apply runs_map|]. intros ls _. by apply runs_ret. Qed.

(** What the generators of the nvml mode may assume. *)
Local Abbreviation loaded_generator := (runs loaded (@any (list device))).
Lemma runs_normalize id : runs loaded any (normalizeDeviceID id).
Proof. unfold normalizeDeviceID, parse_index. run_all. Qed.
Lemma runs_full_generator uuid d : runs loaded loaded_generator (newFullGPUDeviceSpecGeneratorFromNVMLDevice DeviceFromPath o uuid d).
Proof. unfold newFullGPUDeviceSpecGeneratorFromNVMLDevice. repeat run. eapply runs_any, runs_full_specs. Qed.
Lemma runs_full_generator' i d : runs loaded loaded_generator (newFullGPUDeviceSpecGeneratorFromDevice DeviceFromPath o i d).
Proof. unfold newFullGPUDeviceSpecGeneratorFromDevice. repeat run. eapply runs_any, runs_full_specs. Qed.
Lemma runs_mig_generator i d j m : runs loaded loaded_generator (newMIGDeviceSpecGeneratorFromDevice DeviceFromPath o i d j m).
Proof. unfold newMIGDeviceSpecGeneratorFromDevice. repeat run. eapply runs_any, runs_mig_specs. Qed.
Lemma runs_generator uuid d : runs loaded loaded_generator (newDeviceSpecGeneratorFromNVMLDevice DeviceFromPath o uuid d).
Proof.
  unfold newDeviceSpecGeneratorFromNVMLDevice, newMIGDeviceSpecGeneratorFromNVMLDevice, NewMigDevice. repeat run; try done.
  - apply runs_mig_generator.
  - apply runs_full_generator.
Qed.
Lemma runs_all_generators : runs loaded (Forall loaded_generator) (getDeviceSpecGeneratorsForAllDevices DeviceFromPath o).
Proof.
  unfold getDeviceSpecGeneratorsForAllDevices. eapply runs_bind.
  { run. apply (runs_visit loaded (Forall loaded_generator)). intros i d. run; [repeat run|]. run; [by apply runs_ret|].
    eapply runs_bind; [apply runs_full_generator'|]. intros g Hg. apply runs_ret. by constructor. }
  intros full Hfull. eapply runs_bind.
  { run. apply runs_visit_mig; [apply _..|]. apply runs_mig_generator. }
  intros mig Hmig. apply runs_ret. apply Forall_app. by split; apply Forall_concat.
Qed.
Lemma runs_generators ids : runs loaded (Forall loaded_generator) (getDeviceSpecGeneratorsForIDs DeviceFromPath o ids).
Proof.
  unfold getDeviceSpecGeneratorsForIDs, emptyDeviceSpecGenerator. destruct (special_id ids) as [s|].
  - run; [|apply runs_all_generators]. apply runs_ret. constructor; [|done]. by apply runs_ret.
  - eapply runs_bind; [apply runs_map, Forall_true, runs_normalize|]. intros uuids _. apply runs_map, Forall_true.
    intros uuid. repeat run. apply runs_generator.
Qed.

(** *** The modes *)

(** What the library may do with a generator at any time. *)
Local Abbreviation generator := (runs anywhere (@any (list device))).
Lemma runs_withInit g : loaded_generator g -> generator (withInit g).
Proof. apply runs_with_init. Qed.
Lemma runs_nvml ids : runs anywhere generator (nvml_DeviceSpecGenerators DeviceFromPath o ids).
Proof.
  unfold nvml_DeviceSpecGenerators. eapply runs_bind; [apply runs_with_init, runs_generators|]. intros gs Hgs.
  apply runs_ret, runs_withInit. by apply runs_all_specs; [apply _|].
Qed.

Lemma runs_driver_version P `{!Stable P} hc explicit :
  runs P any (newDriverVersionDiscoverer hc uname getSoname resolve libs64 explicit).
Proof.
  unfold newDriverVersionDiscoverer, NewDriverLibraryDiscoverer, getVersionSuffixDriverLibraryMounts, getVersionLibs,
    getExplicitDriverLibraryMounts, driver_library_locator, driver_lib_directory, driver_version. run_all.
Qed.
#[local] Hint Resolve runs_driver_version : runs.
Lemma runs_nvml_common P `{!Stable P} : runs P any (nvml_GetCommonEdits DeviceFromPath goarch uname getSoname resolve libs64 o).
Proof.
  unfold nvml_GetCommonEdits, newCommonNVMLDiscoverer. repeat run.
  all: first [apply runs_driver_version | apply runs_FromDiscoverer]; apply _.
Qed.

Lemma runs_deviceNodeDiscoverer P `{!Stable P} m : runs P any (deviceNodeDiscoverer getSoname resolveChain o m).
Proof. unfold deviceNodeDiscoverer. run_all. Qed.
Lemma runs_csv_specs P `{!Stable P} index uuid m :
  runs P any (csv_GetDeviceSpecs DeviceFromPath getSoname resolveChain o index uuid m).
Proof.
  unfold csv_GetDeviceSpecs. repeat run; [apply runs_deviceNodeDiscoverer|apply runs_FromDiscoverer]; apply _.
Qed.
Lemma runs_pure ids : runs anywhere generator (purecsvDeviceSpecGenerators DeviceFromPath getSoname resolveChain o ids).
Proof. unfold purecsvDeviceSpecGenerators. repeat run. apply runs_csv_specs; apply _. Qed.
Lemma runs_usePure : runs anywhere any (usePureCSVDeviceSpecGenerator o).
Proof. unfold usePureCSVDeviceSpecGenerator. repeat run. apply runs_with_init. repeat run. Qed.
Lemma runs_csv_device index uuid d :
  runs loaded generator (csvDeviceSpecGenerator DeviceFromPath getSoname resolveChain o index uuid d).
Proof.
  unfold csvDeviceSpecGenerator, iGPUDeviceSpecGenerator, dGPUDeviceSpecGenerator. eapply (runs_bind any).
  { unfold isIntegratedGPU. repeat run. }
  intros integrated _. repeat run.
  - apply runs_csv_specs; apply _.
  - apply runs_deviceNodeDiscoverer; apply _.
  - eapply runs_withInit, runs_any, runs_full_specs.
Qed.
Lemma runs_for_id id : runs loaded generator (deviceSpecGeneratorForId DeviceFromPath getSoname resolveChain o id).
Proof. unfold deviceSpecGeneratorForId, parse_index. repeat run; apply runs_csv_device. Qed.
Lemma runs_mixed ids : runs anywhere generator (mixed_DeviceSpecGenerators DeviceFromPath getSoname resolveChain o ids).
Proof.
  unfold mixed_DeviceSpecGenerators, getAllDeviceIndices. apply runs_init. eapply (runs_bind any); [repeat run|].
  intros ids' _. eapply runs_bind; [apply runs_map, Forall_true; intros id; run; apply runs_for_id|].
  intros gs Hgs. apply runs_ret, runs_all_specs; [apply _|done].
Qed.
Lemma runs_csv ids : runs anywhere generator (csv_DeviceSpecGenerators DeviceFromPath getSoname resolveChain o ids).
Proof.
  unfold csv_DeviceSpecGenerators. eapply runs_bind; [apply runs_usePure|]. intros pure _.
  repeat run; first [apply runs_pure | apply runs_mixed].
Qed.
Lemma runs_csv_common P `{!Stable P} : runs P any (csv_GetCommonEdits DeviceFromPath getSoname resolveChain o).
Proof.
  unfold csv_GetCommonEdits, driverDiscoverer, cudaCompatDiscoverer, getEnableCUDACompatHookOptions. repeat run;
    [|apply runs_FromDiscoverer; apply _].
  apply runs_with_nvml. unfold hasOrinDevices, getCUDAVersionString. repeat run.
  eapply (runs_any (Forall any)), runs_visit; [apply _..|]. intros i d. repeat run.
Qed.

Lemma runs_management : generator (management_GetDeviceSpecs DeviceFromPath o).
Proof. unfold management_GetDeviceSpecs. repeat run. apply runs_FromDiscoverer; apply _. Qed.
Lemma runs_management_common : runs anywhere any (management_GetCommonEdits DeviceFromPath uname getSoname resolve libs64 o).
Proof.
  unfold management_GetCommonEdits. apply runs_sandbox. repeat run.
  all: first [apply runs_driver_version | apply runs_FromDiscoverer]; apply _.
Qed.
Lemma runs_wsl : generator (wsl_GetDeviceSpecs DeviceFromPath o).
Proof. unfold wsl_GetDeviceSpecs. repeat run. apply runs_FromDiscoverer; apply _. Qed.
Lemma runs_wsl_common : runs anywhere any (wsl_GetCommonEdits DeviceFromPath dxcore_adapters o).
Proof. unfold wsl_GetCommonEdits. repeat run. apply runs_FromDiscoverer; apply _. Qed.
Lemma runs_gated : generator (gated_GetDeviceSpecs DeviceFromPath o).
Proof. unfold gated_GetDeviceSpecs. repeat run. apply runs_FromDiscoverer; apply _. Qed.
Lemma runs_imex ids : runs anywhere generator (imex_DeviceSpecGenerators ids).
Proof.
  unfold imex_DeviceSpecGenerators. repeat run. apply runs_all_specs; [apply _|].
  apply Forall_map, Forall_true. intros id. by apply runs_ret.
Qed.

(** *** The library *)

Lemma runs_factory f :
  factory_of_mode DeviceFromPath goarch uname getSoname resolve libs64 resolveChain dxcore_adapters o = Ok f ->
  (forall ids, runs anywhere generator (DeviceSpecGenerators f ids)) /\ runs anywhere any (factory_GetCommonEdits f).
Proof.
  unfold factory_of_mode. repeat case_match; intros [= <-]; simpl; (split; [intros ids|]).
  all: try (by apply runs_ret, runs_management); try (by apply runs_ret, runs_wsl); try (by apply runs_ret, runs_gated).
  all: first [apply runs_csv | apply runs_csv_common | apply runs_management_common | apply runs_nvml | apply runs_nvml_common
    | apply runs_wsl_common | apply runs_imex | apply runs_FromDiscoverer]; apply _.
Qed.
Lemma runs_wrapper f ids :
  (forall ids, runs anywhere generator (DeviceSpecGenerators f ids)) -> runs anywhere any (factory_GetCommonEdits f) ->
  runs anywhere any (wrapper_GetSpec o f ids).
Proof.
  intros Hg Hc. unfold wrapper_GetSpec, GetDeviceSpecsByID, GetCommonEdits. eapply (runs_bind any).
  { eapply runs_bind; [run; apply Hg|]. by intros gs Hgs. }
  intros specs _. eapply (runs_bind any); [run; [exact Hc|repeat run]|]. intros e _. run.
Qed.

(** The versions that [New] asks the two libraries for. *)
Lemma new_driver_state s0 r s : st_nvml s0 = 0 -> st_sandbox s0 = Some 0 \/ st_sandbox s0 = None ->
  new_driver o s0 = Some (r, s) ->
  r = Ok tt /\ st_nvml s = 0 /\ st_sandbox s = st_sandbox s0
  /\ st_misuse s = st_misuse s0 ++ (if st_sandbox s0 is Some _ then ["GetDriverVersion"] else []).
Proof.
  destruct s0 as [d n sb mis]. simpl. intros -> Hs. unfold new_driver.
  cbv [bind attempt first_Version sandbox_Version sandbox_query nvml_Version with_nvml defer gwrap query ret lift
    st_sandbox st_nvml st_driver st_misuse set_nvml set_driver set_sandbox add_misuse Nat.ltb].
  destruct Hs as [-> | ->]; simpl.
  - destruct (GetDriverVersion false); [by intros [= <- <-]|]. destruct nvml_Init; by intros [= <- <-].
  - rewrite app_nil_r. destruct nvml_Init; by intros [= <- <-].
Qed.
End Discipline.

Section Theorems.
Context `{MapRange} `{SortSlice} `{Host} `{HostFiles} `{PropertyExtractor} `{Nvml} `{Sandbox}
  (DeviceFromPath : string -> option DeviceInfo) (goarch : string) (uname : result string)
  (getSoname : string -> result string) (resolve : string -> option (list string))
  (libs64 : string -> option (list string)) (resolveChain : string -> option (list string))
  (dxcore_adapters : result (list string)).

(** C2. However the generation of a specification ends, in every mode and for all
    requested devices, each library that was initialised has been shut down
    again, and the only call that was made to a library that was not loaded is
    that for the version of the driver, which the constructor asks the sandbox
    library for after [getNvsandboxUtilsLib] has shut it down. *)
Theorem New_GetSpec_discipline opts devices r s :
  New_GetSpec DeviceFromPath goarch uname getSoname resolve libs64 resolveChain dxcore_adapters opts devices = Some (r, s) ->
  st_nvml s = 0 /\ default 0 (st_sandbox s) = 0
  /\ st_misuse s = (if getNvsandboxUtilsLib (populateOptions opts) is Some _ then ["GetDriverVersion"] else []).
Proof.
  unfold New_GetSpec, New_run. set (o := populateOptions opts). set (loc := if has_flag _ _ then _ else _).
  destruct loc; [|done]. destruct (located_lib _ _ _ _); [|done]. cbn beta iota delta [base.mbind option_bind].
  assert (Hlib : getNvsandboxUtilsLib o = Some 0 \/ getNvsandboxUtilsLib o = None).
  { unfold getNvsandboxUtilsLib. destruct (has_flag _ _); [by right|]. destruct (sandbox_Init _); by (left + right). }
  destruct (new_driver o _) as [[[[]|e] s1]|] eqn:Hd; [| |done].
  all: apply new_driver_state in Hd as (Hok & Hn & Hs & Hmis); [|done|done]; try done.
  assert (Hend : forall s', keeps s1 s' -> st_nvml s' = 0 /\ default 0 (st_sandbox s') = 0
    /\ st_misuse s' = (if getNvsandboxUtilsLib o is Some _ then ["GetDriverVersion"] else [])).
  { intros s' (Hn' & Hmis' & Hs'). rewrite Hn', Hmis', Hn, Hmis. split; [done|]. split; [|done].
    destruct Hs' as [-> | ->]; [|done]. rewrite Hs. simpl. by destruct Hlib as [-> | ->]. }
  destruct (factory_of_mode _ _ _ _ _ _ _ _ _) as [f|e] eqn:Hf.
  - apply runs_factory in Hf as [Hg Hc]. destruct (wrapper_GetSpec o f devices s1) as [[r2 s2]|] eqn:Hw; [|done].
    intros [= <- <-]. apply Hend. by apply (runs_wrapper o f devices Hg Hc s1 r2 s2 I).
  - intros [= <- <-]. apply Hend, keeps_refl.
Qed.
End Theorems.

Lemma New_GetSpec_discipline_witness :
  (exists b s, lab_GetSpec [] ["all"] = Some (Ok (Ok b), s) /\ map Device_Name (CDISpec.Devices (SpecBuilder.Raw b)) = ["0"; "1:0"])
  /\ exists r s, lab_GetSpec [] ["all"] = Some (r, s) /\ st_nvml s = 0 /\ st_misuse s = ["GetDriverVersion"].
Proof.
  split; [eexists _, _; split; vm_compute; reflexivity|].
  destruct (lab_GetSpec [] ["all"]) as [[r s]|] eqn:Hrun; [|vm_compute in Hrun; discriminate].
  exists r, s. split; [done|]. apply New_GetSpec_discipline in Hrun as (Hn & _ & Hm). split; [done|]. by rewrite Hm.
Defined.
