(* ===== verification/NvcdiNames.v ===== *)
(** * Names of the generated devices

    The devices that the nvml mode generates for "all" have distinct names, and
    a request by index stands for the one by UUID. *)
From S2P Require Import Prelude GoStrings GoPaths Json Glob Lookup DriverRoot ProcInfo ProcInfoProps CDIParser CDISpec Transform SpecBuilder Image Discover DiscoverDriver Edits Tegra Nvml Dgpu NvcdiDriver NvcdiOptions Nvcdi NvcdiProps.
#[local] Open Scope nvcdi_scope.

(** ** Printed integers *)

Lemma fmt_Z_free c z : is_num_byte c = false -> has_byte c (fmt_Z z) = false.
Proof. intros Hc. eapply string_all_free; [apply fmt_Z_num|done]. Qed.
Lemma fmt_Z_same x y : fmt_Z x = fmt_Z y -> x = y.
Proof. apply (inj pretty.pretty). Qed.

(** ** Visiting devices with their indices *)

Lemma runs_map2 P `{!Stable P} {A B C} (R : A -> C -> Prop) (Q : C -> B -> Prop) (f : A -> G B) l cs :
  (forall a c, R a c -> runs P (Q c) (f a)) -> Forall2 R l cs -> runs P (Forall2 Q cs) (map_G f l).
Proof.
  intros Hf. induction 1 as [|a c l cs Ha Hl IH]; [by apply runs_ret; constructor|]. simpl.
  eapply runs_bind; [by apply Hf|]. intros b Hb. eapply runs_bind; [done|]. intros bs Hbs. apply runs_ret. by constructor.
Qed.

Section Visits.
Context `{Nvml} (P : St -> Prop) `{!Stable P} `{!Loads P}.
#[local] Set Default Proof Using "Type*".

Lemma runs_visit_indexed {A} (Q : Z -> A -> Prop) visit :
  (forall i d, DeviceGetHandleByIndex i = Ok d -> runs P (Q i) (visit i d)) ->
  runs P (fun l => exists idx, NoDup idx /\ Forall2 Q idx l) (VisitDevices visit).
Proof.
  intros Hv. unfold VisitDevices. run; [repeat run|].
  assert (Hloop : forall idx, runs P (fun l => exists js, sublist js idx /\ Forall2 Q js l) (visit_loop visit idx)).
  { induction idx as [|i idx IH]; [apply runs_ret; by exists []|]. simpl.
    eapply runs_bind; [run; apply (runs_query_ok _)|]. intros d Hd. run; [repeat run|]. run.
    - eapply runs_weaken; [|apply IH]. intros l (js & Hs & Hl). exists js. split; [by constructor|done].
    - eapply runs_bind; [run; by apply Hv|]. intros b Hb. eapply runs_bind; [apply IH|]. intros l (js & Hs & Hl).
      apply runs_ret. exists (i :: js). by split; constructor. }
  eapply runs_weaken; [|apply Hloop]. intros l (js & Hs & Hl). exists js. split; [|done].
  eapply sublist_NoDup; [|done]. apply NoDup_fmap_2; [apply _|apply NoDup_seq].
Qed.

Lemma runs_visit_mig_indexed {A} (Q : Z * Z -> A -> Prop) visit :
  (forall d migs, dev_MigDevices d = Ok migs -> NoDup (map fst migs)) ->
  (forall i d migs j m, DeviceGetHandleByIndex i = Ok d -> dev_MigDevices d = Ok migs -> (j, m) ∈ migs ->
     runs P (Q (i, j)) (visit i d j m)) ->
  runs P (fun ls => exists ijs, NoDup ijs /\ Forall2 Q ijs (concat ls)) (VisitMigDevices visit).
Proof.
  intros Hmigs Hv. unfold VisitMigDevices. run.
  eapply runs_weaken; [|apply (runs_visit_indexed (fun i l => exists js, NoDup js /\ Forall2 (fun j => Q (i, j)) js l))].
  - intros ls (idx & Hidx & Hl). revert Hidx. cut (NoDup idx -> exists ijs, NoDup ijs
      /\ (forall ij, ij ∈ ijs -> ij.1 ∈ idx) /\ Forall2 Q ijs (concat ls)); [by intros Hcut (ijs & ? & _ & ?)%Hcut; eauto|].
    induction Hl as [|i l idx ls (js & Hjs & Hl) Hls IH].
    { intros _. exists []. split; [constructor|]. split; [intros ij []%elem_of_nil|constructor]. }
    intros [Hi Hidx]%NoDup_cons. destruct (IH Hidx) as (ijs & Hnd & Hin & Hq). exists (map (pair i) js ++ ijs). simpl.
    split; [|split].
    + apply NoDup_app. split; [by apply NoDup_fmap_2; [apply _|]|]. split; [|done].
      intros ij (j & -> & _)%list_elem_of_fmap Hij. by apply Hi, (Hin _ Hij).
    + intros ij [(j & -> & _)%list_elem_of_fmap|Hij]%elem_of_app; [by left|]. right. by apply Hin.
    + apply Forall2_app; [|done]. by apply Forall2_fmap_l.
  - intros i d Hd. eapply runs_bind; [run; apply (runs_query_ok _)|]. intros migs Hm. run.
    eapply runs_weaken; [|eapply (runs_map2 P (fun jm j => j = jm.1 /\ jm ∈ migs) (fun j => Q (i, j)))].
    + intros l Hl. exists (map fst migs). by split; [apply (Hmigs d)|].
    + intros [j m] j' [-> Hin]. run. by apply (Hv i d migs).
    + apply Forall2_fmap_r. apply Forall_Forall2_diag. apply Forall_forall. by intros jm Hin.
Qed.
End Visits.

(** ** The names *)

(** A device that is visited, with its UUID. *)
Inductive visited : Type := Gpu (i : Z) (uuid : string) | Mig (i j : Z) (uuid : string).
Definition position (x : visited) : Z * option Z := match x with Gpu i _ => (i, None) | Mig i j _ => (i, Some j) end.
Definition uuid_of (x : visited) : string := match x with Gpu _ u | Mig _ _ u => u end.
(** The name of a device by a strategy. *)
Definition label (x : visited) (strategy : string) : string :=
  if String.eqb strategy "uuid" then uuid_of x
  else let '(gpu, mig) := if String.eqb strategy "index" then ("", "") else ("gpu", "mig") in
    match x with Gpu i _ => gpu +:+ fmt_Z i | Mig i j _ => mig +:+ fmt_Z i +:+ ":" +:+ fmt_Z j end.
Definition strategies : list string := ["index"; "type-index"; "uuid"].

Lemma IsUUID_byte u : IsUUID u = true -> has_byte "G" u = true.
Proof.
  unfold IsUUID, IsGpuUUID, IsMigUUID. intros [[H _]%andb_prop|[H _]%andb_prop]%orb_prop;
    apply trim_prefix_spec in H as ->; by rewrite has_byte_app.
Qed.
Lemma mig_numbers i j i' j' : fmt_Z i +:+ ":" +:+ fmt_Z j = fmt_Z i' +:+ ":" +:+ fmt_Z j' -> i = i' /\ j = j'.
Proof.
  simpl. intros He%(f_equal (cut ":")). rewrite !cut_byte_app in He by by apply fmt_Z_free.
  by injection He as ->%fmt_Z_same ->%fmt_Z_same.
Qed.
Lemma has_byte_cons c d s : has_byte c (String d s) = Ascii.eqb c d || has_byte c s.
Proof. done. Qed.
Ltac bytes c H := apply (f_equal (has_byte c)) in H; cbn -[has_byte fmt_Z] in H;
  rewrite ?has_byte_app, ?has_byte_cons, ?has_byte_app, ?has_byte_cons, ?(fmt_Z_free c) in H by done; cbn in H.
(** Names of different strategies differ, and a name tells the position or the
    UUID. *)
Lemma label_inj x y s s' : IsUUID (uuid_of x) = true -> IsUUID (uuid_of y) = true -> s ∈ strategies -> s' ∈ strategies ->
  label x s = label y s' -> s = s' /\ (position x = position y \/ uuid_of x = uuid_of y).
Proof.
  intros Hx%IsUUID_byte Hy%IsUUID_byte Hs Hs' He. unfold strategies in Hs, Hs'. rewrite !elem_of_cons, elem_of_nil in Hs, Hs'.
  destruct Hs as [->|[->|[->|[]]]], Hs' as [->|[->|[->|[]]]]; unfold label in He; cbn in He; try (split; [done|]); try by right.
  all: try (destruct x as [i u|i j u]; cbn [uuid_of] in *; bytes "G"%char He; rewrite ?Hx, ?Hy in He; done).
  all: try (destruct y as [i u|i j u]; cbn [uuid_of] in *; bytes "G"%char He; rewrite ?Hx, ?Hy in He; done).
  all: destruct x as [i u|i j u], y as [i' u'|i' j' u']; cbn [position].
  all: try (bytes "g"%char He; done).
  all: try (bytes ":"%char He; done).
  all: left; repeat (injection He as He); try (by apply fmt_Z_same in He as ->).
  all: by apply mig_numbers in He as [-> ->].
Qed.
Lemma fmap_inj_on {A B} (f : A -> B) l x y : NoDup (map f l) -> x ∈ l -> y ∈ l -> f x = f y -> x = y.
Proof.
  intros Hl (i & Hi)%list_elem_of_lookup (j & Hj)%list_elem_of_lookup He. cut (i = j); [by intros ->; simplify_eq|].
  apply (NoDup_lookup (f <$> l) i j (f x) Hl); rewrite list_lookup_fmap, ?Hi, ?Hj; cbn; by rewrite ?He.
Qed.
Lemma labels_distinct l xs : NoDup l -> l ⊆ strategies -> NoDup xs ->
  Forall (fun x => IsUUID (uuid_of x) = true) xs ->
  (forall x y, x ∈ xs -> y ∈ xs -> position x = position y \/ uuid_of x = uuid_of y -> x = y) ->
  NoDup (concat (map (fun x => map (label x) l) xs)).
Proof.
  intros Hl Hin Hxs Hu Hdiff. rewrite Forall_forall in Hu. induction Hxs as [|x xs Hx _ IH]; [constructor|]. cbn [map concat].
  apply NoDup_app. split; [|split].
  - apply NoDup_fmap_2_strong; [|done]. intros s s' Hs Hs' He. apply label_inj in He; [by destruct He|apply Hu; by left..|by apply Hin|by apply Hin].
  - intros n (s & -> & Hs)%list_elem_of_fmap Hn. apply list_elem_of_In, in_concat in Hn as (ns & Hns%list_elem_of_In & Hn%list_elem_of_In).
    apply list_elem_of_fmap in Hns as (y & -> & Hy). apply list_elem_of_fmap in Hn as (s' & He & Hs').
    apply label_inj in He as [_ He]; [|apply Hu; first [by left|by right]..|by apply Hin|by apply Hin].
    apply Hdiff in He as ->; [done|by left|by right].
  - apply IH; [intros y ?; by apply Hu; right|]. intros y z ???. apply Hdiff; [by right..|done].
Qed.

Section Names.
Context `{MapRange} `{SortSlice} `{Host} `{HostFiles} `{PropertyExtractor} `{Nvml} `{Sandbox}
  (DeviceFromPath : string -> option DeviceInfo) (o : NvcdiOptions.options) (l : list string).
#[local] Set Default Proof Using "Type*".
Context (Hnamers : map NewDeviceNamer l = map Ok (deviceNamers o)).

(** What the library answers about a device. *)
Definition answered (x : visited) : Prop :=
  match x with
  | Gpu i u => exists d, DeviceGetHandleByIndex i = Ok d /\ dev_GetUUID d = Ok u
  | Mig i j u => exists d migs m, DeviceGetHandleByIndex i = Ok d /\ dev_MigDevices d = Ok migs /\ (j, m) ∈ migs /\ dev_GetUUID m = Ok u
  end.
Context (Hmigs : forall d migs, dev_MigDevices d = Ok migs -> NoDup (map fst migs))
  (Huuid : forall x, answered x -> IsUUID (uuid_of x) = true)
  (Huniq : forall x y, answered x -> answered y -> uuid_of x = uuid_of y -> position x = position y).

Definition named (x : visited) (g : Generator) : Prop := runs loaded (fun ds => map Device_Name ds = map (label x) l) g.

Lemma strategies_known s n : NewDeviceNamer s = Ok n -> s ∈ strategies.
Proof.
  unfold NewDeviceNamer. destruct (String.eqb_spec s DeviceNameStrategyIndex) as [->|]; [by left|].
  destruct (String.eqb_spec s DeviceNameStrategyTypeIndex) as [->|]; [by right; left|].
  destruct (String.eqb_spec s DeviceNameStrategyUUID) as [->|]; [by do 2 right; left|done].
Qed.
Lemma known : l ⊆ strategies.
Proof.
  intros s Hs. assert (Ho : NewDeviceNamer s ∈ map NewDeviceNamer l) by (apply list_elem_of_fmap; by exists s).
  rewrite Hnamers in Ho. apply list_elem_of_fmap in Ho as (n & Hn & _). by apply strategies_known in Hn.
Qed.
Lemma label_nonempty x s : IsUUID (uuid_of x) = true -> label x s <> "".
Proof.
  intros Hu%IsUUID_byte He%(f_equal String.length). unfold label in He. destruct (String.eqb s "uuid"); [by destruct (uuid_of x)|].
  destruct (fmt_Z_cons (position x).1) as (c & t & Ht & _). destruct (String.eqb s "index"), x; cbn in *; try done; by rewrite Ht in He.
Qed.
(** The namers of the strategies give the names. *)
Lemma collected x (f : DeviceNamer -> result string) names : IsUUID (uuid_of x) = true ->
  (forall s n, NewDeviceNamer s = Ok n -> f n = Ok (label x s)) ->
  collect_names f (deviceNamers o) = Ok names -> names = map (label x) l.
Proof.
  intros Hu Hf. unfold collect_names.
  assert (Hr : rmap f (deviceNamers o) = Ok (map (label x) l)).
  { clear -Hnamers Hf. revert Hnamers. generalize (deviceNamers o). induction l as [|s l' IH]; intros [|n ns] [=]; [done|].
    cbn. rewrite (Hf s n) by done. cbn. by rewrite IH. }
  rewrite Hr. cbn. assert (Hall : List.filter (fun n => negb (String.eqb n "")) (map (label x) l) = map (label x) l).
  { clear -Hu. induction l as [|s l' IH]; [done|]. cbn. rewrite IH. by rewrite (proj2 (String.eqb_neq _ _) (label_nonempty x s Hu)). }
  rewrite Hall. destruct (map (label x) l); [done|]. by intros [= <-].
Qed.
Lemma namer_label x s n : NewDeviceNamer s = Ok n ->
  match x with
  | Gpu i u => GetDeviceName n i (Ok u) = Ok (label x s)
  | Mig i j u => forall p, GetMigDeviceName n i p j (Ok u) = Ok (label x s)
  end.
Proof.
  intros Hn. pose proof (strategies_known s n Hn) as Hs. unfold strategies in Hs. rewrite !elem_of_cons, elem_of_nil in Hs.
  destruct Hs as [->|[->|[->|[]]]]; injection Hn as <-; by destruct x.
Qed.
Lemma full_device_named i d : DeviceGetHandleByIndex i = Ok d ->
  runs loaded (fun g => exists u, answered (Gpu i u) /\ named (Gpu i u) g) (newFullGPUDeviceSpecGeneratorFromDevice DeviceFromPath o i d).
Proof.
  intros Hd. unfold newFullGPUDeviceSpecGeneratorFromDevice. eapply runs_bind; [run; apply (runs_query_ok _)|]. intros u Hu. apply runs_ret.
  assert (Hx : answered (Gpu i u)) by by exists d. exists u. split; [done|].
  eapply runs_weaken, runs_full_specs. intros ds Hds. unfold GetDeviceNames in Hds.
  eapply (collected (Gpu i u)); [by apply Huuid| |exact Hds]. intros s n Hn. exact (namer_label (Gpu i u) s n Hn).
Qed.
Lemma mig_device_named i d migs j m : DeviceGetHandleByIndex i = Ok d -> dev_MigDevices d = Ok migs -> (j, m) ∈ migs ->
  runs loaded (fun g => exists u, answered (Mig i j u) /\ named (Mig i j u) g) (newMIGDeviceSpecGeneratorFromDevice DeviceFromPath o i d j m).
Proof.
  intros Hd Hm Hin. unfold newMIGDeviceSpecGeneratorFromDevice. eapply (runs_bind any); [repeat run|]. intros pu _.
  eapply runs_bind; [run; apply (runs_query_ok _)|]. intros u Hu. apply runs_ret.
  assert (Hx : answered (Mig i j u)) by by exists d, migs, m. exists u. split; [done|].
  eapply runs_weaken, runs_mig_specs. intros ds Hds. unfold GetMigDeviceNames in Hds.
  eapply (collected (Mig i j u)); [by apply Huuid| |exact Hds]. intros s n Hn. exact (namer_label (Mig i j u) s n Hn _).
Qed.
(** Devices at the given positions. *)
Definition at_positions (ps : list (Z * option Z)) (gs : list Generator) : Prop :=
  exists xs, map position xs = ps /\ Forall answered xs /\ Forall2 named xs gs.
Lemma at_positions_app ps qs gs hs : at_positions ps gs -> at_positions qs hs -> at_positions (ps ++ qs) (gs ++ hs).
Proof.
  intros (xs & <- & ? & ?) (ys & <- & ? & ?). exists (xs ++ ys). rewrite map_app. split_and!; [done|by apply Forall_app|by apply Forall2_app].
Qed.
Lemma full_positions idx full :
  Forall2 (fun i gs => gs = [] \/ exists g, gs = [g] /\ exists u, answered (Gpu i u) /\ named (Gpu i u) g) idx full ->
  exists js, sublist js idx /\ at_positions (map (fun i => (i, None)) js) (concat full).
Proof.
  induction 1 as [|i gs idx full Hgs _ (js & Hs & Hjs)]; [exists []; split; [done|by exists []]|].
  destruct Hgs as [->|(g & -> & u & Hu & Hg)].
  - exists js. by split; [constructor|].
  - exists (i :: js). split; [by constructor|]. apply (at_positions_app [_] _ [_]); [|done]. exists [Gpu i u].
    split_and!; [done|by apply Forall_singleton|by constructor; [|constructor]].
Qed.
Lemma mig_positions ijs gs : Forall2 (fun ij g => exists u, answered (Mig ij.1 ij.2 u) /\ named (Mig ij.1 ij.2 u) g) ijs gs ->
  at_positions (map (fun ij => (ij.1, Some ij.2)) ijs) gs.
Proof.
  induction 1 as [|[i j] g ijs gs (u & Hu & Hg) _ IH]; [by exists []|]. apply (at_positions_app [_] _ [_]); [|done].
  exists [Mig i j u]. split_and!; [done|by apply Forall_singleton|by constructor; [|constructor]].
Qed.
Lemma all_generators_named : runs loaded (fun gs => exists ps, NoDup ps /\ at_positions ps gs)
  (getDeviceSpecGeneratorsForAllDevices DeviceFromPath o).
Proof.
  unfold getDeviceSpecGeneratorsForAllDevices. eapply runs_bind.
  { run. apply (runs_visit_indexed loaded (fun i gs => gs = [] \/ exists g, gs = [g] /\ exists u, answered (Gpu i u) /\ named (Gpu i u) g)).
    intros i d Hd. run; [repeat run|]. run; [apply runs_ret; by left|]. eapply runs_bind; [by apply full_device_named|].
    intros g Hg. apply runs_ret. right. by exists g. }
  intros full (idx & Hidx & Hfull). eapply runs_bind.
  { run. apply (runs_visit_mig_indexed loaded (fun ij g => exists u, answered (Mig ij.1 ij.2 u) /\ named (Mig ij.1 ij.2 u) g)); [done|].
    apply mig_device_named. }
  intros migs (ijs & Hijs & Hmig). apply runs_ret.
  destruct (full_positions idx full Hfull) as (js & Hjs & Hnamed). assert (NoDup js) by by eapply sublist_NoDup.
  eexists. split; [|apply at_positions_app; [done|by apply mig_positions]]. apply NoDup_app. split_and!.
  - apply NoDup_fmap_2; [|done]. by intros ?? [=].
  - by intros p (i & -> & _)%list_elem_of_fmap (ij & ? & _)%list_elem_of_fmap.
  - apply NoDup_fmap_2; [|done]. by intros [][] [= -> ->].
Qed.
Lemma positions_distinct ps gs : NoDup l -> NoDup ps -> at_positions ps gs ->
  exists nss, Forall2 (fun ns g => runs loaded (fun ds => map Device_Name ds = ns) g) nss gs /\ NoDup (concat nss).
Proof.
  intros Hl Hps (xs & <- & Hxs & Hgs). exists (map (fun x => map (label x) l) xs). split; [by apply Forall2_fmap_l|].
  rewrite Forall_forall in Hxs. apply labels_distinct; [done|apply known|by eapply NoDup_fmap_1|apply Forall_forall; intros x Hx; by apply Huuid, Hxs|].
  intros x y Hx Hy [Hp|Hu%Huniq]; [| |by apply Hxs..]; by apply (fmap_inj_on position xs).
Qed.
End Names.

(** ** Requests by index *)

(** What a request names, its text, and the UUID that the library has for it. *)
Inductive request : Type := ByUUID (u : string) | ByGpu (i : Z) | ByMig (i j : Z).
Definition text (r : request) : string :=
  match r with ByUUID u => u | ByGpu i => fmt_Z i | ByMig i j => fmt_Z i +:+ ":" +:+ fmt_Z j end.
Definition int64 (i : Z) : Prop := (0 <= i < 2 ^ 63)%Z.

Lemma is_uint_fmt i : int64 i -> is_uint (fmt_Z i) = true.
Proof.
  unfold int64. intros Hi. destruct (fmt_Z_digits i) as (Hne & Hd & Hv); [lia|]. unfold is_uint, parse_uint.
  by rewrite (proj2 (String.eqb_neq _ _) Hne), Hd, Hv, (proj2 (Z.ltb_lt i (2 ^ 64))) by lia.
Qed.
Lemma not_uuid s : has_byte "G" s = false -> IsUUID s = false.
Proof. intros Hs. destruct (IsUUID s) eqn:E; [|done]. apply IsUUID_byte in E. congruence. Qed.
Lemma mig_not_uint i j : IsGpuIndex (fmt_Z i +:+ ":" +:+ fmt_Z j) = false.
Proof.
  unfold IsGpuIndex, is_uint, parse_uint. destruct (string_all is_digit _) eqn:E; [|by rewrite andb_false_r].
  apply (string_all_free _ ":") in E; [|done]. rewrite has_byte_app in E. simpl in E. by rewrite orb_true_r in E.
Qed.
Lemma mig_is_index i j : int64 i -> int64 j -> IsMigIndex (fmt_Z i +:+ ":" +:+ fmt_Z j) = true.
Proof.
  intros Hi Hj. unfold IsMigIndex. simpl. rewrite split_byte_app, split_byte_free_id by by apply fmt_Z_free.
  unfold IsGpuIndex. by rewrite !is_uint_fmt.
Qed.
Lemma parse_index_fmt i s : int64 i -> parse_index (fmt_Z i) s = Some (Ok i, s).
Proof. intros Hi. unfold parse_index. by rewrite atoi_fmt. Qed.

Section Requests.
Context `{MapRange} `{SortSlice} `{Host} `{HostFiles} `{PropertyExtractor} `{Nvml} `{Sandbox}
  (DeviceFromPath : string -> option DeviceInfo) (o : NvcdiOptions.options).
#[local] Set Default Proof Using "Type*".

Definition stands_for (r : request) (u : string) : Prop :=
  match r with
  | ByUUID v => u = v
  | ByGpu i => int64 i /\ exists d, DeviceGetHandleByIndex i = Ok d /\ dev_GetUUID d = Ok u
  | ByMig i j => int64 i /\ int64 j /\ exists d m,
      DeviceGetHandleByIndex i = Ok d /\ dev_GetMigDeviceHandleByIndex d j = Ok m /\ dev_GetUUID m = Ok u
  end.

Lemma all_specs_named P `{!Stable P} gs nss :
  Forall2 (fun ns g => runs P (fun ds => map Device_Name ds = ns) g) nss gs ->
  runs P (fun ds => map Device_Name ds = concat nss) (all_specs gs).
Proof.
  intros Hgs. unfold all_specs. eapply runs_bind.
  - apply (runs_map2 P (fun g ns => runs P (fun ds => map Device_Name ds = ns) g) (fun ns ds => map Device_Name ds = ns) id);
      [done|]. by apply Forall2_flip.
  - intros ls Hls. apply runs_ret. induction Hls as [|n ds ns ls Hn Hls IH] in gs, Hgs |- *; [done|].
    simpl. rewrite map_app, Hn. inversion Hgs; subst. f_equal. by eapply IH.
Qed.

(** C27. In the mode nvml the devices that are generated when all devices are
    requested have distinct names, those of GPUs and of MIG devices together,
    for every choice of naming strategies without repetition, given what the
    library promises: UUIDs are well-formed and of one device, and the MIG
    devices of a GPU have distinct indices. *)
Theorem all_device_names_distinct l ids s g s1 s2 ds s3
    (Hnamers : map NewDeviceNamer l = map Ok (deviceNamers o)) (Hl : NoDup l)
    (Hmigs : forall d migs, dev_MigDevices d = Ok migs -> NoDup (map fst migs))
    (Huuid : forall x, answered x -> IsUUID (uuid_of x) = true)
    (Huniq : forall x y, answered x -> answered y -> uuid_of x = uuid_of y -> position x = position y)
    (Hall : special_id ids = Some "all")
    (Hg : nvml_DeviceSpecGenerators DeviceFromPath o ids s = Some (Ok g, s1)) (Hds : g s2 = Some (Ok ds, s3)) :
  NoDup (map Device_Name ds).
Proof.
  assert (Hruns : runs anywhere (fun g => runs anywhere (fun ds => NoDup (map Device_Name ds)) g)
    (nvml_DeviceSpecGenerators DeviceFromPath o ids)).
  { unfold nvml_DeviceSpecGenerators, getDeviceSpecGeneratorsForIDs. rewrite Hall. simpl.
    eapply runs_bind; [by apply runs_with_init, (all_generators_named DeviceFromPath o l)|].
    intros gs (ps & Hps & Hgs). destruct (positions_distinct o l Hnamers Hmigs Huuid Huniq ps gs) as (nss & Hnss & Hd); [done..|].
    apply runs_ret, runs_with_init. eapply runs_weaken, all_specs_named; [|apply _|done]. by intros ? ->. }
  destruct (Hruns s _ _ I Hg) as [_ Hg']. by destruct (Hg' g eq_refl s2 _ _ I Hds) as [_ ?]; auto.
Qed.

Lemma bind_ok {A B} (m : G A) (k : A -> G B) s a s' : m s = Some (Ok a, s') -> bind m k s = k a s'.
Proof. unfold bind. by intros ->. Qed.
Lemma gwrap_ok {A} msg (m : G A) s a s' : m s = Some (Ok a, s') -> gwrap msg m s = Some (Ok a, s').
Proof. unfold gwrap. by intros ->. Qed.
Lemma query_loaded {A} call (r : result A) s : 0 < st_nvml s -> query call r s = Some (r, s).
Proof. unfold query. destruct (st_nvml s); [lia|done]. Qed.
Lemma normalized r u s : 0 < st_nvml s -> stands_for r u -> IsUUID u = true -> normalizeDeviceID (text r) s = Some (Ok u, s).
Proof.
  intros Hs Hr Hu. destruct r as [v|i|i j]; unfold normalizeDeviceID, text.
  - by rewrite <- Hr, Hu.
  - destruct Hr as (Hi & d & Hd & Hdu). rewrite not_uuid by by apply fmt_Z_free. unfold IsGpuIndex. rewrite is_uint_fmt by done.
    rewrite (bind_ok _ _ _ _ _ (parse_index_fmt i s Hi)). erewrite bind_ok; [|by apply gwrap_ok; rewrite query_loaded, Hd].
    by apply gwrap_ok; rewrite query_loaded, Hdu.
  - destruct Hr as (Hi & Hj & d & m & Hd & Hm & Hmu). rewrite not_uuid; [|simpl; rewrite has_byte_app; simpl; rewrite has_byte_cons, !fmt_Z_free; done].
    rewrite mig_not_uint, mig_is_index by done. simpl. rewrite cut_byte_app by by apply fmt_Z_free.
    rewrite (bind_ok _ _ _ _ _ (parse_index_fmt i s Hi)), (bind_ok _ _ _ _ _ (parse_index_fmt j s Hj)).
    erewrite bind_ok; [|by apply gwrap_ok; rewrite query_loaded, Hd].
    erewrite bind_ok; [|by apply gwrap_ok; rewrite query_loaded, Hm].
    by apply gwrap_ok; rewrite query_loaded, Hmu.
Qed.
Lemma normalized_all rs uuids s : 0 < st_nvml s -> Forall2 stands_for rs uuids -> Forall (fun u => IsUUID u = true) uuids ->
  normalizeDeviceIDs (map text rs) s = Some (Ok uuids, s).
Proof.
  intros Hs Hrs Hu. unfold normalizeDeviceIDs. induction Hrs as [|r u rs uuids Hr Hrs IH]; [done|]. inversion Hu; subst. simpl.
  rewrite (bind_ok _ _ _ _ _ (normalized r u s Hs Hr ltac:(done))). by rewrite (bind_ok _ _ _ _ _ (IH ltac:(done))).
Qed.
Lemma not_special rs uuids : Forall2 stands_for rs uuids -> Forall (fun u => IsUUID u = true) uuids -> special_id (map text rs) = None.
Proof.
  intros Hrs Hu. induction Hrs as [|r u rs uuids Hr Hrs IH]; [done|]. inversion Hu as [|?? Hu1 Hus]; subst. simpl. rewrite IH by done.
  assert (Ht : text r <> "none" /\ text r <> "all"); [|destruct Ht as [Hnone%String.eqb_neq Hall%String.eqb_neq]; by rewrite Hnone, Hall].
  destruct r as [v|i|i j]; cbn [text]; [by split; intros ->; cbn in Hr; subst u|..];
    destruct (fmt_Z_cons i) as (c & t & -> & Hc); by split; intros [= -> _].
Qed.

(** C28. Requesting devices by the index of a GPU, or by the indices of a GPU and
    of its MIG device, is the same as requesting them by the UUIDs that the
    library has for the GPU, or for the MIG device of that GPU; both ways may
    be mixed. *)
Theorem requests_by_index rs uuids s (Hs : 0 < st_nvml s) (Hrs : Forall2 stands_for rs uuids)
    (Hu : Forall (fun u => IsUUID u = true) uuids) :
  getDeviceSpecGeneratorsForIDs DeviceFromPath o (map text rs) s = getDeviceSpecGeneratorsForIDs DeviceFromPath o uuids s.
Proof.
  assert (Hid : map text (map ByUUID uuids) = uuids) by (rewrite map_map; apply map_id).
  assert (Hself : Forall2 stands_for (map ByUUID uuids) uuids) by (apply Forall2_fmap_l, Forall_Forall2_diag, Forall_true; done).
  pose proof (not_special _ uuids Hself Hu) as Hn. pose proof (normalized_all _ uuids s Hs Hself Hu) as Hnorm. rewrite Hid in Hn, Hnorm.
  unfold getDeviceSpecGeneratorsForIDs. rewrite Hn, (not_special rs uuids) by done.
  by rewrite (bind_ok _ _ _ _ _ (normalized_all rs uuids s Hs Hrs Hu)), (bind_ok _ _ _ _ _ Hnorm).
Qed.
End Requests.

(** ** On a machine *)

(** Devices are named by index and by UUID, as [cdi generate] does. *)
Definition lab_named : NvcdiOptions.options :=
  @populateOptions lab_platform [WithDeviceNamers [deviceNameIndex "" ""; deviceNameUUID]].
Definition lab_generators (ids : list string) : option (result (list Generator) * St) :=
  @getDeviceSpecGeneratorsForIDs lab_host lab_files lab_nvml lab_sandbox lab_device lab_named ids (set_nvml 1 lab_state).
Definition lab_mig_uuid : string := "MIG-00000000-0000-0000-0000-000000000002".

Definition lab_run (ids : list string) : option (list device) :=
  match @nvml_DeviceSpecGenerators lab_host lab_files lab_nvml lab_sandbox lab_device lab_named ids lab_state with
  | Some (Ok g, s) => match g s with Some (Ok ds, _) => Some ds | _ => None end
  | _ => None
  end.
Lemma lab_answered x : @answered lab_nvml x ->
  x = Gpu 0 (lab_uuid 0) \/ x = Gpu 1 (lab_uuid 1) \/ x = Mig 1 0 lab_mig_uuid.
Proof.
  destruct x as [i u|i j u]; cbn [answered lab_nvml DeviceGetHandleByIndex dev_GetUUID dev_MigDevices].
  - intros (d & Hd & Hu). destruct (Z.eqb_spec i 0) as [->|]; [injection Hd as <-; injection Hu as <-; by left|].
    destruct (Z.eqb_spec i 1) as [->|]; [|done]. injection Hd as <-. injection Hu as <-. by right; left.
  - intros (d & migs & m & Hd & Hm & Hin & Hu). destruct (Z.eqb_spec i 0) as [->|].
    + injection Hd as <-. injection Hm as <-. by apply elem_of_nil in Hin.
    + destruct (Z.eqb_spec i 1) as [->|]; [|done]. injection Hd as <-. injection Hm as <-.
      apply list_elem_of_singleton in Hin as [= -> ->]. injection Hu as <-. by right; right.
Qed.
Lemma lab_names : map Device_Name <$> lab_run ["all"] = Some ["0"; lab_uuid 0; "1:0"; lab_mig_uuid].
Proof. vm_compute. reflexivity. Qed.

Lemma all_device_names_distinct_witness : exists ds, lab_run ["all"] = Some ds
  /\ map Device_Name ds = ["0"; lab_uuid 0; "1:0"; lab_mig_uuid] /\ NoDup (map Device_Name ds).
Proof.
  pose proof lab_names as Hnames.
  destruct (lab_run ["all"]) as [ds|] eqn:Hrun; [|done]. exists ds. split; [done|]. split; [by injection Hnames|].
  unfold lab_run in Hrun. destruct (nvml_DeviceSpecGenerators _ _ _ _) as [[[g|] s1]|] eqn:Hg; [|done|done].
  destruct (g s1) as [[[ds'|] s2]|] eqn:Hds; [|done|done]. injection Hrun as ->.
  eapply (@all_device_names_distinct lab_host lab_files lab_nvml lab_sandbox lab_device lab_named ["index"; "uuid"] ["all"] lab_state
    g s1 s1 ds s2); try reflexivity; try done.
  - by apply (bool_decide_unpack _).
  - intros d migs [= <-]. destruct (d =? 1)%Z; repeat constructor; by intros []%elem_of_nil.
  - by intros x [->|[->| ->]]%lab_answered.
  - by intros x y [->|[->| ->]]%lab_answered [->|[->| ->]]%lab_answered.
Defined.
Lemma requests_by_index_witness :
  lab_generators ["0"; "1:0"; lab_uuid 1] = lab_generators [lab_uuid 0; lab_mig_uuid; lab_uuid 1]
  /\ match lab_generators ["0"; "1:0"; lab_uuid 1] with Some (Ok gs, _) => length gs | _ => 0 end = 3.
Proof.
  split; [|vm_compute; reflexivity].
  apply (@requests_by_index lab_host lab_files lab_nvml lab_sandbox lab_device lab_named [ByGpu 0; ByMig 1 0; ByUUID (lab_uuid 1)]).
  - apply Nat.lt_0_1.
  - constructor; [split; [done|by exists 0%Z]|]. constructor; [split; [done|]; split; [done|by exists 1%Z, 2%Z]|].
    constructor; [reflexivity|constructor].
  - repeat constructor.
Defined.
