(* ===== verification/Modifier.v ===== *)
(** * Modifiers of the OCI specification (src/internal/modifier)

    The factory that decides, from the runtime mode, the configuration and the
    requests of a container, how its specification is modified: the runtime
    hook (stable.go, hook_remover.go), CDI and CSV devices (cdi.go, csv.go,
    cdi/), gated features (gated.go), graphics (graphics.go), and the order of
    all these (mode.go, factory.go, list.go).

    The generator of CDI specifications, which the factory calls through
    [nvcdi.New] and [GetSpec], is the interface [SpecGenerator] of
    NvcdiOptions.v, which Nvcdi.v implements; the registry
    of CDI specifications and the CUDA driver library are parameters. *)
From S2P Require Import Prelude GoStrings CDIParser Lookup DriverRoot ProcInfo CDISpec OCISpec ApplyEdits Config Image Requirements Discover DiscoverDriver Edits Tegra NvcdiOptions.

(** ** Hooks *)

(** [isNVIDIAContainerRuntimeHook] *)
Definition isNVIDIAContainerRuntimeHook (hook : OCISpec.Hook) : bool :=
  let base := path_base (OCISpec.Hook_Path hook) in
  String.eqb base NVIDIAContainerRuntimeHookExecutable || String.eqb base NVIDIAContainerToolkitExecutable.

(** [stableRuntimeModifier.Modify] *)
Definition stable_Modify (nvidiaContainerRuntimeHookPath : string) : SpecModifier := fun spec =>
  let hooks := default no_hooks (Spec_Hooks spec) in
  if existsb isNVIDIAContainerRuntimeHook (Prestart hooks) then (spec, None)
  else
    let path := nvidiaContainerRuntimeHookPath in
    (set_hooks (Some (set_prestart (Prestart hooks ++ [OCISpec.mkHook path [path_base path; "prestart"] [] None]) hooks))
       spec, None).

(** [nvidiaContainerRuntimeHookRemover.Modify] *)
Definition hook_remover_Modify : SpecModifier := fun spec =>
  match Spec_Hooks spec with
  | None => (spec, None)
  | Some hooks =>
      let newPrestart := List.filter (fun h => negb (isNVIDIAContainerRuntimeHook h)) (Prestart hooks) in
      if Nat.eqb (length newPrestart) (length (Prestart hooks)) then (spec, None)
      else (set_hooks (Some (set_prestart newPrestart hooks)) spec, None)
  end.

(** ** Device requests *)

Definition automaticDeviceVendor : string := "runtime.nvidia.com".
Definition automaticDeviceClass : string := "gpu".
Definition automaticDeviceKind : string := automaticDeviceVendor +:+ "/" +:+ automaticDeviceClass.
Definition automaticDevicePrefix : string := automaticDeviceKind +:+ "=".

(** [withUniqueDevices] *)
Definition withUniqueDevices (devices : list string) : list string := dedup_by id ∅ devices.

Definition gatedDevices (i : Image.CUDA) : list string :=
  let enabled v mode := if String.eqb (Getenv i v) "enabled" then [mode] else [] in
  enabled "NVIDIA_GDS" "mode=gds" ++ enabled "NVIDIA_MOFED" "mode=mofed"
  ++ enabled "NVIDIA_GDRCOPY" "mode=gdrcopy" ++ enabled "NVIDIA_NVSWITCH" "mode=nvswitch".
Definition imexDevices `{MapRange} (i : Image.CUDA) : list string :=
  map (fun channelID => "mode=imex,id=" +:+ channelID) (ImexChannelRequests i).

(** [cdiDeviceRequestor.DeviceRequests]; [None] is a panic of the parser. *)
Definition qualify (defaultKind name : string) : option string :=
  let name := if String.eqb name "" then "none" else name in
  q ← IsQualifiedName name;
  Some (if (q : bool) then name else defaultKind +:+ "=" +:+ name).
Fixpoint qualify_all (defaultKind : string) (names : list string) : option (list string) :=
  match names with
  | [] => Some []
  | n :: names => d ← qualify defaultKind n; ds ← qualify_all defaultKind names; Some (d :: ds)
  end.
Definition cdiDeviceRequests `{MapRange} (i : Image.CUDA) (defaultKind : string) : option (list string) :=
  names ← VisibleDevices_of i; withUniqueDevices <$> qualify_all defaultKind names.
Definition csvDevices `{MapRange} (i : Image.CUDA) : option (list string) :=
  names ← VisibleDevices_of i; Some (map (fun deviceID => "mode=csv,id=" +:+ deviceID) names).

Definition filterAutomaticDevices (devices : list string) : list string :=
  List.filter (fun d => has_prefix d automaticDevicePrefix) devices.

Definition getModeIdentifier (device : string) : string * string :=
  if negb (has_prefix device "mode=") then ("auto", trim_prefix device automaticDevicePrefix)
  else
    match cut "," device with
    | Some (a, b) => (trim_prefix a "mode=", trim_prefix b "id=")
    | None => (trim_prefix device "mode=", "")
    end.

Record cdiModeIdentifiers := mkModeIdentifiers {
  modes : list string; idsByMode : gmap string (list string); deviceClassByMode : gmap string string;
}.
Fixpoint mode_identifiers_loop (devices : list string) (seen : gset string) (uniqueModes : list string)
  (ids : gmap string (list string)) : list string * gmap string (list string) :=
  match devices with
  | [] => (uniqueModes, ids)
  | d :: devices =>
      let '(mode, id) := getModeIdentifier d in
      let uniqueModes := if decide (mode ∈ seen) then uniqueModes else uniqueModes ++ [mode] in
      let ids := if String.eqb id "" then ids else <[mode := default [] (ids !! mode) ++ [id]]> ids in
      mode_identifiers_loop devices ({[mode]} ∪ seen) uniqueModes ids
  end.
Definition cdiModeIdentfiersFromDevices (devices : list string) : cdiModeIdentifiers :=
  let '(ms, ids) := mode_identifiers_loop devices ∅ [] ∅ in
  mkModeIdentifiers ms ids {["auto" := automaticDeviceClass]}.

(** ** The monad of the factory

    The driver caches its version, and a call can panic ([None]) or fail. *)
Definition M (A : Type) : Type := Driver -> option (result A * Driver).
Definition mret {A} (a : A) : M A := fun d => Some (Ok a, d).
Definition mfail {A} (e : string) : M A := fun d => Some (Err e, d).
Definition mpanic {A} (o : option A) : M A := fun d => a ← o; Some (Ok a, d).
Definition mresult {A} (r : result A) : M A := fun d => Some (r, d).
Definition mbind {A B} (m : M A) (k : A -> M B) : M B := fun d =>
  match m d with
  | None => None
  | Some (Err e, d) => Some (Err e, d)
  | Some (Ok a, d) => k a d
  end.
Definition mwrap {A} (msg : string) (m : M A) : M A := fun d =>
  match m d with Some (r, d) => Some (wrap msg r, d) | None => None end.
Notation "'do' x '<-' m ';' k" := (mbind m (fun x => k))
  (at level 10, x name, m at level 100, k at level 200) : go_scope.

(** ** CDI (src/internal/modifier/cdi) *)

Section Modifiers.
Context `{MapRange} `{Host} `{HostFiles} `{SpecGenerator} (goarch : string)
  (deviceInfoFromPath : string -> result ApplyEdits.deviceInfo) (DeviceFromPath : string -> option DeviceInfo)
  (InjectDevices : list string -> list string -> SpecModifier)
  (libraries : Locator) (cuda_Version cuda_ComputeCapability : result string).

(** [fromCDISpec.Modify] *)
Fixpoint apply_cdi_devices (kind : string) (ds : list CDISpec.device) (s : OCISpec.Spec)
  : OCISpec.Spec * option string :=
  match ds with
  | [] => (s, None)
  | d :: ds =>
      match ApplyEdits.Apply deviceInfoFromPath (Device_Edits d) s with
      | (s, Some e) => (s, Some ("failed to apply edits for device " +:+ quote (kind +:+ "=" +:+ Device_Name d) +:+ ": " +:+ e))
      | (s, None) => apply_cdi_devices kind ds s
      end
  end.
Definition fromCDISpec_Modify (cdiSpec : CDISpec.spec) : SpecModifier := fun s =>
  match apply_cdi_devices (Kind cdiSpec) (CDISpec.Devices cdiSpec) s with
  | (s, Some e) => (s, Some e)
  | (s, None) => ApplyEdits.Apply deviceInfoFromPath (Spec_Edits cdiSpec) s
  end.
(** [fromRegistry.Modify] *)
Definition fromRegistry_Modify (specDirs devices : list string) : SpecModifier := fun s =>
  match InjectDevices specDirs devices s with
  | (s, Some e) => (s, Some ("failed to inject CDI devices: " +:+ e))
  | (s, None) => (s, None)
  end.
(** [cdi.New] *)
Definition cdi_New (devices specDirs : list string) (cdiSpec : option CDISpec.spec) : option SpecModifier :=
  match cdiSpec with
  | Some spec => Some (fromCDISpec_Modify spec)
  | None => match devices with [] => None | _ => Some (fromRegistry_Modify specDirs devices) end
  end.

(** ** The factory *)

Record Factory := mkFactory {
  f_cfg : Config; f_hookCreator : HookCreator; f_image : Image.CUDA; f_runtimeMode : string;
}.
Context (f : Factory).
Local Abbreviation runtimeConfig := (NVIDIAContainerRuntimeConfig (f_cfg f)).

Definition noAdditionalGIDs : bool := IsEnabled (NoAdditionalGIDsForDeviceNodes (Features (f_cfg f))).

(** [discoverModifier.Modify] *)
Definition discoverModifier_Modify (d : Discover.Discover) : SpecModifier := fun s =>
  match FromDiscoverer DeviceFromPath noAdditionalGIDs d with
  | Err e => (s, Some ("failed to get required container edits: " +:+ e))
  | Ok specEdits => ApplyEdits.Apply deviceInfoFromPath specEdits s
  end.

(** [nvcdi.New] and [GetSpec] for one mode. *)
Definition nvcdi_options (driver : Driver) (csvFiles : list string) (class mode : string) : list NvcdiOptions.Option_ :=
  [ NvcdiOptions.WithNVIDIACDIHookPath (CTK_Path (NVIDIACTKConfig (f_cfg f)));
    NvcdiOptions.WithDriverRoot (DriverRoot.Root driver); NvcdiOptions.WithDevRoot (DriverRoot.DevRoot driver);
    NvcdiOptions.WithEditsFactory noAdditionalGIDs; NvcdiOptions.WithVendor automaticDeviceVendor;
    NvcdiOptions.WithClass class; NvcdiOptions.WithMode mode;
    NvcdiOptions.WithFeatureFlags (NVCDIFeatureFlags (Modes runtimeConfig));
    NvcdiOptions.WithCSVCompatContainerRoot (Config.CompatContainerRoot (Modes_CSV (Modes runtimeConfig)));
    NvcdiOptions.WithCSVFiles csvFiles ].
Definition generate_spec (csvFiles : list string) (class mode : string) (ids : list string) : M CDISpec.spec := fun d =>
  match GetSpec (nvcdi_options d csvFiles class mode) ids with
  | None => None
  | Some (Err e) => Some (Err ("failed to construct CDI library for mode " +:+ quote mode +:+ ": " +:+ e), d)
  | Some (Ok r) => Some (wrap ("failed to generate CDI spec for mode " +:+ quote mode) r, d)
  end.
(** The loop of [newAutomaticCDISpecModifier]. *)
Fixpoint automatic_modifiers (csvFiles : list string) (ids : cdiModeIdentifiers) (ms : list string)
  : M (list (option SpecModifier)) :=
  match ms with
  | [] => mret []
  | mode :: ms =>
      do spec <- generate_spec csvFiles (default "" (deviceClassByMode ids !! mode)) mode
        (default [] (idsByMode ids !! mode));
      do rest <- automatic_modifiers csvFiles ids ms;
      mret (cdi_New [] [] (Some spec) :: rest)
  end.
Definition newAutomaticCDISpecModifier (devices : list string) : M (option SpecModifier) :=
  let csvFiles := GetFileList (MountSpecPath (Modes_CSV (Modes runtimeConfig))) in
  let csvFiles :=
    if negb (String.eqb (Getenv (f_image f) EnvVarNvidiaRequireJetpack) "csv-mounts=all")
    then BaseFilesOnly csvFiles else csvFiles in
  let ids := cdiModeIdentfiersFromDevices devices in
  do ms <- automatic_modifiers csvFiles ids (modes ids);
  mret (Some (SpecModifiers_Modify ms)).

Definition newJitCDIModifier (automaticDevices : list string) : M (option SpecModifier) :=
  newAutomaticCDISpecModifier
    (automaticDevices ++ withUniqueDevices (gatedDevices (f_image f)) ++ withUniqueDevices (imexDevices (f_image f))).

Definition newCDIModifier (isJitCDI : bool) : M (option SpecModifier) :=
  let defaultKind := if isJitCDI then automaticDeviceKind else DefaultKind (Modes_CDI (Modes runtimeConfig)) in
  do devices <- mpanic (cdiDeviceRequests (f_image f) defaultKind);
  match devices with
  | [] => mret None
  | _ =>
      let automaticDevices := filterAutomaticDevices devices in
      if negb (Nat.eqb (length automaticDevices) (length devices)) && Nat.ltb 0 (length automaticDevices)
      then mfail "requesting a CDI device with vendor 'runtime.nvidia.com' is not supported when requesting other CDI devices"
      else if Nat.ltb 0 (length automaticDevices)
      then mwrap "failed to create the automatic CDI modifier" (newJitCDIModifier automaticDevices)
      else mret (cdi_New devices (SpecDirs (Modes_CDI (Modes runtimeConfig))) None)
  end.

(** [checkRequirements] *)
Definition checkRequirements (image : Image.CUDA) : result unit :=
  if HasDisableRequire image then Ok tt
  else
    let? imageRequirements := wrap "failed to get image requirements" (GetRequirements image) in
    let r := Req.New imageRequirements in
    let r := match cuda_Version with Ok v => Req.AddVersionProperty Req.CUDA v r | Err _ => r end in
    let r := match cuda_ComputeCapability with Ok v => Req.AddVersionProperty Req.ARCH v r | Err _ => r end in
    Req.Assert r.

Definition newCSVModifier : M (option SpecModifier) :=
  do devices <- mpanic (withUniqueDevices <$> csvDevices (f_image f));
  match devices with
  | [] => mret None
  | _ =>
      do _ <- mwrap "requirements not met" (mresult (checkRequirements (f_image f)));
      newAutomaticCDISpecModifier devices
  end.

(** [driver.Version] *)
Definition driver_Version : M string := fun d => DriverRoot.Version libraries d.

Definition getCudaCompatModeModifier : M (option SpecModifier) :=
  let mode := Mode runtimeConfig in
  if String.eqb mode "csv" then mret None
  else if String.eqb mode "legacy" && negb (String.eqb (CUDACompatMode (Modes runtimeConfig)) CUDACompatModeHook)
  then mret None
  else
    do version <- mwrap "failed to get driver version" driver_Version;
    let compat := NewCUDACompatHookDiscoverer (f_hookCreator f) (Some (mkCompatOptions version "" "")) in
    if negb (String.eqb mode "legacy") then mret (Some (discoverModifier_Modify compat))
    else mret (Some (discoverModifier_Modify
           (Merge [Some compat; Some (NewLDCacheUpdateHook None_ (f_hookCreator f))]))).

Definition newFeatureGatedModifier : M (option SpecModifier) :=
  do devices <- mpanic (VisibleDevices_of (f_image f));
  match devices with
  | [] => mret None
  | _ =>
      do gated <- match withUniqueDevices (gatedDevices (f_image f)) with
                  | [] => mret []
                  | requests => do m <- newAutomaticCDISpecModifier requests; mret [m]
                  end;
      do compat <- (if IsEnabled (DisableCUDACompatLibHook (Features (f_cfg f))) then mret []
                    else do m <- mwrap "failed to construct CUDA Compat discoverer" getCudaCompatModeModifier; mret [m]);
      mret (Some (SpecModifiers_Modify (gated ++ compat)))
  end.

Definition requiresGraphicsModifier (image : Image.CUDA) : option (list string) :=
  devices ← VisibleDevices_of image;
  if Nat.eqb (length devices) 0 then Some []
  else if negb (Caps.Any (GetDriverCapabilities image) ["graphics"; "display"]) then Some []
  else Some devices.

Definition newGraphicsModifier : M (option SpecModifier) :=
  do devices <- mpanic (requiresGraphicsModifier (f_image f));
  match devices with
  | [] => mret None
  | _ =>
      do ms <- mwrap "failed to create mounts discoverer"
        (fun d => NewGraphicsMountsDiscoverer goarch libraries d (f_hookCreator f));
      do drmNodes <- mwrap "failed to construct discoverer"
        (fun d => Some (NewDRMNodesDiscoverer (Image.Has (NewVisibleDevices devices)) (DriverRoot.Root d) (f_hookCreator f), d));
      mret (Some (discoverModifier_Modify (Merge [Some drmNodes; Some ms])))
  end.

(** [newModeModifier] *)
Definition newModeModifier : M (option SpecModifier) :=
  let mode := f_runtimeMode f in
  if String.eqb mode "legacy" then mret (Some (stable_Modify (Config.Hook_Path (HookConfig (f_cfg f)))))
  else if String.eqb mode "csv" then newCSVModifier
  else if String.eqb mode "cdi" || String.eqb mode "jit-cdi" then newCDIModifier (String.eqb mode "jit-cdi")
  else mfail ("invalid runtime mode: " +:+ mode).

Definition supportedModifierTypes (mode : string) : list string :=
  if String.eqb mode "cdi" || String.eqb mode "jit-cdi" then ["nvidia-hook-remover"; "mode"]
  else if String.eqb mode "csv" then ["nvidia-hook-remover"; "feature-gated"; "mode"]
  else ["feature-gated"; "graphics"; "mode"].

(** The loop of [create]. *)
Fixpoint create_loop (types : list string) : M (list (option SpecModifier)) :=
  match types with
  | [] => mret []
  | t :: types =>
      if String.eqb t "mode" then do m <- newModeModifier; do ms <- create_loop types; mret (m :: ms)
      else if String.eqb t "nvidia-hook-remover" then do ms <- create_loop types; mret (Some hook_remover_Modify :: ms)
      else if String.eqb t "graphics" then do m <- newGraphicsModifier; do ms <- create_loop types; mret (m :: ms)
      else if String.eqb t "feature-gated" then do m <- newFeatureGatedModifier; do ms <- create_loop types; mret (m :: ms)
      else create_loop types
  end.
Definition create : M (list (option SpecModifier)) := create_loop (supportedModifierTypes (f_runtimeMode f)).

(** [validate]; the driver is never nil here. *)
Definition validate : result unit :=
  let mode := f_runtimeMode f in
  if String.eqb mode "" then Err "a mode must be specified"
  else if existsb (String.eqb mode) ["legacy"; "csv"; "jit-cdi"; "cdi"] then Ok tt
  else Err ("invalid mode " +:+ quote mode).

(** [Factory.Modify]: the specification and the error, or a panic. *)
Definition Factory_Modify (driver : Driver) (s : OCISpec.Spec) : option (OCISpec.Spec * option string * Driver) :=
  match create driver with
  | None => None
  | Some (Err e, driver) => Some (s, Some e, driver)
  | Some (Ok ms, driver) => let '(s, e) := SpecModifiers_Modify ms s in Some (s, e, driver)
  end.
End Modifiers.
