(* ===== verification/ModifierProps.v ===== *)
(** * Properties of the specification modifiers *)
From S2P Require Import Prelude GoStrings CDIParser Lookup DriverRoot ProcInfo CDISpec OCISpec ApplyEdits Config Image Requirements Discover DiscoverDriver Edits Tegra NvcdiOptions Modifier.

(** ** The runtime hook *)

Definition prestart_of (s : OCISpec.Spec) : list OCISpec.Hook := Prestart (default no_hooks (Spec_Hooks s)).
Definition nvidia_hooks (s : OCISpec.Spec) : list OCISpec.Hook :=
  List.filter isNVIDIAContainerRuntimeHook (prestart_of s).
Definition other_hooks (s : OCISpec.Spec) : list OCISpec.Hook :=
  List.filter (fun h => negb (isNVIDIAContainerRuntimeHook h)) (prestart_of s).
(** All of a specification but its prestart hooks. *)
Definition off_prestart (s : OCISpec.Spec) : OCISpec.Spec :=
  set_hooks (Some (set_prestart [] (default no_hooks (Spec_Hooks s)))) s.

Lemma filter_length_all {A} (f : A -> bool) l : length (List.filter f l) = length l -> List.filter f l = l.
Proof.
  induction l as [|x l IH]; simpl; [done|]. destruct (f x); simpl; [intros [= ?]; by rewrite IH|].
  pose proof (filter_length_le f l). lia.
Qed.
Lemma filter_none {A} (f : A -> bool) l : existsb f l = false -> List.filter f l = [].
Proof. induction l as [|x l IH]; simpl; [done|]. by intros [-> ?]%orb_false_iff; auto. Qed.
Lemma filter_neg_nil {A} (f : A -> bool) l : List.filter f (List.filter (fun x => negb (f x)) l) = [].
Proof. induction l as [|x l IH]; simpl; [done|]. by destruct (f x) eqn:E; simpl; rewrite ?E. Qed.

(** The hook remover deletes exactly the NVIDIA hooks among the prestart
    hooks. The modifier of the legacy mode leaves a specification with an
    NVIDIA hook alone and otherwise appends one that runs the configured
    binary; it never adds a second one when that binary is known as an NVIDIA
    hook. Neither touches anything else, and neither fails. *)
Theorem hook_modifiers_spec s path :
  let removed := hook_remover_Modify s in
  let stable := stable_Modify path s in
  (removed.2 = None /\ prestart_of removed.1 = other_hooks s /\ off_prestart removed.1 = off_prestart s)
  /\ (stable.2 = None /\ off_prestart stable.1 = off_prestart s /\
      (if Nat.eqb (length (nvidia_hooks s)) 0
       then prestart_of stable.1 = prestart_of s ++ [OCISpec.mkHook path [path_base path; "prestart"] [] None]
       else stable.1 = s))
  /\ (path_base path ∈ [NVIDIAContainerRuntimeHookExecutable; NVIDIAContainerToolkitExecutable] ->
      stable_Modify path stable.1 = (stable.1, None) /\ nvidia_hooks stable.1 <> [] /\ other_hooks stable.1 = other_hooks s).
Proof.
  cbv zeta. split; [|split].
  - unfold hook_remover_Modify, prestart_of, other_hooks, off_prestart. unfold prestart_of.
    destruct (Spec_Hooks s) as [hooks|] eqn:Hh; [|simpl; by rewrite !Hh].
    destruct (Nat.eqb_spec (length (List.filter (fun h => negb (isNVIDIAContainerRuntimeHook h)) (Prestart hooks)))
      (length (Prestart hooks))) as [He|He].
    + simpl. rewrite Hh. simpl. by rewrite (filter_length_all _ _ He).
    + done.
  - unfold stable_Modify, prestart_of, nvidia_hooks, off_prestart. unfold prestart_of.
    destruct (existsb isNVIDIAContainerRuntimeHook _) eqn:He.
    + split; [done|]. split; [done|]. apply existsb_exists in He as (h & Hin & Hh).
      destruct (List.filter isNVIDIAContainerRuntimeHook _) eqn:Hf; [|done].
      assert (Hin' : In h (List.filter isNVIDIAContainerRuntimeHook (Prestart (default no_hooks (Spec_Hooks s)))))
        by by apply filter_In. by rewrite Hf in Hin'.
    + split; [done|]. split; [done|]. by rewrite (filter_none _ _ He).
  - intros Hbase. unfold stable_Modify at 1. set (h := OCISpec.mkHook path [path_base path; "prestart"] [] None).
    assert (Hh : isNVIDIAContainerRuntimeHook h = true).
    { unfold isNVIDIAContainerRuntimeHook, h. simpl. apply elem_of_cons in Hbase as [->|Hb]; [done|].
      apply list_elem_of_singleton in Hb as ->. done. }
    assert (Hex : existsb isNVIDIAContainerRuntimeHook (prestart_of (stable_Modify path s).1) = true
      /\ other_hooks (stable_Modify path s).1 = other_hooks s).
    { unfold stable_Modify. fold (prestart_of s). destruct (existsb isNVIDIAContainerRuntimeHook (prestart_of s)) eqn:He.
      - done.
      - set (s' := (_, None).1). assert (Hp : prestart_of s' = prestart_of s ++ [h]) by done.
        unfold other_hooks. rewrite Hp, existsb_app, List.filter_app. simpl. rewrite Hh. simpl. by rewrite orb_true_r, app_nil_r. }
    destruct Hex as [Hex Ho]. fold (prestart_of (stable_Modify path s).1). rewrite Hex.
    split; [done|]. split; [|done]. unfold nvidia_hooks. apply existsb_exists in Hex as (k & Hin & Hk).
    intros Hnil. assert (Hin' : In k (List.filter isNVIDIAContainerRuntimeHook (prestart_of (stable_Modify path s).1)))
      by by apply filter_In. by rewrite Hnil in Hin'.
Qed.

(** ** Device requests *)

Lemma mode_identifiers_loop_spec ds seen us ids :
  let '(us', ids') := mode_identifiers_loop ds seen us ids in
  us' = us ++ dedup_by id seen (map (fun d => (getModeIdentifier d).1) ds)
  /\ forall m, default [] (ids' !! m) = default [] (ids !! m)
       ++ List.filter (fun x => negb (String.eqb x "")) (map snd (List.filter (fun p => String.eqb p.1 m)
            (map getModeIdentifier ds))).
Proof.
  revert seen us ids. induction ds as [|d ds IH]; intros seen us ids; simpl.
  { split; [by rewrite app_nil_r|]. intros m. by rewrite app_nil_r. }
  destruct (getModeIdentifier d) as [mode i]. simpl.
  specialize (IH ({[mode]} ∪ seen) (if decide (mode ∈ seen) then us else us ++ [mode])
    (if String.eqb i "" then ids else <[mode:=default [] (ids !! mode) ++ [i]]> ids)).
  destruct (mode_identifiers_loop _ _ _ _) as [us' ids']. destruct IH as [-> IH]. split.
  - destruct (decide (mode ∈ seen)) as [Hs|Hs]; [|by rewrite <- app_assoc].
    assert ({[mode]} ∪ seen = seen) as -> by set_solver. done.
  - intros m. rewrite IH. destruct (String.eqb_spec mode m) as [->|Hne]; simpl.
    + destruct (String.eqb_spec i "") as [->|Hi]; simpl; [done|].
      rewrite lookup_insert_eq. simpl. by rewrite <- app_assoc.
    + destruct (String.eqb i ""); [done|]. by rewrite lookup_insert_ne.
Qed.

(** The in-memory CDI requests are grouped by mode: every mode that is
    requested occurs once, in the order of the first request, with the ids of
    all its requests in order; a request without an id adds none. *)
Theorem cdiModeIdentfiers_spec devices :
  let r := cdiModeIdentfiersFromDevices devices in
  modes r = dedup_by id ∅ (map (fun d => (getModeIdentifier d).1) devices)
  /\ NoDup (modes r)
  /\ (forall m, m ∈ modes r <-> exists d, d ∈ devices /\ (getModeIdentifier d).1 = m)
  /\ forall m, default [] (idsByMode r !! m)
       = List.filter (fun x => negb (String.eqb x "")) (map snd (List.filter (fun p => String.eqb p.1 m)
           (map getModeIdentifier devices))).
Proof.
  cbv zeta. unfold cdiModeIdentfiersFromDevices. pose proof (mode_identifiers_loop_spec devices ∅ [] ∅) as H.
  destruct (mode_identifiers_loop _ _ _ _) as [us ids]. destruct H as [-> Hids]. simpl. split; [done|].
  set (l := map (fun d => (getModeIdentifier d).1) devices).
  pose proof (dedup_by_NoDup (@id string) ∅ l) as Hnd. rewrite list_fmap_id in Hnd. split; [done|].
  split; [|by intros m; rewrite Hids, lookup_empty].
  intros m. rewrite dedup_by_same. unfold l. rewrite list_elem_of_fmap. naive_solver.
Qed.

Section Requests.
Context `{MapRange} `{Host} `{HostFiles} `{SpecGenerator} (goarch : string)
  (deviceInfoFromPath : string -> result ApplyEdits.deviceInfo) (DeviceFromPath : string -> option DeviceInfo)
  (InjectDevices : list string -> list string -> SpecModifier)
  (libraries : Locator) (cuda_Version cuda_ComputeCapability : result string).

Lemma filter_all {A} (f : A -> bool) l : Forall (fun x => f x = true) l -> List.filter f l = l.
Proof. induction 1 as [|x l Hx Hl IH]; simpl; [done|]. by rewrite Hx, IH. Qed.
Lemma filter_length_iff {A} (f : A -> bool) l :
  length (List.filter f l) = length l <-> Forall (fun x => f x = true) l.
Proof.
  split; [|intros Hl; by rewrite (filter_all _ _ Hl)].
  intros Hl%filter_length_all. rewrite Forall_forall. intros x Hx.
  rewrite <- Hl in Hx. apply list_elem_of_In, filter_In in Hx as [_ ?]. done.
Qed.

Definition automatic (d : string) : Prop := has_prefix d automaticDevicePrefix = true.

(** C23. Which CDI modifier a container gets: none if it requests no device, one
    for specifications generated in memory if all its devices are automatic
    ones, one for the registry if none is, and an error if both kinds are
    mixed. In the jit-cdi mode an unqualified request is an automatic one. *)
Theorem newCDIModifier_spec f isJit d devices :
  cdiDeviceRequests (f_image f)
    (if isJit : bool then automaticDeviceKind
     else DefaultKind (Modes_CDI (Config.Modes (NVIDIAContainerRuntimeConfig (f_cfg f))))) = Some devices ->
  let r := newCDIModifier deviceInfoFromPath InjectDevices f isJit d in
  (devices = [] -> r = Some (Ok None, d))
  /\ (devices <> [] -> Forall automatic devices -> r
      = mwrap "failed to create the automatic CDI modifier" (newJitCDIModifier deviceInfoFromPath InjectDevices f devices) d)
  /\ (devices <> [] -> Forall (fun x => ~ automatic x) devices ->
      r = Some (Ok (Some (fromRegistry_Modify InjectDevices
        (SpecDirs (Modes_CDI (Config.Modes (NVIDIAContainerRuntimeConfig (f_cfg f))))) devices)), d))
  /\ (List.Exists automatic devices -> List.Exists (fun x => ~ automatic x) devices -> exists e, r = Some (Err e, d)).
Proof.
  intros Hd. cbv zeta. unfold newCDIModifier, mbind, mpanic. rewrite Hd. cbn beta iota delta [base.mbind option_bind].
  split; [by intros ->|]. unfold filterAutomaticDevices.
  split; [|split].
  - intros Hne Ha. destruct devices as [|x l]; [done|].
    rewrite (filter_all _ _ Ha), Nat.eqb_refl. simpl. unfold mwrap, mresult. done.
  - intros Hne Hn. destruct devices as [|x l]; [done|].
    rewrite (filter_none _ (x :: l)); [done|]. apply not_true_is_false. intros (y & Hy & Hp)%existsb_exists.
    rewrite Forall_forall in Hn. apply (Hn y); [by apply list_elem_of_In|done].
  - intros Ha Hn. destruct devices as [|x l]; [by apply Exists_nil in Ha|].
    destruct (Nat.eqb_spec (length (List.filter (fun d => has_prefix d automaticDevicePrefix) (x :: l))) (length (x :: l))) as [He|He].
    + apply filter_length_iff in He. apply Exists_exists in Hn as (y & Hy & Hn).
      rewrite Forall_forall in He. exfalso. by apply Hn, He.
    + destruct (Nat.ltb_spec 0 (length (List.filter (fun d => has_prefix d automaticDevicePrefix) (x :: l)))) as [Hl|Hl].
      * by eexists.
      * exfalso. apply Exists_exists in Ha as (y & Hy & Hp).
        assert (Hin : In y (List.filter (fun d => has_prefix d automaticDevicePrefix) (x :: l))).
        { apply filter_In. split; [by apply list_elem_of_In|done]. }
        destruct (List.filter _ (x :: l)); [done|simpl in Hl; lia].
Qed.

(** C25. A container that requests no device is only given or deprived of the
    runtime hook: in the legacy mode the hook is added, in the other modes
    existing hooks are removed, and nothing can fail. *)
Theorem no_requests_only_hooks f d s :
  VisibleDevices_of (f_image f) = Some [] ->
  f_runtimeMode f ∈ ["legacy"; "csv"; "cdi"; "jit-cdi"] ->
  Factory_Modify goarch deviceInfoFromPath DeviceFromPath InjectDevices libraries cuda_Version cuda_ComputeCapability
    f d s
  = Some ((if String.eqb (f_runtimeMode f) "legacy"
           then stable_Modify (Config.Hook_Path (HookConfig (f_cfg f))) s else hook_remover_Modify s).1, None, d).
Proof.
  intros Hv Hmode. destruct f as [cfg hc image mode]. simpl in *.
  assert (Hmodes : mode = "legacy" \/ mode = "csv" \/ mode = "cdi" \/ mode = "jit-cdi").
  { repeat (apply elem_of_cons in Hmode as [->|Hmode]; [tauto|]). by apply not_elem_of_nil in Hmode. }
  unfold Factory_Modify, create.
  assert (Hgated : forall k : option SpecModifier -> M (list (option SpecModifier)),
    mbind (newFeatureGatedModifier deviceInfoFromPath DeviceFromPath InjectDevices libraries (mkFactory cfg hc image mode)) k d
    = k None d) by (intros k; unfold newFeatureGatedModifier, mpanic, mbind; simpl; by rewrite Hv).
  assert (Hremover : (hook_remover_Modify s).2 = None) by apply (hook_modifiers_spec s "").
  assert (Hstable : (stable_Modify (Config.Hook_Path (HookConfig cfg)) s).2 = None)
    by apply (hook_modifiers_spec s (Config.Hook_Path (HookConfig cfg))).
  destruct Hmodes as [->|[->|[->| ->]]]; simpl supportedModifierTypes; simpl create_loop.
  - rewrite Hgated. unfold newGraphicsModifier, requiresGraphicsModifier, newModeModifier, mpanic, mbind, mret. simpl.
    rewrite Hv. simpl. destruct (stable_Modify _ s) as [s' e]. simpl in Hstable. by subst.
  - unfold mbind at 1. rewrite Hgated.
    unfold newModeModifier, newCSVModifier, csvDevices, mpanic, mbind, mret. simpl. rewrite Hv. simpl.
    destruct (hook_remover_Modify s) as [s' e]. simpl in Hremover. by subst.
  - unfold newModeModifier, newCDIModifier, cdiDeviceRequests, mpanic, mbind, mret. simpl. rewrite Hv. simpl.
    destruct (hook_remover_Modify s) as [s' e]. simpl in Hremover. by subst.
  - unfold newModeModifier, newCDIModifier, cdiDeviceRequests, mpanic, mbind, mret. simpl. rewrite Hv. simpl.
    destruct (hook_remover_Modify s) as [s' e]. simpl in Hremover. by subst.
Qed.
End Requests.

(** ** Instances *)

Definition bare_host : Host := {|
  os_Stat := fun _ => None; os_Lstat := fun _ => None; os_Readlink := fun _ => None; EvalSymlinks := Some;
  filepath_Glob := fun _ => []; filepath_Abs := Some; os_LookupEnv := fun _ => None |}.
Definition bare_files : HostFiles := {| os_ReadFile := fun _ => None; os_ReadError := fun _ => NotExist; os_ReadDir := fun _ => None |}.
Definition no_generator : SpecGenerator := {| GetSpec := fun _ _ => Some (Err "no driver") |}.
Definition request_image (devices : string) : Image.CUDA :=
  mkCUDA ∅ (if String.eqb devices "" then ∅ else {[EnvVarNvidiaVisibleDevices := devices]}) false [] [] false true false [].
Definition request_factory (devices mode : string) : Factory :=
  mkFactory (@GetDefault bare_host bare_files) (NewHookCreator []) (request_image devices) mode.
Definition bare_driver : Driver := mkDriver "/" "/" [] [] "" "".
Definition no_inject (dirs devices : list string) : SpecModifier := fun s => (s, Some "unresolvable CDI devices").

(** Mixing an automatic device with a device of another vendor fails, and
    devices of the default kind come from the registry. *)
Lemma newCDIModifier_spec_witness :
  (exists e, @newCDIModifier map_to_list_range bare_files no_generator (fun _ => Err "") no_inject
     (request_factory "runtime.nvidia.com/gpu=0,0" "cdi") false bare_driver = Some (Err e, bare_driver))
  /\ @newCDIModifier map_to_list_range bare_files no_generator (fun _ => Err "") no_inject
       (request_factory "0,1" "cdi") false bare_driver
     = Some (Ok (Some (fromRegistry_Modify no_inject ["/etc/cdi"; "/var/run/cdi"]
         ["nvidia.com/gpu=0"; "nvidia.com/gpu=1"])), bare_driver).
Proof.
  split.
  - apply (@newCDIModifier_spec map_to_list_range bare_files no_generator (fun _ => Err "") no_inject
      (request_factory "runtime.nvidia.com/gpu=0,0" "cdi") false bare_driver
      ["runtime.nvidia.com/gpu=0"; "nvidia.com/gpu=0"]); [vm_compute; reflexivity| |].
    + constructor 1. reflexivity.
    + constructor 2. constructor 1. vm_compute. discriminate.
  - apply (@newCDIModifier_spec map_to_list_range bare_files no_generator (fun _ => Err "") no_inject
      (request_factory "0,1" "cdi") false bare_driver ["nvidia.com/gpu=0"; "nvidia.com/gpu=1"]);
      [vm_compute; reflexivity|discriminate|].
    repeat constructor; vm_compute; discriminate.
Defined.

Definition hooked_spec : OCISpec.Spec :=
  OCISpec.mkSpec "1.0.2" None None [] (Some (set_prestart
    [OCISpec.mkHook "/usr/bin/nvidia-container-runtime-hook" [] [] None; OCISpec.mkHook "/bin/other" [] [] None] no_hooks))
    ∅ None.
Lemma no_requests_only_hooks_witness :
  @VisibleDevices_of map_to_list_range (request_image "") = Some []
  /\ prestart_of (default (hooked_spec, None, bare_driver)
       (@Factory_Modify map_to_list_range bare_host bare_files no_generator "amd64" (fun _ => Err "") (fun _ => None)
          no_inject notFound (Err "") (Err "") (request_factory "" "jit-cdi") bare_driver hooked_spec)).1.1
     = [OCISpec.mkHook "/bin/other" [] [] None].
Proof.
  split; [vm_compute; reflexivity|].
  rewrite (@no_requests_only_hooks map_to_list_range bare_host bare_files no_generator "amd64" (fun _ => Err "")
    (fun _ => None) no_inject notFound (Err "") (Err "") (request_factory "" "jit-cdi") bare_driver hooked_spec).
  - vm_compute. reflexivity.
  - vm_compute. reflexivity.
  - right; right; right; left.
Defined.
