(* ===== verification/FileSystem.v ===== *)
(** * File systems

    The file system as the system calls see it: a map from the components of
    absolute paths to nodes, path resolution with symbolic links as the kernel
    does it, and the calls of package os that the container hooks use. Paths
    are absolute; permissions are not checked (the hooks run as root), and
    nothing else changes the file system in between. *)
From S2P Require Import Prelude GoStrings GoPaths.

Inductive node : Type :=
| DirNode (mode : Z)
| FileNode (content : string) (mode : Z)
| LinkNode (target : string)
| DeviceNode (major minor mode : Z).   (* a character device *)
#[global] Instance node_eq_dec : EqDecision node.
Proof. solve_decision. Defined.

Abbreviation fs := (@gmap (list string) (@list_eq_dec string String.eq_dec) (@list_countable string String.eq_dec String.countable) node).
(** The root is always there. *)
Definition node_at (f : fs) (p : list string) : option node :=
  match p with [] => Some (DirNode 493) | _ => f !! p end.
(** Nodes are in directories. *)
Definition well_formed (f : fs) : Prop :=
  f !! [] = None /\ forall p c n, f !! (p ++ [c]) = Some n -> exists m, node_at f p = Some (DirNode m).

Inductive errno := EPERM | EACCES | EROFS | ENOENT | ENOTDIR | ELOOP | EEXIST | ENOTEMPTY | EISDIR | EINVAL | EBUSY.
Definition errno_text (e : errno) : string :=
  match e with
  | EPERM => "operation not permitted" | EACCES => "permission denied" | EROFS => "read-only file system"
  | ENOENT => "no such file or directory" | ENOTDIR => "not a directory"
  | ELOOP => "too many levels of symbolic links" | EEXIST => "file exists" | ENOTEMPTY => "directory not empty"
  | EISDIR => "is a directory" | EINVAL => "invalid argument" | EBUSY => "device or resource busy"
  end.

(** ** Path resolution

    [walk] follows the components [todo] from the directory [cur]. The last
    component need not exist, and is only followed if [follow] is set; a path
    that ends in a slash names a directory, so its last component is not the
    last one here. At most [links] links are followed. *)
Section Walk.
Context (f : fs) (follow : bool).

Fixpoint walk (links : nat) : list string -> list string -> errno + list string :=
  fix go (cur todo : list string) : errno + list string :=
    match todo with
    | [] => inr cur
    | c :: todo =>
        if String.eqb c "" || String.eqb c "." then go cur todo
        else if String.eqb c ".." then go (take (length cur - 1) cur) todo
        else
          let p := cur ++ [c] in
          match f !! p with
          | None => match todo with [] => inr p | _ => inl ENOENT end
          | Some (DirNode _) => go p todo
          | Some (FileNode _ _) | Some (DeviceNode _ _ _) => match todo with [] => inr p | _ => inl ENOTDIR end
          | Some (LinkNode t) =>
              match todo, follow with
              | [], false => inr p
              | _, _ =>
                  match links with
                  | O => inl ELOOP
                  | S links => walk links (if is_abs t then [] else cur) (split_byte slash t ++ todo)
                  end
              end
          end
    end.
Definition resolve (path : string) : errno + list string := walk 40 [] (split_byte slash path).
End Walk.

(** ** System calls *)

Definition existing (f : fs) (follow : bool) (path : string) : errno + (list string * node) :=
  match resolve f follow path with
  | inl e => inl e
  | inr p => match node_at f p with None => inl ENOENT | Some n => inr (p, n) end
  end.
Definition sys_Lstat (f : fs) (path : string) : errno + node :=
  match existing f false path with inl e => inl e | inr (_, n) => inr n end.
Definition sys_Stat (f : fs) (path : string) : errno + node :=
  match existing f true path with inl e => inl e | inr (_, n) => inr n end.
Definition sys_Readlink (f : fs) (path : string) : errno + string :=
  match sys_Lstat f path with
  | inl e => inl e
  | inr (LinkNode t) => inr t
  | inr _ => inl EINVAL
  end.
Definition is_dir_node (n : node) : bool := match n with DirNode _ => true | _ => false end.
Definition is_link_node (n : node) : bool := match n with LinkNode _ => true | _ => false end.

(** A new node; the path must not exist. *)
Definition sys_create (n : node) (path : string) (f : fs) : errno + fs :=
  match resolve f false path with
  | inl e => inl e
  | inr p => match node_at f p with Some _ => inl EEXIST | None => inr (<[p := n]> f) end
  end.
Definition sys_Mkdir (mode : Z) : string -> fs -> errno + fs := sys_create (DirNode mode).
Definition sys_Symlink (target link : string) : fs -> errno + fs := sys_create (LinkNode target) link.
Definition has_children (f : fs) (p : list string) : bool :=
  existsb (fun q : list string => bool_decide (take (length p) q = p) && Nat.ltb (length p) (length q)) (map fst (map_to_list f)).
(** [os.Remove] *)
Definition sys_Remove (path : string) (f : fs) : errno + fs :=
  match existing f false path with
  | inl e => inl e
  | inr ([], _) => inl EBUSY
  | inr (p, DirNode _) => if has_children f p then inl ENOTEMPTY else inr (delete p f)
  | inr (p, _) => inr (delete p f)
  end.
(** [os.Chmod]; the mode of a link is not changed but that of what it names. *)
Definition with_mode (m : Z) (n : node) : node :=
  match n with DirNode _ => DirNode m | FileNode c _ => FileNode c m | LinkNode t => LinkNode t | DeviceNode a i _ => DeviceNode a i m end.
Definition sys_Chmod (mode : Z) (path : string) (f : fs) : errno + fs :=
  match existing f true path with
  | inl e => inl e
  | inr ([], _) => inr f
  | inr (p, n) => inr (<[p := with_mode mode n]> f)
  end.

(** [os.MkdirAll] on the components of a path, the last one first. *)
Fixpoint mkdir_all (mode : Z) (rcs : list string) (f : fs) : (errno + unit) * fs :=
  let path := abs_path (rev rcs) in
  match sys_Stat f path with
  | inr n => ((if is_dir_node n then inr tt else inl ENOTDIR), f)
  | inl _ =>
      match rcs with
      | [] => (inl EEXIST, f)
      | _ :: parent =>
          match mkdir_all mode parent f with
          | (inl e, f) => (inl e, f)
          | (inr _, f) =>
              match sys_Mkdir mode path f with
              | inr f => (inr tt, f)
              | inl e => match sys_Lstat f path with
                         | inr n => if is_dir_node n then (inr tt, f) else (inl e, f)
                         | inl _ => (inl e, f)
                         end
              end
          end
      end
  end.
(** The path is absolute; [MkdirAll] is called on cleaned paths only. *)
Definition sys_MkdirAll (mode : Z) (path : string) (f : fs) : (errno + unit) * fs :=
  mkdir_all mode (rev (clean_components true path)) f.

(** ** Paths without links *)

(** No prefix of the path is a link. *)
Definition no_link (f : fs) (p : list string) : Prop := forall q, q `prefix_of` p -> forall t, f !! q <> Some (LinkNode t).
Definition no_link_above (f : fs) (p : list string) : Prop :=
  forall q, q `prefix_of` p -> q <> p -> forall t, f !! q <> Some (LinkNode t).

Lemma no_link_prefix f p q : q `prefix_of` p -> no_link f p -> no_link f q.
Proof. intros Hq Hp r Hr. apply Hp. by etrans. Qed.
Lemma no_link_is_above f p : no_link f p -> no_link_above f p.
Proof. intros Hp q Hq _. by apply Hp. Qed.
Lemma no_link_above_snoc f p c : no_link f p -> no_link_above f (p ++ [c]).
Proof.
  intros Hp q [k Hk] Hne. destruct k as [|x k _] using rev_ind; [by rewrite app_nil_r in Hk|].
  rewrite app_assoc in Hk. apply app_inj_tail in Hk as [-> _]. apply Hp. by exists k.
Qed.
Lemma no_link_snoc f p c : no_link f p -> (forall t, f !! (p ++ [c]) <> Some (LinkNode t)) -> no_link f (p ++ [c]).
Proof.
  intros Hp Hc q Hq. destruct (decide (q = p ++ [c])) as [->|Hne]; [done|]. by apply (no_link_above_snoc f p c).
Qed.

Lemma node_at_ne f p : p <> [] -> node_at f p = f !! p.
Proof. by destruct p. Qed.
Lemma snoc_ne {A} (p : list A) c : p ++ [c] <> [].
Proof. by destruct p. Qed.
Lemma parents_exist f p q n : well_formed f -> f !! (p ++ q) = Some n -> q <> [] -> exists m, node_at f p = Some (DirNode m).
Proof.
  intros Hwf. revert n. induction q as [|c q IH] using rev_ind; [done|]. intros n Hn _. rewrite app_assoc in Hn.
  apply (proj2 Hwf) in Hn as [m Hm]. destruct (decide (q = [])) as [->|Hq]; [rewrite app_nil_r in Hm; by exists m|].
  apply (IH (DirNode m)); [|done]. rewrite node_at_ne in Hm; [done|]. by destruct p, q.
Qed.

Lemma split_abs cs : Forall proper cs -> cs <> [] -> split_byte slash (abs_path cs) = "" :: cs.
Proof.
  intros Hcs Hne. unfold abs_path. change ("/" +:+ join "/" cs) with ("" +:+ String slash (join "/" cs)).
  rewrite split_byte_sep, (split_join slash) by (try done; by apply proper_free). done.
Qed.

Definition missing {A} (r : errno + A) : Prop := r = inl ENOENT \/ r = inl ENOTDIR.

Lemma walk_skip f follow links cur todo : walk f follow links cur ("" :: todo) = walk f follow links cur todo.
Proof. by destruct links. Qed.
(** Walking down components that are not links stays on these components. *)
Lemma walk_plain f follow links cur todo :
  well_formed f -> Forall proper todo ->
  (forall q, q `prefix_of` todo -> q <> [] -> (q <> todo \/ follow = true) -> forall t, f !! (cur ++ q) <> Some (LinkNode t)) ->
  (walk f follow links cur todo = inr (cur ++ todo)
   /\ forall q c, todo = q ++ [c] -> q <> [] -> exists m, f !! (cur ++ q) = Some (DirNode m))
  \/ missing (walk f follow links cur todo) /\ f !! (cur ++ todo) = None.
Proof.
  intros Hwf. revert cur. induction todo as [|c todo IH]; intros cur Hp Hl.
  { left. split; [destruct links; simpl; by rewrite app_nil_r|]. intros q c He. by destruct q. }
  assert (Hone : forall e q d, [e] = q ++ [d] -> q <> [] -> exists m, f !! (cur ++ q) = Some (DirNode m)).
  { intros e q d He. destruct q as [|x q]; [done|]. injection He as -> He. by destruct q. }
  inversion Hp as [|? ? (Hc1 & Hc2 & Hc3 & _) Hp']; subst.
  assert (Hstep : forall k, walk f follow k cur (c :: todo)
    = match f !! (cur ++ [c]) with
      | None => match todo with [] => inr (cur ++ [c]) | _ => inl ENOENT end
      | Some (DirNode _) => walk f follow k (cur ++ [c]) todo
      | Some (FileNode _ _) | Some (DeviceNode _ _ _) => match todo with [] => inr (cur ++ [c]) | _ => inl ENOTDIR end
      | Some (LinkNode t) =>
          match todo, follow with
          | [], false => inr (cur ++ [c])
          | _, _ => match k with O => inl ELOOP
                    | S k => walk f follow k (if is_abs t then [] else cur) (split_byte slash t ++ todo) end
          end
      end).
  { intros k. apply String.eqb_neq in Hc1, Hc2, Hc3. destruct k; simpl; by rewrite Hc1, Hc2, Hc3. }
  rewrite Hstep. replace (cur ++ c :: todo) with ((cur ++ [c]) ++ todo) by by rewrite <- app_assoc.
  assert (Hmid : (forall m, f !! (cur ++ [c]) <> Some (DirNode m)) -> forall d todo, f !! ((cur ++ [c]) ++ d :: todo) = None).
  { intros Hn d todo'. destruct (f !! ((cur ++ [c]) ++ d :: todo')) eqn:Hd; [|done].
    apply (parents_exist f (cur ++ [c])) in Hd as [m' Hm']; [|done|done].
    rewrite node_at_ne in Hm' by apply snoc_ne. by apply Hn in Hm'. }
  destruct (f !! (cur ++ [c])) as [[m|cont m|t|a i m]|] eqn:Hn.
  - destruct (IH (cur ++ [c]) Hp') as [[Hw Hd]|Hmiss]; [|left; split; [done|]|by right].
    2: { intros q d He Hq. destruct q as [|x q]; [done|]. injection He as <- He.
      destruct (decide (q = [])) as [->|Hqne]; [by exists m|]. destruct (Hd q d He Hqne) as [m' Hm']. exists m'.
      by rewrite <- Hm', <- app_assoc. }
    intros q Hq Hne Hor t. rewrite <- app_assoc. apply (Hl (c :: q)); [by apply prefix_cons|done|].
    destruct Hor as [Hor|Hor]; [left; by intros [= ->]|by right].
  - destruct todo as [|d todo]; [left; by rewrite app_nil_r; split; [|apply Hone]|]. right.
    split; [by right|by apply Hmid].
  - destruct todo as [|d todo]; [|exfalso; apply (Hl [c]) with t; [by exists (d :: todo)|done|by left|done]].
    destruct follow; [exfalso; apply (Hl [c]) with t; [by exists []|done|by right|done]|].
    left. rewrite app_nil_r. split; [done|apply Hone].
  - destruct todo as [|d todo]; [left; by rewrite app_nil_r; split; [|apply Hone]|]. right.
    split; [by right|by apply Hmid].
  - destruct todo as [|d todo]; [left; by rewrite app_nil_r; split; [|apply Hone]|]. right.
    split; [by left|by apply Hmid].
Qed.

Lemma resolve_plain f (follow : bool) cs :
  well_formed f -> Forall proper cs -> (if follow then no_link f cs else no_link_above f cs) ->
  (resolve f follow (abs_path cs) = inr cs
   /\ forall q c, cs = q ++ [c] -> exists m, node_at f q = Some (DirNode m))
  \/ missing (resolve f follow (abs_path cs)) /\ f !! cs = None.
Proof.
  intros Hwf Hp Hl. destruct (decide (cs = [])) as [->|Hne]; [left; split; [done|]; intros q c He; by destruct q|]. unfold resolve. rewrite split_abs by done.
  rewrite walk_skip.
  destruct (walk_plain f follow 40 [] cs Hwf Hp) as [[Hw Hd]|Hm]; [|left; split; [done|]|by right].
  - intros q Hq Hqne Hor t. destruct follow; [by apply Hl|]. destruct Hor as [Hor|]; [|done]. by apply Hl.
  - intros q c He. destruct (decide (q = [])) as [->|Hq]; [by eexists|]. rewrite node_at_ne by done. by apply (Hd q c).
Qed.

(** What the system calls say on such a path. *)
Lemma Lstat_plain f cs : well_formed f -> Forall proper cs -> no_link_above f cs ->
  match node_at f cs with
  | Some n => sys_Lstat f (abs_path cs) = inr n
  | None => missing (sys_Lstat f (abs_path cs))
  end.
Proof.
  intros Hwf Hp Hl. unfold sys_Lstat, existing. destruct (resolve_plain f false cs Hwf Hp Hl) as [[-> _]|[Hr Hn]].
  - destruct (node_at f cs); [done|by left].
  - destruct cs as [|c cs]; [by destruct Hr|]. change (node_at f (c :: cs)) with (f !! (c :: cs)). rewrite Hn.
    destruct Hr as [-> | ->]; [by left|by right].
Qed.
Lemma Stat_plain f cs : well_formed f -> Forall proper cs -> no_link f cs ->
  match node_at f cs with
  | Some n => sys_Stat f (abs_path cs) = inr n
  | None => missing (sys_Stat f (abs_path cs))
  end.
Proof.
  intros Hwf Hp Hl. unfold sys_Stat, existing. destruct (resolve_plain f true cs Hwf Hp Hl) as [[-> _]|[Hr Hn]].
  - destruct (node_at f cs); [done|by left].
  - destruct cs as [|c cs]; [by destruct Hr|]. change (node_at f (c :: cs)) with (f !! (c :: cs)). rewrite Hn.
    destruct Hr as [-> | ->]; [by left|by right].
Qed.
(** Below directories the path resolves to itself. *)
Lemma resolve_child f (follow : bool) cs c m : well_formed f -> Forall proper (cs ++ [c]) -> no_link f cs ->
  node_at f cs = Some (DirNode m) -> (follow = true -> forall t, f !! (cs ++ [c]) <> Some (LinkNode t)) ->
  resolve f follow (abs_path (cs ++ [c])) = inr (cs ++ [c]).
Proof.
  intros Hwf Hp Hl Hm Hf. unfold resolve. rewrite split_abs by (done || apply snoc_ne).
  rewrite walk_skip.
  assert (Hw : forall k todo cur, Forall proper (todo ++ [c]) -> no_link f (cur ++ todo) -> node_at f (cur ++ todo) = Some (DirNode m) ->
    (follow = true -> forall t, f !! ((cur ++ todo) ++ [c]) <> Some (LinkNode t)) ->
    walk f follow k cur (todo ++ [c]) = inr ((cur ++ todo) ++ [c])).
  { intros k todo. induction todo as [|d todo IH]; intros cur Hpt Hlt Hmt Hft.
    - apply Forall_singleton in Hpt as (Hc1 & Hc2 & Hc3 & _). apply String.eqb_neq in Hc1, Hc2, Hc3.
      rewrite app_nil_r in *. destruct k; simpl; rewrite Hc1, Hc2, Hc3; destruct (f !! (cur ++ [c])) as [[]|] eqn:E; try done;
        destruct follow; try done; by destruct (Hft eq_refl target).
    - inversion Hpt as [|? ? (Hc1 & Hc2 & Hc3 & _) Hpt']; subst. apply String.eqb_neq in Hc1, Hc2, Hc3.
      assert (exists m', f !! (cur ++ [d]) = Some (DirNode m')) as [m' Hm'].
      { destruct todo as [|e todo]; [rewrite node_at_ne in Hmt by apply snoc_ne; by exists m|].
        replace (cur ++ d :: e :: todo) with ((cur ++ [d]) ++ e :: todo) in Hmt by by rewrite <- app_assoc.
        rewrite node_at_ne in Hmt by (by destruct cur). apply parents_exist in Hmt as [m' Hm']; [|done|done].
        rewrite node_at_ne in Hm' by apply snoc_ne. by exists m'. }
      replace (cur ++ d :: todo) with ((cur ++ [d]) ++ todo) in * by by rewrite <- app_assoc.
      rewrite <- IH by done. destruct k; simpl; by rewrite Hc1, Hc2, Hc3, Hm'. }
  by apply (Hw 40 cs []).
Qed.
Lemma resolve_below f cs c m : well_formed f -> Forall proper (cs ++ [c]) -> no_link f cs ->
  node_at f cs = Some (DirNode m) -> resolve f false (abs_path (cs ++ [c])) = inr (cs ++ [c]).
Proof. intros. by eapply resolve_child. Qed.

(** More files do not change what a path names. *)
Lemma walk_mono f f' follow links cur todo p : f ⊆ f' -> walk f follow links cur todo = inr p ->
  is_Some (node_at f p) -> walk f' follow links cur todo = inr p.
Proof.
  intros Hsub. rewrite map_subseteq_spec in Hsub. revert cur todo.
  induction links as [|links IHl]; intros cur todo; revert cur; (induction todo as [|c todo IH]; intros cur; [done|]);
    cbn [walk]; (destruct (String.eqb c "" || String.eqb c "."); [by apply IH|]);
    (destruct (String.eqb c ".."); [by apply IH|]);
    (destruct (f !! (cur ++ [c])) as [n|] eqn:E;
      [rewrite (Hsub _ _ E); destruct n, todo, follow; try done; by first [apply IH|apply IHl]
      |destruct todo; [|done]; intros [= <-] [n Hn]; rewrite node_at_ne in Hn by apply snoc_ne; by rewrite E in Hn]).
Qed.
Lemma node_at_mono f f' p n : f ⊆ f' -> node_at f p = Some n -> node_at f' p = Some n.
Proof. intros Hsub. rewrite map_subseteq_spec in Hsub. destruct p; [done|]. apply Hsub. Qed.
Lemma existing_mono f f' follow path x : f ⊆ f' -> existing f follow path = inr x -> existing f' follow path = inr x.
Proof.
  intros Hsub. unfold existing, resolve. destruct (walk f _ _ _ _) as [|p] eqn:Hw; [done|].
  destruct (node_at f p) as [n|] eqn:Hn; [|done]. intros [= <-].
  rewrite (walk_mono f f' _ _ _ _ p Hsub Hw) by by rewrite Hn. by rewrite (node_at_mono f f' p n).
Qed.

(** A directory that is reached without links. *)
Definition real_dir (f : fs) (p : list string) : Prop :=
  forall q, q `prefix_of` p -> q <> [] -> exists m, f !! q = Some (DirNode m).
Lemma real_dir_no_link f p : well_formed f -> real_dir f p -> no_link f p.
Proof.
  intros [Hr _] Hp q Hq t Ht. destruct (decide (q = [])) as [->|Hne]; [by rewrite Hr in Ht|].
  destruct (Hp q Hq Hne) as [m Hm]. by rewrite Hm in Ht.
Qed.
(** What a path is resolved to: proper names below real directories, the last
    one no link if it was followed. *)
Definition canonical (f : fs) (follow : bool) (p : list string) : Prop :=
  Forall proper p /\ (forall q c, p = q ++ [c] -> real_dir f q) /\ (follow = true -> forall t, f !! p <> Some (LinkNode t)).
Lemma real_dir_prefix f p q : q `prefix_of` p -> real_dir f p -> real_dir f q.
Proof. intros Hq Hp r Hr. apply Hp. by etrans. Qed.
Lemma prefix_snoc_inv {A} (l1 l2 : list A) x : l1 `prefix_of` l2 ++ [x] -> l1 `prefix_of` l2 \/ l1 = l2 ++ [x].
Proof.
  intros [k Hk]. destruct (decide (k = [])) as [->|Hne]; [right; by rewrite app_nil_r in Hk|].
  destruct (exists_last Hne) as (k' & y & ->). rewrite app_assoc in Hk. apply app_inj_tail in Hk as [-> _].
  left. by exists k'.
Qed.
Lemma real_dir_snoc f p c m : real_dir f p -> f !! (p ++ [c]) = Some (DirNode m) -> real_dir f (p ++ [c]).
Proof.
  intros Hp Hm q Hq Hne. apply prefix_snoc_inv in Hq as [Hq | ->]; [by apply Hp|by exists m].
Qed.
Lemma walk_canonical f follow links cur todo p : well_formed f ->
  Forall (fun c => has_byte slash c = false) todo -> Forall proper cur -> real_dir f cur ->
  walk f follow links cur todo = inr p -> canonical f follow p.
Proof.
  intros [Hroot _]. revert cur todo. induction links as [|links IHl]; intros cur todo; revert cur;
    (induction todo as [|c todo IH]; intros cur Ht Hp Hd; [intros [= <-]; split; [done|]; split;
      [intros q c ->; eapply real_dir_prefix; [|done]; by exists [c]
      |intros _ t Hl; destruct (decide (cur = [])) as [->|Hne]; [by rewrite Hroot in Hl|destruct (Hd cur) as [m Hm]; [done..|by rewrite Hm in Hl]]]|]);
    apply Forall_cons in Ht as [Hc Ht]; cbn [walk];
    (destruct (String.eqb_spec c ""); [by apply IH|]); (destruct (String.eqb_spec c "."); [by apply IH|]); cbn [orb];
    (destruct (String.eqb_spec c ".."); [apply IH; [done|by apply Forall_take|eapply real_dir_prefix; [|done]; apply prefix_take]|]);
    (assert (Hpc : Forall proper (cur ++ [c])) by (apply Forall_app; split; [done|by repeat constructor]));
    (assert (Hlast : (follow = true -> forall t, f !! (cur ++ [c]) <> Some (LinkNode t)) -> canonical f follow (cur ++ [c])) by
      (intros Hn; split; [done|]; split; [|done]; by intros q d [<- _]%app_inj_tail));
    (destruct (f !! (cur ++ [c])) as [[m| |t|]|] eqn:E; [apply IH; [done..|by eapply real_dir_snoc]| | | |]);
    destruct todo; try done; try (intros [= <-]; by apply Hlast);
    try (destruct follow; [|by intros [= <-]; apply Hlast]); try done;
    (apply IHl; [apply Forall_app; split; [apply split_byte_free|done]|destruct (is_abs t); [constructor|done]|
      destruct (is_abs t); [|done]; intros q Hq Hqne; by apply prefix_nil_inv in Hq]).
Qed.
Lemma resolve_canonical f follow path p : well_formed f -> resolve f follow path = inr p -> canonical f follow p.
Proof.
  intros Hwf. apply walk_canonical; [done|apply split_byte_free|constructor|].
  intros q Hq Hne. by apply prefix_nil_inv in Hq.
Qed.
Lemma canonical_no_link f p : well_formed f -> canonical f true p -> no_link f p.
Proof.
  intros Hwf (_ & Hd & Hl). destruct (decide (p = [])) as [->|Hne].
  { intros q ->%prefix_nil_inv t Ht. by rewrite (proj1 Hwf) in Ht. }
  destruct (exists_last Hne) as (q & c & ->). apply no_link_snoc; [|by apply Hl].
  by apply real_dir_no_link, (Hd q c).
Qed.
(** What a path names it also names under its resolved path. *)
Lemma existing_resolved f path p n : well_formed f -> existing f true path = inr (p, n) ->
  existing f true (abs_path p) = inr (p, n).
Proof.
  intros Hwf. unfold existing at 1. destruct (resolve f true path) as [|p'] eqn:Hr; [done|].
  destruct (node_at f p') as [n'|] eqn:Hn; [|done]. intros [= -> ->].
  apply resolve_canonical in Hr as Hc; [|done]. unfold existing.
  destruct (resolve_plain f true p Hwf (proj1 Hc) (canonical_no_link f p Hwf Hc)) as [[-> _]|[Hm Hnone]]; [by rewrite Hn|].
  destruct p; [by destruct Hm|]. rewrite node_at_ne, Hnone in Hn by done. done.
Qed.

(** ** Changes *)

Lemma well_formed_insert f p n : well_formed f -> p <> [] -> f !! p = None ->
  (forall c q, p = q ++ [c] -> exists m, node_at f q = Some (DirNode m)) -> well_formed (<[p := n]> f).
Proof.
  intros [Hr Hwf] Hne Hn Hparent. split; [by rewrite lookup_insert_ne|]. intros q c n' Hq.
  assert (Hkeep : forall m, node_at f q = Some (DirNode m) -> node_at (<[p := n]> f) q = Some (DirNode m)).
  { intros m Hm. destruct (decide (q = [])) as [->|Hqne]; [done|]. rewrite node_at_ne in * by done.
    rewrite lookup_insert_ne; [done|]. intros ->. by rewrite Hn in Hm. }
  destruct (decide (p = q ++ [c])) as [->|Hpq].
  - destruct (Hparent c q eq_refl) as [m Hm]. exists m. by apply Hkeep.
  - rewrite lookup_insert_ne in Hq by done. apply Hwf in Hq as [m Hm]. exists m. by apply Hkeep.
Qed.
Lemma has_children_false f p q n : has_children f p = false -> f !! (p ++ q) = Some n -> q = [].
Proof.
  unfold has_children. intros Hc Hn. destruct q as [|c q]; [done|]. apply not_true_iff_false in Hc. contradict Hc.
  apply existsb_exists. exists (p ++ c :: q). split.
  - apply list_elem_of_In, list_elem_of_fmap. exists (p ++ c :: q, n). split; [done|]. by apply elem_of_map_to_list.
  - apply andb_true_iff. split; [apply bool_decide_eq_true; by rewrite take_app_length|].
    apply Nat.ltb_lt. rewrite length_app. simpl. lia.
Qed.
Lemma well_formed_delete f p : well_formed f -> p <> [] ->
  (forall q n, f !! (p ++ q) = Some n -> q = []) -> well_formed (delete p f).
Proof.
  intros [Hr Hwf] Hne Hleaf. split; [by rewrite lookup_delete_ne|]. intros q c n Hq.
  apply lookup_delete_Some in Hq as [Hpq Hq]. destruct (Hwf _ _ _ Hq) as [m Hm]. exists m.
  destruct (decide (q = [])) as [->|Hqne]; [done|]. rewrite node_at_ne in * by done. rewrite lookup_delete_ne; [done|].
  intros ->. by apply Hleaf in Hq.
Qed.
Lemma leaf_not_dir f p n : well_formed f -> f !! p = Some n -> is_dir_node n = false -> forall q n', f !! (p ++ q) = Some n' -> q = [].
Proof.
  intros Hwf Hn Hd q n' Hq. destruct q as [|c q]; [done|]. apply parents_exist in Hq as [m Hm]; [|done|done].
  destruct p as [|d p]; [by rewrite (proj1 Hwf) in Hn|]. rewrite node_at_ne, Hn in Hm by done. by injection Hm as ->.
Qed.

(** *** The calls on paths without links *)

Lemma create_plain f n cs f' : well_formed f -> Forall proper cs -> no_link_above f cs ->
  sys_create n (abs_path cs) f = inr f' -> cs <> [] /\ f !! cs = None /\ f' = <[cs := n]> f /\ well_formed f'.
Proof.
  intros Hwf Hp Hl. unfold sys_create. destruct (resolve_plain f false cs Hwf Hp Hl) as [[-> Hd]|[[-> | ->] _]]; [|done..].
  destruct cs as [|c cs]; [done|]. change (node_at f (c :: cs)) with (f !! (c :: cs)).
  destruct (f !! (c :: cs)) eqn:Hn; [done|]. intros [= <-]. split; [done|]. split; [done|]. split; [done|].
  apply well_formed_insert; try done. intros c' q He. by apply (Hd q c').
Qed.
Lemma remove_plain f cs f' : well_formed f -> Forall proper cs -> no_link_above f cs ->
  sys_Remove (abs_path cs) f = inr f' -> cs <> [] /\ f' = delete cs f /\ well_formed f'.
Proof.
  intros Hwf Hp Hl. unfold sys_Remove, existing.
  destruct (resolve_plain f false cs Hwf Hp Hl) as [[-> _]|[[-> | ->] _]]; [|done..].
  destruct cs as [|c cs]; [done|]. change (node_at f (c :: cs)) with (f !! (c :: cs)).
  destruct (f !! (c :: cs)) as [n|] eqn:Hn; [|done].
  assert (Hdel : (forall q n', f !! ((c :: cs) ++ q) = Some n' -> q = []) ->
    Some (delete (c :: cs) f) = Some f' -> c :: cs <> [] /\ f' = delete (c :: cs) f /\ well_formed f').
  { intros Hleaf [= <-]. split; [done|]. split; [done|]. by apply well_formed_delete. }
  destruct n as [m|t m|t|a i m].
  - destruct (has_children f (c :: cs)) eqn:Hc; [done|]. intros [= <-]. apply Hdel; [|done].
    intros q n' Hq. by eapply has_children_false.
  - intros [= <-]. apply Hdel; [|done]. by eapply leaf_not_dir.
  - intros [= <-]. apply Hdel; [|done]. by eapply leaf_not_dir.
  - intros [= <-]. apply Hdel; [|done]. by eapply leaf_not_dir.
Qed.

(** [changes_below p f f']: nothing outside of the directory [p] differs. *)
Definition changes_below (p : list string) (f f' : fs) : Prop :=
  forall q, ~ (p `prefix_of` q /\ p <> q) -> f' !! q = f !! q.
#[export] Instance changes_below_refl p : Reflexive (changes_below p).
Proof. by intros f q _. Qed.
#[export] Instance changes_below_trans p : Transitive (changes_below p).
Proof. intros f1 f2 f3 H1 H2 q Hq. by rewrite (H2 q Hq), (H1 q Hq). Qed.
Lemma changes_insert p q n f : q <> [] -> changes_below p f (<[p ++ q := n]> f).
Proof.
  intros Hq r Hr. rewrite lookup_insert_ne; [done|]. intros <-. apply Hr. split; [by exists q|]. intros He.
  apply (f_equal length) in He. rewrite length_app in He. destruct q; [done|]. simpl in He. lia.
Qed.
Lemma changes_delete p q f : q <> [] -> changes_below p f (delete (p ++ q) f).
Proof.
  intros Hq r Hr. rewrite lookup_delete_ne; [done|]. intros <-. apply Hr. split; [by exists q|]. intros He.
  apply (f_equal length) in He. rewrite length_app in He. destruct q; [done|]. simpl in He. lia.
Qed.

Lemma real_dir_below f f' p : real_dir f p -> changes_below p f f' -> real_dir f' p.
Proof.
  intros Hp Hc q Hq Hne. destruct (Hp q Hq Hne) as [m Hm]. exists m. rewrite <- Hm. apply Hc. intros [Hpq Hneq].
  apply Hneq. by apply (anti_symm prefix).
Qed.

(** [MkdirAll] only adds directories on its path. *)
Definition adds_dirs (mode : Z) (f f' : fs) : Prop :=
  forall q, f' !! q = f !! q \/ (f !! q = None /\ f' !! q = Some (DirNode mode)).
Lemma adds_dirs_no_link mode f f' p : adds_dirs mode f f' -> no_link f p -> no_link f' p.
Proof. intros Ha Hl q Hq t Ht. destruct (Ha q) as [He|[_ He]]; rewrite He in Ht; [by apply (Hl q Hq t)|done]. Qed.
Lemma mkdir_all_exists mode cs f n : well_formed f -> Forall proper cs -> no_link f cs -> node_at f cs = Some n ->
  mkdir_all mode (rev cs) f = ((if is_dir_node n then inr tt else inl ENOTDIR), f).
Proof.
  intros Hwf Hp Hl Hn. pose proof (Stat_plain f cs Hwf Hp Hl) as Hstat. rewrite Hn in Hstat.
  destruct (rev cs) eqn:Hr; cbn [mkdir_all]; by rewrite <- Hr, rev_involutive, Hstat.
Qed.
Lemma mkdir_last mode cs f r f' : well_formed f -> Forall proper cs -> no_link f cs ->
  match sys_Mkdir mode (abs_path cs) f with
  | inr f => (inr tt, f)
  | inl e => match sys_Lstat f (abs_path cs) with
             | inr n => if is_dir_node n then (inr tt, f) else (inl e, f)
             | inl _ => (inl e, f)
             end
  end = (r, f') ->
  well_formed f' /\ (f' = f \/ f !! cs = None /\ f' = <[cs := DirNode mode]> f)
  /\ (r = inr tt -> exists m, node_at f' cs = Some (DirNode m)).
Proof.
  intros Hwf Hp Hl. apply no_link_is_above in Hl as Ha. unfold sys_Mkdir.
  destruct (sys_create _ _ f) as [e|f2] eqn:Hc.
  - pose proof (Lstat_plain f cs Hwf Hp Ha) as Hs. destruct (node_at f cs) as [n|] eqn:Hn.
    + rewrite Hs. destruct (is_dir_node n) eqn:Hd; intros [= <- <-]; (split; [done|]); (split; [by left|]); [|done].
      intros _. destruct n as [m| | |]; [by exists m|done..].
    + destruct Hs as [-> | ->]; intros [= <- <-]; (split; [done|]); (split; [by left|done]).
  - apply create_plain in Hc as (Hne & Hnew & -> & Hwf2); [|done..]. intros [= <- <-]. split; [done|]. split; [by right|].
    intros _. exists mode. rewrite node_at_ne by done. by rewrite lookup_insert_eq.
Qed.
Lemma mkdir_all_plain mode rc ds f r f' :
  well_formed f -> Forall proper (rc ++ ds) -> real_dir f rc -> no_link f (rc ++ ds) ->
  mkdir_all mode (rev (rc ++ ds)) f = (r, f') ->
  well_formed f' /\ changes_below rc f f' /\ adds_dirs mode f f'
  /\ (r = inr tt -> exists m, node_at f' (rc ++ ds) = Some (DirNode m)).
Proof.
  intros Hwf Hp Hreal. revert r f'. induction ds as [|c ds IH] using rev_ind; intros r f' Hl.
  - rewrite app_nil_r in *.
    assert (exists m, node_at f rc = Some (DirNode m)) as [m Hm].
    { destruct (decide (rc = [])) as [->|Hne]; [by eexists|]. rewrite node_at_ne by done. by apply Hreal. }
    rewrite (mkdir_all_exists mode rc f _ Hwf Hp Hl Hm). intros [= <- <-]. split; [done|]. split; [done|].
    split; [by left|]. intros _. by exists m.
  - rewrite app_assoc in *. destruct (f !! ((rc ++ ds) ++ [c])) as [n|] eqn:Hn.
    { rewrite <- node_at_ne in Hn by apply snoc_ne. rewrite (mkdir_all_exists mode _ f _ Hwf Hp Hl Hn).
      intros [= <- <-]. split; [done|]. split; [done|]. split; [by left|]. rewrite Hn. destruct n as [m| | |]; [by exists m|done..]. }
    pose proof (Stat_plain f _ Hwf Hp Hl) as Hstat. rewrite node_at_ne, Hn in Hstat by apply snoc_ne.
    assert (Hl1 : no_link f (rc ++ ds)) by (eapply no_link_prefix; [by apply prefix_app_r|done]).
    assert (Hp1 : Forall proper (rc ++ ds)) by by apply Forall_app in Hp as [? _].
    rewrite rev_unit. cbn [mkdir_all]. rewrite <- rev_unit, rev_involutive.
    destruct (mkdir_all mode (rev (rc ++ ds)) f) as [r1 f1] eqn:Hrec.
    destruct (IH Hp1 _ _ Hl1 eq_refl) as (Hwf1 & Hc1 & Ha1 & Hdir).
    pose proof (adds_dirs_no_link _ _ _ _ Ha1 Hl) as Hl'.
    assert (Hsame : forall r : errno + unit, r <> inr tt -> well_formed f1 /\ changes_below rc f f1 /\ adds_dirs mode f f1
      /\ (r = inr tt -> exists m, node_at f1 ((rc ++ ds) ++ [c]) = Some (DirNode m))) by done.
    set (last := match sys_Mkdir _ _ _ with inl _ => _ | inr _ => _ end).
    assert (Hend : match r1 with inl e => (inl e, f1) | inr _ => last end = (r, f') ->
      well_formed f' /\ changes_below rc f f' /\ adds_dirs mode f f'
      /\ (r = inr tt -> exists m, node_at f' ((rc ++ ds) ++ [c]) = Some (DirNode m))).
    { destruct r1 as [e|[]]; [intros [= <- <-]; by apply Hsame|]. intros He.
      destruct (mkdir_last mode _ f1 r f' Hwf1 Hp Hl' He) as (Hwf' & [->|[Hnew ->]] & Hd); [done|].
      split; [done|]. split; [|split; [|done]].
      - etrans; [done|]. rewrite <- app_assoc. apply changes_insert, snoc_ne.
      - intros q. destruct (decide (q = (rc ++ ds) ++ [c])) as [->|Hq]; [right; by rewrite lookup_insert_eq|].
        rewrite lookup_insert_ne by done. apply Ha1. }
    destruct Hstat as [-> | ->]; exact Hend.
Qed.

(** ** Concrete file systems *)

Definition map_of_nodes (l : list (list string * node)) : fs := list_to_map l.
Definition is_dir_at (f : fs) (p : list string) : bool :=
  match node_at f p with Some (DirNode _) => true | _ => false end.
Definition well_formed_b (f : fs) : bool :=
  forallb (fun p : list string => match rev p with [] => false | _ :: q => is_dir_at f (rev q) end) (map fst (map_to_list f)).
Definition real_dir_b (f : fs) (p : list string) : bool :=
  forallb (fun i => is_dir_at f (take (S i) p)) (seq 0 (length p)).
Lemma is_dir_at_true f p : is_dir_at f p = true -> exists m, node_at f p = Some (DirNode m).
Proof. unfold is_dir_at. destruct (node_at f p) as [[m| | |]|]; [by exists m|done..]. Qed.
Lemma well_formed_b_true f : well_formed_b f = true -> well_formed f.
Proof.
  unfold well_formed_b. rewrite forallb_forall. intros Hf.
  assert (Hin : forall p n, f !! p = Some n -> In p (map fst (map_to_list f))).
  { intros p n Hp. apply in_map_iff. exists (p, n). split; [done|]. by apply list_elem_of_In, elem_of_map_to_list. }
  split.
  - destruct (f !! []) as [n|] eqn:Hn; [|done]. by apply Hin, Hf in Hn.
  - intros p c n Hn. apply Hin, Hf in Hn. rewrite rev_unit in Hn. cbn in Hn.
    rewrite rev_involutive in Hn. by apply is_dir_at_true.
Qed.
Lemma real_dir_b_true f p : real_dir_b f p = true -> real_dir f p.
Proof.
  unfold real_dir_b. rewrite forallb_forall. intros Hf q [k ->] Hne. destruct q as [|c q]; [done|].
  destruct (is_dir_at_true f (c :: q)) as [m Hm]; [|by exists m].
  specialize (Hf (length q)). rewrite in_seq, length_app in Hf. simpl in Hf. rewrite take_app_length in Hf.
  apply Hf. lia.
Qed.
Definition no_link_b (f : fs) (p : list string) : bool :=
  forallb (fun i => match f !! take i p with Some (LinkNode _) => false | _ => true end) (seq 0 (S (length p))).
Lemma no_link_b_true f p : no_link_b f p = true -> no_link f p.
Proof.
  unfold no_link_b. rewrite forallb_forall. intros Hf q [k ->] t Ht.
  specialize (Hf (length q)). rewrite in_seq, length_app, take_app_length, Ht in Hf. discriminate Hf. lia.
Qed.
