(* ===== verification/OsFiles.v ===== *)
(** * Files (package os and filepath.Glob on FileSystem.v)

    The calls on files that the hooks use: opening, creating and appending,
    temporary files, and globbing. Writes to an open file do not fail. Relative
    paths are relative to the root, the working directory of a process in the
    container. *)
From S2P Require Import Prelude GoStrings GoPaths Glob ProcInfo FileSystem.

(** The text of a [*PathError]. *)
Definition path_error (op path : string) (e : errno) : string := op +:+ " " +:+ path +:+ ": " +:+ errno_text e.

(** [os.Open]; reading a directory gives no text. *)
Definition sys_Open (f : fs) (path : string) : errno + node := sys_Stat f path.
Definition node_content (n : node) : string := match n with FileNode c _ => c | _ => "" end.
(** [os.OpenFile] with [O_RDWR|O_CREATE|O_EXCL], and the content written to the
    new file. *)
Definition sys_create_excl (mode : Z) (content path : string) (f : fs) : errno + fs :=
  sys_create (FileNode content mode) path f.
(** [os.OpenFile] with [O_CREATE|O_APPEND|O_RDWR], and the text that is
    appended. *)
Definition sys_append (mode : Z) (text path : string) (f : fs) : errno + fs :=
  match resolve f true path with
  | inl e => inl e
  | inr p =>
      match node_at f p with
      | None => inr (<[p := FileNode text mode]> f)
      | Some (FileNode c m) => inr (<[p := FileNode (c +:+ text) m]> f)
      | Some (DeviceNode _ _ _) => inr f
      | Some _ => inl EISDIR
      end
  end.

(** ** [os.CreateTemp]

    [random] lists the random strings that are tried, 10000 of them. *)
Definition prefixAndSuffix (pattern : string) : string * string :=
  match cut "*" (srev pattern) with
  | Some (s, p) => (srev p, srev s)
  | None => (pattern, "")
  end.
Definition temp_path (dir pattern random : string) : string :=
  let '(prefix, suffix) := prefixAndSuffix pattern in
  dir +:+ (if has_suffix dir "/" then "" else "/") +:+ prefix +:+ random +:+ suffix.
Fixpoint create_temp (random : list string) (n : node) (dir pattern : string) (f : fs) : errno + (string * fs) :=
  match random with
  | [] => inl EEXIST
  | r :: random =>
      let path := temp_path dir pattern r in
      match sys_create n path f with
      | inl EEXIST => create_temp random n dir pattern f
      | inl e => inl e
      | inr f => inr (path, f)
      end
  end.

(** ** [filepath.Glob] *)

Definition children (f : fs) (p : list string) : list string :=
  omap (fun q => match last q with
                 | Some c => if decide (q = p ++ [c]) then Some c else None
                 | None => None
                 end) (map fst (map_to_list f)).
(** The names in a directory, sorted. *)
Definition readdirnames (f : fs) (path : string) : list string :=
  match existing f true path with
  | inr (p, DirNode _) => sort_strings (children f p)
  | _ => []
  end.
Definition hasMeta (path : string) : bool :=
  string_any (fun c => Ascii.eqb c "*" || Ascii.eqb c "?" || Ascii.eqb c "[" || Ascii.eqb c "\") path.
Definition cleanGlobPath (path : string) : string :=
  if String.eqb path "" then "." else if String.eqb path "/" then path else trim_suffix path "/".
(** [glob] of the library. *)
Definition ErrBadPattern : string := "syntax error in pattern".
Definition glob_dir (f : fs) (dir pattern : string) : result (list string) :=
  let? found := rmap (fun n => match glob_match pattern n with
                               | None => Err ErrBadPattern
                               | Some b => Ok (if b then [path_join [dir; n]] else [])
                               end) (readdirnames f dir) in
  Ok (concat found).
(** Each level drops a component of the pattern. *)
Fixpoint glob_loop (fuel : nat) (f : fs) (pattern : string) : result (list string) :=
  match fuel with
  | O => Ok []
  | S fuel =>
      match glob_match pattern "" with
      | None => Err ErrBadPattern
      | Some _ =>
          if negb (hasMeta pattern) then
            match sys_Lstat f pattern with inl _ => Ok [] | inr _ => Ok [pattern] end
          else
            let '(dir, file) := path_split pattern in
            let dir := cleanGlobPath dir in
            if negb (hasMeta dir) then glob_dir f dir file
            else if String.eqb dir pattern then Err ErrBadPattern
            else
              let? dirs := glob_loop fuel f dir in
              let? found := rmap (fun d => glob_dir f d file) dirs in
              Ok (concat found)
      end
  end.
Definition fs_Glob (f : fs) (pattern : string) : result (list string) := glob_loop (S (String.length pattern)) f pattern.

Example glob_ex :
  fs_Glob (<[["etc"] := DirNode 493]> (<[["etc"; "b.conf"] := FileNode "" 420]>
    (<[["etc"; "a.conf"] := FileNode "" 420]> (<[["etc"; "x"] := FileNode "" 420]> ∅)))) "/e*/*.conf"
  = Ok ["/etc/a.conf"; "/etc/b.conf"].
Proof. vm_compute. reflexivity. Qed.
Example temp_ex : temp_path "/etc/ld.so.conf.d" "00-nvcr-*.conf" "123" = "/etc/ld.so.conf.d/00-nvcr-123.conf".
Proof. vm_compute. reflexivity. Qed.

(** ** Resolving links below a root (vendored moby/sys/symlink)

    [FollowSymlinkInScope], which the container hooks use to stay inside the
    root of a container, on the file systems of FileSystem.v. *)
Section Scope.
Context (f : fs) (originalPath root : string).

(** The loop of [evalSymlinksInScope] over the rest of the path with the
    buffer [b]; the fuel is the number of iterations that are left. *)
Fixpoint scope_loop (fuel : nat) (path b : string) : result string :=
  if String.eqb path "" then Ok b
  else
    match fuel with
    | O => Err ("evalSymlinksInScope: too many links in " +:+ originalPath)
    | S fuel =>
        let '(p, path) := match cut "/" path with None => (path, "") | Some (p, path) => (p, path) end in
        if String.eqb p "" then scope_loop fuel path b
        else
          let cleanP := clean ("/" +:+ b +:+ p) in
          if String.eqb cleanP "/" then scope_loop fuel path ""
          else
            let fullP := clean (root +:+ cleanP) in
            match sys_Lstat f fullP with
            | inl ENOENT => scope_loop fuel path (b +:+ p +:+ "/")
            | inl e => Err (path_error "lstat" fullP e)
            | inr (LinkNode _) =>
                match sys_Readlink f fullP with
                | inl e => Err (path_error "readlink" fullP e)
                | inr dest => scope_loop fuel (dest +:+ "/" +:+ path) (if is_abs dest then "" else b)
                end
            | inr _ => scope_loop fuel path (b +:+ p +:+ "/")
            end
    end.
End Scope.

Definition maxIter : nat := 255.
Definition evalSymlinksInScope (f : fs) (path root : string) : result string :=
  let root := clean root in
  let originalPath := path in
  if String.eqb path root then Ok path
  else
    let outside p := Err ("evalSymlinksInScope: " +:+ p +:+ " is not in " +:+ root) in
    if negb (has_prefix path root) then outside path
    else
      let path := trim_prefix path root in
      let path := if String.eqb root "/" then "/" +:+ path else path in
      if negb (has_prefix path "/") then outside path
      else
        let? b := scope_loop f originalPath root (S maxIter) (clean path) "" in
        Ok (clean (root +:+ clean ("/" +:+ b))).
(** For absolute paths [filepath.Abs] is [Clean]. *)
Definition FollowSymlinkInScope (f : fs) (path root : string) : result string :=
  evalSymlinksInScope f (clean path) (clean root).

(** ** The result is in the root *)

(** The buffer of the loop as the stack of components that [Clean] makes of
    it. *)
Definition stack (b : string) : list string := foldl (clean_step true) [] (split_byte slash ("/" +:+ b)).
Definition buffered (b : string) : Prop := b = "" \/ exists b', b = b' +:+ "/".

Lemma stack_snoc b p : buffered b -> has_byte slash p = false ->
  stack (b +:+ p) = clean_step true (stack b) p /\ stack (b +:+ p +:+ "/") = clean_step true (stack b) p.
Proof.
  intros Hb Hp. unfold stack.
  destruct Hb as [->|[b' ->]].
  - change ("/" +:+ "" +:+ p) with ("" +:+ String slash p).
    change ("/" +:+ "" +:+ p +:+ "/") with ("" +:+ String slash (p +:+ String slash "")).
    rewrite !split_byte_sep, (split_byte_free_id slash p) by done. done.
  - rewrite <- !sapp_assoc. change ("/" +:+ p) with (String slash p).
    change ("/" +:+ p +:+ "/") with (String slash (p +:+ String slash "")).
    change ("/" +:+ b' +:+ "/") with (("/" +:+ b') +:+ String slash "").
    change ("/" +:+ b' +:+ String slash p) with (("/" +:+ b') +:+ String slash p).
    change ("/" +:+ b' +:+ String slash (p +:+ String slash "")) with (("/" +:+ b') +:+ String slash (p +:+ String slash "")).
    rewrite !split_byte_sep, (split_byte_free_id slash p), !foldl_app by done. done.
Qed.
Lemma stack_proper b : Forall proper (rev (stack b)).
Proof. apply (clean_components_proper ("/" +:+ b)). Qed.
Lemma clean_stack b : clean ("/" +:+ b) = abs_path (rev (stack b)).
Proof. by rewrite clean_abs by apply (has_prefix_app "/"). Qed.

Lemma clean_below rc ds : Forall proper (rc ++ ds) -> clean (abs_path rc +:+ abs_path ds) = abs_path (rc ++ ds).
Proof.
  intros Hp. apply Forall_app in Hp as Hp2. destruct Hp2 as [Hrc Hds].
  destruct (split_abs_path rc Hrc) as [H1 H2]. destruct (split_abs_path ds Hds) as [H3 H4].
  rewrite clean_abs by (unfold is_abs, abs_path; rewrite <- sapp_assoc; apply has_prefix_app).
  f_equal. unfold clean_components, abs_path at 2. change ("/" +:+ join "/" ds) with (String slash (join "/" ds)).
  rewrite split_byte_sep, foldl_clean_mixed, app_nil_r, rev_involutive, List.filter_app, H1.
  2: { apply Forall_app. split; [done|]. destruct ds as [|d ds]; [repeat constructor; by left|].
    rewrite (split_join slash) by (try done; by apply proper_free). eapply Forall_impl; [exact Hds|]. by right. }
  f_equal. destruct ds as [|d ds]; [done|]. rewrite (split_join slash) by (try done; by apply proper_free).
  by apply filter_proper.
Qed.

Lemma clean_step_cases st p : Forall proper (rev st) -> has_byte slash p = false -> p <> "" ->
  let st' := clean_step true st p in
  Forall proper (rev st') /\ (rev st' `prefix_of` rev st \/ (proper p /\ rev st' = rev st ++ [p])).
Proof.
  intros Hst Hp Hne. split.
  { apply Forall_rev. apply clean_step_proper; [done|]. rewrite <- (rev_involutive st). by apply Forall_rev. }
  unfold clean_step. repeat case_decide; subst; simpl.
  - by left.
  - left. destruct st as [|top st]; [done|]. case_decide as Ht.
    + simpl in Hst. apply Forall_app in Hst as [_ Hst]. apply Forall_singleton in Hst as (_ & _ & Ht' & _). done.
    + simpl. by apply prefix_app_r.
  - right. split; [|done]. by repeat split; naive_solver.
Qed.

Section Contained.
Context (f : fs) (rc : list string) (Hwf : well_formed f) (Hrc : Forall proper rc) (Hroot : no_link f rc).

Lemma scope_loop_contained orig fuel path b b' :
  buffered b -> no_link f (rc ++ rev (stack b)) ->
  scope_loop f orig (abs_path rc) fuel path b = Ok b' ->
  no_link f (rc ++ rev (stack b')).
Proof using Hwf Hrc Hroot.
  revert path b. induction fuel as [|fuel IH]; intros path b Hb Hl; cbn [scope_loop];
    [by destruct (String.eqb path ""); [intros [= <-]|]|].
  destruct (String.eqb path ""); [by intros [= <-]|].
  assert (Hcut : exists p rest, match cut "/" path with None => (path, "") | Some (p, path) => (p, path) end = (p, rest)
    /\ has_byte slash p = false).
  { destruct (cut "/" path) as [[p rest]|] eqn:Hc.
    - exists p, rest. split; [done|]. change "/" with (String slash "") in Hc. by apply cut_byte_some in Hc as [_ ?].
    - exists path, "". split; [done|]. change "/" with (String slash "") in Hc. by apply cut_byte_none in Hc. }
  destruct Hcut as (p & rest & -> & Hp). destruct (String.eqb_spec p "") as [_|Hne]; [by apply IH|].
  destruct (stack_snoc b p Hb Hp) as [Hs1 Hs2]. rewrite clean_stack, Hs1.
  destruct (clean_step_cases (stack b) p (stack_proper b) Hp Hne) as [Hpr Hcase]. cbv zeta in Hpr, Hcase.
  set (ds := rev (clean_step true (stack b) p)) in *.
  destruct (String.eqb (abs_path ds) "/").
  { apply IH; [by left|]. simpl. by rewrite app_nil_r. }
  assert (Hpp : Forall proper (rc ++ ds)) by by apply Forall_app.
  rewrite clean_below by done.
  assert (Habove : no_link_above f (rc ++ ds)).
  { destruct Hcase as [Hpre|[_ ->]]; [apply no_link_is_above; eapply no_link_prefix; [|exact Hl]; by apply prefix_app|].
    rewrite app_assoc. by apply no_link_above_snoc. }
  assert (Hnext : (forall t, f !! (rc ++ ds) <> Some (LinkNode t)) ->
    scope_loop f orig (abs_path rc) fuel rest (b +:+ p +:+ "/") = Ok b' -> no_link f (rc ++ rev (stack b'))).
  { intros Hn. apply IH; [right; exists (b +:+ p); by rewrite sapp_assoc|]. rewrite Hs2. fold ds.
    intros q Hq. destruct (decide (q = rc ++ ds)) as [->|Hqne]; [done|]. by apply Habove. }
  pose proof (Lstat_plain f (rc ++ ds) Hwf Hpp Habove) as Hls.
  assert (Hlook : forall t, f !! (rc ++ ds) = Some (LinkNode t) -> node_at f (rc ++ ds) = Some (LinkNode t)).
  { intros t Ht. rewrite node_at_ne; [done|]. intros He. rewrite He, (proj1 Hwf) in Ht. done. }
  destruct (node_at f (rc ++ ds)) as [n|] eqn:Hn; [rewrite Hls|destruct Hls as [-> | ->]; [|done]].
  2: { apply Hnext. intros t Ht%Hlook. done. }
  destruct n as [m|c m|t|a i m]; try (apply Hnext; intros t' Ht'%Hlook; done).
  destruct (sys_Readlink _ _) as [e|dest]; [done|]. apply IH; [by destruct (is_abs dest); [left|]|].
  destruct (is_abs dest); [|done]. simpl. by rewrite app_nil_r.
Qed.

(** The result of [FollowSymlinkInScope] is a path in the root without
    links. *)
Lemma FollowSymlinkInScope_contained path r :
  FollowSymlinkInScope f path (abs_path rc) = Ok r ->
  exists ds, r = abs_path (rc ++ ds) /\ Forall proper (rc ++ ds) /\ no_link f (rc ++ ds).
Proof using Hwf Hrc Hroot.
  unfold FollowSymlinkInScope, evalSymlinksInScope. rewrite !clean_abs_path by done.
  destruct (String.eqb_spec (clean path) (abs_path rc)) as [->|_].
  { intros [= <-]. exists []. by rewrite app_nil_r. }
  destruct (negb (has_prefix _ _)); [done|]. destruct (negb (has_prefix _ "/")); [done|].
  destruct (scope_loop _ _ _ _ _ _) as [b|] eqn:Hloop; [|done]. cbn [rbind]. intros [= <-].
  apply scope_loop_contained in Hloop; [|by left|cbn; by rewrite app_nil_r].
  exists (rev (stack b)). assert (Forall proper (rc ++ rev (stack b))) by (apply Forall_app; split; [done|apply stack_proper]).
  change (clean (abs_path rc +:+ clean ("/" +:+ b)) = abs_path (rc ++ rev (stack b))
    /\ Forall proper (rc ++ rev (stack b)) /\ no_link f (rc ++ rev (stack b))).
  by rewrite clean_stack, clean_below by done.
Qed.
End Contained.
