(* ===== verification/Runtime.v ===== *)
(** * The NVIDIA Container Runtime (src/internal/runtime, src/internal/info/auto.go)

    The detection of the platform and of the runtime mode, the image of the
    container, the construction of the runtime that wraps a low-level runtime
    (runtime_factory.go) and the entry point (runtime.go). The run is modelled
    without its messages; where they go is the logger's part (logger.go).

    Mode detection reads the platform through the interface [PropertyExtractor]
    of Nvml.v. *)
From S2P Require Import Prelude GoStrings Tegra Nvml NvcdiOptions Lookup DriverRoot ProcInfo OCISpec OCI ApplyEdits Config Image FileSystem OsFiles Discover DiscoverDriver Edits Modifier.

(** ** The runtime mode *)

(** [modeResolver.ResolveRuntimeMode]; [None] is a panic of the name parser. *)
Definition ResolveRuntimeMode `{MapRange} `{PropertyExtractor} (defaultMode : string) (image : Image.CUDA)
  (mode : string) : option string :=
  if negb (String.eqb mode "auto") then Some mode
  else
    qualified ← OnlyFullyQualifiedCDIDevices image;
    Some (if (qualified : bool) then "cdi"
          else match ResolvePlatform with
               | PlatformNVML | PlatformWSL => defaultMode
               | PlatformTegra => "csv"
               | PlatformUnknown => defaultMode
               end).

(** ** Updates of the configuration *)

Definition with_runtime (g : RuntimeConfig -> RuntimeConfig) (c : Config) : Config :=
  mkConfig (DisableRequire c) (SwarmResource c) (AcceptEnvvarUnprivileged c) (AcceptDeviceListAsVolumeMounts c)
    (SupportedDriverCapabilities c) (CLIConfig c) (NVIDIACTKConfig c) (g (NVIDIAContainerRuntimeConfig c))
    (HookConfig c) (Features c).
Definition set_mode (mode : string) : Config -> Config :=
  with_runtime (fun r => mkRuntimeConfig (DebugFilePath r) (LogLevel r) (Runtimes r) mode (Modes r)).
Definition set_annotation_prefixes (ps : list string) : Config -> Config :=
  with_runtime (fun r => mkRuntimeConfig (DebugFilePath r) (LogLevel r) (Runtimes r) (Mode r)
    (mkModesConfig (Modes_CSV (Modes r))
      (mkCDIModeConfig (SpecDirs (Modes_CDI (Modes r))) (DefaultKind (Modes_CDI (Modes r))) ps)
      (NVCDIFeatureFlags (Modes r)) (CUDACompatMode (Modes r)))).
Definition set_paths (ctk hook : string) (c : Config) : Config :=
  mkConfig (DisableRequire c) (SwarmResource c) (AcceptEnvvarUnprivileged c) (AcceptDeviceListAsVolumeMounts c)
    (SupportedDriverCapabilities c) (CLIConfig c) (mkCTKConfig ctk) (NVIDIAContainerRuntimeConfig c)
    (mkHookConfig hook (SkipModeDetection (HookConfig c))) (Features c).
Local Abbreviation runtime_mode c := (Mode (NVIDIAContainerRuntimeConfig c)).
Local Abbreviation annotation_prefixes c := (AnnotationPrefixes (Modes_CDI (Modes (NVIDIAContainerRuntimeConfig c)))).

(** ** The version flag *)

Fixpoint hasVersionFlag (args : list string) : bool :=
  match args with
  | [] => false
  | param :: args =>
      let part := match cut "=" param with Some (a, _) => a | None => param end in
      let trimmed := trim_left_byte "-" part in
      if String.eqb part trimmed then hasVersionFlag args
      else if String.eqb trimmed "version" then true
      else hasVersionFlag args
  end.

(** ** The logger (logger.go)

    Where the messages of a run go. Formatting and writing them are left out;
    closing a file is a parameter. *)
Module logging.
Inductive Level := PanicLevel | FatalLevel | ErrorLevel | WarnLevel | InfoLevel | DebugLevel | TraceLevel.
Definition ParseLevel (lvl : string) : option Level :=
  let l := to_lower lvl in
  if String.eqb l "panic" then Some PanicLevel
  else if String.eqb l "fatal" then Some FatalLevel
  else if String.eqb l "error" then Some ErrorLevel
  else if String.eqb l "warn" || String.eqb l "warning" then Some WarnLevel
  else if String.eqb l "info" then Some InfoLevel
  else if String.eqb l "debug" then Some DebugLevel
  else if String.eqb l "trace" then Some TraceLevel
  else None.

(** The options of runc that concern logging. *)
Record loggerConfig := mkLoggerConfig { file : string; format : string; debug : bool; version : bool }.
Definition no_config : loggerConfig := mkLoggerConfig "" "" false false.
Definition getLevel (c : loggerConfig) (logLevel : string) : Level * option string :=
  if debug c then (DebugLevel, None)
  else match ParseLevel logLevel with
       | Some l => (l, None)
       | None => (InfoLevel, Some ("invalid log-level '" +:+ logLevel +:+ "'"))
       end.
(** The map [expected]. *)
Definition set_expected (name value : string) (c : loggerConfig) : option loggerConfig :=
  if String.eqb name "log-format" then Some (mkLoggerConfig (file c) value (debug c) (version c))
  else if String.eqb name "log" then Some (mkLoggerConfig value (format c) (debug c) (version c))
  else None.
(** The text before and after the first equals sign. *)
Definition flag_parts (param : string) : string * option string :=
  match cut "=" param with Some (a, v) => (a, Some v) | None => (param, None) end.
Fixpoint parse_loop (args : list string) (found : gset string) (c : loggerConfig) : loggerConfig :=
  match args with
  | [] => c
  | param :: rest =>
      if Nat.eqb (size found) 4 then c
      else
        let '(name, value) := flag_parts param in
        let trimmed := trim_left_byte "-" name in
        if String.eqb name trimmed then parse_loop rest found c
        else if String.eqb trimmed "version" then
          parse_loop rest ({["version"]} ∪ found) (mkLoggerConfig (file c) (format c) (debug c) true)
        else if String.eqb trimmed "debug" then
          parse_loop rest ({["debug"]} ∪ found) (mkLoggerConfig (file c) (format c) true (version c))
        else
          match set_expected trimmed "" c with
          | None => parse_loop rest found c
          | Some _ =>
              let store v := default c (set_expected trimmed v c) in
              match value, rest with
              | Some v, _ => parse_loop rest ({[trimmed]} ∪ found) (store v)
              | None, v :: rest => parse_loop rest ({[trimmed]} ∪ found) (store v)
              | None, [] => c
              end
          end
  end.
Definition parseArgs (args : list string) : loggerConfig := parse_loop args ∅ no_config.

(** [createLogFile]: no file for the empty name and for the null device. *)
Definition createLogFile (filename : string) (f : fs) : (option string * option string) * fs :=
  if String.eqb filename "" || String.eqb filename "/dev/null" then ((None, None), f)
  else
    let dir := path_dir (clean filename) in
    match (if String.eqb dir "." then (inr tt, f) else sys_MkdirAll 493 dir f) with
    | (inl e, f) => ((None, Some (path_error "mkdir" dir e)), f)
    | (inr _, f) =>
        match sys_append 420 "" filename f with
        | inl e => ((None, Some (path_error "open" filename e)), f)
        | inr f => ((Some filename, None), f)
        end
    end.

(** A logger of the library: [None] writes to the standard error, a list to
    the files in it. *)
Record sink := mkSink { level : Level; json : bool; output : option (list string) }.
Definition logrus_New : sink := mkSink InfoLevel false None.
Record Logger := mkLogger { current : sink; previousLogger : option sink; logFiles : list string }.
Definition NewLogger : Logger := mkLogger logrus_New None [].

(** The warnings of [Update] go to the new logger. *)
Definition Update (filename logLevel : string) (argv : list string) (l : Logger) (f : fs) : (Logger * list string) * fs :=
  let configFromArgs := parseArgs argv in
  let '(lvl, logLevelError) := getLevel configFromArgs logLevel in
  let '(files, errors, f) :=
    if version configFromArgs then ([], [], f)
    else
      let '((configLogFile, e1), f) := createLogFile filename f in
      let '((argLogFile, e2), f) := createLogFile (file configFromArgs) f in
      (option_list configLogFile ++ option_list argLogFile, option_list e1 ++ option_list e2, f) in
  (mkLogger (mkSink lvl (String.eqb (format configFromArgs) "json") (Some files)) (Some (current l)) files,
   (match errors with [] => [] | _ => ["Failed to open log file: " +:+ join newline errors] end)
     ++ (match logLevelError with Some e => ["Error getting log level: " +:+ e] | None => [] end), f).

(** [Reset], for the errors of closing the files. *)
Definition combine (errs : list string) : option string :=
  match errs with
  | [] => None
  | [e] => Some e
  | e1 :: e2 :: _ => Some (e2 +:+ "; " +:+ e1)
  end.
Definition Reset (close : string -> option string) (l : Logger) : option string * Logger :=
  (combine (omap close (logFiles l)), mkLogger (default logrus_New (previousLogger l)) None []).
End logging.

Section Runtime.
Context `{MapRange} `{Host} `{HostFiles} `{SpecGenerator} `{PropertyExtractor} (goarch : string)
  (deviceInfoFromPath : string -> result ApplyEdits.deviceInfo) (DeviceFromPath : string -> option DeviceInfo)
  (InjectDevices : list string -> list string -> SpecModifier)
  (resolve : string -> option (list string)) (libs64 : string -> option (list string))
  (cuda_Version cuda_ComputeCapability : result string)
  (load_toml : string -> result (Config -> result Config))
  (decode : bool -> string -> result Spec) (encode : Spec -> option string)
  (can_create : string -> bool) (execve_error : string -> list string -> option string).

Definition image_options (cfg : Config) : list Image.Option_ :=
  [ WithAcceptDeviceListAsVolumeMounts (AcceptDeviceListAsVolumeMounts cfg);
    WithAcceptEnvvarUnprivileged (AcceptEnvvarUnprivileged cfg);
    WithAnnotationsPrefixes (annotation_prefixes cfg);
    WithPreferredVisibleDevicesEnvVars [SwarmResource cfg];
    WithIgnoreImexChannelRequests (IsEnabled (IgnoreImexChannelRequests (Features cfg))) ].

(** [initRuntimeModeAndImage]. The configuration is updated through its
    pointer, and the specification keeps what it loaded. [None] is a panic or
    the end of the fuel; the function calls itself at most once
    ([initRuntimeModeAndImage_fuel]). *)
Fixpoint initRuntimeModeAndImage (fuel : nat) (cfg : Config) (s : fileSpec) (w : Files)
  : option (result (string * Image.CUDA) * Config * fileSpec) :=
  match fuel with
  | O => None
  | S fuel =>
      let (rawSpec, s) := file_Load decode s w in
      match rawSpec with
      | Err e => Some (Err ("failed to load OCI spec: " +:+ e), cfg, s)
      | Ok rawSpec =>
          match NewCUDAImageFromSpec (Some rawSpec) (image_options cfg) with
          | Err e => Some (Err e, cfg, s)
          | Ok image =>
              mode ← ResolveRuntimeMode "jit-cdi" image (runtime_mode cfg);
              let cfg := set_mode mode cfg in
              if String.eqb mode "cdi" || Nat.eqb (length (annotation_prefixes cfg)) 0
              then Some (Ok (mode, image), cfg, s)
              else initRuntimeModeAndImage fuel (set_annotation_prefixes [] cfg) s w
          end
      end
  end.

(** [newSpecModifier]: [modifier.New] checks the mode. *)
Definition newSpecModifier (cfg : Config) (s : fileSpec) (w : Files) : option (result Factory * fileSpec) :=
  match initRuntimeModeAndImage 2 cfg s w with
  | None => None
  | Some (Err e, _, s) => Some (Err e, s)
  | Some (Ok (mode, image), cfg, s) =>
      let f := mkFactory cfg (NewHookCreator [WithNVIDIACDIHookPath (CTK_Path (NVIDIACTKConfig cfg))]) image mode in
      Some ((let? _ := validate f in Ok f), s)
  end.

(** [Factory.Modify] as the modifier of the wrapper, which calls it once;
    [resolve] and [libs64] read the linker cache. *)
Definition factory_modifier (f : Factory) (driver : Driver) : Modifier := fun s =>
  r ← Factory_Modify goarch deviceInfoFromPath DeviceFromPath InjectDevices
    (DriverRoot.Libraries resolve libs64 driver) cuda_Version cuda_ComputeCapability f driver s; Some r.1.

(** [newNVIDIAContainerRuntime] *)
Definition newNVIDIAContainerRuntime (driver : Driver) (cfg : Config) (argv : list string) (w : Files)
  : option (result Runtime) :=
  match NewLowLevelRuntime execve_error (Runtimes (NVIDIAContainerRuntimeConfig cfg)) with
  | Err e => Some (Err ("error constructing low-level runtime: " +:+ e))
  | Ok lowLevelRuntime =>
      if negb (HasCreateSubcommand argv) then Some (Ok lowLevelRuntime)
      else
        match NewSpec argv (IsEnabled (AllowUnknownOCISpecFields (Features cfg))) with
        | Err e => Some (Err ("error constructing OCI specification: " +:+ e))
        | Ok ociSpec =>
            r ← newSpecModifier cfg ociSpec w;
            match r with
            | (Err e, _) => Some (Err ("failed to construct OCI spec modifier: " +:+ e))
            | (Ok f, ociSpec) =>
                Some (Ok (NewModifyingRuntimeWrapper (file_ops decode encode can_create) lowLevelRuntime ociSpec
                            (Some (factory_modifier f driver))))
            end
        end
  end.

(** [rt.Run] *)
Definition Run (modeOverride : string) (argv : list string) (w : Files) : outcome * Files :=
  match GetConfig load_toml with
  | Err e => (Returned ("error loading config: " +:+ e), w)
  | Ok cfg =>
      let cfg := if String.eqb modeOverride "" then cfg else set_mode modeOverride cfg in
      match ResolveNVIDIACTKPath (CTK_Path (NVIDIACTKConfig cfg)),
            ResolveNVIDIAContainerRuntimeHookPath (Config.Hook_Path (HookConfig cfg)) with
      | Some ctk, Some hook =>
          let cfg := set_paths ctk hook cfg in
          let driver := DriverRoot.New (mkOptions (CLI_Root (CLIConfig cfg)) (CLI_Root (CLIConfig cfg)) [] [] None) in
          match newNVIDIAContainerRuntime driver cfg argv w with
          | None => (Panicked, w)
          | Some (Err e) => (Returned ("failed to create NVIDIA Container Runtime: " +:+ e), w)
          | Some (Ok runtime) => Exec runtime argv w
          end
      | _, _ => (Panicked, w)
      end
  end.
End Runtime.
