(* ===== verification/RuntimeProps.v ===== *)
(** * Properties of the NVIDIA Container Runtime *)
From S2P Require Import Prelude GoStrings Nvml NvcdiOptions Lookup DriverRoot ProcInfo OCISpec OCI OCIProps ApplyEdits Config Image Discover DiscoverDriver Edits Modifier ModifierProps Runtime FileSystem OsFiles.

Local Abbreviation runtime_mode c := (Mode (NVIDIAContainerRuntimeConfig c)).
Local Abbreviation annotation_prefixes c := (AnnotationPrefixes (Modes_CDI (Modes (NVIDIAContainerRuntimeConfig c)))).

(** ** The mode and the image *)

(** The image without its annotation prefixes. *)
Definition without_annotations (i : Image.CUDA) : Image.CUDA :=
  mkCUDA (annotations i) (env i) (isPrivileged i) (Image.mounts i) [] (acceptDeviceListAsVolumeMounts i)
    (acceptEnvvarUnprivileged i) (ignoreImexChannelRequests i) (preferredVisibleDeviceEnvVars i).

Lemma image_without_annotations spec cfg mode :
  NewCUDAImageFromSpec (Some spec) (image_options (set_annotation_prefixes [] (set_mode mode cfg)))
  = (let? i := NewCUDAImageFromSpec (Some spec) (image_options cfg) in Ok (without_annotations i)).
Proof.
  unfold NewCUDAImageFromSpec, image_options, Image.New.
  cbn -[env_entries map_of IsPrivileged normalize_envvars]. by destruct (env_entries _).
Qed.

Lemma image_prefixes spec cfg i :
  NewCUDAImageFromSpec (Some spec) (image_options cfg) = Ok i -> annotationsPrefixes i = annotation_prefixes cfg.
Proof.
  unfold NewCUDAImageFromSpec, image_options, Image.New.
  cbn -[env_entries map_of IsPrivileged normalize_envvars]. by destruct (env_entries _); [intros [= <-]|].
Qed.

Lemma no_prefixes_same cfg : annotation_prefixes cfg = [] -> set_annotation_prefixes [] cfg = cfg.
Proof. destruct cfg as [? ? ? ? ? ? ? [? ? ? ? [? [? ? ?] ? ?]] ? ?]. simpl. by intros ->. Qed.
Lemma without_annotations_same i : annotationsPrefixes i = [] -> without_annotations i = i.
Proof. destruct i. simpl. by intros ->. Qed.

Section Props.
Context `{MapRange} `{Host} `{HostFiles} `{SpecGenerator} `{PropertyExtractor} (goarch : string)
  (deviceInfoFromPath : string -> result ApplyEdits.deviceInfo) (DeviceFromPath : string -> option DeviceInfo)
  (InjectDevices : list string -> list string -> SpecModifier)
  (resolve : string -> option (list string)) (libs64 : string -> option (list string))
  (cuda_Version cuda_ComputeCapability : result string)
  (load_toml : string -> result (Config -> result Config))
  (decode : bool -> string -> result Spec) (encode : Spec -> option string)
  (can_create : string -> bool) (execve_error : string -> list string -> option string).

Lemma resolved_not_auto image m mode : ResolveRuntimeMode "jit-cdi" image m = Some mode -> mode <> "auto".
Proof.
  unfold ResolveRuntimeMode. destruct (String.eqb_spec m "auto") as [->|Hm]; simpl; [|by intros [= <-]].
  destruct (OnlyFullyQualifiedCDIDevices image) as [[|]|]; simpl; [by intros [= <-]| |done].
  by destruct ResolvePlatform; intros [= <-].
Qed.

(** C26. Resolving the runtime mode ends after at most one repetition. The mode is
    the configured one unless that is "auto"; it is written back to the
    configuration. In the cdi mode the container is the one the configuration
    describes; in every other mode annotations no longer count as device
    requests, neither in the image nor in the configuration. *)
Theorem initRuntimeModeAndImage_spec fuel cfg s w :
  2 <= fuel ->
  initRuntimeModeAndImage decode fuel cfg s w
  = (let (loaded, s') := file_Load decode s w in
    match loaded with
    | Err e => Some (Err ("failed to load OCI spec: " +:+ e), cfg, s')
    | Ok spec =>
        match NewCUDAImageFromSpec (Some spec) (image_options cfg) with
        | Err e => Some (Err e, cfg, s')
        | Ok image =>
            mode ← ResolveRuntimeMode "jit-cdi" image (runtime_mode cfg);
            if String.eqb mode "cdi" then Some (Ok (mode, image), set_mode mode cfg, s')
            else Some (Ok (mode, without_annotations image), set_annotation_prefixes [] (set_mode mode cfg), s')
        end
    end)
  /\ forall image, cdiDeviceRequestsFromAnnotations (without_annotations image) = [].
Proof.
  intros Hfuel. split; [|done]. destruct fuel as [|[|fuel]]; [lia..|]. cbn [initRuntimeModeAndImage].
  unfold file_Load. destruct (w !! spec_path s) as [text|] eqn:Hw; [|done].
  destruct (decode (loader s) text) as [spec|e] eqn:Hd; [|done]. simpl spec_path. rewrite Hw. simpl loader. rewrite Hd.
  destruct (NewCUDAImageFromSpec _ _) as [image|e] eqn:Hi; [|done]. cbn [rbind].
  destruct (ResolveRuntimeMode _ image _) as [mode|] eqn:Hm; [|done]. cbn beta iota delta [base.mbind option_bind].
  destruct (String.eqb_spec mode "cdi") as [->|Hcdi]; [done|]. rewrite orb_false_l.
  change (annotation_prefixes (set_mode mode cfg)) with (annotation_prefixes cfg).
  destruct (Nat.eqb_spec (length (annotation_prefixes cfg)) 0) as [Hp|Hp].
  - apply nil_length_inv in Hp. rewrite (no_prefixes_same (set_mode mode cfg)) by done.
    rewrite without_annotations_same; [done|]. by rewrite (image_prefixes _ _ _ Hi).
  - apply resolved_not_auto in Hm. unfold ResolveRuntimeMode. simpl runtime_mode.
    rewrite image_without_annotations, Hi, (proj2 (String.eqb_neq _ _) Hm). cbn -[String.eqb].
    by destruct (String.eqb_spec mode "cdi").
Qed.
(** ** Runs *)

(** The configuration of a run. *)
Definition run_config (modeOverride : string) (cfg : Config) : Prop :=
  exists cfg0 ctk hook, GetConfig load_toml = Ok cfg0
  /\ ResolveNVIDIACTKPath (CTK_Path (NVIDIACTKConfig cfg0)) = Some ctk
  /\ ResolveNVIDIAContainerRuntimeHookPath (Config.Hook_Path (HookConfig cfg0)) = Some hook
  /\ cfg = set_paths ctk hook (if String.eqb modeOverride "" then cfg0 else set_mode modeOverride cfg0).

(** The specification file that a command names. *)
Definition names_spec (argv : list string) (path : string) : Prop :=
  exists bundle, GetBundleDir argv = Ok bundle /\ path = GetSpecFilePath bundle.

Local Abbreviation low := (pathRuntime execve_error).
Local Abbreviation ops := (file_ops decode encode can_create).

(** The cases of a wrapped low-level runtime. *)
Inductive exec_case (path : string) (s : fileSpec) (modifier : Modifier) (args : list string) (w : Files)
  : outcome * Files -> Prop :=
| ExecReplaced text spec spec' text' :
    w !! spec_path s = Some text -> decode (loader s) text = Ok spec -> modifier spec = Some (spec', None) ->
    encode spec' = Some text' ->
    exec_case path s modifier args w (Replaced path (path :: tail args), <[spec_path s := text']> w)
| ExecUnchanged e : exec_case path s modifier args w (Returned e, w)
| ExecWritten e text : exec_case path s modifier args w (Returned e, <[spec_path s := text]> w)
| ExecPanicked : exec_case path s modifier args w (Panicked, w).

Lemma wrapper_cases path s modifier args w :
  HasCreateSubcommand args = true -> exec_case path s modifier args w (wrapper_Exec ops modifier s (low path) args w).
Proof.
  intros Hc. unfold wrapper_Exec. rewrite Hc. unfold wrapper_modify. simpl. unfold file_Load.
  destruct (w !! spec_path s) as [text|] eqn:Hw; [|by constructor].
  destruct (decode (loader s) text) as [spec|] eqn:Hd; [|by constructor].
  unfold file_Modify, memory_Modify. simpl.
  destruct (modifier spec) as [[spec' [e|]]|] eqn:Hm; simpl; [by constructor| |by constructor].
  unfold file_Flush. simpl. destruct (can_create (spec_path s)); simpl; [|by constructor].
  destruct (encode spec') as [text'|] eqn:He; [|by constructor].
  rewrite low_exec. destruct (execve_error _ _); [by constructor|by econstructor].
Qed.

Lemma NewLowLevelRuntime_path candidates r :
  NewLowLevelRuntime execve_error candidates = Ok r -> exists p, findRuntime candidates = Ok p /\ r = low p.
Proof.
  unfold NewLowLevelRuntime. destruct (findRuntime candidates) as [p|]; [|done]. simpl. unfold NewRuntimeForPath.
  destruct (os_Stat p); [|done]. destruct (_ || _); [done|]. intros [= <-]. by exists p.
Qed.
Lemma init_same_file fuel cfg s w r cfg' s' :
  initRuntimeModeAndImage decode fuel cfg s w = Some (r, cfg', s') -> spec_path s' = spec_path s /\ loader s' = loader s.
Proof.
  revert cfg s. induction fuel as [|fuel IH]; intros cfg s; [done|]. cbn [initRuntimeModeAndImage]. unfold file_Load.
  destruct (w !! spec_path s) as [text|]; [|by intros [= _ _ <-]].
  destruct (decode (loader s) text) as [spec|]; [|by intros [= _ _ <-]].
  destruct (NewCUDAImageFromSpec _ _) as [image|]; [|by intros [= _ _ <-]].
  destruct (ResolveRuntimeMode _ image _) as [mode|]; [|done]. cbn beta iota delta [base.mbind option_bind].
  destruct (_ || _); [by intros [= _ _ <-]|]. by intros Hi%IH.
Qed.

Lemma newSpecModifier_ok cfg s w f s' :
  newSpecModifier decode cfg s w = Some (Ok f, s') ->
  spec_path s' = spec_path s /\ loader s' = loader s /\ f_runtimeMode f ∈ ["legacy"; "csv"; "jit-cdi"; "cdi"].
Proof.
  unfold newSpecModifier. destruct (initRuntimeModeAndImage _ _ _ _ _) as [[[[[mode image]|e] cfg'] s1]|] eqn:Hi; [|done..].
  apply init_same_file in Hi as [Hp Hl]. unfold validate. simpl f_runtimeMode. destruct (String.eqb mode ""); [done|].
  destruct (existsb _ _) eqn:Hm; [|done]. intros [= <- <-]. split; [done|]. split; [done|]. simpl f_runtimeMode.
  apply existsb_exists in Hm as (m & Hin & ->%String.eqb_eq). by apply list_elem_of_In.
Qed.

Lemma newRuntime_cases driver cfg argv w r :
  newNVIDIAContainerRuntime goarch deviceInfoFromPath DeviceFromPath InjectDevices resolve libs64 cuda_Version
    cuda_ComputeCapability decode encode can_create execve_error driver cfg argv w = Some (Ok r) ->
  exists p, findRuntime (Runtimes (NVIDIAContainerRuntimeConfig cfg)) = Ok p
  /\ if HasCreateSubcommand argv then
       exists path f s, names_spec argv path
         /\ newSpecModifier decode cfg (NewFileSpec path (negb (IsEnabled (AllowUnknownOCISpecFields (Features cfg))))) w
            = Some (Ok f, s)
         /\ Exec r argv w = wrapper_Exec ops (factory_modifier goarch deviceInfoFromPath DeviceFromPath InjectDevices
              resolve libs64 cuda_Version cuda_ComputeCapability f driver) s (low p) argv w
     else Exec r argv w = (pathRuntime_Exec execve_error p argv, w).
Proof.
  unfold newNVIDIAContainerRuntime.
  destruct (NewLowLevelRuntime _ _) as [rt|] eqn:Hl; [|done]. apply NewLowLevelRuntime_path in Hl as (p & Hp & ->).
  intros Hr. exists p. split; [done|]. destruct (HasCreateSubcommand argv); simpl in Hr; [|by injection Hr as <-].
  unfold NewSpec in Hr. destruct (GetBundleDir argv) as [bundle|] eqn:Hb; [|done]. simpl in Hr.
  destruct (newSpecModifier _ _ _ _) as [[[f|e] s]|] eqn:Hf; [|done..]. injection Hr as <-.
  exists (GetSpecFilePath bundle), f, s. split; [by exists bundle|]. done.
Qed.

(** C1. A run of the NVIDIA Container Runtime either replaces the process by the
    low-level runtime that the configuration finds, with the arguments it was
    given, or returns an error, or panics. Only the specification of a
    container to be created is written: when the low-level runtime is started
    for a create command, the file that its arguments name holds the result
    of the modifiers of one of the known modes on the specification it held
    before; for any other command all files are as they were. *)
Theorem Run_spec modeOverride argv w :
  match Run goarch deviceInfoFromPath DeviceFromPath InjectDevices resolve libs64 cuda_Version cuda_ComputeCapability
          load_toml decode encode can_create execve_error modeOverride argv w with
  | (Replaced p argv', w') =>
      argv' = p :: tail argv /\ exists cfg, run_config modeOverride cfg
      /\ findRuntime (Runtimes (NVIDIAContainerRuntimeConfig cfg)) = Ok p
      /\ if HasCreateSubcommand argv then
           exists path text spec spec' text' f driver s, names_spec argv path /\ w !! path = Some text
             /\ decode (negb (IsEnabled (AllowUnknownOCISpecFields (Features cfg)))) text = Ok spec
             /\ newSpecModifier decode cfg
                  (NewFileSpec path (negb (IsEnabled (AllowUnknownOCISpecFields (Features cfg))))) w = Some (Ok f, s)
             /\ f_runtimeMode f ∈ ["legacy"; "csv"; "jit-cdi"; "cdi"]
             /\ factory_modifier goarch deviceInfoFromPath DeviceFromPath InjectDevices resolve libs64 cuda_Version
                  cuda_ComputeCapability f driver spec = Some (spec', None)
             /\ encode spec' = Some text' /\ w' = <[path := text']> w
         else w' = w
  | (Returned _, w') =>
      w' = w \/ HasCreateSubcommand argv = true /\ exists path text, names_spec argv path /\ w' = <[path := text]> w
  | (Panicked, w') => w' = w
  end.
Proof.
  unfold Run. destruct (GetConfig load_toml) as [cfg0|e] eqn:Hg; [|by left]. cbv zeta.
  set (cfg1 := if String.eqb modeOverride "" then cfg0 else set_mode modeOverride cfg0).
  assert (Hsame : NVIDIACTKConfig cfg1 = NVIDIACTKConfig cfg0 /\ HookConfig cfg1 = HookConfig cfg0)
    by (unfold cfg1; by destruct (String.eqb modeOverride "")).
  destruct Hsame as [-> ->].
  destruct (ResolveNVIDIACTKPath _) as [ctk|] eqn:Hctk; [|done].
  destruct (ResolveNVIDIAContainerRuntimeHookPath _) as [hook|] eqn:Hhook; [|done].
  set (cfg := set_paths ctk hook cfg1).
  assert (Hrun : run_config modeOverride cfg) by by exists cfg0, ctk, hook.
  set (driver := DriverRoot.New _).
  destruct (newNVIDIAContainerRuntime _ _ _ _ _ _ _ _ _ _ _ _ driver cfg argv w) as [[r|e]|] eqn:Hr; [|by left|done].
  apply newRuntime_cases in Hr as (p & Hp & Hr).
  destruct (HasCreateSubcommand argv) eqn:Hc.
  - destruct Hr as (path & f & s & Hpath & Hf & ->). pose proof (newSpecModifier_ok _ _ _ _ _ Hf) as (Hsp & Hl & Hm).
    simpl in Hsp, Hl. destruct (wrapper_cases p s (factory_modifier goarch deviceInfoFromPath DeviceFromPath InjectDevices
      resolve libs64 cuda_Version cuda_ComputeCapability f driver) argv w Hc) as [text spec spec' text' Hw Hd Hmod He|e|e text|].
    + rewrite Hsp in *. rewrite Hl in Hd. split; [done|]. exists cfg. split; [done|]. split; [done|].
      by exists path, text, spec, spec', text', f, driver, s.
    + by left.
    + right. split; [done|]. exists path, text. by rewrite Hsp.
    + done.
  - rewrite Hr, low_exec. destruct (execve_error _ _); [by left|]. split; [done|]. by exists cfg.
Qed.
End Props.

(** ** Instances *)

Definition tegra_platform : PropertyExtractor := {|
  HasDXCore := false; HasTegraFiles := true; HasNvml := false; HasAnIntegratedGPU := false |}.
Definition annotated_spec (devices : string) : Spec :=
  OCISpec.mkSpec "1.0.2" None None [] None {["cdi.k8s.io/pod" := devices]} None.
Definition annotated_decode (strict : bool) (text : string) : result Spec := Ok (annotated_spec text).

(** An annotation with CDI devices selects the cdi mode; with any other device
    it is ignored and the platform decides. *)
Lemma initRuntimeModeAndImage_spec_witness :
  2 <= 2
  /\ (fun r => match r with (Ok (mode, _), cfg, _) => Some (mode, annotation_prefixes cfg) | _ => None end) <$>
     @initRuntimeModeAndImage map_to_list_range tegra_platform annotated_decode 2 (@GetDefault bare_host bare_files)
       (NewFileSpec "/b/config.json" true) {["/b/config.json" := "nvidia.com/gpu=0"]}
     = Some (Some ("cdi", ["cdi.k8s.io/"]))
  /\ (fun r => match r with (Ok (mode, _), cfg, _) => Some (mode, annotation_prefixes cfg) | _ => None end) <$>
     @initRuntimeModeAndImage map_to_list_range tegra_platform annotated_decode 2 (@GetDefault bare_host bare_files)
       (NewFileSpec "/b/config.json" true) {["/b/config.json" := "0"]}
     = Some (Some ("csv", [])).
Proof.
  split; [lia|]. split.
  - rewrite (proj1 (@initRuntimeModeAndImage_spec map_to_list_range tegra_platform annotated_decode 2 _ _ _
      (le_n 2))). vm_compute. reflexivity.
  - rewrite (proj1 (@initRuntimeModeAndImage_spec map_to_list_range tegra_platform annotated_decode 2 _ _ _
      (le_n 2))). vm_compute. reflexivity.
Defined.

(** ** The logger *)

Lemma hasVersionFlag_cons param args : hasVersionFlag args = true -> hasVersionFlag (param :: args) = true.
Proof. intros H. cbn [hasVersionFlag]. destruct (String.eqb _ (trim_left_byte _ _)); [done|]. by destruct (String.eqb _ "version"). Qed.
Lemma set_expected_version n v c c' : logging.set_expected n v c = Some c' -> logging.version c' = logging.version c.
Proof.
  unfold logging.set_expected. destruct (String.eqb n "log-format"); [by intros [= <-]|].
  destruct (String.eqb n "log"); [by intros [= <-]|done].
Qed.
Lemma stored_version n v c : logging.version (default c (logging.set_expected n v c)) = logging.version c.
Proof. destruct (logging.set_expected n v c) eqn:E; [by eapply set_expected_version|done]. Qed.
Lemma parse_loop_version n args found c : (length args <= n)%nat -> logging.version (logging.parse_loop args found c) = true ->
  logging.version c = true \/ hasVersionFlag args = true.
Proof.
  revert args found c. induction n as [|n IH]; intros [|param rest] found c Hn; cbn [length] in Hn; try lia; try by left.
  cbn [logging.parse_loop]. destruct (Nat.eqb (size found) 4); [by left|].
  assert (Hskip : forall found c', logging.version c' = logging.version c ->
    logging.version (logging.parse_loop rest found c') = true -> logging.version c = true \/ hasVersionFlag (param :: rest) = true).
  { intros found' c' <- H. apply IH in H as [?|?]; [by left|right; by apply hasVersionFlag_cons|lia]. }
  destruct (logging.flag_parts param) as [name value] eqn:Ep.
  assert (name = match cut "=" param with Some (a, _) => a | None => param end) as ->.
  { unfold logging.flag_parts in Ep. by destruct (cut "=" param) as [[]|]; injection Ep as <- _. }
  destruct (String.eqb _ (trim_left_byte _ _)) eqn:Et; [by apply Hskip|].
  destruct (String.eqb _ "version") eqn:Ev; [intros _; right; cbn [hasVersionFlag]; by rewrite Et, Ev|].
  destruct (String.eqb _ "debug"); [by apply Hskip|].
  destruct (logging.set_expected _ "" c); [|by apply Hskip].
  destruct value as [v|]; [apply Hskip, stored_version|].
  destruct rest as [|v rest]; [by left|]. intros H. apply IH in H as [H|H]; [|right|cbn in Hn; lia].
  - left. by rewrite stored_version in H.
  - by do 2 apply hasVersionFlag_cons.
Qed.
(** Nothing is written for a run that prints its version: if the arguments
    have the flag as [parseArgs] reads them, then the version is printed and
    the new logger touches no file and discards its messages. *)
Theorem Update_version filename logLevel argv l f (H : logging.version (logging.parseArgs argv) = true) :
  hasVersionFlag argv = true /\
  exists l', logging.Update filename logLevel argv l f = (l', f) /\ logging.output (logging.current l'.1) = Some [].
Proof.
  split.
  - by destruct (parse_loop_version (length argv) argv ∅ logging.no_config) as [|].
  - unfold logging.Update. destruct (logging.getLevel _ _) as [lvl e]. rewrite H. by eexists.
Qed.
(** The converse fails: only [hasVersionFlag] reads the value of an option. *)
Lemma version_as_value : hasVersionFlag ["--log"; "--version"] = true /\
  logging.parseArgs ["--log"; "--version"] = logging.mkLoggerConfig "--version" "" false false.
Proof. split; vm_compute; reflexivity. Qed.
(** [Reset] undoes [Update], whatever closing the files says. *)
Theorem Reset_Update close filename logLevel argv l f :
  (logging.Reset close (logging.Update filename logLevel argv l f).1.1).2 = logging.mkLogger (logging.current l) None [].
Proof.
  unfold logging.Update. destruct (logging.getLevel _ _) as [lvl e]. destruct (logging.version _); [done|].
  destruct (logging.createLogFile filename f) as [[? ?] f1]. by destruct (logging.createLogFile _ f1) as [[? ?] f2].
Qed.
(** The log file of the configuration is opened with the one that runc is told
    to use, and a directory above it is created. *)
Definition lab_update : (logging.Logger * list string) * fs :=
  logging.Update "/var/log/nvidia/runtime.log" "DEBUG" ["runc"; "--log=/run/log.json"; "--log-format"; "json"; "create"] logging.NewLogger
    (map_of_nodes [(["var"], DirNode 493); (["run"], DirNode 493)]).
Example Update_ex :
  lab_update.1 = (logging.mkLogger (logging.mkSink logging.DebugLevel true (Some ["/var/log/nvidia/runtime.log"; "/run/log.json"]))
    (Some logging.logrus_New) ["/var/log/nvidia/runtime.log"; "/run/log.json"], []).
Proof. vm_compute. reflexivity. Qed.
Example Update_files :
  map (fun p => match sys_Stat lab_update.2 p with inr n => Some n | inl _ => None end) ["/var/log/nvidia/runtime.log"; "/run/log.json"] =
  [Some (FileNode "" 420); Some (FileNode "" 420)].
Proof. vm_compute. reflexivity. Qed.
Lemma Update_version_witness : exists l', logging.Update "/var/log/nvidia/runtime.log" "" ["runc"; "--version"] logging.NewLogger lab_update.2 = (l', lab_update.2).
Proof.
  destruct (Update_version "/var/log/nvidia/runtime.log" "" ["runc"; "--version"] logging.NewLogger lab_update.2) as (_ & l' & H & _);
    [vm_compute; reflexivity|].
  exists l'. exact H.
Defined.
