(* ===== verification/RuntimeHook.v ===== *)
(** * NVIDIA Container Runtime Hook (src/cmd/nvidia-container-runtime-hook)

    The prestart hook of the legacy mode: its configuration (hook_config.go),
    what it reads from the container (container_config.go, capabilities.go) and
    the command line of nvidia-container-cli that replaces it (main.go).

    A Go panic is recovered by [exit] and ends the process with code 1, so it
    is an [Err] here. Decoding of JSON and TOML, the state that the engine
    passes on the standard input and the environment are parameters. *)
From S2P Require Import Prelude GoStrings Lookup ProcInfo Semver Nvml OCISpec Image Config Runtime.
#[local] Open Scope go_scope.

(** ** Data *)

Record HookState := mkHookState { Pid : Z; Bundle : string; BundlePath : string }.
(** [Process.Capabilities] is the JSON text. *)
Record HookProcess := mkHookProcess { HProcess_Env : list string; HProcess_Capabilities : option string }.
(** [Spec]; the root is its path. *)
Record HookSpec := mkHookSpec {
  HSpec_Version : option string; HSpec_Process : option HookProcess; HSpec_Root : option string; HSpec_Mounts : list Mount;
}.
Record nvidiaConfig := mkNvidiaConfig {
  nv_Devices : list string; nv_MigConfigDevices : string; nv_MigMonitorDevices : string;
  nv_ImexChannels : list string; nv_DriverCapabilities : string; nv_Requirements : list string;
}.
Record containerConfig := mkContainerConfig {
  cc_Pid : Z; cc_Rootfs : string; cc_Image : Image.CUDA; cc_Nvidia : option nvidiaConfig;
}.

Definition EnvVarNvidiaMigConfigDevices : string := "NVIDIA_MIG_CONFIG_DEVICES".
Definition EnvVarNvidiaMigMonitorDevices : string := "NVIDIA_MIG_MONITOR_DEVICES".
Definition CUDACompatModeDisabled : string := "disabled".
Definition CUDACompatModeMount : string := "mount".

(** How a run of the process ends: it is replaced by another program with its
    arguments and environment, or it exits. *)
Inductive hook_outcome : Type :=
| Execs (path : string) (argv env : list string)
| Exits (code : Z).

(** ** Capabilities (capabilities.go) *)

Definition capabilityToCLI (cap : string) : result string :=
  if existsb (String.eqb cap) ["compute"; "compat32"; "graphics"; "utility"; "video"; "display"; "ngx"]
  then Ok ("--" +:+ cap)
  else Err ("unknown driver capability: " +:+ cap).

(** [os.Setenv] on the environment *)
Definition setenv (k v : string) (environ : list string) : list string :=
  if existsb (fun e => has_prefix e (k +:+ "=")) environ
  then map (fun e => if has_prefix e (k +:+ "=") then k +:+ "=" +:+ v else e) environ
  else environ ++ [k +:+ "=" +:+ v].

Section Hook.
Context `{MapRange} `{Host} `{HostFiles} `{PropertyExtractor}
  (load_toml : string -> result (Config -> result Config))
  (decode_spec : string -> result (option HookSpec))
  (unmarshal_list : string -> result (list string)) (unmarshal_caps : string -> result LinuxCapabilities)
  (state : result HookState) (environ : list string) (execve_error : string -> option string).

(** ** The specification (container_config.go) *)

Definition loadSpec (path : string) : result HookSpec :=
  match os_ReadFile path with
  | None => match os_ReadError path with
            | NotExist => Err ("could not open OCI spec: open " +:+ path +:+ ": no such file or directory")
            | NotOpened e => Err ("could not open OCI spec: " +:+ e)
            | NotRead e => Err ("could not decode OCI spec: " +:+ e)
            end
  | Some text =>
      let? spec := wrap "could not decode OCI spec" (decode_spec text) in
      match spec with
      | None => Err "invalid memory address or nil pointer dereference"
      | Some s =>
          match HSpec_Version s, HSpec_Process s, HSpec_Root s with
          | None, _, _ => Err "Version is empty in OCI spec"
          | _, None, _ => Err "Process is empty in OCI spec"
          | _, _, None => Err "Root is empty in OCI spec"
          | _, _, _ => Ok s
          end
      end
  end.
(** [Spec.GetCapabilities]; specifications of some release candidates have a
    plain list. *)
Definition HookSpec_GetCapabilities (s : HookSpec) : result (list string) :=
  match HSpec_Process s with
  | None => Ok []
  | Some p =>
      match HProcess_Capabilities p with
      | None => Ok []
      | Some raw =>
          let v := "v" +:+ default "" (HSpec_Version s) in
          let rc1cmp := Compare v "v1.0.0-rc1" in
          let rc5cmp := Compare v "v1.0.0-rc5" in
          if (Z.eqb rc1cmp 1 || Z.eqb rc1cmp 0) && Z.eqb rc5cmp (-1)
          then wrap "could not decode Process.Capabilities in OCI spec" (unmarshal_list raw)
          else
            let? c := wrap "could not decode Process.Capabilities in OCI spec" (unmarshal_caps raw) in Ok (Bounding c)
      end
  end.
Definition HookSpec_isPrivileged (s : HookSpec) : result bool :=
  let? caps := HookSpec_GetCapabilities s in Ok (IsPrivileged (Some caps)).

(** [getMigDevices] with the empty string for nil *)
Definition getMigDevices (i : Image.CUDA) (envvar : string) : string :=
  if HasEnvvar i envvar then Getenv i envvar else "".

Definition getDriverCapabilities (c : Config) (i : Image.CUDA) (legacyImage : bool) : result (gset string) :=
  let supportedDriverCapabilities := Caps.NewDriverCapabilities [SupportedDriverCapabilities c] in
  let capabilities := Caps.Intersection supportedDriverCapabilities Caps.DefaultDriverCapabilities in
  let capsEnvSpecified := HasEnvvar i EnvVarNvidiaDriverCapabilities in
  let capsEnv := Getenv i EnvVarNvidiaDriverCapabilities in
  if negb capsEnvSpecified && legacyImage then Ok supportedDriverCapabilities
  else if capsEnvSpecified && negb (String.eqb capsEnv "") then
    let envCapabilities := Caps.NewDriverCapabilities [capsEnv] in
    let capabilities := Caps.Intersection supportedDriverCapabilities envCapabilities in
    if negb (Caps.IsAll envCapabilities) && negb (Nat.eqb (size capabilities) (size envCapabilities))
    then Err ("unsupported capabilities found in '" +:+ Caps.String envCapabilities +:+ "' (allowed '"
              +:+ Caps.String capabilities +:+ "')")
    else Ok capabilities
  else Ok capabilities.

Definition getNvidiaConfig (c : Config) (i : Image.CUDA) (privileged : bool) : result (option nvidiaConfig) :=
  match VisibleDevices_of i with
  | None => Err "slice bounds out of range"
  | Some [] => Ok None
  | Some devices =>
      let migConfigDevices := getMigDevices i EnvVarNvidiaMigConfigDevices in
      if negb privileged && negb (String.eqb migConfigDevices "")
      then Err "cannot set MIG_CONFIG_DEVICES in non privileged container"
      else
        let migMonitorDevices := getMigDevices i EnvVarNvidiaMigMonitorDevices in
        if negb privileged && negb (String.eqb migMonitorDevices "")
        then Err "cannot set MIG_MONITOR_DEVICES in non privileged container"
        else
          let? driverCapabilities := getDriverCapabilities c i (IsLegacy i) in
          let? requirements := wrap "failed to get requirements" (GetRequirements i) in
          Ok (Some (mkNvidiaConfig devices migConfigDevices migMonitorDevices (ImexChannelRequests i)
                      (Caps.String driverCapabilities) requirements))
  end.

Definition hook_image_options (c : Config) (p : HookProcess) (ms : list Mount) (privileged : bool) : list Image.Option_ :=
  [ WithEnv (HProcess_Env p); WithMounts ms; WithPrivileged privileged; Image.WithDisableRequire (DisableRequire c);
    WithAcceptDeviceListAsVolumeMounts (AcceptDeviceListAsVolumeMounts c);
    WithAcceptEnvvarUnprivileged (AcceptEnvvarUnprivileged c);
    WithPreferredVisibleDevicesEnvVars [SwarmResource c];
    WithIgnoreImexChannelRequests (IsEnabled (IgnoreImexChannelRequests (Features c))) ].
(** [getContainerConfig], called once *)
Definition getContainerConfig (c : Config) : result containerConfig :=
  let? h := wrap "could not decode container state" state in
  let b := if Nat.eqb (String.length (Bundle h)) 0 then BundlePath h else Bundle h in
  let? s := loadSpec (path_join [b; "config.json"]) in
  match HSpec_Process s, HSpec_Root s with
  | Some p, Some root =>
      let? privileged := HookSpec_isPrivileged s in
      let? i := Image.New (hook_image_options c p (HSpec_Mounts s) privileged) in
      let? nvidia := getNvidiaConfig c i privileged in
      Ok (mkContainerConfig (Pid h) root i nvidia)
  | _, _ => Err "invalid memory address or nil pointer dereference"
  end.

(** ** The configuration (hook_config.go) *)

Definition getConfigFilePath (configflag : string) : string * bool :=
  if negb (String.eqb configflag "") then (configflag, true)
  else
    let configFromEnvvar := default "" (os_LookupEnv "NVIDIA_CTK_CONFIG_FILE_PATH") in
    if negb (String.eqb configFromEnvvar "") then (configFromEnvvar, true) else (GetConfigFilePath, false).
(** The default configuration, for want of a file that is not required, is not
    validated. *)
Definition loadConfig (configflag : string) : result Config :=
  let '(configFilePath, required) := getConfigFilePath configflag in
  match loadConfigToml load_toml true configFilePath with
  | inr tree => Toml_Config tree
  | inl e =>
      if match e with ErrNotExist => negb required | LoadError _ => false end then Ok GetDefault
      else Err ("couldn't open required configuration file: " +:+ load_error_text e)
  end.
Definition set_supported (caps : string) (c : Config) : Config :=
  mkConfig (DisableRequire c) (SwarmResource c) (AcceptEnvvarUnprivileged c) (AcceptDeviceListAsVolumeMounts c)
    caps (CLIConfig c) (NVIDIACTKConfig c) (NVIDIAContainerRuntimeConfig c) (HookConfig c) (Features c).
(** [getHookConfig]. The message of the panic needs the name of an option,
    which [getConfigOption] asks a pointer type for: that panics as well. *)
Definition getHookConfig (configflag : string) : result Config :=
  let? c := wrap "failed to load config" (loadConfig configflag) in
  let all := Caps.SupportedDriverCapabilities in
  let c := if String.eqb (SupportedDriverCapabilities c) "all" then set_supported (Caps.String all) c else c in
  if Caps.IsSuperset all (Caps.NewDriverCapabilities [SupportedDriverCapabilities c]) then Ok c
  else Err "reflect: FieldByName of non-struct type".

Definition nvidiaContainerCliCUDACompatModeFlags (c : Config) : list string :=
  let m := CUDACompatMode (Modes (NVIDIAContainerRuntimeConfig c)) in
  if String.eqb m CUDACompatModeLdconfig then ["--cuda-compat-mode=ldconfig"]
  else if String.eqb m CUDACompatModeMount then ["--cuda-compat-mode=mount"]
  else if String.eqb m CUDACompatModeDisabled || String.eqb m CUDACompatModeHook then ["--cuda-compat-mode=disabled"]
  else if negb (IsEnabled (AllowCUDACompatLibsFromContainer (Features c))) then ["--cuda-compat-mode=disabled"]
  else [].
Definition assertModeIsLegacy (c : Config) (i : Image.CUDA) : result unit :=
  if SkipModeDetection (HookConfig c) then Ok tt
  else match ResolveRuntimeMode "legacy" i (Mode (NVIDIAContainerRuntimeConfig c)) with
       | None => Err "slice bounds out of range"
       | Some mode =>
           if String.eqb mode "legacy" then Ok tt
           else Err "invoking the NVIDIA Container Runtime Hook directly is not supported"
       end.

(** ** The command line (main.go) *)

(** [exec.LookPath] for a name without a slash. *)
Fixpoint LookPath (dirs : list string) (file : string) : result string :=
  match dirs with
  | [] => Err ("exec: " +:+ quote file +:+ ": executable file not found in $PATH")
  | dir :: dirs =>
      let path := path_join [if String.eqb dir "" then "." else dir; file] in
      if match os_Stat path with Some i => negb (IsDir i) && negb (Z.eqb (Z.land (Perm i) 73) 0) | None => false end
      then if is_abs path then Ok path else Err ("exec: " +:+ quote file +:+ ": cannot run executable found relative to current directory")
      else LookPath dirs file
  end.
(** [getCLIPath] with the environment after it. *)
Definition getCLIPath (c : ContainerCLIConfig) : result (string * list string) :=
  if negb (String.eqb (CLI_Path c) "") then Ok (CLI_Path c, environ)
  else
    let path := GetPath (CLI_Root c) in
    let? cli := wrap "couldn't find binary nvidia-container-cli in PATH" (LookPath (SplitList path) "nvidia-container-cli") in
    Ok (cli, setenv "PATH" path environ).

Definition flag_if (b : bool) (flag : string) : list string := if b then [flag] else [].
(** [--name=value] unless the value is empty *)
Definition option_if (name value : string) : list string := if String.eqb value "" then [] else ["--" +:+ name +:+ "=" +:+ value].
Definition global_args (debugflag : bool) (c : Config) : list string :=
  let cli := CLIConfig c in
  option_if "root" (CLI_Root cli) ++ flag_if (LoadKmods cli) "--load-kmods"
  ++ flag_if (IsEnabled (DisableImexChannelCreation (Features c))) "--no-create-imex-channels"
  ++ flag_if (NoPivot cli) "--no-pivot"
  ++ (if debugflag then ["--debug=/dev/stderr"] else option_if "debug" (Debug cli))
  ++ option_if "ldcache" (Ldcache cli) ++ option_if "user" (CLI_User cli).
(** The loop over the capabilities stops at an empty one. *)
Fixpoint capability_args (caps : list string) : result (list string) :=
  match caps with
  | [] => Ok []
  | cap :: caps =>
      if String.eqb cap "" then Ok []
      else let? flag := capabilityToCLI cap in let? rest := capability_args caps in Ok (flag :: rest)
  end.
Definition configure_args (c : Config) (nvidia : nvidiaConfig) : result (list string) :=
  let? caps := capability_args (split_byte "," (nv_DriverCapabilities nvidia)) in
  Ok (nvidiaContainerCliCUDACompatModeFlags c ++ option_if "ldconfig" (normalize (Ldconfig (CLIConfig c)))
      ++ flag_if (NoCgroups (CLIConfig c)) "--no-cgroups" ++ option_if "device" (join "," (nv_Devices nvidia))
      ++ option_if "mig-config" (nv_MigConfigDevices nvidia) ++ option_if "mig-monitor" (nv_MigMonitorDevices nvidia)
      ++ option_if "imex-channel" (join "," (nv_ImexChannels nvidia)) ++ caps
      ++ map (fun req => "--require=" +:+ req) (nv_Requirements nvidia)).

(** [doPrestart] up to the panics: [None] for a container without GPUs. *)
Definition prestart (debugflag : bool) (configflag : string) : result (option (string * list string * list string)) :=
  let? c := wrap "error getting hook config" (getHookConfig configflag) in
  let? container := getContainerConfig c in
  match cc_Nvidia container with
  | None => Ok None
  | Some nvidia =>
      let? _ := assertModeIsLegacy c (cc_Image container) in
      let? rootfs := match filepath_Abs (cc_Rootfs container) with Some p => Ok p | None => Err "getwd failed" end in
      let? cli := getCLIPath (CLIConfig c) in
      let? args := configure_args c nvidia in
      let argv := cli.1 :: global_args debugflag c ++ "configure" :: args
                  ++ ["--pid=" +:+ fmt_Z (cc_Pid container mod 2 ^ 64); rootfs] in
      Ok (Some (cli.1, argv, cli.2 ++ Environment (CLIConfig c)))
  end.
Definition doPrestart (debugflag : bool) (configflag : string) : hook_outcome :=
  match prestart debugflag configflag with
  | Ok None => Exits 0
  | Ok (Some (path, argv, env)) => match execve_error path with None => Execs path argv env | Some _ => Exits 1 end
  | Err _ => Exits 1
  end.

(** [main] after the flags have been parsed. *)
Definition hook_main (debugflag versionflag : bool) (configflag : string) (args : list string) : hook_outcome :=
  if versionflag then Exits 0
  else match args with
       | [] => Exits 2
       | arg :: _ =>
           if String.eqb arg "prestart" then doPrestart debugflag configflag
           else if String.eqb arg "poststart" || String.eqb arg "poststop" then Exits 0
           else Exits 2
       end.
End Hook.
