(* ===== verification/RuntimeHookProps.v ===== *)
(** * Properties of the NVIDIA Container Runtime Hook *)
From S2P Require Import Prelude GoStrings Lookup ProcInfo Semver Nvml OCISpec Image ImageProps Config Runtime RuntimeHook.
#[local] Open Scope go_scope.

(** ** Driver capabilities *)

Local Abbreviation supported_of c := (Caps.NewDriverCapabilities [SupportedDriverCapabilities c]).
(** A validated configuration supports known capabilities only. *)
Definition valid_supported (c : Config) : Prop := supported_of c ⊆ Caps.SupportedDriverCapabilities.
(** The capabilities that a container asks for: those of its environment
    variable, all of them for an image without one that is older than the
    variable, otherwise the default ones. *)
Definition requested_caps (i : Image.CUDA) : option (gset string) :=
  let v := Getenv i EnvVarNvidiaDriverCapabilities in
  if HasEnvvar i EnvVarNvidiaDriverCapabilities && negb (String.eqb v "") then
    let e := Caps.NewDriverCapabilities [v] in if Caps.IsAll e then None else Some e
  else if HasEnvvar i EnvVarNvidiaDriverCapabilities then Some Caps.DefaultDriverCapabilities
  else if IsLegacy i then None else Some Caps.DefaultDriverCapabilities.
Definition explicit_caps (i : Image.CUDA) : bool := negb (String.eqb (Getenv i EnvVarNvidiaDriverCapabilities) "").

Lemma not_all_supported : Caps.IsAll Caps.SupportedDriverCapabilities = false.
Proof. reflexivity. Qed.
Lemma valid_not_all c : valid_supported c -> Caps.IsAll (supported_of c) = false.
Proof.
  intros Hv. unfold Caps.IsAll. apply bool_decide_eq_false. intros Hin%Hv.
  pose proof not_all_supported as Hn. by apply bool_decide_eq_false in Hn.
Qed.
Lemma subset_size_eq (x y : gset string) : filter (fun k => k ∈ x) y ⊆ y.
Proof. set_solver. Qed.

(** The capabilities that are passed on are exactly the requested ones. If the
    container names one that is not supported the run ends; without names, or
    with "all", it gets what is supported. *)
Lemma getDriverCapabilities_spec c i : valid_supported c ->
  getDriverCapabilities c i (IsLegacy i)
  = match requested_caps i with
    | None => Ok (supported_of c)
    | Some e =>
        if explicit_caps i then
          if decide (e ⊆ supported_of c) then Ok e
          else Err ("unsupported capabilities found in '" +:+ Caps.String e +:+ "' (allowed '"
                    +:+ Caps.String (filter (fun k => k ∈ supported_of c) e) +:+ "')")
        else Ok (filter (fun k => k ∈ supported_of c) e)
    end.
Proof.
  intros Hv. unfold getDriverCapabilities, requested_caps, explicit_caps, Caps.Intersection.
  rewrite (valid_not_all c Hv). replace (Caps.IsAll Caps.DefaultDriverCapabilities) with false by reflexivity.
  destruct (HasEnvvar i EnvVarNvidiaDriverCapabilities) eqn:Hs; cbn [negb andb].
  - destruct (String.eqb_spec (Getenv i EnvVarNvidiaDriverCapabilities) "") as [Hv0|Hv0]; [done|]. cbn [negb].
    destruct (Caps.IsAll (Caps.NewDriverCapabilities [Getenv i EnvVarNvidiaDriverCapabilities])) eqn:Ha; [done|].
    cbn [negb andb]. set (e := Caps.NewDriverCapabilities _) in *. set (f := filter _ e).
    destruct (decide (e ⊆ supported_of c)) as [Hsub|Hsub].
    + assert (f = e) as -> by (apply set_eq; unfold f; set_solver). by rewrite Nat.eqb_refl.
    + destruct (Nat.eqb_spec (size f) (size e)) as [He|He]; [|done]. contradict Hsub.
      assert (f = e) as Hef by (apply set_subseteq_size_eq; [apply subset_size_eq|lia]).
      rewrite <- Hef. unfold f. set_solver.
  - assert (Getenv i EnvVarNvidiaDriverCapabilities = "") as ->; [|by destruct (IsLegacy i)].
    unfold HasEnvvar in Hs. apply bool_decide_eq_false in Hs. unfold Getenv.
    destruct (env i !! _); [|done]. contradict Hs. by eexists.
Qed.

Definition known_caps : list string := ["compute"; "compat32"; "graphics"; "utility"; "video"; "display"; "ngx"].
Lemma supported_known x : x ∈ Caps.SupportedDriverCapabilities -> x ∈ known_caps.
Proof.
  assert (Caps.SupportedDriverCapabilities = list_to_set known_caps) as -> by (vm_compute; reflexivity).
  by rewrite elem_of_list_to_set.
Qed.
Lemma known_cap x : x ∈ known_caps -> capabilityToCLI x = Ok ("--" +:+ x) /\ x <> "" /\ has_byte "," x = false.
Proof. unfold known_caps. rewrite !elem_of_cons, elem_of_nil. intros [->|[->|[->|[->|[->|[->|[->|[]]]]]]]]; done. Qed.
Lemma capability_args_known l : Forall (fun x => x ∈ known_caps) l ->
  capability_args l = Ok (map (fun x => "--" +:+ x) l).
Proof.
  induction 1 as [|x l (Hx & Hne & _)%known_cap Hl IH]; [done|]. simpl.
  apply String.eqb_neq in Hne. by rewrite Hne, Hx, IH.
Qed.
(** Flags for supported capabilities are never missing. *)
Lemma capability_args_supported caps : caps ⊆ Caps.SupportedDriverCapabilities ->
  capability_args (split_byte "," (Caps.String caps)) = Ok (map (fun x => "--" +:+ x) (Caps.List caps)).
Proof.
  intros Hsub. unfold Caps.String. replace (Caps.IsAll caps) with false.
  2: { symmetry. unfold Caps.IsAll. apply bool_decide_eq_false. by intros [Hin _]%Hsub%supported_known%known_cap. }
  assert (Hl : Forall (fun x => x ∈ known_caps) (Caps.List caps)).
  { apply Forall_forall. intros x Hx. apply supported_known, Hsub. unfold Caps.List in Hx.
    
    by rewrite sort_strings_elem, elem_of_elements in Hx. }
  destruct (Caps.List caps) as [|x l] eqn:Hc; [done|]. rewrite split_join; [by apply capability_args_known|done|].
  eapply Forall_impl; [exact Hl|]. by intros y (_ & _ & Hy)%known_cap.
Qed.

(** ** The command line *)

Section Prestart.
Context `{MapRange} `{Host} `{HostFiles} `{PropertyExtractor}
  (load_toml : string -> result (Config -> result Config))
  (decode_spec : string -> result (option HookSpec))
  (unmarshal_list : string -> result (list string)) (unmarshal_caps : string -> result LinuxCapabilities)
  (state : result HookState) (environ : list string) (execve_error : string -> option string).
Local Abbreviation hook_config := (getHookConfig load_toml).
Local Abbreviation container_config := (getContainerConfig decode_spec unmarshal_list unmarshal_caps state).
Local Abbreviation run := (doPrestart load_toml decode_spec unmarshal_list unmarshal_caps state environ execve_error).

Lemma hook_config_valid f c : hook_config f = Ok c -> valid_supported c.
Proof.
  unfold getHookConfig. destruct (loadConfig load_toml f) as [c0|]; [|done]. cbn [wrap rbind].
  set (c1 := if String.eqb _ _ then _ else _). destruct (Caps.IsSuperset _ _) eqn:Hs; [|done]. intros [= <-].
  intros x Hx. rewrite Caps_IsSuperset_spec in Hs. specialize (Hs x Hx). unfold Caps.Has in Hs.
  rewrite not_all_supported in Hs. by apply bool_decide_eq_true in Hs.
Qed.

(** What a container that asks for GPUs is configured with. *)
Definition nvidia_of (c : Config) (i : Image.CUDA) (nvidia : nvidiaConfig) (caps : gset string) : Prop :=
  VisibleDevices_of i = Some (nv_Devices nvidia) /\ nv_Devices nvidia <> []
  /\ nv_ImexChannels nvidia = ImexChannelRequests i /\ GetRequirements i = Ok (nv_Requirements nvidia)
  /\ nv_DriverCapabilities nvidia = Caps.String caps /\ getDriverCapabilities c i (IsLegacy i) = Ok caps.

Lemma getNvidiaConfig_some c i privileged nvidia : getNvidiaConfig c i privileged = Ok (Some nvidia) ->
  (privileged = false -> nv_MigConfigDevices nvidia = "" /\ nv_MigMonitorDevices nvidia = "")
  /\ exists caps, nvidia_of c i nvidia caps.
Proof.
  unfold getNvidiaConfig, nvidia_of. destruct (VisibleDevices_of i) as [[|d ds]|]; [done| |done].
  destruct (negb privileged && negb (String.eqb (getMigDevices i EnvVarNvidiaMigConfigDevices) "")) eqn:Hc1; [done|].
  destruct (negb privileged && negb (String.eqb (getMigDevices i EnvVarNvidiaMigMonitorDevices) "")) eqn:Hc2; [done|].
  destruct (getDriverCapabilities c i (IsLegacy i)) as [caps|]; [|done]. cbn [rbind].
  destruct (GetRequirements i) as [reqs|]; [|done]. cbn [wrap rbind]. intros [= <-]. simpl. split.
  - intros ->. simpl in Hc1, Hc2. apply negb_false_iff, String.eqb_eq in Hc1, Hc2. done.
  - by exists caps.
Qed.
Lemma getNvidiaConfig_none c i privileged : getNvidiaConfig c i privileged = Ok None -> VisibleDevices_of i = Some [].
Proof.
  unfold getNvidiaConfig. destruct (VisibleDevices_of i) as [[|d ds]|]; [done| |done].
  repeat (case_match; [done|]). destruct (getDriverCapabilities _ _ _); [|done]. cbn [rbind].
  by destruct (GetRequirements i).
Qed.
Lemma granted_supported c i caps : valid_supported c -> getDriverCapabilities c i (IsLegacy i) = Ok caps ->
  caps ⊆ supported_of c /\ caps ⊆ Caps.SupportedDriverCapabilities
  /\ (explicit_caps i = true -> forall e, requested_caps i = Some e -> caps = e).
Proof.
  intros Hv Hc. rewrite (getDriverCapabilities_spec c i Hv) in Hc.
  assert (caps ⊆ supported_of c /\ (explicit_caps i = true -> forall e, requested_caps i = Some e -> caps = e)) as [Hs He].
  { destruct (requested_caps i) as [e|]; [|by injection Hc as <-].
    destruct (explicit_caps i); [destruct (decide _); [|done]|]; injection Hc as <-; split; try done.
    - by intros _ e' [= ->].
    - set_solver. }
  split; [done|]. split; [|done]. by etrans.
Qed.

(** The arguments of nvidia-container-cli for a container. *)
Definition command_line (debugflag : bool) (c : Config) (container : containerConfig) (nvidia : nvidiaConfig)
  (caps : gset string) (rootfs cli : string) : list string :=
  cli :: global_args debugflag c
  ++ "configure" :: (nvidiaContainerCliCUDACompatModeFlags c ++ option_if "ldconfig" (normalize (Ldconfig (CLIConfig c)))
      ++ flag_if (NoCgroups (CLIConfig c)) "--no-cgroups" ++ option_if "device" (join "," (nv_Devices nvidia))
      ++ option_if "mig-config" (nv_MigConfigDevices nvidia) ++ option_if "mig-monitor" (nv_MigMonitorDevices nvidia)
      ++ option_if "imex-channel" (join "," (nv_ImexChannels nvidia)) ++ map (fun x => "--" +:+ x) (Caps.List caps)
      ++ map (fun req => "--require=" +:+ req) (nv_Requirements nvidia))
  ++ ["--pid=" +:+ fmt_Z (cc_Pid container mod 2 ^ 64); rootfs].

Lemma container_privileged c container : container_config c = Ok container ->
  exists privileged, Image.isPrivileged (cc_Image container) = privileged
  /\ getNvidiaConfig c (cc_Image container) privileged = Ok (cc_Nvidia container).
Proof.
  unfold getContainerConfig. destruct state as [h|]; [|done]. cbn [wrap rbind].
  destruct (loadSpec _ _) as [s|]; [|done]. cbn [rbind].
  destruct (HSpec_Process s) as [p|]; [|done]. destruct (HSpec_Root s) as [root|]; [|done].
  destruct (HookSpec_isPrivileged _ _ s) as [privileged|]; [|done]. cbn [rbind].
  destruct (Image.New _) as [i|] eqn:Hi; [|done]. cbn [rbind].
  destruct (getNvidiaConfig c i privileged) as [nvidia|] eqn:Hn; [|done]. intros [= <-]. simpl.
  exists privileged. split; [|done]. revert Hi. unfold Image.New, hook_image_options. cbn [Image.apply_options].
  unfold initial_builder. simpl. destruct (env_entries _); [|done]. simpl. by intros [= <-].
Qed.

(** C24. A run of the hook ends in one of three ways. It exits with 0 exactly for a
    container that requests no device. It is replaced by nvidia-container-cli
    with the devices, channels and requirements of the container, a flag for
    each capability that the container asks for, which are all known and
    supported, and MIG administration only for privileged containers, when the
    mode is the legacy one. Otherwise it exits with 1; capabilities without a
    flag are never the reason. *)
Theorem doPrestart_spec debugflag f :
  match run debugflag f with
  | Exits 0 => exists c container, hook_config f = Ok c /\ container_config c = Ok container
      /\ VisibleDevices_of (cc_Image container) = Some []
  | Execs path argv env => exists c container nvidia caps rootfs,
      hook_config f = Ok c /\ container_config c = Ok container /\ assertModeIsLegacy c (cc_Image container) = Ok tt
      /\ nvidia_of c (cc_Image container) nvidia caps /\ caps ⊆ Caps.SupportedDriverCapabilities
      /\ (explicit_caps (cc_Image container) = true -> forall e, requested_caps (cc_Image container) = Some e -> caps = e)
      /\ (Image.isPrivileged (cc_Image container) = false ->
          nv_MigConfigDevices nvidia = "" /\ nv_MigMonitorDevices nvidia = "")
      /\ filepath_Abs (cc_Rootfs container) = Some rootfs
      /\ argv = command_line debugflag c container nvidia caps rootfs path
      /\ (exists e, getCLIPath environ (CLIConfig c) = Ok (path, e) /\ env = e ++ Environment (CLIConfig c))
  | Exits code => code = 1%Z /\ forall c container, hook_config f = Ok c -> container_config c = Ok container ->
      VisibleDevices_of (cc_Image container) <> Some []
      /\ (assertModeIsLegacy c (cc_Image container) = Ok tt -> is_Some (filepath_Abs (cc_Rootfs container)) ->
          forall path e, getCLIPath environ (CLIConfig c) = Ok (path, e) -> is_Some (execve_error path))
  end.
Proof.
  unfold doPrestart, prestart. destruct (hook_config f) as [c|] eqn:Hc; [|by split].
  cbn [wrap rbind]. destruct (container_config c) as [container|] eqn:Hcont.
  2: { cbn [rbind]. split; [done|]. intros c' container [= <-]. by rewrite Hcont. }
  cbn [rbind]. destruct (container_privileged c container Hcont) as (privileged & Hp & Hn).
  destruct (cc_Nvidia container) as [nvidia|] eqn:Hnv.
  2: { exists c, container. split; [done|]. split; [done|]. by apply getNvidiaConfig_none in Hn. }
  apply getNvidiaConfig_some in Hn as (Hmig & caps & Hof).
  pose proof (granted_supported c _ caps (hook_config_valid f c Hc) (proj2 (proj2 (proj2 (proj2 (proj2 Hof)))))) as (_ & Hsup & He).
  assert (Hvis : VisibleDevices_of (cc_Image container) <> Some []).
  { destruct Hof as (-> & Hne & _). by intros [= ?]. }
  destruct (assertModeIsLegacy c _) as [[]|] eqn:Hmode.
  2: { cbn [rbind]. split; [done|]. intros c' ct' [= <-]. rewrite Hcont. intros [= <-]. by rewrite Hmode. }
  cbn [rbind]. destruct (filepath_Abs _) as [rootfs|] eqn:Habs.
  2: { cbn [rbind]. split; [done|]. intros c' ct' [= <-]. rewrite Hcont. intros [= <-]. split; [done|]. rewrite Habs. by intros _ [? ?]. }
  cbn [rbind]. destruct (getCLIPath _ _) as [[cli env]|] eqn:Hcli.
  2: { cbn [rbind]. split; [done|]. intros c' ct' [= <-]. rewrite Hcont. intros [= <-]. split; [done|]. by rewrite Hcli. }
  cbn [rbind fst snd]. unfold configure_args.
  destruct (id Hof) as (_ & _ & _ & _ & Hcaps & _). rewrite Hcaps, (capability_args_supported caps Hsup). cbn [rbind].
  destruct (execve_error cli) as [e|] eqn:Hx.
  - split; [done|]. intros c' ct' [= <-]. rewrite Hcont. intros [= <-]. split; [done|]. rewrite Hcli. intros _ _ path e' [= <- _]. by rewrite Hx.
  - exists c, container, nvidia, caps, rootfs. repeat (split; [done|]). split; [by rewrite <- Hp in Hmig|].
    split; [done|]. split; [done|]. by exists env.
Qed.
End Prestart.
