(* ===== verification/Syscalls.v ===== *)
(** * Sequences of system calls

    The mounts that the hooks make are seen as the sequence of their system
    calls: a computation runs against a kernel that answers each call, which
    may depend on the calls before it, and returns its result with the calls
    that were made, the first one first. *)
From S2P Require Import Prelude GoStrings FileSystem OsFiles.

(** A place that a call names: a path, or the descriptor that
    [utils.WithProcfd] opens for a path in a root. *)
Inductive place : Type := At (path : string) | ProcFd (root path : string).
#[global] Instance place_eq_dec : EqDecision place.
Proof. solve_decision. Defined.

Inductive call : Type :=
| OpenRoot (path : string)
| CloseRoot (path : string)
| RootMkdirAll (root name : string) (mode : Z)
| RootCreate (root name : string)     (* returns a descriptor *)
| OpenProcFd (root path : string)
| CloseProcFd (root path : string)
| OpenFile (target : place)
| CloseFile (target : place)
| Write (target : place) (contents : string)
| OpenDir (path : string)
| CloseDir (path : string)
| Fchdir (path : string)
| Chdir (path : string)
| PivotRoot (new_root put_old : string)
| Chroot (path : string)
| Mount (source : string) (target : place) (fstype : string) (flags : Z) (data : string)
| MountPlace (source target : place) (fstype : string) (flags : Z) (data : string)
| Unmount (target : string) (flags : Z)
| Exec (path : string) (args : list string).
#[global] Instance call_eq_dec : EqDecision call.
Proof. solve_decision. Defined.

Definition MS_RDONLY : Z := 1.
Definition MS_NODEV : Z := 4.
Definition MS_NOSYMFOLLOW : Z := 256.
Definition MS_BIND : Z := 4096.
Definition MS_MOVE : Z := 8192.
Definition MS_REC : Z := 16384.
Definition MS_PRIVATE : Z := 262144.
Definition MS_SLAVE : Z := 524288.
Definition MNT_DETACH : Z := 2.
Definition flags_or (l : list Z) : Z := foldl Z.lor 0%Z l.

(** The error that a call returns, given the calls before it. *)
Class Kernel := answer : list call -> call -> option errno.

Definition Sys (A : Type) : Type := list call -> A * list call.
Definition sys_ret {A} (a : A) : Sys A := fun t => (a, t).
Definition sys_bind {A B} (m : Sys A) (k : A -> Sys B) : Sys B := fun t => let '(a, t) := m t in k a t.
Definition sys `{Kernel} (c : call) : Sys (option errno) := fun t => (answer t c, t ++ [c]).

Declare Scope sys_scope.
Notation "'sys!' x ':=' m 'in' k" := (sys_bind m (fun x => k))
  (at level 200, x pattern, m at level 100, k at level 200) : sys_scope.
#[global] Open Scope sys_scope.

(** [if err := call; err != nil { return text }] *)
Definition try `{Kernel} {A} (c : call) (text : errno -> string) (k : Sys (result A)) : Sys (result A) :=
  sys! r := sys c in match r with Some e => sys_ret (Err (text e)) | None => k end.
(** [defer] of a call whose error is dropped *)
Definition deferring `{Kernel} {A} (c : call) (m : Sys (result A)) : Sys (result A) :=
  sys! r := m in sys! _ := sys c in sys_ret r.
Definition sys_wrap {A} (msg : string) (m : Sys (result A)) : Sys (result A) :=
  sys! r := m in sys_ret (wrap msg r).
Definition sys_then {A B} (m : Sys (result A)) (k : A -> Sys (result B)) : Sys (result B) :=
  sys! r := m in match r with Ok a => k a | Err e => sys_ret (Err e) end.

(** [utils.WithProcfd] *)
Definition WithProcfd `{Kernel} (root unsafePath : string) (f : place -> Sys (result unit)) : Sys (result unit) :=
  try (OpenProcFd root unsafePath) (fun e => "open o_path procfd: " +:+ errno_text e)
    (deferring (CloseProcFd root unsafePath) (f (ProcFd root unsafePath))).

(** ** Disciplined sequences of system calls

    A monitor for the descriptors and mounts of the computations of
    Syscalls.v, and the rules by which a computation is seen to respect it. *)
Section Discipline.
Context `{Kernel}.

(** ** A monitor of the calls

    Descriptors are closed in the reverse order in which they were opened, and
    a mount is only detached right after it was made a slave, so that the
    host does not see that. The descriptors of the files that [RootCreate]
    makes are not closed by any call, so they are counted apart. The state is
    the stack of open descriptors, the created files that are left open, the
    last one first, and the place that was just made a slave. *)
Inductive handle := HRoot (p : string) | HProcFd (r p : string) | HDir (p : string) | HFile (p : place).
#[export] Instance handle_eq_dec : EqDecision handle.
Proof using Type. solve_decision. Defined.
Record monitor := mkMonitor { opened : list handle; left_open : list (string * string); slave_of : option string }.

Definition close_handle (h : handle) (st : list handle) (l : list (string * string)) : option monitor :=
  match st with
  | h' :: st => if decide (h = h') then Some (mkMonitor st l None) else None
  | [] => None
  end.
Definition monitor_step (ok : bool) (c : call) (m : monitor) : option monitor :=
  let '(mkMonitor st l slave) := m in
  match c with
  | OpenRoot p => Some (mkMonitor (if ok then HRoot p :: st else st) l None)
  | OpenProcFd r p => Some (mkMonitor (if ok then HProcFd r p :: st else st) l None)
  | OpenDir p => Some (mkMonitor (if ok then HDir p :: st else st) l None)
  | OpenFile p => Some (mkMonitor (if ok then HFile p :: st else st) l None)
  | RootCreate r n => Some (mkMonitor st (if ok then (r, n) :: l else l) None)
  | CloseRoot p => close_handle (HRoot p) st l
  | CloseProcFd r p => close_handle (HProcFd r p) st l
  | CloseDir p => close_handle (HDir p) st l
  | CloseFile p => close_handle (HFile p) st l
  | Mount "" (At p) "" flags "" =>
      Some (mkMonitor st l (if ok && Z.eqb flags (flags_or [MS_SLAVE; MS_REC]) then Some p else None))
  | Unmount p _ => if decide (slave = Some p) then Some (mkMonitor st l None) else None
  | _ => Some (mkMonitor st l None)
  end.
(** The calls [s] after the calls [t] *)
Fixpoint monitored (t s : list call) (m : monitor) : option monitor :=
  match s with
  | [] => Some m
  | c :: s =>
      match monitor_step (match answer t c with None => true | Some _ => false end) c m with
      | None => None
      | Some m => monitored (t ++ [c]) s m
      end
  end.

Lemma monitored_app t s1 s2 m : monitored t (s1 ++ s2) m =
  match monitored t s1 m with None => None | Some m => monitored (t ++ s1) s2 m end.
Proof using Type.
  revert t m. induction s1 as [|c s1 IH]; intros t m; cbn [app monitored]; [by rewrite app_nil_r|].
  destruct (monitor_step _ c m); [|done]. rewrite IH. by rewrite <- app_assoc.
Qed.

(** A computation leaves the files [l] open if the monitor accepts its calls,
    and after them the descriptors are those of before and of these files; it
    is disciplined if it leaves none. *)
Definition leaves {A} (Q : A -> list (string * string) -> Prop) (m : Sys A) : Prop :=
  forall t st l slave, exists s l' slave', snd (m t) = t ++ s /\
    monitored t s (mkMonitor st l slave) = Some (mkMonitor st (l' ++ l) slave') /\ Q (fst (m t)) l'.
Definition nothing {A} (_ : A) (l : list (string * string)) : Prop := l = [].
Definition disciplined {A} (m : Sys A) : Prop := leaves nothing m.

Lemma leaves_start {A} Q (m : Sys A) t : leaves Q m ->
  exists s l slave, snd (m t) = t ++ s /\ monitored t s (mkMonitor [] [] None) = Some (mkMonitor [] l slave) /\ Q (fst (m t)) l.
Proof using Type.
  intros Hm. destruct (Hm t [] [] None) as (s & l & slave & ? & Hs & ?). rewrite app_nil_r in Hs. by exists s, l, slave.
Qed.
Lemma leaves_ext {A} Q (m m' : Sys A) : leaves Q m -> (forall t, m t = m' t) -> leaves Q m'.
Proof using Type. intros Hm He t st l slave. rewrite <- He. apply Hm. Qed.
Lemma leaves_weaken {A} (Q R : A -> list (string * string) -> Prop) m : (forall a l, Q a l -> R a l) -> leaves Q m -> leaves R m.
Proof using Type. intros HQ Hm t st l slave. destruct (Hm t st l slave) as (s & l' & slave' & ? & ? & ?). exists s, l', slave'. auto. Qed.
Lemma leaves_ret {A} (Q : A -> list (string * string) -> Prop) (a : A) : Q a [] -> leaves Q (sys_ret a).
Proof using Type. intros Ha t st l slave. exists [], [], slave. by rewrite app_nil_r. Qed.
Lemma leaves_bind {A B} (P : A -> list (string * string) -> Prop) (Q : B -> list (string * string) -> Prop) (m : Sys A) (k : A -> Sys B) :
  leaves P m -> (forall a l, P a l -> leaves (fun b l' => Q b (l' ++ l)) (k a)) -> leaves Q (sys_bind m k).
Proof using Type.
  intros Hm Hk t st l slave. destruct (Hm t st l slave) as (s1 & l1 & slave1 & H1 & H2 & H3). unfold sys_bind.
  destruct (m t) as [a t1]. cbn [fst snd] in *. subst t1.
  destruct (Hk a l1 H3 (t ++ s1) st (l1 ++ l) slave1) as (s2 & l2 & slave2 & H4 & H5 & H6).
  exists (s1 ++ s2), (l2 ++ l1), slave2. split_and!;
    [by rewrite H4, app_assoc|by rewrite monitored_app, H2, H5, app_assoc|done].
Qed.
Lemma disciplined_ret {A} (a : A) : disciplined (sys_ret a).
Proof using Type. by apply leaves_ret. Qed.
Lemma disciplined_ext {A} (m m' : Sys A) : disciplined m -> (forall t, m t = m' t) -> disciplined m'.
Proof using Type. apply leaves_ext. Qed.
Lemma leaves_after {A B} (Q : B -> list (string * string) -> Prop) (m : Sys A) (k : A -> Sys B) :
  disciplined m -> (forall a, leaves Q (k a)) -> leaves Q (sys_bind m k).
Proof using Type.
  intros Hm Hk. apply (leaves_bind nothing); [done|]. intros a l ->. eapply leaves_weaken, Hk. intros b l'. by rewrite app_nil_r.
Qed.
Lemma leaves_before {A B} (P : A -> list (string * string) -> Prop) (Q : B -> list (string * string) -> Prop) (m : Sys A) (k : A -> Sys B) :
  leaves P m -> (forall a, disciplined (k a)) -> (forall a b l, P a l -> Q b l) -> leaves Q (sys_bind m k).
Proof using Type.
  intros Hm Hk HQ. apply (leaves_bind P); [done|]. intros a l Ha. eapply leaves_weaken, Hk. intros b l' ->. by eapply HQ.
Qed.
Lemma disciplined_bind {A B} (m : Sys A) (k : A -> Sys B) :
  disciplined m -> (forall a, disciplined (k a)) -> disciplined (sys_bind m k).
Proof using Type. apply leaves_after. Qed.

(** A call that neither opens, closes nor detaches anything *)
Definition plain_call (c : call) : bool :=
  match c with
  | OpenRoot _ | OpenProcFd _ _ | OpenDir _ | OpenFile _ | RootCreate _ _
  | CloseRoot _ | CloseProcFd _ _ | CloseDir _ | CloseFile _ | Unmount _ _ => false
  | _ => true
  end.
Lemma plain_step ok c st l slave : plain_call c = true ->
  exists slave', monitor_step ok c (mkMonitor st l slave) = Some (mkMonitor st l slave').
Proof using Type.
  destruct c; try done; intros _; cbn; repeat case_match; by eexists.
Qed.
Lemma disciplined_call c : plain_call c = true -> disciplined (sys c).
Proof using Type.
  intros Hc t st l slave. destruct (plain_step (match answer t c with None => true | Some _ => false end) c st l slave Hc) as [slave' Hs].
  exists [c], [], slave'. split; [done|]. cbn [monitored]. by rewrite Hs.
Qed.

(** *** The combinators, for computations that may leave one file open

    Once there is the file it stays open, and there is one unless the
    computation fails. *)
Definition leaks {A} (f : string * string) : Sys (result A) -> Prop :=
  leaves (fun r l => l = [f] \/ l = [] /\ exists e, r = Err e).
Lemma leaks_start {A} f (m : Sys (result A)) t : leaks f m ->
  exists s l slave, snd (m t) = t ++ s /\ monitored t s (mkMonitor [] [] None) = Some (mkMonitor [] l slave) /\
    (l = [f] \/ l = [] /\ exists e, fst (m t) = Err e).
Proof using Type. intros Hm. exact (leaves_start _ m t Hm). Qed.
Lemma leaks_error {A} f e : leaks f (sys_ret (Err e : result A)).
Proof using Type. apply leaves_ret. right. split; [done|by exists e]. Qed.

Lemma leaves_try {A} Q c text (k : Sys (result A)) : plain_call c = true -> (forall e, Q (Err (text e)) []) -> leaves Q k -> leaves Q (try c text k).
Proof using Type.
  intros Hc He Hk. apply leaves_after; [by apply disciplined_call|]. intros [e|]; [by apply leaves_ret|done].
Qed.
Lemma disciplined_try {A} c text (k : Sys (result A)) : plain_call c = true -> disciplined k -> disciplined (try c text k).
Proof using Type. intros Hc Hk. by apply leaves_try. Qed.
Lemma leaks_try {A} f c text (k : Sys (result A)) : plain_call c = true -> leaks f k -> leaks f (try c text k).
Proof using Type. intros Hc Hk. apply leaves_try; [done| |done]. intros e. right. split; [done|by eexists]. Qed.
Lemma disciplined_then {A B} (m : Sys (result A)) (k : A -> Sys (result B)) :
  disciplined m -> (forall a, disciplined (k a)) -> disciplined (sys_then m k).
Proof using Type. intros Hm Hk. apply disciplined_bind; [done|]. intros [a|e]; [apply Hk|apply disciplined_ret]. Qed.
Lemma leaks_then {A B} f (m : Sys (result A)) (k : A -> Sys (result B)) :
  disciplined m -> (forall a, leaks f (k a)) -> leaks f (sys_then m k).
Proof using Type. intros Hm Hk. apply leaves_after; [done|]. intros [a|e]; [apply Hk|apply leaks_error]. Qed.
Lemma then_leaks {A B} f (m : Sys (result A)) (k : A -> Sys (result B)) :
  leaks f m -> (forall a, disciplined (k a)) -> leaks f (sys_then m k).
Proof using Type.
  intros Hm Hk. eapply leaves_bind; [exact Hm|]. intros [a|e] l Hl; cbn beta in Hl.
  - destruct Hl as [->|[_ [? ?]]]; [|done]. eapply leaves_weaken, Hk. intros b l' ->. by left.
  - apply leaves_ret. destruct Hl as [->|[-> _]]; [by left|right; split; [done|by exists e]].
Qed.
Lemma disciplined_wrap {A} msg (m : Sys (result A)) : disciplined m -> disciplined (sys_wrap msg m).
Proof using Type. intros Hm. apply disciplined_bind; [done|]. intros r. apply disciplined_ret. Qed.
Lemma leaks_wrap {A} f msg (m : Sys (result A)) : leaks f m -> leaks f (sys_wrap msg m).
Proof using Type.
  intros Hm. eapply leaves_bind; [exact Hm|]. intros r l Hl. apply leaves_ret. cbn in *.
  destruct Hl as [->|[-> [e ->]]]; [by left|right; split; [done|by eexists]].
Qed.
(** Creating the file *)
Lemma leaks_create {A} r n text (k : Sys (result A)) : disciplined k -> leaks (r, n) (try (RootCreate r n) text k).
Proof using Type.
  intros Hk. unfold leaks, try. eapply (leaves_bind (fun a l => l = if a is None then [(r, n)] else [])).
  - intros t st l slave. exists [RootCreate r n], (if answer t (RootCreate r n) is None then [(r, n)] else []), None.
    cbn [sys fst snd]. split; [done|]. cbn. by destruct (answer t _).
  - intros [e|] l ->; [apply leaves_ret; right; split; [done|by eexists]|]. eapply leaves_weaken, Hk. intros b l' ->. by left.
Qed.

(** Opening with a deferred close *)
Definition opens (c close : call) (h : handle) : Prop :=
  (forall ok st l slave, monitor_step ok c (mkMonitor st l slave) = Some (mkMonitor (if ok then h :: st else st) l None))
  /\ forall ok st l slave, monitor_step ok close (mkMonitor (h :: st) l slave) = Some (mkMonitor st l None).
Lemma leaves_open {A} Q c close h text (k : Sys (result A)) : (forall e, Q (Err (text e)) []) ->
  opens c close h -> leaves Q k -> leaves Q (try c text (deferring close k)).
Proof using Type.
  intros He [Ho Hc] Hk t st l slave. unfold try, deferring, sys_bind, sys. destruct (answer t c) as [e|] eqn:Ha.
  - exists [c], [], None. split_and!; [done|cbn [monitored]; by rewrite Ha, Ho|apply He].
  - destruct (Hk (t ++ [c]) (h :: st) l None) as (s & l' & slave' & H1 & H2 & H3). destruct (k (t ++ [c])) as [r t1]. cbn [fst snd] in *. subst t1.
    exists (c :: s ++ [close]), l', None. split_and!;
      [cbn; by rewrite <- !app_assoc|cbn [monitored]; rewrite Ha, Ho, monitored_app, H2; cbn [monitored]; by rewrite Hc|done].
Qed.
Lemma disciplined_open {A} c close h text (k : Sys (result A)) :
  opens c close h -> disciplined k -> disciplined (try c text (deferring close k)).
Proof using Type. by apply leaves_open. Qed.
Lemma leaks_open {A} f c close h text (k : Sys (result A)) :
  opens c close h -> leaks f k -> leaks f (try c text (deferring close k)).
Proof using Type. apply leaves_open. intros e. right. split; [done|by eexists]. Qed.
Ltac open_close := split; intros; cbn; [done|]; by rewrite decide_True.
Lemma opens_root p : opens (OpenRoot p) (CloseRoot p) (HRoot p).
Proof using Type. open_close. Qed.
Lemma opens_dir p : opens (OpenDir p) (CloseDir p) (HDir p).
Proof using Type. open_close. Qed.
Lemma opens_procfd r p : opens (OpenProcFd r p) (CloseProcFd r p) (HProcFd r p).
Proof using Type. open_close. Qed.
Lemma opens_file p : opens (OpenFile p) (CloseFile p) (HFile p).
Proof using Type. open_close. Qed.

(** Detaching after making a slave *)
Lemma slave_step ok p st l slave :
  monitor_step ok (Mount "" (At p) "" (flags_or [MS_SLAVE; MS_REC]) "") (mkMonitor st l slave) = Some (mkMonitor st l (if ok then Some p else None)).
Proof using Type. by destruct ok. Qed.
Lemma unmount_step ok p fl st l : monitor_step ok (Unmount p fl) (mkMonitor st l (Some p)) = Some (mkMonitor st l None).
Proof using Type. cbn. by rewrite decide_True. Qed.
Lemma disciplined_detach {A} p (failed : errno -> Sys (result A)) (k : option errno -> Sys (result A)) :
  (forall e, disciplined (failed e)) -> (forall r, disciplined (k r)) ->
  disciplined (sys! slave := sys (Mount "" (At p) "" (flags_or [MS_SLAVE; MS_REC]) "") in
    match slave with Some e => failed e | None => sys! r := sys (Unmount p MNT_DETACH) in k r end).
Proof using Type.
  intros Hf Hk t st l slave. unfold sys_bind, sys at 1 3. set (c := Mount _ _ _ _ _).
  destruct (answer t c) as [e|] eqn:Ha.
  - destruct (Hf e (t ++ [c]) st l None) as (s & l' & slave' & H1 & H2 & H3). exists (c :: s), l', slave'. rewrite H1, <- app_assoc.
    split; [done|]. split; [|done]. cbn [monitored]. unfold c at 2. by rewrite slave_step, Ha.
  - unfold sys. set (t1 := t ++ [c]).
    destruct (Hk (answer t1 (Unmount p MNT_DETACH)) (t1 ++ [Unmount p MNT_DETACH]) st l None) as (s & l' & slave' & H1 & H2 & H3).
    exists (c :: Unmount p MNT_DETACH :: s), l', slave'. rewrite H1. split; [unfold t1; by rewrite <- !app_assoc|]. split; [|done].
    cbn [monitored]. unfold c at 2. rewrite slave_step, Ha, unmount_step. done.
Qed.
Lemma disciplined_detach_try {A} p text text' (k : Sys (result A)) :
  disciplined k ->
  disciplined (try (Mount "" (At p) "" (flags_or [MS_SLAVE; MS_REC]) "") text (try (Unmount p MNT_DETACH) text' k)).
Proof using Type.
  intros Hk. apply disciplined_detach; [intros e; apply disciplined_ret|]. intros [e|]; [apply disciplined_ret|done].
Qed.
End Discipline.
#[global] Opaque disciplined leaks.

Ltac discipline :=
  repeat first
    [ apply disciplined_ret
    | apply disciplined_detach_try
    | eapply disciplined_open; [first [apply opens_dir | apply opens_root | apply opens_procfd | apply opens_file]|]
    | apply disciplined_wrap
    | apply disciplined_then; [|intros ?]
    | apply disciplined_try; [done|] ].
(** Up to where the file is created *)
Ltac leaking :=
  repeat first
    [ apply leaks_error
    | apply leaks_create; discipline
    | eapply leaks_open; [first [apply opens_dir | apply opens_root | apply opens_procfd | apply opens_file]|]
    | apply leaks_wrap
    | apply leaks_then; [solve [discipline]|intros ?]
    | apply leaks_try; [done|] ].
