(* ===== verification/CDIHooks.v ===== *)
(** * Container hooks (src/cmd/nvidia-cdi-hook, src/internal/oci/state.go)

    The hooks that the generated CDI specifications run in a container:
    create-symlinks, chmod, enable-cuda-compat and
    disable-device-node-modification, on the file systems of FileSystem.v. The
    hooks run in the namespaces of the container engine, so a path of the
    container is below the container root of the same file system.

    JSON decoding and reading ELF files are parameters; logging and the
    command line are left out. *)
From S2P Require Import Prelude GoStrings GoPaths Semver ProcInfo FileSystem OsFiles Syscalls OCI.
#[local] Open Scope go_scope.

(** ** The state of the container (state.go) *)

Record State := mkState { State_Bundle : string }.
Section OCIState.
Context (decode_state : string -> result State) (stdin : string)
  (decode_root : string -> result (option string)).

Definition ReadContainerState (contents : string) : result State :=
  match decode_state contents with
  | Ok s => Ok s
  | Err e => Err ("failed to decode container state: " +:+ e)
  end.
Definition LoadContainerState (f : fs) (filename : string) : result State :=
  if String.eqb filename "" || String.eqb filename "-" then ReadContainerState stdin
  else
    match sys_Open f filename with
    | inl e => Err ("failed to open file: " +:+ path_error "open" filename e)
    | inr n => ReadContainerState (node_content n)
    end.
(** [minimalSpec] is the path of the root, if there is one. *)
Definition loadMinimalSpec (f : fs) (s : State) : result (option string) :=
  let specFilePath := GetSpecFilePath (State_Bundle s) in
  match sys_Open f specFilePath with
  | inl e => Err ("failed to open OCI spec file: " +:+ path_error "open" specFilePath e)
  | inr n => wrap "failed to load minimal OCI spec" (decode_root (node_content n))
  end.
Definition GetContainerRoot (f : fs) (s : State) : result string :=
  let? spec := loadMinimalSpec f s in
  let containerRoot := default "" spec in
  if is_abs containerRoot then Ok containerRoot else Ok (path_join [State_Bundle s; containerRoot]).
(** How the hooks start. *)
Definition container_root (f : fs) (containerSpec : string) : result string :=
  let? s := wrap "failed to load container state" (LoadContainerState f containerSpec) in
  wrap "failed to determined container root" (GetContainerRoot f s).
End OCIState.

(** ** create-symlinks *)

(** [symlinks.Resolve] *)
Definition symlinks_Resolve (f : fs) (filename : string) : errno + string :=
  match sys_Lstat f filename with
  | inl e => inl e
  | inr n => if is_link_node n then sys_Readlink f filename else inr filename
  end.
Definition linkExists (f : fs) (target link : string) : result bool :=
  match symlinks_Resolve f link with
  | inl ENOENT => Ok false
  | inl e => Err ("failed to resolve existing symlink " +:+ link +:+ ": failed to get file info: "
                  +:+ path_error "lstat" link e)
  | inr currentTarget => Ok (String.eqb currentTarget target)
  end.
(** [symlinks.ForceCreate]; an error may come after the removal. *)
Definition ForceCreate (target link : string) (f : fs) : result unit * fs :=
  let symlink f := match sys_Symlink target link f with
                   | inl e => (Err ("symlink " +:+ target +:+ " " +:+ link +:+ ": " +:+ errno_text e), f)
                   | inr f => (Ok tt, f)
                   end in
  match sys_Lstat f link with
  | inl ENOENT => symlink f
  | inl e => (Err ("failed to get file info: " +:+ path_error "lstat" link e), f)
  | inr _ =>
      match sys_Remove link f with
      | inl e => (Err ("failed to remove existing file: " +:+ path_error "remove" link e), f)
      | inr f => symlink f
      end
  end.
Definition createLink (containerRoot targetPath link : string) (f : fs) : result unit * fs :=
  let linkPath := path_join [containerRoot; link] in
  match wrap "failed to check if link exists" (linkExists f targetPath linkPath) with
  | Err e => (Err e, f)
  | Ok true => (Ok tt, f)
  | Ok false =>
      match FollowSymlinkInScope f (path_dir linkPath) containerRoot with
      | Err e => (Err ("failed to follow path for link " +:+ link +:+ " relative to " +:+ containerRoot +:+ ": " +:+ e), f)
      | Ok resolvedLinkParent =>
          let resolvedLinkPath := path_join [resolvedLinkParent; path_base linkPath] in
          match sys_MkdirAll 493 (path_dir resolvedLinkPath) f with
          | (inl e, f) => (Err ("failed to create directory: " +:+ path_error "mkdir" (path_dir resolvedLinkPath) e), f)
          | (inr _, f) =>
              let '(r, f) := ForceCreate targetPath resolvedLinkPath f in
              (wrap "failed to create symlink" r, f)
          end
      end
  end.
Fixpoint create_links (containerRoot : string) (created : gset string) (links : list string) (f : fs) : result unit * fs :=
  match links with
  | [] => (Ok tt, f)
  | l :: links =>
      if decide (l ∈ created) then create_links containerRoot created links f
      else
        match split "::" l with
        | [target; link] =>
            match createLink containerRoot target link f with
            | (Err e, f) => (Err ("failed to create link [" +:+ target +:+ " " +:+ link +:+ "]: " +:+ e), f)
            | (Ok _, f) => create_links containerRoot ({[l]} ∪ created) links f
            end
        | _ => (Err ("invalid symlink specification " +:+ l), f)
        end
  end.
Definition create_symlinks_run (root : fs -> result string) (links : list string) (f : fs) : result unit * fs :=
  match root f with
  | Err e => (Err e, f)
  | Ok containerRoot => create_links containerRoot ∅ links f
  end.

(** ** chmod *)

(** The bits of [fs.FileMode]: the permissions and the bits of Go for setuid,
    setgid and sticky. [stat_mode] and [syscallMode] convert from and to the
    mode of the kernel. *)
Definition ModePerm : Z := 511.
Definition ModeSetuid : Z := 8388608.
Definition ModeSetgid : Z := 4194304.
Definition ModeSticky : Z := 1048576.
Definition if_bits (m bits result : Z) : Z := if Z.eqb (Z.land m bits) 0 then 0 else result.
Definition node_mode (n : node) : Z := match n with DirNode m | FileNode _ m | DeviceNode _ _ m => m | LinkNode _ => 511 end.
Definition stat_mode (n : node) : Z :=
  let m := node_mode n in
  Z.lor (Z.land m 511) (Z.lor (if_bits m 2048 ModeSetuid) (Z.lor (if_bits m 1024 ModeSetgid) (if_bits m 512 ModeSticky))).
Definition syscallMode (i : Z) : Z :=
  Z.lor (Z.land i 511) (Z.lor (if_bits i ModeSetuid 2048) (Z.lor (if_bits i ModeSetgid 1024) (if_bits i ModeSticky 512))).

Definition is_octal (c : ascii) : bool := in_range "0" "7" c.
Fixpoint octal_val (acc : Z) (s : string) : Z :=
  match s with "" => acc | String c s => octal_val (acc * 8 + digit_val c)%Z s end.
(** [strconv.ParseUint(s, 8, 32)] *)
Definition parse_octal (s : string) : result Z :=
  if String.eqb s "" || negb (string_all is_octal s)
  then Err ("strconv.ParseUint: parsing " +:+ quote s +:+ ": invalid syntax")
  else let v := octal_val 0 s in
       if (v <? 2 ^ 32)%Z then Ok v else Err ("strconv.ParseUint: parsing " +:+ quote s +:+ ": value out of range").
(** [validateFlags]; the result is the mode. *)
Definition chmod_validateFlags (modeStr : string) (paths : list string) : result Z :=
  if String.eqb (trim_space modeStr) "" then Err "a non-empty mode must be specified"
  else
    let? mode := wrap "failed to parse mode as octal" (parse_octal modeStr) in
    if existsb (fun p => String.eqb (trim_space p) "") paths then Err "paths must not be empty" else Ok mode.

Section Chmod.
(** [refused path] is the error of a change that the kernel refuses for
    another reason than the path itself. *)
Context (refused : string -> option errno).

Definition getPaths (f : fs) (root : string) (paths : list string) (desiredMode : Z) : list string :=
  omap (fun p =>
    let path := path_join [root; p] in
    match sys_Stat f path with
    | inl _ => None
    | inr n =>
        let mask := Z.lor ModePerm (Z.lor ModeSetuid (Z.lor ModeSetgid ModeSticky)) in
        if Z.eqb (Z.lxor (Z.land (stat_mode n) mask) desiredMode) 0 then None else Some path
    end) paths.
Definition os_Chmod (mode : Z) (path : string) (f : fs) : errno + fs :=
  match refused path with
  | Some e => inl e
  | None => sys_Chmod (syscallMode mode) path f
  end.
(** The loop of [run] with its variable [err]. *)
Fixpoint chmod_loop (mode : Z) (paths : list string) (err : result unit) (f : fs) : result unit * fs :=
  match paths with
  | [] => (err, f)
  | path :: paths =>
      match os_Chmod mode path f with
      | inr f => chmod_loop mode paths (Ok tt) f
      | inl EPERM | inl EACCES => chmod_loop mode paths (Ok tt) f
      | inl e => chmod_loop mode paths (Err (path_error "chmod" path e)) f
      end
  end.
Definition chmod_run (root : fs -> result string) (mode : Z) (cfg_paths : list string) (f : fs) : result unit * fs :=
  match root f with
  | Err e => (Err e, f)
  | Ok containerRoot =>
      if String.eqb containerRoot "" then (Err "empty container root detected", f)
      else chmod_loop mode (getPaths f containerRoot cfg_paths mode) (Ok tt) f
  end.
End Chmod.

(** ** enable-cuda-compat *)

(** *** The header of a compat library (cuda-elf-header.go) *)

Record compatElfHeader := mkCompatElfHeader {
  Format : Z; CUDAVersion : string; Driver : list Z; Device : list Z;
}.
(** What package debug/elf reads from a file; the data of a section is
    read on demand. *)
Record elf_section := mkSection { sec_Name : string; sec_Type : Z; Addralign : Z; sec_Data : result string }.
Record elf_file := mkElf { big_endian : bool; Sections : list elf_section }.
Inductive elf_open := ElfMissing | ElfInvalid (e : string) | ElfFile (lib : elf_file).
Definition SHT_NOTE : Z := 7.

Definition byte_val (c : ascii) : Z := Z.of_N (byte_of c).
(** [binary.Read] of the header in the byte order of the file *)
Definition read_u32 (big : bool) (s : string) : Z :=
  let bs := map byte_val (bytes s) in
  foldl (fun acc b => acc * 256 + b)%Z 0%Z (if big then bs else rev bs).
Record elf32_Nhdr := mkNhdr { NameSize : Z; DescSize : Z; DescType : Z }.
Definition sizeof : Z := 12.
Definition substring (from n : Z) (s : string) : string := stake (Z.to_nat n) (sdrop (Z.to_nat from) s).
Definition read_Nhdr (big : bool) (data : string) : result elf32_Nhdr :=
  if Nat.ltb (String.length data) 12
  then Err ("failed to read data header: " +:+ (if String.eqb data "" then "EOF" else "unexpected EOF"))
  else Ok (mkNhdr (read_u32 big (substring 0 4 data)) (read_u32 big (substring 4 4 data)) (read_u32 big (substring 8 4 data))).
(** [alignUp] at [uint32], with its wrap-around; the alignment is truncated. *)
Definition u32 (x : Z) : Z := (x mod 2 ^ 32)%Z.
Definition alignUp (size to : Z) : Z :=
  Z.land (u32 (size + u32 to - 1)) (Z.lxor (u32 (u32 to - 1)) (2 ^ 32 - 1)).
(** [trim]; [None] is the panic of the slice expression. *)
Definition trim (data : string) (from len : Z) : option string :=
  if (from + len <=? Z.of_nat (String.length data))%Z then Some (trim_byte zero (substring from len data)) else None.

Definition getCUDAFwdCompatibilitySection (lib : elf_file) : option elf_section :=
  List.find (fun s => Z.eqb (sec_Type s) SHT_NOTE && String.eqb (sec_Name s) ".note.cuda.fwd_compatibility") (Sections lib).

Section CudaCompat.
Context (elf_Open : string -> elf_open) (unmarshal_header : string -> result compatElfHeader).

(** [None] is a panic. *)
Definition header_of_note (big : bool) (align : Z) (data : string) : option (result (option compatElfHeader)) :=
  match read_Nhdr big data with
  | Err e => Some (Err e)
  | Ok note =>
      if Z.eqb (NameSize note) 0 || Z.eqb (DescSize note) 0 then Some (Ok None)
      else
        match trim data sizeof (alignUp (NameSize note) align) with
        | None => None
        | Some name =>
            if negb (String.eqb name "NVIDIA Corporation") then Some (Ok None)
            else
              match trim data (sizeof + alignUp (NameSize note) align) (DescSize note) with
              | None => None
              | Some description =>
                  Some (let? h := wrap "could not unmarshal JSON data" (unmarshal_header description) in Ok (Some h))
              end
        end
  end.
Definition GetCUDACompatElfHeader (libraryPath : string) : option (result (option compatElfHeader)) :=
  match elf_Open libraryPath with
  | ElfMissing => Some (Ok None)
  | ElfInvalid e => Some (Err ("failed to load elf info for " +:+ quote libraryPath +:+ ": " +:+ e))
  | ElfFile lib =>
      match getCUDAFwdCompatibilitySection lib with
      | None => Some (Ok None)
      | Some s =>
          match sec_Data s with
          | Err e => Some (Err e)
          | Ok data => header_of_note (big_endian lib) (Addralign s) data
          end
      end
  end.

Definition normalizeVersion (v : string) : string := "v" +:+ trim_prefix v "v".
(** [cudaVersion.UseCompat] *)
Definition UseCompat (containerVersion hostVersion : string) : bool :=
  if String.eqb containerVersion "" || String.eqb hostVersion "" then false
  else (0 <? Compare (normalizeVersion containerVersion) (normalizeVersion hostVersion))%Z.

(** *** The root of the container (container-root.go) *)

Definition containerRoot_resolve (r : string) (f : fs) (path : string) : result string :=
  FollowSymlinkInScope f (clean (path_join [r; path])) r.
Definition hasPath (r : string) (f : fs) (path : string) : bool :=
  match containerRoot_resolve r f path with
  | Err _ => false
  | Ok resolved => match sys_Stat f resolved with inl ENOENT => false | _ => true end
  end.
Definition globFiles (r : string) (f : fs) (pattern : string) : result (list string) :=
  let? patternPath := containerRoot_resolve r f pattern in
  let? found := fs_Glob f patternPath in
  let? files := rmap (fun m =>
    match sys_Lstat f m with
    | inl e => Err (path_error "lstat" m e)
    | inr (LinkNode _) | inr (DirNode _) => Ok []
    | inr _ => Ok [m]
    end) found in
  Ok (concat files).

(** *** The hook (cudacompat.go) *)

Definition defaultCudaCompatPath : string := "/usr/local/cuda/compat".
Definition cudaCompatLdsoconfdFilenamePattern : string := "00-compat-*.conf".
Record cudacompat_options := mkCudacompatOptions {
  cudaCompatContainerRoot : string; hostDriverVersion : string; hostCudaVersion : string;
}.

Definition extractMajorVersion (version : string) : result Z :=
  if String.eqb version "" then Ok 0%Z
  else
    let majorString := default version (head (split_byte "." version)) in
    match atoi majorString with
    | Some major => Ok major
    | None => Err ("strconv.Atoi: parsing " +:+ quote majorString +:+ ": "
                   +:+ (if negb (String.eqb majorString "") && string_all is_digit majorString
                        then "value out of range" else "invalid syntax"))
    end.
(** A panic of the ELF header is one of the hook. *)
Definition useCompatLibraries (libcudaCompatPath hostDriverVersion hostCUDAVersion : string) : option (result bool) :=
  if negb (String.eqb hostCUDAVersion "") then
    match GetCUDACompatElfHeader libcudaCompatPath with
    | None => None
    | Some (Ok (Some cudaCompatHeader)) => Some (Ok (UseCompat (CUDAVersion cudaCompatHeader) hostCUDAVersion))
    | Some _ => Some (Ok false)
    end
  else if String.eqb hostDriverVersion "" then Some (Ok false)
  else
    let major v := wrap ("failed to extract major version from " +:+ quote v) (extractMajorVersion v) in
    let compatDriverVersion := trim_prefix (path_base libcudaCompatPath) "libcuda.so." in
    Some (let? driverMajor := major hostDriverVersion in
          let? compatMajor := major compatDriverVersion in
          Ok (driverMajor <? compatMajor)%Z).
Definition getContainerForwardCompatDir (r : string) (o : cudacompat_options) (f : fs) : option (result string) :=
  if String.eqb (hostDriverVersion o) "" && String.eqb (hostCudaVersion o) "" then Some (Ok "")
  else if negb (hasPath r f (cudaCompatContainerRoot o)) then Some (Ok "")
  else
    match globFiles r f (path_join [cudaCompatContainerRoot o; "libcuda.so.*.*"]) with
    | Ok [libCudaCompatPath] =>
        match useCompatLibraries libCudaCompatPath (hostDriverVersion o) (hostCudaVersion o) with
        | None => None
        | Some r' => Some (let? useCompatLibs := r' in
                           Ok (if useCompatLibs then trim_prefix (path_dir libCudaCompatPath) r else ""))
        end
    | _ => Some (Ok "")
    end.

(** The lines that are written, each once. *)
Definition lines_text (dirs : list string) : string := text_of (dedup_by id ∅ dirs).
Context (random : list string).
Definition compat_createLdsoconfdFile (r pattern : string) (dirs : list string) (f : fs) : result unit * fs :=
  match dirs with
  | [] => (Ok tt, f)
  | _ =>
      match containerRoot_resolve r f "/etc/ld.so.conf.d" with
      | Err e => (Err e, f)
      | Ok ldsoconfdDir =>
          match sys_MkdirAll 493 ldsoconfdDir f with
          | (inl e, f) => (Err ("failed to create ld.so.conf.d: " +:+ path_error "mkdir" ldsoconfdDir e), f)
          | (inr _, f) =>
              match create_temp random (FileNode (lines_text dirs) 420) ldsoconfdDir pattern f with
              | inl e => (Err ("failed to create config file: " +:+ errno_text e), f)
              | inr (_, f) => (Ok tt, f)
              end
          end
      end
  end.
Definition cudacompat_run (root : fs -> result string) (o : cudacompat_options) (f : fs) : option (result unit * fs) :=
  if String.eqb (hostDriverVersion o) "" && String.eqb (hostCudaVersion o) "" then Some (Ok tt, f)
  else
    match root f with
    | Err e => Some (Err e, f)
    | Ok containerRootDir =>
        match getContainerForwardCompatDir containerRootDir o f with
        | None => None
        | Some (Err e) => Some (Err ("failed to get container forward compat directory: " +:+ e), f)
        | Some (Ok containerForwardCompatDir) =>
            if String.eqb containerForwardCompatDir "" then Some (Ok tt, f)
            else Some (compat_createLdsoconfdFile containerRootDir cudaCompatLdsoconfdFilenamePattern
                         [containerForwardCompatDir] f)
        end
    end.
End CudaCompat.

(** ** disable-device-node-modification *)

Definition nvidiaDriverParamsPath : string := "/proc/driver/nvidia/params".
(** The lines of a scanner, and whether it fails on a line that is too long. *)
Definition scan (s : string) : list string * bool :=
  let l := drop_last_empty (split_byte newline_byte s) in
  (scan_lines s, Nat.ltb (length (take_short l)) (length l)).
Definition newline : string := String newline_byte "".
Fixpoint modify_loop (lines : list string) (modified : string) (requiresModification : bool) : option (string * bool) :=
  match lines with
  | [] => Some (modified, requiresModification)
  | line :: lines =>
      if has_prefix line "ModifyDeviceFiles: " then
        if String.eqb line "ModifyDeviceFiles: 0" then None
        else if String.eqb line "ModifyDeviceFiles: 1"
        then modify_loop lines (modified +:+ "ModifyDeviceFiles: 0" +:+ newline) true
        else modify_loop lines (modified +:+ line +:+ newline) requiresModification
      else modify_loop lines (modified +:+ line +:+ newline) requiresModification
  end.
(** [None] is the nil slice: nothing has to be done. *)
Definition getModifiedParamsFileContentsFromReader (contents : string) : result (option string) :=
  let '(lines, too_long) := scan contents in
  match modify_loop lines "" false with
  | None => Ok None
  | Some (modified, requiresModification) =>
      if too_long then Err "failed to read params file: bufio.Scanner: token too long"
      else Ok (if requiresModification then Some modified else None)
  end.
Definition getModifiedNVIDIAParamsContents (f : fs) : result (option string) :=
  match sys_Open f nvidiaDriverParamsPath with
  | inl ENOENT => Ok None
  | inl e => Err ("failed to load params file: " +:+ path_error "open" nvidiaDriverParamsPath e)
  | inr n => wrap "failed to get modfied params file contents"
               (getModifiedParamsFileContentsFromReader (node_content n))
  end.

(** The mount of the params file (params_linux.go); the hook makes a directory
    [/run/nvidia-ctk-hook<uuid>] for it. *)
Definition params_createTmpFs `{Kernel} (target : place) (size : nat) : Sys (result unit) :=
  try (Mount "tmpfs" target "tmpfs" 0 ("size=" +:+ fmt_nat size)) errno_text (sys_ret (Ok tt)).
Definition createParamsFileInContainer `{Kernel} (uuid containerRootDirPath contents : string) : Sys (result unit) :=
  let hookScratchDirPath := "/run/nvidia-ctk-hook" +:+ uuid in
  let modifiedParamsFilePath := path_join [hookScratchDirPath; "nvct-params"] in
  try (RootMkdirAll containerRootDirPath (sdrop 1 hookScratchDirPath) 493)
    (fun e => "error creating hook scratch folder: " +:+ errno_text e)
  (sys_then (sys_wrap "failed to create tmpfs mount for params file"
     (WithProcfd containerRootDirPath hookScratchDirPath (fun fd => params_createTmpFs fd (String.length contents)))) (fun _ =>
  try (RootCreate containerRootDirPath (sdrop 1 modifiedParamsFilePath))
    (fun e => "error creating modified params file: " +:+ errno_text e)
  (WithProcfd containerRootDirPath modifiedParamsFilePath (fun file =>
     try (OpenFile file) (fun e => "failed to open modified params file: " +:+ errno_text e) (deferring (CloseFile file)
     (try (Write file contents) (fun e => "failed to write temporary params file: " +:+ errno_text e)
     (sys_wrap "failed to mount modified params file"
       (WithProcfd containerRootDirPath nvidiaDriverParamsPath (fun params =>
          try (MountPlace file params "" (flags_or [MS_BIND; MS_RDONLY; MS_NODEV; MS_PRIVATE; MS_NOSYMFOLLOW]) "") errno_text
            (sys_ret (Ok tt))))))))))).
(** The [run] of the hook on the files [f]; the state of the container is only
    read if the file has to be modified. *)
Definition disable_run `{Kernel} (uuid : string) (root : fs -> result string) (f : fs) : Sys (result unit) :=
  match getModifiedNVIDIAParamsContents f with
  | Err e => sys_ret (Err ("failed to get modified params file contents: " +:+ e))
  | Ok contents =>
      let contents := default "" contents in
      if String.eqb contents "" then sys_ret (Ok tt)
      else
        match root f with
        | Err e => sys_ret (Err e)
        | Ok containerRootDirPath =>
            try (OpenRoot containerRootDirPath) (fun e => "failed to open root: " +:+ path_error "openat" containerRootDirPath e)
              (deferring (CloseRoot containerRootDirPath)
                (createParamsFileInContainer uuid containerRootDirPath contents))
        end
  end.

(** ** The command line of the hooks (src/cmd/nvidia-cdi-hook/commands)

    How a hook that this version does not know is told apart from a wrong use
    of one that it knows. The command-line library is a parameter: it calls
    these handlers with the error and the arguments that are left. *)
(** The commands that [ConfigureCDIHookCommand] registers. *)
Definition hook_commands : list string :=
  ["update-ldcache"; "create-symlinks"; "chmod"; "enable-cuda-compat"; "disable-device-node-modification"; "noop"].

(** The warning that is logged; the result is always nil. *)
Definition issueUnsupportedHookWarning (args : list string) : string :=
  match args with
  | [] => "No CDI hook specified"
  | arg :: _ => "Unsupported CDI hook: " +:+ arg
  end.
(** The first argument that is not a flag *)
Definition subcommandName (args : list string) : string :=
  default "" (List.find (fun arg => negb (has_prefix arg "-")) args).
(** [OnUsageError]; [None] is nil. *)
Definition OnUsageError (err : string) (args : list string) : option string :=
  if negb (has_prefix err "flag provided but not defined: -") then Some err
  else
    let name := subcommandName args in
    if negb (String.eqb name "") && existsb (String.eqb name) hook_commands then Some err
    else None.

(** A usage error only makes the command fail if it is not about an unknown
    flag, or if a known hook is named: the flags of a hook that this version
    does not know never keep a container from starting. *)
Theorem OnUsageError_spec err args e :
  OnUsageError err args = Some e <->
  e = err /\ (has_prefix err "flag provided but not defined: -" = false
              \/ exists pre name post, args = pre ++ name :: post /\ name ∈ hook_commands
                 /\ Forall (fun a => has_prefix a "-" = true) pre /\ has_prefix name "-" = false).
Proof.
  assert (Hfind : forall l name, (exists pre post, l = pre ++ name :: post
      /\ Forall (fun a => has_prefix a "-" = true) pre /\ has_prefix name "-" = false)
    <-> List.find (fun arg => negb (has_prefix arg "-")) l = Some name).
  { induction l as [|a l IH]; intros name; cbn [List.find].
    - split; [by intros ([|? ?] & ? & ? & _)|done].
    - destruct (has_prefix a "-") eqn:Ha; cbn [negb].
      + rewrite <- IH. split.
        * intros ([|x pre] & post & [= -> ->] & Hpre & Hn); [by rewrite Ha in Hn|]. inversion Hpre; subst. by exists pre, post.
        * intros (pre & post & -> & Hpre & Hn). exists (a :: pre), post. split; [done|]. split; [by constructor|done].
      + split.
        * intros ([|x pre] & post & [= -> ->] & Hpre & Hn); [done|]. inversion Hpre as [|? ? Hx]; subst. by rewrite Hx in Ha.
        * intros [= ->]. exists [], l. split; [done|]. split; [constructor|done]. }
  unfold OnUsageError. destruct (has_prefix err _) eqn:He; cbn [negb]; [|naive_solver].
  assert (Hname : forall name, existsb (String.eqb name) hook_commands = true <-> name ∈ hook_commands).
  { intros name. rewrite existsb_exists. setoid_rewrite String.eqb_eq. setoid_rewrite <- list_elem_of_In. naive_solver. }
  unfold subcommandName. destruct (List.find _ args) as [name|] eqn:Hf; cbn [default from_option id].
  - destruct (existsb (String.eqb name) hook_commands) eqn:Hn.
    + assert (Hne : String.eqb name "" = false) by (apply String.eqb_neq; intros ->; discriminate Hn). rewrite Hne. cbn.
      apply Hname in Hn. apply Hfind in Hf as (pre & post & -> & Hpre & Hd). split.
      * intros [= <-]. split; [done|]. right. by exists pre, name, post.
      * by intros [-> _].
    + rewrite andb_false_r. split; [done|]. intros (_ & [|(pre & name' & post & -> & Hin & Hpre & Hd)]); [done|].
      assert (Hf' : List.find (fun arg => negb (has_prefix arg "-")) (pre ++ name' :: post) = Some name')
        by (apply Hfind; by exists pre, post).
      rewrite Hf in Hf'. injection Hf' as ->. apply Hname in Hin. by rewrite Hin in Hn.
  - cbn. split; [done|]. intros (_ & [|(pre & name' & post & -> & Hin & Hpre & Hd)]); [done|].
    assert (Hf' : List.find (fun arg => negb (has_prefix arg "-")) (pre ++ name' :: post) = Some name')
      by (apply Hfind; by exists pre, post).
    by rewrite Hf in Hf'.
Qed.
