(* ===== verification/CDIHooksProps.v ===== *)
(** * Properties of the container hooks

    What the hooks of CDIHooks.v write, where, and where they fail to. *)
From S2P Require Import Prelude GoStrings GoPaths FileSystem OsFiles CDIHooks.

(** ** Links are made in the container *)

Lemma FollowSymlinkInScope_clean f path root : is_abs root = true ->
  FollowSymlinkInScope f path root = FollowSymlinkInScope f path (clean root).
Proof. intros Ha. unfold FollowSymlinkInScope. by rewrite clean_idem_abs. Qed.

Lemma clean_root root : is_abs root = true -> clean root = abs_path (clean_components true root).
Proof. apply clean_abs. Qed.

(** [Base] of a clean absolute path *)
Lemma path_base_clean cs : Forall proper cs ->
  (cs = [] /\ path_base (abs_path cs) = "/") \/ (exists ds n, cs = ds ++ [n] /\ path_base (abs_path cs) = n).
Proof.
  intros Hp. destruct cs as [|n ds _] using rev_ind; [by left|right]. exists ds, n. split; [done|].
  apply Forall_app in Hp as [_ Hn]. apply path_base_abs. by rewrite Forall_singleton in Hn.
Qed.
Lemma path_join_snoc cs n : Forall proper (cs ++ [n]) -> path_join [abs_path cs; n] = abs_path (cs ++ [n]).
Proof.
  intros Hp. apply Forall_app in Hp as [Hcs Hn]. pose proof (proj1 (Forall_singleton _ _) Hn) as Hn'.
  destruct Hn' as (Hne & Hd & Hdd & Hs).
  assert (Hsplit : split_byte slash n = [n]) by by apply split_byte_free_id.
  rewrite path_join_abs, Hsplit; [|done|rewrite Hsplit, Forall_singleton; by right].
  f_equal. f_equal. by apply (filter_proper [n]).
Qed.
Lemma path_join_slash cs : Forall proper cs -> path_join [abs_path cs; "/"] = abs_path cs.
Proof. intros Hp. rewrite path_join_abs by (try done; repeat constructor; by left). by rewrite app_nil_r. Qed.

(** What [ForceCreate] does at a path whose directory has no links above it. *)
Lemma ForceCreate_plain f target rc ds n r f' :
  well_formed f -> Forall proper ((rc ++ ds) ++ [n]) -> no_link f (rc ++ ds) ->
  ForceCreate target (abs_path ((rc ++ ds) ++ [n])) f = (r, f') ->
  well_formed f' /\ (f' = f \/ f' = delete ((rc ++ ds) ++ [n]) f \/ f' = <[(rc ++ ds) ++ [n] := LinkNode target]> f)
  /\ (r = Ok tt -> f' !! ((rc ++ ds) ++ [n]) = Some (LinkNode target)).
Proof.
  intros Hwf Hp Hl. set (p := (rc ++ ds) ++ [n]) in *.
  assert (Ha : no_link_above f p) by by apply no_link_above_snoc.
  assert (Hsym : forall f0, well_formed f0 -> (f0 = f \/ f0 = delete p f) -> no_link_above f0 p ->
    match sys_Symlink target (abs_path p) f0 with
    | inl e => (Err ("symlink " +:+ target +:+ " " +:+ abs_path p +:+ ": " +:+ errno_text e), f0)
    | inr f => (Ok tt, f)
    end = (r, f') ->
    well_formed f' /\ (f' = f \/ f' = delete p f \/ f' = <[p := LinkNode target]> f)
    /\ (r = Ok tt -> f' !! p = Some (LinkNode target))).
  { intros f0 Hwf0 Hf0 Ha0. destruct (sys_Symlink _ _ f0) as [e|f1] eqn:Hs.
    - intros [= <- <-]. split; [done|]. split; [naive_solver|done].
    - intros [= <- <-]. apply create_plain in Hs as (_ & _ & -> & Hwf1); [|done..]. split; [done|].
      split; [|by rewrite lookup_insert_eq]. right. right. destruct Hf0 as [->| ->]; [done|]. apply insert_delete_eq. }
  unfold ForceCreate. destruct (sys_Lstat f (abs_path p)) as [e|m] eqn:Hls.
  - destruct e; try (intros [= <- <-]; split; [done|]; split; [by left|done]). apply Hsym; [done|by left|done].
  - destruct (sys_Remove (abs_path p) f) as [e|f1] eqn:Hr; [intros [= <- <-]; split; [done|]; split; [by left|done]|].
    apply remove_plain in Hr as (_ & -> & Hwf1); [|done..]. apply Hsym; [done|by right|].
    intros q Hq Hne t. rewrite lookup_delete_ne by done. by apply Ha.
Qed.

Lemma path_join_root root link : is_abs root = true ->
  exists cs, Forall proper cs /\ path_join [root; link] = abs_path cs.
Proof.
  intros Ha. exists (clean_components true (root +:+ "/" +:+ link)). split; [apply clean_components_proper|].
  assert (Hne : root <> "") by by intros ->. cbn [path_join]. rewrite decide_False by done.
  change (join "/" [root; link]) with (root +:+ "/" +:+ link). apply clean_abs.
  apply has_prefix_spec in Ha as [t ->]. rewrite <- sapp_assoc. apply has_prefix_app.
Qed.

(** Creating a link leaves all but one path of the container as it is, apart
    from directories that are added. *)
Definition only_link (rc : list string) (target : string) (f f' : fs) : Prop :=
  exists p, rc `prefix_of` p /\ p <> rc /\ f' !! p = Some (LinkNode target)
    /\ forall q, q <> p -> f' !! q = f !! q \/ (f !! q = None /\ f' !! q = Some (DirNode 493)).

Lemma FollowSymlinkInScope_slash f rc r : Forall proper rc ->
  FollowSymlinkInScope f "/" (abs_path rc) = Ok r -> rc = [] /\ r = "/".
Proof.
  intros Hp. unfold FollowSymlinkInScope, evalSymlinksInScope. rewrite !clean_abs_path by done. change (clean "/") with "/".
  destruct (String.eqb_spec "/" (abs_path rc)) as [He|Hne].
  { intros [= <-]. split; [|done]. apply (abs_path_inj rc []); done. }
  destruct (has_prefix "/" (abs_path rc)) eqn:Hpre; [|done]. exfalso. apply has_prefix_spec in Hpre as [t Ht].
  destruct rc as [|c rc]; [done|]. inversion Hp as [|? ? (Hc & _)]; subst.
  destruct c as [|x c]; [done|]. by destruct rc.
Qed.

Lemma createLink_plain root target link f r f' :
  let rc := clean_components true root in
  well_formed f -> is_abs root = true -> real_dir f rc ->
  createLink root target link f = (r, f') ->
  well_formed f' /\ changes_below rc f f'
  /\ (r = Ok tt -> (f' = f /\ linkExists f target (path_join [root; link]) = Ok true) \/ only_link rc target f f').
Proof.
  intros rc Hwf Hroot Hreal. unfold createLink.
  assert (Hprc : Forall proper rc) by apply clean_components_proper.
  pose proof (real_dir_no_link f rc Hwf Hreal) as Hlrc.
  assert (Hsame : forall e, (Err e, f) = (r, f') -> well_formed f' /\ changes_below rc f f'
    /\ (r = Ok tt -> (f' = f /\ linkExists f target (path_join [root; link]) = Ok true) \/ only_link rc target f f')).
  { intros e [= <- <-]. by split. }
  destruct (linkExists f target (path_join [root; link])) as [[]|e] eqn:Hex; cbn [wrap];
    [intros [= <- <-]; split; [done|]; split; [done|by left]| |by apply Hsame].
  destruct (path_join_root root link Hroot) as (cs & Hpcs & ->).
  rewrite (FollowSymlinkInScope_clean _ _ root), (clean_root root) by done. fold rc.
  destruct (FollowSymlinkInScope _ _ _) as [parent|e] eqn:Hfollow; [|apply Hsame].
  destruct (path_base_clean cs Hpcs) as [[-> ->]|(ds' & n & -> & ->)].
  { apply FollowSymlinkInScope_slash in Hfollow as [Hrc ->]; [|done]. cbn. intros [= <- <-]. by split. }
  apply FollowSymlinkInScope_contained in Hfollow as (ds & -> & Hpp & Hl); [|done..].
  assert (Hpn : Forall proper ((rc ++ ds) ++ [n])) by (apply Forall_app; split; [done|by apply Forall_app in Hpcs as [_ ?]]).
  rewrite path_join_snoc, path_dir_abs by (try done; by apply Forall_app in Hpn as [_ Hn]; rewrite Forall_singleton in Hn; destruct Hn as (_ & _ & _ & ?)).
  unfold sys_MkdirAll. rewrite clean_components_abs_path by done.
  destruct (mkdir_all 493 (rev (rc ++ ds)) f) as [rm f1] eqn:Hm.
  apply mkdir_all_plain in Hm as (Hwf1 & Hc1 & Ha1 & _); [|done..].
  destruct rm as [e|[]]; [intros [= <- <-]; by split|].
  destruct (ForceCreate _ _ f1) as [rf f2] eqn:Hf. intros [= <- <-].
  apply ForceCreate_plain in Hf as (Hwf2 & Hcases & Hok); [|done..|by eapply adds_dirs_no_link].
  assert (Hne : ds ++ [n] <> []) by apply snoc_ne. rewrite <- (app_assoc rc) in *.
  split; [done|]. split; [etrans; [exact Hc1|]; destruct Hcases as [->|[->| ->]];
    [done|by apply changes_delete|by apply changes_insert]|].
  intros Hr. right. exists (rc ++ ds ++ [n]). split; [by exists (ds ++ [n])|].
  split; [intros He; apply (f_equal length) in He; rewrite !length_app in He; simpl in He; lia|].
  split; [by destruct rf as [[]|]; [apply Hok|]|]. intros q Hq.
  assert (Hsameq : f2 !! q = f1 !! q) by by destruct Hcases as [->|[->| ->]];
    [|rewrite lookup_delete_ne|rewrite lookup_insert_ne].
  rewrite Hsameq. apply Ha1.
Qed.

(** One of the requested links is made. *)
Definition makes_link (rc : list string) (links : list string) (f f' : fs) : Prop :=
  exists l target link, l ∈ links /\ split "::" l = [target; link] /\ only_link rc target f f'.

Lemma same_links (rc links : list string) (f : fs) (r : result unit) :
  well_formed f -> well_formed f /\ changes_below rc f f /\ (r = Ok tt -> rtc (makes_link rc links) f f).
Proof. intros Hwf. split; [done|]. split; [done|]. intros _. apply rtc_refl. Qed.

Lemma create_links_plain root links : is_abs root = true -> forall todo created f r f',
  (forall l, l ∈ todo -> l ∈ links) ->
  let rc := clean_components true root in
  well_formed f -> real_dir f rc -> create_links root created todo f = (r, f') ->
  well_formed f' /\ changes_below rc f f' /\ (r = Ok tt -> rtc (makes_link rc links) f f').
Proof.
  intros Hroot todo. induction todo as [|l todo IH]; intros created f r f' Hsub rc Hwf Hreal; cbn [create_links].
  { intros [= <- <-]. by apply same_links. }
  assert (Hsub' : forall l', l' ∈ todo -> l' ∈ links) by (intros l' Hl'; apply Hsub; by right).
  case_decide; [by apply IH|].
  destruct (split "::" l) as [|target [|link [|]]] eqn:Hsplit; try (intros [= <- <-]; by apply same_links).
  destruct (createLink root target link f) as [r1 f1] eqn:Hc.
  apply createLink_plain in Hc as (Hwf1 & Hc1 & Hok1); [|done..]. fold rc in Hc1, Hok1.
  destruct r1 as [[]|e]; [|intros [= <- <-]; by split].
  intros Hrest. apply IH in Hrest as (Hwf2 & Hc2 & Hok2); [|done..|by eapply real_dir_below].
  split; [done|]. split; [by etrans|]. intros Hr. specialize (Hok2 Hr).
  destruct (Hok1 eq_refl) as [[-> _]|Hmade]; [done|]. eapply rtc_l; [|exact Hok2].
  exists l, target, link. split; [apply Hsub; by left|done].
Qed.

(** C29. The create-symlinks hook stays in the container: whatever links the
    image contains, and whatever links are requested, nothing outside of the
    container root is changed, and if the hook succeeds the only changes are
    requested links and directories that were missing. *)
Theorem create_symlinks_contained (root : fs -> result string) containerRoot links f r f' :
  let rc := clean_components true containerRoot in
  root f = Ok containerRoot -> is_abs containerRoot = true -> well_formed f -> real_dir f rc ->
  create_symlinks_run root links f = (r, f') ->
  changes_below rc f f' /\ well_formed f' /\ (r = Ok tt -> rtc (makes_link rc links) f f').
Proof.
  intros rc Hr Hroot Hwf Hreal. unfold create_symlinks_run. rewrite Hr. intros Hrun.
  by apply create_links_plain with (links := links) in Hrun as (? & ? & ?).
Qed.

(** ** A container image that lays traps *)

(** The container is below [/c]; links of its image lead out of it, and the
    host has files of its own. *)
Definition trap : fs := map_of_nodes [
  (["c"], DirNode 493); (["etc"], DirNode 493); (["etc"; "secret"], FileNode "host" 384);
  (["usr"], DirNode 493); (["usr"; "libx.so"], LinkNode "libx.so.1");
  (["c"; "usr"], DirNode 493); (["c"; "opt"], LinkNode "/usr"); (["c"; "up"], LinkNode "../../etc");
  (["c"; "dev"], LinkNode "/etc")].
Definition trap_links : list string := ["x::/up/a/b"; "x::/up/a/b"; "y::/dev/../dev/secret"; "z::up/secret"].

Lemma create_symlinks_contained_witness :
  let f' := snd (create_symlinks_run (fun _ => Ok "/c") trap_links trap) in
  changes_below ["c"] trap f' /\ f' !! ["c"; "etc"; "a"; "b"] = Some (LinkNode "x").
Proof.
  split; [|vm_compute; reflexivity].
  apply (create_symlinks_contained (fun _ => Ok "/c") "/c" trap_links trap _ _ eq_refl eq_refl
    (well_formed_b_true trap eq_refl) (real_dir_b_true trap ["c"] eq_refl) (surjective_pairing _)).
Defined.

(** Whether a link exists already is checked on the path as the host sees
    it, not in the container: where a directory of the path is a link in the
    image, a file of the host counts, and the hook reports success without
    making the link. *)
Theorem host_link_hides_request :
  createLink "/c" "libx.so.1" "/opt/libx.so" trap = (Ok tt, trap)
  /\ trap !! ["c"; "usr"; "libx.so"] = None.
Proof. vm_compute. by split. Qed.

(** ** chmod *)

Local Abbreviation nobody := (fun _ : string => @None errno).

(** The chmod hook follows the links of the image on the paths of the host:
    it changes the mode of a file outside of the container. *)
Theorem chmod_leaves_container :
  chmod_run nobody (fun _ => Ok "/c") 511 ["/dev/secret"] trap
  = (Ok tt, <[["etc"; "secret"] := FileNode "host" 511]> trap).
Proof. vm_compute. reflexivity. Qed.

(** Only the result for the last path is reported: an error on a path
    before it is lost. *)
Theorem chmod_loses_errors :
  let refused p := if String.eqb p "/c/usr" then Some EROFS else None in
  fst (chmod_run refused (fun _ => Ok "/c") 448 ["/usr"; "/up"] trap) = Ok tt /\
  exists e, fst (chmod_run refused (fun _ => Ok "/c") 448 ["/usr"] trap) = Err e.
Proof. split; [vm_compute; reflexivity|eexists; vm_compute; reflexivity]. Qed.

(** The modes of the kernel that [stat_mode] and [syscallMode] convert. *)
Definition all_bits : Z := Z.lor ModePerm (Z.lor ModeSetuid (Z.lor ModeSetgid ModeSticky)).
Lemma stat_mode_spec n : (0 <= node_mode n < 4096)%Z ->
  syscallMode (stat_mode n) = node_mode n /\ Z.land (stat_mode n) all_bits = stat_mode n.
Proof.
  unfold stat_mode. generalize (node_mode n). clear n. intros m Hm.
  assert (Hall : forallb (fun k => let m := Z.of_nat k in
    let s := Z.lor (Z.land m 511) (Z.lor (if_bits m 2048 ModeSetuid) (Z.lor (if_bits m 1024 ModeSetgid) (if_bits m 512 ModeSticky))) in
    Z.eqb (syscallMode s) m && Z.eqb (Z.land s all_bits) s) (seq 0 (Z.to_nat 4096)) = true) by (vm_compute; reflexivity).
  rewrite forallb_forall in Hall. specialize (Hall (Z.to_nat m)). cbv zeta in Hall. rewrite Z2Nat.id in Hall by lia.
  rewrite andb_true_iff, !Z.eqb_eq in Hall. apply Hall, in_seq. lia.
Qed.
(** A mode that is given in octal never has the bits of Go for setuid, setgid
    and sticky: what is set are the permissions. *)
Lemma syscallMode_octal m : (0 <= m < 2 ^ 20)%Z -> syscallMode m = Z.land m 511.
Proof.
  intros Hm. unfold syscallMode, if_bits.
  assert (Hhigh : forall k, (20 <= k)%Z -> Z.land m (2 ^ k) = 0%Z).
  { intros k Hk. apply Z.bits_inj'. intros i Hi. rewrite Z.land_spec, Z.bits_0, Z.pow2_bits_eqb by lia.
    destruct (Z.eqb_spec k i) as [<-|]; [|by rewrite andb_false_r]. rewrite andb_true_r.
    destruct (decide (m = 0%Z)) as [->|]; [apply Z.bits_0|]. apply Z.bits_above_log2; [lia|].
    apply Z.log2_lt_pow2; [lia|]. eapply Z.lt_le_trans; [apply Hm|]. apply Z.pow_le_mono_r; lia. }
  change ModeSetuid with (2 ^ 23)%Z. change ModeSetgid with (2 ^ 22)%Z. change ModeSticky with (2 ^ 20)%Z.
  rewrite !Hhigh by lia. simpl. by rewrite Z.lor_0_r.
Qed.

(** *** The hook on paths without links *)

Lemma well_formed_with_mode f p n m : well_formed f -> f !! p = Some n -> well_formed (<[p := with_mode m n]> f).
Proof.
  intros [Hr Hwf] Hn. assert (Hp : p <> []) by by intros ->; rewrite Hr in Hn.
  split; [by rewrite lookup_insert_ne|]. intros q c n' Hq.
  assert (exists m', node_at f q = Some (DirNode m')) as [m' Hm'].
  { destruct (decide (p = q ++ [c])) as [->|Hne]; [by eapply Hwf|]. rewrite lookup_insert_ne in Hq by done. by eapply Hwf. }
  destruct (decide (q = [])) as [->|Hqne]; [by eexists|]. rewrite node_at_ne in * by done.
  destruct (decide (p = q)) as [->|Hpq]; [|rewrite lookup_insert_ne by done; by exists m'].
  rewrite lookup_insert_eq. rewrite Hn in Hm'. injection Hm' as ->. by exists m.
Qed.
Lemma no_link_with_mode f p n m q : f !! p = Some n -> no_link f q -> no_link (<[p := with_mode m n]> f) q.
Proof.
  intros Hn Hl r Hr t. destruct (decide (p = r)) as [->|Hne]; [|rewrite lookup_insert_ne by done; by apply Hl].
  rewrite lookup_insert_eq. intros [= Ht]. destruct n; try done. by apply (Hl r Hr target).
Qed.
Lemma chmod_plain f cs n m : well_formed f -> Forall proper cs -> cs <> [] -> no_link f cs -> f !! cs = Some n ->
  sys_Chmod m (abs_path cs) f = inr (<[cs := with_mode m n]> f).
Proof.
  intros Hwf Hp Hne Hl Hn. unfold sys_Chmod, existing.
  destruct (resolve_plain f true cs Hwf Hp Hl) as [[-> _]|[_ Hnone]]; [|by rewrite Hn in Hnone].
  rewrite node_at_ne, Hn by done. by destruct cs.
Qed.

(** The nodes at some paths get new permissions. *)
Definition chmodded (m : Z) (css : list (list string)) (f : fs) : fs :=
  foldl (fun f cs => match f !! cs with Some n => <[cs := with_mode m n]> f | None => f end) f css.
Definition plain_path (f : fs) (cs : list string) : Prop := Forall proper cs /\ cs <> [] /\ no_link f cs.

Lemma chmod_loop_plain m css : forall f, well_formed f ->
  Forall (fun cs => plain_path f cs /\ is_Some (f !! cs)) css ->
  chmod_loop nobody m (map abs_path css) (Ok tt) f = (Ok tt, chmodded (syscallMode m) css f).
Proof.
  induction css as [|cs css IH]; intros f Hwf Hall; [done|]. inversion Hall as [|? ? [(Hp & Hne & Hl) [n Hn]] Hrest]; subst.
  cbn [map chmod_loop]. unfold os_Chmod. rewrite (chmod_plain f cs n) by done. rewrite IH.
  - unfold chmodded at 2. cbn [foldl]. by rewrite Hn.
  - by apply well_formed_with_mode.
  - eapply Forall_impl; [exact Hrest|]. intros cs' [(Hp' & Hne' & Hl') [n' Hn']]. split.
    + split; [done|]. split; [done|]. by apply no_link_with_mode.
    + destruct (decide (cs = cs')) as [->|Hd]; [rewrite lookup_insert_eq|rewrite lookup_insert_ne by done]; by eexists.
Qed.

Lemma with_mode_twice m k n : with_mode m (with_mode k n) = with_mode m n.
Proof. by destruct n. Qed.
Lemma chmodded_lookup m css : forall f q,
  chmodded m css f !! q = if decide (q ∈ css) then with_mode m <$> f !! q else f !! q.
Proof.
  induction css as [|cs css IH]; intros f q; [by rewrite decide_False by inversion 1|].
  unfold chmodded. cbn [foldl]. fold (chmodded m css (match f !! cs with Some n => <[cs := with_mode m n]> f | None => f end)).
  rewrite IH. destruct (decide (q = cs)) as [->|Hne].
  - rewrite (decide_True (P := cs ∈ cs :: css)) by by left.
    destruct (f !! cs) as [n|] eqn:Hn; [|by case_decide; rewrite Hn].
    rewrite lookup_insert_eq. case_decide; simpl; by rewrite ?with_mode_twice.
  - assert (Hin : q ∈ cs :: css <-> q ∈ css) by (rewrite elem_of_cons; naive_solver).
    assert (Hl : match f !! cs with Some n => <[cs := with_mode m n]> f | None => f end !! q = f !! q)
      by (destruct (f !! cs); [by rewrite lookup_insert_ne|done]).
    rewrite Hl. repeat case_decide; naive_solver.
Qed.

Definition needs_chmod (f : fs) (m : Z) (cs : list string) : bool :=
  match f !! cs with Some n => negb (Z.eqb (Z.lxor (Z.land (stat_mode n) all_bits) m) 0) | None => false end.
Lemma getPaths_plain f root m paths css : well_formed f ->
  Forall2 (fun p cs => path_join [root; p] = abs_path cs /\ plain_path f cs) paths css ->
  getPaths f root paths m = map abs_path (List.filter (needs_chmod f m) css).
Proof.
  intros Hwf. induction 1 as [|p cs paths css [Hj (Hp & Hne & Hl)] _ IH]; [done|].
  assert (Hcons : getPaths f root (p :: paths) m = match sys_Stat f (path_join [root; p]) with
      | inl _ => getPaths f root paths m
      | inr n => if Z.eqb (Z.lxor (Z.land (stat_mode n) all_bits) m) 0 then getPaths f root paths m
                 else path_join [root; p] :: getPaths f root paths m
      end).
  { unfold getPaths, all_bits. cbn [omap list_omap]. destruct (sys_Stat _ _); [done|]. by destruct (Z.eqb _ 0). }
  rewrite Hcons, Hj. cbn [List.filter].
  pose proof (Stat_plain f cs Hwf Hp Hl) as Hs. rewrite node_at_ne in Hs by done. unfold needs_chmod at 1.
  destruct (f !! cs) as [n|]; [rewrite Hs; destruct (Z.eqb _ 0)|destruct Hs as [-> | ->]]; cbn [negb map]; by rewrite IH.
Qed.

(** The chmod hook, on paths without links: it succeeds, the named files and
    directories that exist have the permissions of the mode, and nothing else
    changes. *)
Theorem chmod_sets_modes (root : string) (m : Z) (paths : list string) (css : list (list string)) (f : fs) :
  root <> "" -> well_formed f -> (forall q n, f !! q = Some n -> 0 <= node_mode n < 4096)%Z ->
  Forall2 (fun p cs => path_join [root; p] = abs_path cs /\ plain_path f cs) paths css ->
  let '(r, f') := chmod_run nobody (fun _ => Ok root) m paths f in
  r = Ok tt /\ forall q, f' !! q = if decide (q ∈ css) then with_mode (syscallMode m) <$> f !! q else f !! q.
Proof.
  intros Hroot Hwf Hmodes Hall. unfold chmod_run. rewrite (proj2 (String.eqb_neq root "") Hroot).
  rewrite (getPaths_plain f root m paths css Hwf Hall).
  assert (Hcss : Forall (plain_path f) css) by by induction Hall as [|p cs ps css [_ ?]]; constructor.
  rewrite Forall_forall in Hcss. rewrite chmod_loop_plain; [|done|].
  - split; [done|]. intros q. rewrite chmodded_lookup.
    assert (Hin : q ∈ List.filter (needs_chmod f m) css <-> q ∈ css /\ needs_chmod f m q = true)
      by by rewrite list_elem_of_In, filter_In, <- list_elem_of_In.
    destruct (decide (q ∈ css)) as [Hq|Hq]; [|rewrite decide_False; naive_solver].
    destruct (needs_chmod f m q) eqn:Hneed; [by rewrite decide_True by by apply Hin|].
    rewrite decide_False by naive_solver. unfold needs_chmod in Hneed. destruct (f !! q) as [n|] eqn:Hn; [|done].
    cbn [fmap option_fmap option_map]. f_equal.
    destruct (stat_mode_spec n (Hmodes q n Hn)) as [Hs1 Hs2].
    apply negb_false_iff, Z.eqb_eq in Hneed. rewrite Hs2 in Hneed. apply Z.lxor_eq in Hneed. rewrite <- Hneed, Hs1.
    destruct n; try done.
  - apply Forall_forall. intros cs Hcs. apply list_elem_of_In, filter_In in Hcs as [Hcs Hneed].
    split; [apply Hcss; by apply list_elem_of_In|]. unfold needs_chmod in Hneed. destruct (f !! cs); [by eexists|done].
Qed.
Lemma chmod_sets_modes_witness :
  let '(r, f') := chmod_run nobody (fun _ => Ok "/c") 448 ["usr"; "/missing/../usr"; "/none"] trap in
  r = Ok tt /\ forall q, f' !! q = if decide (q ∈ [["c"; "usr"]; ["c"; "usr"]; ["c"; "none"]])
                                   then with_mode (syscallMode 448) <$> trap !! q else trap !! q.
Proof.
  apply (chmod_sets_modes "/c" 448); [done|by apply well_formed_b_true| |].
  - apply (map_Forall_to_list (fun _ n => 0 <= node_mode n < 4096)%Z). apply (bool_decide_unpack _). vm_compute. exact I.
  - repeat constructor; (done || by apply no_link_b_true).
Defined.
