(* ===== verification/HookFilesProps.v ===== *)
(** * Properties of the files that the hooks read and write

    The params file of the container, the ELF note of the CUDA compat
    libraries and the enable-cuda-compat hook.

    [getModifiedParamsFileContentsFromReader] of CDIHooks.v is compared with a
    description of the file that it makes. *)
From S2P Require Import Prelude GoStrings GoPaths Semver LDCache ProcInfo FileSystem OsFiles Syscalls CDIHooks CDIHooksProps.

Definition enabled : string := "ModifyDeviceFiles: 1".
Definition disabled : string := "ModifyDeviceFiles: 0".
Definition disable_line (l : string) : string := if String.eqb l enabled then disabled else l.

Lemma modify_loop_spec lines : forall m b,
  modify_loop lines m b = if decide (disabled ∈ lines) then None
    else Some (m +:+ text_of (map disable_line lines), b || bool_decide (enabled ∈ lines)).
Proof.
  induction lines as [|l lines IH]; intros m b.
  { rewrite decide_False by inversion 1. cbn. rewrite sapp_nil_r. by destruct b. }
  assert (Hstep : l <> disabled -> modify_loop (l :: lines) m b
    = modify_loop lines (m +:+ disable_line l +:+ newline) (b || String.eqb l enabled)).
  { intros Hne. cbn [modify_loop]. unfold disable_line. destruct (has_prefix l "ModifyDeviceFiles: ") eqn:Hp.
    - change "ModifyDeviceFiles: 0" with disabled. change "ModifyDeviceFiles: 1" with enabled.
      rewrite (proj2 (String.eqb_neq l disabled) Hne). destruct (String.eqb l enabled); by rewrite ?orb_true_r, ?orb_false_r.
    - destruct (String.eqb_spec l enabled) as [->|_]; [done|]. by rewrite orb_false_r. }
  destruct (decide (l = disabled)) as [->|Hne].
  { rewrite decide_True by by left. reflexivity. }
  rewrite Hstep, IH by done. cbn [map text_of foldr]. fold (text_of (map disable_line lines)).
  assert (Hd : disabled ∈ l :: lines <-> disabled ∈ lines) by (rewrite elem_of_cons; naive_solver).
  assert (He : bool_decide (enabled ∈ l :: lines) = String.eqb l enabled || bool_decide (enabled ∈ lines)).
  { apply eq_true_iff_eq. rewrite orb_true_iff, !bool_decide_eq_true, String.eqb_eq, elem_of_cons. naive_solver. }
  destruct (decide (disabled ∈ lines)); [rewrite decide_True by by apply Hd|rewrite decide_False by by rewrite Hd].
  { done. }
  rewrite He, orb_assoc, <- !sapp_assoc. done.
Qed.

(** Nothing is done if a line disables the modification of device files
    already, or none enables it. *)
Lemma params_spec contents :
  getModifiedParamsFileContentsFromReader contents =
    let lines := scan_lines contents in
    if decide (disabled ∈ lines) then Ok None
    else if snd (scan contents) then Err "failed to read params file: bufio.Scanner: token too long"
    else Ok (if decide (enabled ∈ lines) then Some (text_of (map disable_line lines)) else None).
Proof.
  unfold getModifiedParamsFileContentsFromReader. destruct (scan contents) as [lines long] eqn:Hs.
  injection Hs as <- <-. rewrite modify_loop_spec. cbn [snd scan]. destruct (decide (disabled ∈ _)); [done|].
  destruct (Nat.ltb _ _); [done|]. cbn [orb].
  destruct (decide (enabled ∈ scan_lines contents)); [by rewrite bool_decide_true|by rewrite bool_decide_false].
Qed.

Lemma scan_lines_short s : Forall (fun l => N.of_nat (String.length l) < 65536)%N (scan_lines s).
Proof.
  unfold scan_lines. apply Forall_map. generalize (drop_last_empty (split_byte newline_byte s)).
  induction l as [|l ls IH]; [constructor|]. cbn [take_short]. destruct (N.ltb_spec (N.of_nat (String.length l)) 65536); [|constructor].
  constructor; [|done]. unfold drop_cr, trim_suffix. case_match; [|done].
  assert (Hle : forall n t, String.length (stake n t) <= String.length t).
  { intros n t. revert n. induction t as [|c t IHt]; intros [|n]; simpl; [done|done|lia|]. specialize (IHt n). lia. }
  specialize (Hle (String.length l - String.length (str1 13)) l). lia.
Qed.
Lemma take_short_all l : Forall (fun l => N.of_nat (String.length l) < 65536)%N l -> take_short l = l.
Proof. induction 1 as [|x l Hx _ IH]; [done|]. cbn [take_short]. by rewrite (proj2 (N.ltb_lt _ _) Hx), IH. Qed.

(** The params file for the container is made exactly if the file of the host
    enables the modification of device files and does not disable it, it is
    then the file of the host with these lines replaced, and modifying it
    again changes nothing. *)
Theorem params_file_spec contents out :
  getModifiedParamsFileContentsFromReader contents = Ok (Some out) <->
  (let lines := scan_lines contents in
   ~ disabled ∈ lines /\ enabled ∈ lines /\ snd (scan contents) = false
   /\ out = text_of (map disable_line lines) /\ getModifiedParamsFileContentsFromReader out = Ok None).
Proof.
  assert (Hagain : enabled ∈ scan_lines contents ->
    getModifiedParamsFileContentsFromReader (text_of (map disable_line (scan_lines contents))) = Ok None).
  { intros Hin. rewrite params_spec. cbv zeta. rewrite decide_True; [done|].
    rewrite scan_text_of.
    - rewrite take_short_all.
      + apply list_elem_of_fmap. exists disabled. split; [done|]. apply list_elem_of_fmap. by exists enabled.
      + apply Forall_map. eapply Forall_impl; [apply scan_lines_short|]. intros l Hl. cbn. unfold disable_line.
        by destruct (String.eqb l enabled).
    - apply Forall_map. eapply Forall_impl; [apply scan_lines_free|]. intros l Hl. cbn. unfold disable_line.
      by destruct (String.eqb l enabled). }
  rewrite params_spec. cbv zeta. destruct (decide (disabled ∈ scan_lines contents)) as [Hd|Hd]; [naive_solver|].
  destruct (snd (scan contents)); [naive_solver|]. destruct (decide (enabled ∈ scan_lines contents)) as [He|He]; [|naive_solver].
  split; [intros [= <-]; by auto 10|]. intros (_ & _ & _ & -> & _). done.
Qed.

(** The system calls of the hook are disciplined in the sense of Syscalls.v, but
    for the file that it makes in the container, which is never closed. *)
Lemma createParamsFile_leaks `{Kernel} uuid root contents :
  leaks (root, sdrop 1 (path_join ["/run/nvidia-ctk-hook" +:+ uuid; "nvct-params"])) (createParamsFileInContainer uuid root contents).
Proof. unfold createParamsFileInContainer, params_createTmpFs, WithProcfd. leaking. Qed.

(** ** Properties of the ELF note of the CUDA compat libraries

    The note that [header_of_note] of CDIHooks.v reads, written out: reading is
    the inverse of writing, and a note that is cut off makes the hook panic. *)
#[local] Open Scope Z_scope.

(** ** Alignment *)

Lemma clear_low_bits x k : 0 <= x < 2 ^ 32 -> 0 <= k <= 32 ->
  Z.land x (Z.lxor (2 ^ k - 1) (2 ^ 32 - 1)) = 2 ^ k * (x / 2 ^ k).
Proof.
  intros Hx Hk. transitivity (Z.ldiff x (Z.ones k)).
  - apply Z.bits_inj'. intros i Hi. rewrite Z.land_spec, Z.lxor_spec, Z.ldiff_spec.
    replace (2 ^ k - 1) with (Z.ones k) by (rewrite Z.ones_equiv; lia).
    replace (2 ^ 32 - 1) with (Z.ones 32) by done.
    destruct (Z.ltb_spec i 32).
    + rewrite (Z.ones_spec_low 32) by lia. by rewrite xorb_true_r.
    + destruct (decide (x = 0)) as [->|]; [by rewrite Z.bits_0|]. assert (Z.log2 x < 32) by (apply Z.log2_lt_pow2; lia).
      by rewrite (Z.bits_above_log2 x) by lia.
  - rewrite Z.ldiff_ones_r by lia. rewrite Z.shiftl_mul_pow2, Z.shiftr_div_pow2 by lia. lia.
Qed.

(** [alignUp] rounds up to a multiple of a power of two, or wraps to zero. *)
Lemma alignUp_spec size k : 0 <= size < 2 ^ 32 -> 0 <= k < 32 ->
  alignUp size (2 ^ k) =
    if size + 2 ^ k - 1 <? 2 ^ 32 then 2 ^ k * ((size + 2 ^ k - 1) / 2 ^ k) else 0.
Proof.
  intros Hs Hk. assert (Hpow : 0 < 2 ^ k < 2 ^ 32) by (split; [lia|apply Z.pow_lt_mono_r; lia]).
  unfold alignUp, u32. rewrite (Z.mod_small (2 ^ k)), (Z.mod_small (2 ^ k - 1)) by lia.
  destruct (Z.ltb_spec (size + 2 ^ k - 1) (2 ^ 32)).
  - rewrite Z.mod_small by lia. apply clear_low_bits; lia.
  - replace ((size + 2 ^ k - 1) mod 2 ^ 32) with (size + 2 ^ k - 1 - 2 ^ 32)
      by (apply Z.mod_unique with 1; lia).
    rewrite clear_low_bits by lia. rewrite Z.div_small by lia. lia.
Qed.

(** ** Writing a note *)

Definition write_u32 (big : bool) (n : Z) : string := if big then srev (le32 n) else le32 n.
Fixpoint nuls (n : nat) : string := match n with O => "" | S n => String zero (nuls n) end.
(** A note with the name [NVIDIA Corporation], which is written with its final
    NUL and padded to the alignment [2 ^ k]. *)
Definition note_name : string := "NVIDIA Corporation" +:+ String zero "".
Definition name_space (k : Z) : nat := Z.to_nat (alignUp 19 (2 ^ k)).
Definition write_note (big : bool) (k type : Z) (description : string) : string :=
  (write_u32 big 19 +:+ write_u32 big (Z.of_nat (String.length description)) +:+ write_u32 big type)
  +:+ (note_name +:+ nuls (name_space k - 19)) +:+ description.

Lemma read_write_u32 big n : 0 <= n < 2 ^ 32 -> CDIHooks.read_u32 big (write_u32 big n) = n.
Proof.
  intros Hn. unfold CDIHooks.read_u32, write_u32. destruct big; rewrite ?srev_bytes, ?map_rev, ?rev_involutive.
  all: unfold le32; simpl; unfold byte_val; rewrite !byte_at_val.
  all: change (2 ^ 0) with 1; change (2 ^ 8) with 256; change (2 ^ 16) with 65536; change (2 ^ 24) with 16777216;
    change (2 ^ 32) with 4294967296 in Hn; rewrite Z.div_1_r; Z.to_euclidean_division_equations; lia.
Qed.
Lemma write_u32_length big n : String.length (write_u32 big n) = 4%nat.
Proof. unfold write_u32. destruct big; by rewrite ?srev_length. Qed.
Lemma nuls_length n : String.length (nuls n) = n.
Proof. induction n as [|n IH]; simpl; auto. Qed.
Lemma srev_nuls n : srev (nuls n) = nuls n.
Proof.
  induction n as [|n IH]; [done|]. change (nuls (S n)) with (str1 0 +:+ nuls n) at 1. rewrite srev_sapp, IH.
  clear IH. induction n as [|n IH]; [done|]. cbn [nuls]. rewrite <- IH at 2. done.
Qed.
Lemma trim_nuls n s : trim_byte zero (s +:+ nuls n) = trim_byte zero s.
Proof.
  assert (Hl : forall x, trim_left_byte zero (nuls n +:+ x) = trim_left_byte zero x).
  { intros x. induction n as [|n IH]; [done|]. exact IH. }
  assert (Hr : forall x, trim_right_byte zero (x +:+ nuls n) = trim_right_byte zero x).
  { intros x. unfold trim_right_byte. by rewrite srev_sapp, srev_nuls, Hl. }
  unfold trim_byte. induction s as [|c s IH].
  - rewrite <- (sapp_nil_r ("" +:+ nuls n)). change ("" +:+ nuls n) with (nuls n). by rewrite Hl.
  - change (String c s +:+ nuls n) with (String c (s +:+ nuls n)). cbn [trim_left_byte].
    destruct (Ascii.eqb zero c); [done|]. apply (Hr (String c s)).
Qed.

Lemma name_space_spec k : 0 <= k <= 12 -> alignUp 19 (2 ^ k) = Z.of_nat (name_space k) /\ (19 <= name_space k)%nat.
Proof.
  intros Hk. unfold name_space. assert (H : k = 0 \/ k = 1 \/ k = 2 \/ k = 3 \/ k = 4 \/ k = 5 \/ k = 6 \/ k = 7
    \/ k = 8 \/ k = 9 \/ k = 10 \/ k = 11 \/ k = 12) by lia.
  repeat destruct H as [->|H]; subst; (split; [by vm_compute|apply Nat.leb_le; by vm_compute]).
Qed.

Lemma substring_app a b c : substring (Z.of_nat (String.length a)) (Z.of_nat (String.length b)) (a +:+ b +:+ c) = b.
Proof. unfold substring. by rewrite !Nat2Z.id, sdrop_app, stake_app. Qed.
Lemma substring_app_0 b c : substring 0 (Z.of_nat (String.length b)) (b +:+ c) = b.
Proof. apply (substring_app "" b c). Qed.
Lemma stake_past p n r : (String.length p <= n)%nat -> stake n (p +:+ r) = p +:+ stake (n - String.length p) r.
Proof.
  revert n. induction p as [|c p IH]; intros n Hn; [by rewrite Nat.sub_0_r|].
  destruct n as [|n]; simpl in Hn; [lia|]. change (String c p +:+ r) with (String c (p +:+ r)). cbn [stake].
  rewrite IH by lia. done.
Qed.
Lemma stake_length n s : String.length (stake n s) = Nat.min n (String.length s).
Proof. revert n. induction s as [|c s IH]; intros [|n]; simpl; auto. Qed.

Section Note.
Context (unmarshal : string -> result compatElfHeader) (big : bool) (k type : Z) (d : string).
Context (Hk : 0 <= k <= 12) (Htype : 0 <= type < 2 ^ 32) (Hd : 0 < Z.of_nat (String.length d) < 2 ^ 32).

Lemma read_Nhdr_write body :
  read_Nhdr big ((write_u32 big 19 +:+ write_u32 big (Z.of_nat (String.length d)) +:+ write_u32 big type) +:+ body)
  = Ok (mkNhdr 19 (Z.of_nat (String.length d)) type).
Proof using Htype Hd.
  unfold read_Nhdr. rewrite (proj2 (Nat.ltb_ge _ _)) by (rewrite !slength_app, !write_u32_length; lia).
  pose proof (write_u32_length big) as Hlen. rewrite <- !sapp_assoc.
  set (a := write_u32 big 19). set (b := write_u32 big (Z.of_nat _)). set (c := write_u32 big type).
  assert (Ha : String.length a = 4%nat) by apply Hlen. assert (Hb : String.length b = 4%nat) by apply Hlen.
  assert (Hc : String.length c = 4%nat) by apply Hlen.
  pose proof (substring_app_0 a (b +:+ c +:+ body)) as H1. rewrite Ha in H1.
  pose proof (substring_app a b (c +:+ body)) as H2. rewrite Ha, Hb in H2.
  pose proof (substring_app (a +:+ b) c body) as H3. rewrite slength_app, Ha, Hb, Hc, <- sapp_assoc in H3.
  change (Z.of_nat 4) with 4 in *. change (Z.of_nat (4 + 4)) with 8 in H3. rewrite H1, H2, H3.
  unfold a, b, c. by rewrite !read_write_u32 by lia.
Qed.

Lemma header_of_written body :
  let n := Z.of_nat (name_space k) in
  let hd := write_u32 big 19 +:+ write_u32 big (Z.of_nat (String.length d)) +:+ write_u32 big type in
  header_of_note unmarshal big (2 ^ k) (hd +:+ body) =
  match trim (hd +:+ body) 12 n with
  | None => None
  | Some name =>
      if negb (String.eqb name "NVIDIA Corporation") then Some (Ok None)
      else match trim (hd +:+ body) (12 + n) (Z.of_nat (String.length d)) with
           | None => None
           | Some description => Some (let? h := wrap "could not unmarshal JSON data" (unmarshal description) in Ok (Some h))
           end
  end.
Proof using Hk Htype Hd.
  cbv zeta. unfold header_of_note. rewrite read_Nhdr_write. cbn [NameSize DescSize].
  destruct (name_space_spec k Hk) as [-> _]. rewrite (proj2 (Z.eqb_neq (Z.of_nat (String.length d)) 0)) by lia. done.
Qed.
End Note.

Lemma trim_written hd a b x : trim (hd +:+ a +:+ b) (Z.of_nat (String.length hd)) (Z.of_nat (String.length a)) = Some x ->
  x = trim_byte zero a.
Proof. unfold trim. rewrite substring_app. case_match; [by intros [= <-]|done]. Qed.
Lemma trim_enough data from len : from + len <= Z.of_nat (String.length data) ->
  trim data from len = Some (trim_byte zero (substring from len data)).
Proof. intros H. unfold trim. by rewrite (proj2 (Z.leb_le _ _)). Qed.
Lemma trim_short data from len : Z.of_nat (String.length data) < from + len -> trim data from len = None.
Proof. intros H. unfold trim. by rewrite (proj2 (Z.leb_gt _ _)). Qed.

Lemma trim_note_name k : trim_byte zero (note_name +:+ nuls (name_space k - 19)) = "NVIDIA Corporation".
Proof. by rewrite trim_nuls. Qed.
Lemma note_name_length k : 0 <= k <= 12 -> String.length (note_name +:+ nuls (name_space k - 19)) = name_space k.
Proof. intros Hk. destruct (name_space_spec k Hk) as [_ H]. rewrite slength_app, nuls_length. simpl. lia. Qed.

(** Reading the ELF note of a compat library gives the description that was
    written, for either byte order and every alignment up to a page. *)
Theorem note_roundtrip unmarshal big k type d h :
  0 <= k <= 12 -> 0 <= type < 2 ^ 32 -> 0 < Z.of_nat (String.length d) < 2 ^ 32 -> trim_byte zero d = d ->
  unmarshal d = Ok h ->
  header_of_note unmarshal big (2 ^ k) (write_note big k type d) = Some (Ok (Some h)).
Proof.
  intros Hk Htype Hd Htrim Hh. unfold write_note. rewrite header_of_written by done.
  set (hd := write_u32 big 19 +:+ _). set (nm := note_name +:+ _).
  assert (Hhd : String.length hd = 12%nat) by (unfold hd; by rewrite !slength_app, !write_u32_length).
  assert (Hnm : String.length nm = name_space k) by by apply note_name_length.
  change 12 with (Z.of_nat 12). rewrite <- Hhd, <- Hnm.
  rewrite trim_enough by (rewrite !slength_app; lia). rewrite substring_app.
  unfold nm at 1. rewrite trim_note_name. rewrite String.eqb_refl. cbn [negb].
  rewrite <- Nat2Z.inj_add, <- slength_app.
  rewrite trim_enough by (rewrite !slength_app; lia).
  rewrite (sapp_assoc hd nm d), <- (sapp_nil_r ((hd +:+ nm) +:+ d)), <- sapp_assoc, substring_app, Htrim, Hh. done.
Qed.

(** C34. A note that is cut off anywhere after its first twelve bytes makes the
    hook panic: the sizes in it are not compared with the data. *)
Theorem truncated_note_panics unmarshal big k type d n :
  0 <= k <= 12 -> 0 <= type < 2 ^ 32 -> 0 < Z.of_nat (String.length d) < 2 ^ 32 ->
  (12 <= n < String.length (write_note big k type d))%nat ->
  header_of_note unmarshal big (2 ^ k) (stake n (write_note big k type d)) = None.
Proof.
  intros Hk Htype Hd Hn. revert Hn. unfold write_note.
  set (hd := write_u32 big 19 +:+ _). set (nm := note_name +:+ _).
  assert (Hhd : String.length hd = 12%nat) by (unfold hd; by rewrite !slength_app, !write_u32_length).
  assert (Hnm : String.length nm = name_space k) by by apply note_name_length.
  rewrite !slength_app, Hhd, Hnm. intros Hn. rewrite stake_past, Hhd by lia.
  unfold hd at 1. rewrite header_of_written by done. fold hd.
  destruct (decide (n < 12 + name_space k)%nat) as [Hshort|Hlong].
  { rewrite trim_short; [done|]. rewrite slength_app, stake_length, slength_app, Hhd. lia. }
  rewrite stake_past, Hnm by lia. set (rest := stake _ d).
  assert (Hrest : (String.length rest < String.length d)%nat) by (unfold rest; rewrite stake_length; lia).
  change 12 with (Z.of_nat 12) at 1. rewrite <- Hhd at 1. rewrite <- Hnm at 1.
  rewrite trim_enough by (rewrite !slength_app; lia). rewrite substring_app.
  unfold nm at 1. rewrite trim_note_name, String.eqb_refl. cbn [negb].
  rewrite trim_short; [done|]. rewrite !slength_app, Hhd, Hnm. lia.
Qed.

Definition example_description : string := "{}".
Definition example_header : compatElfHeader := mkCompatElfHeader 1 "12.8" [570] [].
Lemma note_roundtrip_witness :
  header_of_note (fun _ => Ok example_header) false (2 ^ 2) (write_note false 2 1 example_description) = Some (Ok (Some example_header)).
Proof. apply note_roundtrip; (reflexivity || (vm_compute; split; congruence)). Defined.
Lemma truncated_note_panics_witness :
  header_of_note (fun _ => Ok example_header) true (2 ^ 3) (stake 33 (write_note true 3 1 example_description)) = None.
Proof. apply truncated_note_panics; try (vm_compute; split; congruence). split; apply Nat.leb_le; reflexivity. Defined.

(** ** Properties of the enable-cuda-compat hook

    What the hook adds to a container, and when it uses the compat libraries. *)
(** ** Temporary files *)

Lemma join_last_not_slash p : Forall proper p -> p <> [] -> has_suffix (join "/" p) "/" = false.
Proof.
  intros Hp Hne. destruct (has_suffix (join "/" p) "/") eqn:Hs; [|done]. exfalso.
  apply has_suffix_spec in Hs as [r Hr]. destruct p as [|c p _] using rev_ind; [done|].
  apply Forall_app in Hp as [_ Hc]. rewrite Forall_singleton in Hc. destruct Hc as (Hc & _ & _ & Hs).
  assert (Hend : exists a, r +:+ "/" = a +:+ c).
  { rewrite <- Hr. destruct (decide (p = [])) as [->|Hpn]; [by exists ""|]. rewrite join_snoc by done.
    exists (join "/" p +:+ "/"). by rewrite <- sapp_assoc. }
  destruct Hend as [a Ha]. apply (f_equal srev) in Ha. rewrite !srev_sapp in Ha.
  rewrite <- has_byte_srev in Hs. destruct (srev c) as [|x t] eqn:Hx.
  - apply (f_equal srev) in Hx. by rewrite srev_involutive in Hx.
  - change (srev "/") with (String slash "") in Ha. injection Ha as <- _. done.
Qed.
Lemma temp_path_abs p pattern pre suf x : Forall proper p -> prefixAndSuffix pattern = (pre, suf) ->
  temp_path (abs_path p) pattern x = abs_path (p ++ [pre +:+ x +:+ suf]).
Proof.
  intros Hp Hpat. unfold temp_path. rewrite Hpat. destruct (decide (p = [])) as [->|Hne]; [done|].
  assert (Hs : has_suffix (abs_path p) "/" = false).
  { unfold has_suffix, abs_path. rewrite srev_sapp. pose proof (join_last_not_slash p Hp Hne) as Hj. unfold has_suffix in Hj.
    destruct (srev (join "/" p)) as [|c t] eqn:E.
    - apply (f_equal srev) in E. rewrite srev_involutive in E. destruct p as [|d p]; [done|].
      inversion Hp as [|? ? (Hd & _)]; subst. destruct d; [done|]. by destruct p.
    - change (srev "/") with (String slash "") in *. change (String c t +:+ String slash "") with (String c (t +:+ String slash "")).
      rewrite has_prefix_cons, has_prefix_empty in Hj. by rewrite has_prefix_cons, has_prefix_empty. }
  rewrite Hs. unfold abs_path. by rewrite join_snoc, <- sapp_assoc.
Qed.

Lemma create_temp_plain pattern pre suf random n p f path f' :
  prefixAndSuffix pattern = (pre, suf) -> (forall x, x ∈ random -> proper (pre +:+ x +:+ suf)) ->
  well_formed f -> Forall proper p -> no_link f p ->
  create_temp random n (abs_path p) pattern f = inr (path, f') ->
  exists c, f !! (p ++ [c]) = None /\ f' = <[p ++ [c] := n]> f /\ well_formed f' /\ path = abs_path (p ++ [c]) /\ proper c.
Proof.
  intros Hpat Hrandom Hwf Hp Hl. induction random as [|x random IH]; [done|]. cbn [create_temp].
  rewrite (temp_path_abs p pattern pre suf) by done.
  assert (Hx : proper (pre +:+ x +:+ suf)) by (apply Hrandom; by left).
  destruct (sys_create n _ f) as [e|f1] eqn:Hc.
  - destruct e; try done. apply IH. intros y Hy. apply Hrandom. by right.
  - intros [= <- <-]. apply create_plain in Hc as (_ & Hnew & -> & Hwf'); [by exists (pre +:+ x +:+ suf)|done| |by apply no_link_above_snoc].
    apply Forall_app. split; [done|]. by rewrite Forall_singleton.
Qed.

(** ** The hook stays in the container *)

(** Directories and at most one file are added. *)
Definition only_adds (f f' : fs) : Prop := forall q, f' !! q = f !! q \/ f !! q = None.
Definition compat_name (x : string) : Prop := has_byte slash x = false.
Lemma compat_name_proper x : compat_name x -> proper ("00-compat-" +:+ x +:+ ".conf").
Proof. intros Hx. repeat split; try done. unfold compat_name in Hx. by rewrite !has_byte_app, Hx. Qed.

Lemma createLdsoconfdFile_plain random root dirs f r f' :
  let rc := clean_components true root in
  Forall compat_name random -> is_abs root = true -> well_formed f -> real_dir f rc ->
  compat_createLdsoconfdFile random root cudaCompatLdsoconfdFilenamePattern dirs f = (r, f') ->
  changes_below rc f f' /\ well_formed f' /\ only_adds f f'
  /\ (r = Ok tt -> dirs = [] \/ exists p, rc `prefix_of` p /\ f !! p = None /\ f' !! p = Some (FileNode (lines_text dirs) 420)).
Proof.
  intros rc Hrandom Hroot Hwf Hreal. unfold compat_createLdsoconfdFile.
  assert (Hsame : forall e, (Err e, f) = (r, f') -> changes_below rc f f' /\ well_formed f' /\ only_adds f f'
    /\ (r = Ok tt -> dirs = [] \/ exists p, rc `prefix_of` p /\ f !! p = None /\ f' !! p = Some (FileNode (lines_text dirs) 420))).
  { intros e [= <- <-]. split; [done|]. split; [done|]. split; [by left|done]. }
  destruct dirs as [|d dirs]; [intros [= <- <-]; split; [done|]; split; [done|]; split; [by left|by left]|].
  set (text := FileNode (lines_text (d :: dirs)) 420) in *. clearbody text.
  unfold containerRoot_resolve. rewrite FollowSymlinkInScope_clean, (clean_root root) by done. fold rc.
  assert (Hprc : Forall proper rc) by apply clean_components_proper.
  pose proof (real_dir_no_link f rc Hwf Hreal) as Hlrc.
  destruct (FollowSymlinkInScope _ _ _) as [dir|e] eqn:Hfollow; [|apply Hsame].
  apply FollowSymlinkInScope_contained in Hfollow as (ds & -> & Hp & Hl); [|done..].
  unfold sys_MkdirAll. rewrite clean_components_abs_path by done.
  destruct (mkdir_all 493 (rev (rc ++ ds)) f) as [rm f1] eqn:Hm.
  apply mkdir_all_plain in Hm as (Hwf1 & Hc1 & Ha1 & _); [|done..].
  assert (Hadds : only_adds f f1) by (intros q; destruct (Ha1 q) as [?|[? _]]; [by left|by right]).
  destruct rm as [e|[]]; [intros [= <- <-]; by split_and!|].
  destruct (create_temp _ _ _ _ f1) as [e|[path f2]] eqn:Hc; intros [= <- <-]; [by split_and!|].
  apply (create_temp_plain _ "00-compat-" ".conf") in Hc as (c & Hnew & -> & Hwf2 & _ & _);
    [|done| |done|done|by eapply adds_dirs_no_link].
  2: { intros x Hx. apply compat_name_proper. rewrite Forall_forall in Hrandom. by apply Hrandom. }
  rewrite <- app_assoc in *.
  assert (Hnone : f !! (rc ++ ds ++ [c]) = None).
  { destruct (Ha1 (rc ++ ds ++ [c])) as [He|[He _]]; [by rewrite <- He|done]. }
  split; [etrans; [done|]; apply changes_insert, snoc_ne|]. split; [done|]. split.
  - intros q. destruct (decide (q = rc ++ ds ++ [c])) as [->|Hne]; [by right|]. rewrite lookup_insert_ne by done. apply Hadds.
  - intros _. right. exists (rc ++ ds ++ [c]). split; [by exists (ds ++ [c])|]. split; [done|]. by rewrite lookup_insert_eq.
Qed.

(** C30. The enable-cuda-compat hook stays in the container, whatever links the
    image contains: nothing outside of the container root changes, and nothing
    in it is replaced. *)
Theorem cudacompat_contained elf_Open unmarshal (random : list string) (root : fs -> result string) containerRoot o
    (f : fs) r (f' : fs) :
  let rc := clean_components true containerRoot in
  Forall compat_name random -> root f = Ok containerRoot -> is_abs containerRoot = true ->
  well_formed f -> real_dir f rc ->
  cudacompat_run elf_Open unmarshal random root o f = Some (r, f') ->
  changes_below rc f f' /\ only_adds f f' /\ well_formed f'.
Proof.
  intros rc Hrandom Hr Hroot Hwf Hreal. unfold cudacompat_run. rewrite Hr.
  assert (Hsame : forall r0, Some (r0, f) = Some (r, f') -> changes_below rc f f' /\ only_adds f f' /\ well_formed f').
  { intros r0 [= <- <-]. split; [done|]. split; [by left|done]. }
  destruct (_ && _); [apply Hsame|]. destruct (getContainerForwardCompatDir _ _ _ _ _) as [[dir|e]|]; [|apply Hsame|done].
  destruct (String.eqb dir ""); [apply Hsame|]. intros Hrun.
  destruct (createLdsoconfdFile_plain random containerRoot [dir] f r f') as (? & ? & ? & _); try done.
  set (made := compat_createLdsoconfdFile _ _ _ _ _) in *. by injection Hrun.
Qed.

(** A container with compat libraries, where [/etc/ld.so.conf.d] leads out of it. *)
Definition compat_container : fs := map_of_nodes [
  (["c"], DirNode 493); (["etc"], DirNode 493); (["c"; "etc"], DirNode 493);
  (["c"; "etc"; "ld.so.conf.d"], LinkNode "../../../etc/conf");
  (["c"; "usr"], DirNode 493); (["c"; "usr"; "local"], DirNode 493);
  (["c"; "usr"; "local"; "cuda"], LinkNode "/opt/cuda");
  (["c"; "opt"], DirNode 493); (["c"; "opt"; "cuda"], DirNode 493); (["c"; "opt"; "cuda"; "compat"], DirNode 493);
  (["c"; "opt"; "cuda"; "compat"; "libcuda.so.1"], LinkNode "libcuda.so.570.1.1");
  (["c"; "opt"; "cuda"; "compat"; "libcuda.so.570.1.1"], FileNode "" 420)].
Definition compat_run : option (result unit * fs) :=
  cudacompat_run (fun _ => ElfMissing) (fun _ => Err "") ["1"] (fun _ => Ok "/c")
    (mkCudacompatOptions defaultCudaCompatPath "550.54" "") compat_container.
Definition compat_after : result unit * fs := default (Err "", ∅) compat_run.

Lemma cudacompat_contained_witness :
  changes_below ["c"] compat_container (snd compat_after)
  /\ snd compat_after !! ["c"; "etc"; "conf"; "00-compat-1.conf"]
     = Some (FileNode (lines_text ["/opt/cuda/compat"]) 420).
Proof.
  split; [|vm_compute; reflexivity].
  apply (cudacompat_contained (fun _ => ElfMissing) (fun _ => Err "") ["1"] (fun _ => Ok "/c") "/c"
    (mkCudacompatOptions defaultCudaCompatPath "550.54" "") compat_container (fst compat_after) (snd compat_after));
    [by repeat constructor|done|done|by apply well_formed_b_true|by apply real_dir_b_true|vm_compute; reflexivity].
Defined.

(** If the container root in the OCI specification ends in a slash, the
    directory that is written for the linker has lost its leading slash. *)
Theorem unclean_root_loses_slash :
  let dir root := getContainerForwardCompatDir (fun _ => ElfMissing) (fun _ => Err "") root
    (mkCudacompatOptions defaultCudaCompatPath "550.54" "") compat_container in
  dir "/c" = Some (Ok "/opt/cuda/compat") /\ dir "/c/" = Some (Ok "opt/cuda/compat").
Proof. split; vm_compute; reflexivity. Qed.
