(* ===== verification/Ldconfig.v ===== *)
(** * Updating the linker cache (src/internal/ldconfig, update-ldcache)

    The hook starts itself again in new namespaces with the arguments of
    [NewRunner] and parses them with [NewFromArgs]; the new process prepares
    the container root (system calls, Syscalls.v), and updates the
    configuration of the linker in what is then the root of its file system
    (FileSystem.v). The architecture, the answers of the kernel, the mount
    tables and random names are parameters. *)
From S2P Require Import Prelude GoStrings GoPaths Lookup ProcInfo FileSystem OsFiles Config CDIHooks Syscalls.
#[local] Open Scope go_scope.

Definition ldsoconfdFilenamePattern : string := "00-nvcr-*.conf".
Definition ldsoconfdSystemDirsFilenamePattern : string := "zz-nvcr-*.conf".
Definition defaultTopLevelLdsoconfFilePath : string := "/etc/ld.so.conf".
Definition defaultLdsoconfdDir : string := "/etc/ld.so.conf.d".

Record Ldconfig := mkLdconfig {
  ldconfigPath : string; inRoot : string; isDebianLikeHost : bool; isDebianLikeContainer : bool;
  noPivotRoot : bool; directories : list string;
}.
Definition set_debian_container (b : bool) (l : Ldconfig) : Ldconfig :=
  mkLdconfig (ldconfigPath l) (inRoot l) (isDebianLikeHost l) b (noPivotRoot l) (directories l).

(** ** The arguments of the new process *)

(** [getRootfsType] and [noPivotRoot] on the mounts of the process, if they
    can be read: pairs of a mount point and its type. *)
Definition getRootfsType (mountStats : result (list (string * string))) (path : string) : result string :=
  let? stats := mountStats in
  match List.find (fun m => String.eqb (fst m) path) stats with
  | Some (_, t) => Ok t
  | None => Err ("mount stats for " +:+ quote path +:+ " not found")
  end.
Definition detect_noPivotRoot (mountStats : result (list (string * string))) : bool :=
  match getRootfsType mountStats "/" with Ok t => String.eqb t "rootfs" | Err _ => false end.

Definition NewRunner `{Host} (debianLike noPivot : bool) (id ldconfigPath containerRoot : string)
    (additionalargs : list string) : list string :=
  [id; "--ldconfig-path"; trim_prefix (normalize ("@" +:+ ldconfigPath)) "@"; "--container-root"; containerRoot]
  ++ (if debianLike then ["--is-debian-like-host"] else [])
  ++ (if noPivot then ["--no-pivot"] else [])
  ++ additionalargs.

(** Package flag on the four flags of [NewFromArgs]. *)
Record flag_values := mkFlags { fv_path : string; fv_root : string; fv_debian : bool; fv_no_pivot : bool }.
Definition set_string_flag (name value : string) (v : flag_values) : option flag_values :=
  if String.eqb name "ldconfig-path" then Some (mkFlags value (fv_root v) (fv_debian v) (fv_no_pivot v))
  else if String.eqb name "container-root" then Some (mkFlags (fv_path v) value (fv_debian v) (fv_no_pivot v))
  else None.
Definition set_bool_flag (name : string) (b : bool) (v : flag_values) : option flag_values :=
  if String.eqb name "is-debian-like-host" then Some (mkFlags (fv_path v) (fv_root v) b (fv_no_pivot v))
  else if String.eqb name "no-pivot" then Some (mkFlags (fv_path v) (fv_root v) (fv_debian v) b)
  else None.
Definition is_flag (s : string) : bool := has_prefix s "-" && negb (String.eqb s "-").
(** An argument as a flag: its name and the value after an equals sign;
    [None] is bad syntax. *)
Definition flag_of (s : string) : option (string * option string) :=
  let name := if has_prefix s "--" then sdrop 2 s else sdrop 1 s in
  if String.eqb name "" || has_prefix name "-" || has_prefix name "=" then None
  else match cut "=" name with Some (n, v) => Some (n, Some v) | None => Some (name, None) end.
(** The values and the arguments that are left. The flag set exits on an
    error. *)
Fixpoint parse_flags (args : list string) (v : flag_values) : result (flag_values * list string) :=
  match args with
  | [] => Ok (v, [])
  | s :: args =>
      if negb (is_flag s) then Ok (v, s :: args)
      else if String.eqb s "--" then Ok (v, args)
      else
        match flag_of s with
        | None => Err ("bad flag syntax: " +:+ s)
        | Some (name, value) =>
            match set_bool_flag name (default true (value ≫= parse_bool)) v with
            | Some v =>
                match value with
                | Some x => match parse_bool x with
                            | Some _ => parse_flags args v
                            | None => Err ("invalid boolean value " +:+ quote x +:+ " for -" +:+ name +:+ ": parse error")
                            end
                | None => parse_flags args v
                end
            | None =>
                match set_string_flag name "" v with
                | None => Err ("flag provided but not defined: -" +:+ name)
                | Some _ =>
                    match value, args with
                    | Some x, _ => parse_flags args (default v (set_string_flag name x v))
                    | None, x :: args => parse_flags args (default v (set_string_flag name x v))
                    | None, [] => Err ("flag needs an argument: -" +:+ name)
                    end
                end
            end
        end
  end.
Definition NewFromArgs (args : list string) : result Ldconfig :=
  match args with
  | [] => Err "incorrect arguments: []"
  | _ :: args =>
      match parse_flags args (mkFlags "" "" false false) with
      | Err e => Err e
      | Ok (v, rest) =>
          if String.eqb (fv_path v) "" then Err "an ldconfig path must be specified"
          else if String.eqb (fv_root v) "" || String.eqb (fv_root v) "/"
          then Err "ldconfig must be run in the non-system root"
          else Ok (mkLdconfig (fv_path v) (fv_root v) (fv_debian v) false (fv_no_pivot v) rest)
      end
  end.

(** ** Search paths and configuration files *)

Definition is_file_at (f : fs) (path : string) : bool :=
  match sys_Stat f path with inl _ => false | inr n => negb (is_dir_node n) end.
Definition isMusl (f : fs) : bool := is_file_at f "/etc/alpine-release".
Definition isDebianLike (f : fs) : bool := is_file_at f "/etc/debian_version".

Section Files.
Context (GOARCH : string).

Definition nonDebianSystemSearchPaths : list string :=
  ["/lib"; "/usr/lib"] ++
  (if String.eqb GOARCH "amd64" then ["/lib64"; "/usr/lib64"; "/libx32"; "/usr/libx32"]
   else if String.eqb GOARCH "arm64" then ["/lib64"; "/usr/lib64"] else []).
Definition debianSystemSearchPaths : list string :=
  (if String.eqb GOARCH "amd64" then ["/lib/x86_64-linux-gnu"; "/usr/lib/x86_64-linux-gnu"]
   else if String.eqb GOARCH "arm64" then ["/lib/aarch64-linux-gnu"; "/usr/lib/aarch64-linux-gnu"] else [])
  ++ ["/lib"; "/usr/lib"].
Definition getSystemSearchPaths (l : Ldconfig) : list string :=
  if isDebianLikeContainer l then debianSystemSearchPaths else nonDebianSystemSearchPaths.

(** The directories and the included files of a configuration file; includes
    that cannot be globbed are ignored. *)
Definition conf_line (f : fs) (line : string) : list string * list string :=
  let line := trim_space line in
  if has_prefix line "#" || String.eqb line "" then ([], [])
  else if has_prefix line "include " then
    match fs_Glob f (trim_prefix line "include ") with
    | Err _ => ([], [])
    | Ok include => ([], include)
    end
  else ([line], []).
Definition processLdsoconfFile (f : fs) (ldsoconfFilename : string) : result (list string * list string) :=
  match sys_Open f ldsoconfFilename with
  | inl ENOENT => Ok ([], [])
  | inl e => Err (path_error "open" ldsoconfFilename e)
  | inr n =>
      let lines := map (conf_line f) (scan_lines (node_content n)) in
      Ok (concat (map fst lines), concat (map snd lines))
  end.
(** The loop over the files that are left; each file is processed once.
    [None] is out of fuel. *)
Fixpoint conf_loop (fuel : nat) (f : fs) (processed : gset string) (filenames : list string) (dirs : gset string)
    : option (result (gset string)) :=
  match filenames, fuel with
  | [], _ => Some (Ok dirs)
  | _, O => None
  | file :: filenames, S fuel =>
      if decide (file ∈ processed) then conf_loop fuel f processed filenames dirs
      else
        let processed := {[file]} ∪ processed in
        if String.eqb file "" then conf_loop fuel f processed filenames dirs
        else
          match processLdsoconfFile f file with
          | Err e => Some (Err e)
          | Ok (directories, included) =>
              conf_loop fuel f processed (filenames ++ included) (list_to_set directories ∪ dirs)
          end
  end.
(** The files that can be met, with repetitions, and the number of iterations
    that is enough for them. *)
Definition included (f : fs) (file : string) : list string :=
  match processLdsoconfFile f file with Ok (_, l) => l | Err _ => [] end.
Definition node_includes (f : fs) (n : node) : list string :=
  concat (map snd (map (conf_line f) (scan_lines (node_content n)))).
Definition conf_files (f : fs) (configFilePath : string) : list string :=
  configFilePath :: concat (map (fun e => node_includes f (snd e)) (map_to_list f)).
Definition conf_fuel (f : fs) (configFilePath : string) : nat :=
  S (sum_list_with (fun file => length (included f file)) (conf_files f configFilePath)).
Definition getLdsoconfDirectories (f : fs) (l : Ldconfig) (configFilePath : string) : option (result (gset string)) :=
  conf_loop (conf_fuel f configFilePath) f ∅ [configFilePath] (list_to_set (getSystemSearchPaths l)).
Definition filterDirectories (f : fs) (l : Ldconfig) (configFilePath : string) (dirs : list string)
    : result (list string) :=
  match getLdsoconfDirectories f l configFilePath with
  | None => Err "out of fuel"
  | Some (Err e) => Err e
  | Some (Ok ldconfigDirs) => Ok (dedup_by id ldconfigDirs dirs)
  end.

(** ** Writing the configuration *)

(** [outputListToFile] *)
Definition outputListToFile (dirs : list string) : string := lines_text dirs.
Context (random : list string).
Definition createLdsoconfdFile (ldsoconfdDir pattern : string) (dirs : list string) (f : fs) : result unit * fs :=
  match dirs with
  | [] => (Ok tt, f)
  | _ =>
      match sys_MkdirAll 493 ldsoconfdDir f with
      | (inl e, f) => (Err ("failed to create ld.so.conf.d: " +:+ path_error "mkdir" ldsoconfdDir e), f)
      | (inr _, f) =>
          match create_temp random (FileNode (outputListToFile dirs) 420) ldsoconfdDir pattern f with
          | inl e => (Err ("failed to create config file: " +:+ errno_text e), f)
          | inr (_, f) => (Ok tt, f)
          end
      end
  end.
Definition ensureLdsoconfFile (topLevelLdsoconfFilePath ldsoconfdDir : string) (f : fs) : result unit * fs :=
  match sys_create_excl 420 ("include " +:+ ldsoconfdDir +:+ "/*.conf" +:+ newline) topLevelLdsoconfFilePath f with
  | inr f => (Ok tt, f)
  | inl EEXIST => (Ok tt, f)
  | inl e => (Err ("failed to create top-level ld.so.conf file: " +:+ path_error "open" topLevelLdsoconfFilePath e), f)
  end.
Definition muslPathFileName : string :=
  if String.eqb GOARCH "amd64" then "/etc/ld-musl-x86_64.path"
  else if String.eqb GOARCH "arm64" then "/etc/ld-musl-aarch64.path" else "".
Definition createMuslPathFileIfRequired (dirs : list string) (f : fs) : result unit * fs :=
  if bool_decide (dirs = []) || negb (isMusl f) then (Ok tt, f)
  else
    (* opening the empty name fails *)
    match (if String.eqb muslPathFileName "" then inl ENOENT else sys_append 420 (outputListToFile dirs) muslPathFileName f) with
    | inl e => (Err ("could not open .path file: " +:+ path_error "open" muslPathFileName e), f)
    | inr f => (Ok tt, f)
    end.

Definition then_do (r : result unit * fs) (msg : string) (k : fs -> result (list string) * fs) : result (list string) * fs :=
  match r with (Ok _, f) => k f | (Err e, f) => (Err (msg +:+ ": " +:+ e), f) end.
(** The part of [UpdateLDCache] after the root is prepared, with the arguments
    that ldconfig is run with at the end. *)
Definition update_config (l : Ldconfig) (ldconfigPath : string) (f : fs) : result (list string) * fs :=
  let l := set_debian_container (isDebianLike f) l in
  then_do (ensureLdsoconfFile defaultTopLevelLdsoconfFilePath defaultLdsoconfdDir f) "failed to ensure ld.so.conf file" (fun f =>
  match filterDirectories f l defaultTopLevelLdsoconfFilePath (directories l) with
  | Err e => (Err e, f)
  | Ok filteredDirectories =>
      then_do (createLdsoconfdFile defaultLdsoconfdDir ldsoconfdFilenamePattern filteredDirectories f)
        ("failed to write " +:+ ldsoconfdFilenamePattern +:+ " drop-in") (fun f =>
      then_do (createLdsoconfdFile defaultLdsoconfdDir ldsoconfdSystemDirsFilenamePattern (getSystemSearchPaths l) f)
        ("failed to write " +:+ ldsoconfdSystemDirsFilenamePattern +:+ " drop-in") (fun f =>
      then_do (createMuslPathFileIfRequired (filteredDirectories ++ getSystemSearchPaths l) f)
        "failed to update .path file for musl" (fun f =>
      (Ok [path_base ldconfigPath; "-f"; defaultTopLevelLdsoconfFilePath; "-C"; "/etc/ld.so.cache"], f))))
  end).
End Files.

(** ** Preparing the root (ldconfig_linux.go) *)

(** What is read from the mount table: the entries of [mountinfo]. *)
Record mount_info := mkMountInfo { info_Root : string; info_FSType : string; Mountpoint : string }.

Section Root.
Context `{Kernel} (getMounts : result (list mount_info)) (uuid : string)
  (host_stat : string -> result Z).

Definition errno_of (e : errno) : string := errno_text e.
(** [pivotRoot] of ldconfig_linux.go *)
Definition pivot_root (rootfs : string) : Sys (result unit) :=
  try (OpenDir "/") (path_error "open" "/") (deferring (CloseDir "/")
  (try (OpenDir rootfs) (path_error "open" rootfs) (deferring (CloseDir rootfs)
  (try (Fchdir rootfs) (path_error "fchdir" "fd")
  (try (PivotRoot "." ".") (path_error "pivot_root" ".")
  (try (Fchdir "/") (path_error "fchdir" "fd")
  (try (Mount "" (At ".") "" (flags_or [MS_SLAVE; MS_REC]) "") errno_of
  (try (Unmount "." MNT_DETACH) errno_of
  (try (Chdir "/") (path_error "chdir" "/")
  (sys_ret (Ok tt))))))))))).
(** The filter of [msMoveRoot]: full mounts of proc and sysfs outside of the
    container. *)
Definition is_full_pseudo (rootfs : string) (info : mount_info) : bool :=
  negb (negb (String.eqb (info_Root info) "/")
        || (negb (String.eqb (info_FSType info) "proc") && negb (String.eqb (info_FSType info) "sysfs"))
        || has_prefix (Mountpoint info) rootfs).
Fixpoint mask_mounts (infos : list mount_info) (k : Sys (result unit)) : Sys (result unit) :=
  match infos with
  | [] => k
  | info :: infos =>
      let p := Mountpoint info in
      sys! slave := sys (Mount "" (At p) "" (flags_or [MS_SLAVE; MS_REC]) "") in
      match slave with
      | Some ENOENT => mask_mounts infos k
      | Some e => sys_ret (Err (errno_text e))
      | None =>
          sys! unmounted := sys (Unmount p MNT_DETACH) in
          match unmounted with
          | None => mask_mounts infos k
          | Some EINVAL | Some EPERM => try (Mount "tmpfs" (At p) "tmpfs" 0 "") errno_of (mask_mounts infos k)
          | Some e => sys_ret (Err (errno_text e))
          end
      end
  end.
Definition chroot : Sys (result unit) :=
  try (Chroot ".") (path_error "chroot" ".") (try (Chdir "/") (path_error "chdir" "/") (sys_ret (Ok tt))).
Definition msMoveRoot (rootfs : string) : Sys (result unit) :=
  match getMounts with
  | Err e => sys_ret (Err e)
  | Ok infos =>
      mask_mounts (List.filter (is_full_pseudo rootfs) infos)
        (try (Mount rootfs (At "/") "" MS_MOVE "") errno_of chroot)
  end.
(** [Ldconfig.pivotRoot] *)
Definition Ldconfig_pivotRoot (l : Ldconfig) (rootDir : string) : Sys (result unit) :=
  if noPivotRoot l then msMoveRoot rootDir else pivot_root rootDir.

Definition createTmpFs (target : place) (size : Z) : Sys (result unit) :=
  try (Mount "tmpfs" target "tmpfs" 0 ("size=" +:+ fmt_Z size)) errno_of (sys_ret (Ok tt)).
(** [host_stat] gives the size of a file of the host. *)
Definition mountLdConfig (hostLdconfigPath containerRootDirPath : string) : Sys (result string) :=
  match host_stat hostLdconfigPath with
  | Err e => sys_ret (Err ("error reading host ldconfig: " +:+ e))
  | Ok size =>
      let hookScratchDirPath := "/run/nvidia-ctk-hook/" +:+ uuid in
      let ldconfigPath := path_join [hookScratchDirPath; "ldconfig"] in
      try (RootMkdirAll containerRootDirPath (sdrop 1 hookScratchDirPath) 493)
        (fun e => "error creating hook scratch folder: " +:+ errno_text e)
      (sys_then (sys_wrap "error creating tmpfs"
         (WithProcfd containerRootDirPath hookScratchDirPath (fun fd => createTmpFs fd size))) (fun _ =>
      try (RootCreate containerRootDirPath (sdrop 1 ldconfigPath)) (fun e => "error creating ldconfig: " +:+ errno_text e)
      (sys_then (sys_wrap "error bind mounting host ldconfig"
         (WithProcfd containerRootDirPath ldconfigPath (fun fd =>
            try (Mount hostLdconfigPath fd "" (flags_or [MS_BIND; MS_RDONLY; MS_NODEV; MS_PRIVATE; MS_NOSYMFOLLOW]) "") errno_of
              (sys_ret (Ok tt))))) (fun _ =>
      sys_ret (Ok ldconfigPath)))))
  end.
Definition mountProc (newroot : string) : Sys (result unit) :=
  try (RootMkdirAll newroot "proc" 493) errno_of
    (try (Mount "proc" (At (path_join [newroot; "proc"])) "proc" 0 "") errno_of (sys_ret (Ok tt))).
Definition prepareRoot (l : Ldconfig) : Sys (result string) :=
  let root := inRoot l in
  try (OpenRoot root) (fun e => "failed to open root: " +:+ path_error "openat" root e) (deferring (CloseRoot root)
  (sys_then (sys_wrap "error mounting /proc" (mountProc root)) (fun _ =>
   sys_then (sys_wrap "error mounting host ldconfig" (mountLdConfig (ldconfigPath l) root)) (fun ldconfigPath =>
   sys_then (sys_wrap "error running pivot_root" (Ldconfig_pivotRoot l root)) (fun _ =>
   sys_ret (Ok ldconfigPath)))))).

(** [UpdateLDCache], with the files of the root [rooted] that the process is in
    after the calls so far; the last call runs ldconfig. *)
Context (GOARCH : string) (random : list string) (rooted : list call -> fs).
Definition UpdateLDCache (l : Ldconfig) : Sys (result unit * option fs) :=
  sys! prepared := prepareRoot l in
  match prepared with
  | Err e => sys_ret (Err e, None)
  | Ok path => fun t =>
      match update_config GOARCH random l path (rooted t) with
      | (Err e, f) => sys_ret (Err e, Some f) t
      | (Ok args, f) => (sys! r := try (Exec path args) errno_of (sys_ret (Ok tt)) in sys_ret (r, Some f)) t
      end
  end.
End Root.

(** ** The update-ldcache hook (update-ldcache.go) *)

Definition reexecUpdateLdCacheCommandName : string := "reexec-update-ldcache".
Definition ldcache_validateFlags (cfg_ldconfigPath : string) : result unit :=
  if String.eqb cfg_ldconfigPath "" then Err "ldconfig-path must be specified" else Ok tt.
(** [run] up to the start of the new process, with its arguments. *)
Definition update_ldcache_run `{Host} (debianLike noPivot : bool) (root : result string) (cfg_ldconfigPath : string)
    (folders : list string) : result (list string) :=
  match root with
  | Err e => Err ("failed to determined container root: " +:+ e)
  | Ok containerRootDir =>
      if String.eqb containerRootDir "" || String.eqb containerRootDir "/"
      then Err "failed to determined container root: %!v(<nil>)"
      else Ok (NewRunner debianLike noPivot reexecUpdateLdCacheCommandName cfg_ldconfigPath containerRootDir folders)
  end.
(** [updateLdCache] in the new process *)
Definition updateLdCache `{Kernel} (getMounts : result (list mount_info)) (uuid : string) (host_stat : string -> result Z)
    (GOARCH : string) (random : list string) (rooted : list call -> fs) (args : list string) : Sys (result unit * option fs) :=
  match NewFromArgs args with
  | Err e => sys_ret (Err ("failed to construct ldconfig runner: " +:+ e), None)
  | Ok ldconfig => UpdateLDCache getMounts uuid host_stat GOARCH random rooted ldconfig
  end.
