(* ===== verification/LdconfigProps.v ===== *)
(** * Properties of the update of the linker cache

    The arguments of the new process, the directories that the configuration
    of the linker names, and the configuration that is written. *)
From S2P Require Import Prelude GoStrings GoPaths Lookup ProcInfo FileSystem OsFiles Config CDIHooks CDIHooksProps HookFilesProps Ldconfig Syscalls.

(** ** The arguments of the new process *)

(** The process that [NewRunner] starts gets what it was given: parsing its
    arguments gives the path of ldconfig, the container root, the flags and the
    folders, provided that the first folder does not look like a flag. *)
Theorem NewRunner_NewFromArgs `{Host} debian noPivot id path root dirs :
  root <> "" -> root <> "/" -> trim_prefix (normalize ("@" +:+ path)) "@" <> "" ->
  (forall d ds, dirs = d :: ds -> is_flag d = false) ->
  NewFromArgs (NewRunner debian noPivot id path root dirs)
  = Ok (mkLdconfig (trim_prefix (normalize ("@" +:+ path)) "@") root debian false noPivot dirs).
Proof.
  intros Hroot Hslash. unfold NewRunner. generalize (trim_prefix (normalize ("@" +:+ path)) "@"). intros ldconfig Hpath Hdirs.
  assert (Hrest : forall v, parse_flags dirs v = Ok (v, dirs)).
  { intros v. destruct dirs as [|d ds]; [done|]. cbn [parse_flags]. by rewrite (Hdirs d ds eq_refl). }
  assert (Hparse : parse_flags (["--ldconfig-path"; ldconfig; "--container-root"; root]
    ++ (if debian then ["--is-debian-like-host"] else []) ++ (if noPivot then ["--no-pivot"] else []) ++ dirs)
    (mkFlags "" "" false false) = Ok (mkFlags ldconfig root debian noPivot, dirs)).
  { destruct debian, noPivot; cbn; apply Hrest. }
  unfold NewFromArgs. cbn [app] in Hparse |- *. rewrite Hparse. cbn [fv_path fv_root fv_debian fv_no_pivot].
  by rewrite (proj2 (String.eqb_neq _ _) Hpath), (proj2 (String.eqb_neq _ _) Hroot), (proj2 (String.eqb_neq _ _) Hslash).
Qed.

(** ** The configuration files that are read *)

(** The files that are met from a file by following includes. *)
Inductive reachable (f : fs) (configFilePath : string) : string -> Prop :=
| reachable_config : reachable f configFilePath configFilePath
| reachable_include file file' : reachable f configFilePath file -> file <> "" -> file' ∈ included f file ->
    reachable f configFilePath file'.
Definition conf_directories (f : fs) (file : string) : list string :=
  match processLdsoconfFile f file with Ok (l, _) => l | Err _ => [] end.

Lemma sys_Open_node f file n : sys_Open f file = inr n -> node_content n = "" \/ exists p, f !! p = Some n.
Proof.
  unfold sys_Open, sys_Stat, existing. destruct (resolve f true file) as [|p]; [done|].
  destruct (node_at f p) as [n'|] eqn:Hn; [|done]. intros [= <-]. destruct p as [|c p]; [injection Hn as <-; by left|].
  right. exists (c :: p). by rewrite node_at_ne in Hn.
Qed.
Lemma included_conf_files f cfg file file' : file' ∈ included f file -> file' ∈ conf_files f cfg.
Proof.
  unfold included, processLdsoconfFile. destruct (sys_Open f file) as [e|n] eqn:Ho; [destruct e; by intros ?%elem_of_nil|].
  intros Hin. right. apply sys_Open_node in Ho as [Hempty|[p Hp]]; [rewrite Hempty in Hin; inversion Hin|].
  apply list_elem_of_In, in_concat. exists (node_includes f n). split; [|by apply list_elem_of_In].
  apply in_map_iff. exists (p, n). split; [done|]. by apply list_elem_of_In, elem_of_map_to_list.
Qed.

(** The work that is left: the files in the queue, and those that files not
    yet processed can add. *)
Definition work (f : fs) (l : list string) (processed : gset string) (filenames : list string) : nat :=
  length filenames + sum_list_with (fun file => if decide (file ∈ processed) then 0 else length (included f file)) l.
Lemma work_process f l processed file filenames : file ∈ l -> file ∉ processed ->
  S (work f l ({[file]} ∪ processed) (filenames ++ included f file)) <= work f l processed (file :: filenames).
Proof.
  intros Hin Hnew. unfold work. rewrite length_app. cbn [length].
  assert (Hmono : forall l', sum_list_with (fun x => if decide (x ∈ {[file]} ∪ processed) then 0 else length (included f x)) l'
    <= sum_list_with (fun x => if decide (x ∈ processed) then 0 else length (included f x)) l').
  { intros l'. induction l' as [|x l' IH]; [done|]. cbn [sum_list_with]. destruct (decide (x ∈ processed)).
    - rewrite decide_True by set_solver. lia.
    - destruct (decide (x ∈ {[file]} ∪ processed)); lia. }
  assert (Hle : length (included f file) + sum_list_with (fun x => if decide (x ∈ {[file]} ∪ processed) then 0 else length (included f x)) l
    <= sum_list_with (fun x => if decide (x ∈ processed) then 0 else length (included f x)) l).
  { clear -Hin Hnew Hmono. induction l as [|x l IH]; [by apply elem_of_nil in Hin|]. cbn [sum_list_with].
    apply elem_of_cons in Hin as [<-|Hin].
    - rewrite (decide_True (P := file ∈ _)) by set_solver. rewrite decide_False by done. specialize (Hmono l). lia.
    - specialize (IH Hin). destruct (decide (x ∈ processed)); [rewrite decide_True by set_solver; lia|].
      destruct (decide (x ∈ {[file]} ∪ processed)); lia. }
  lia.
Qed.

(** The invariant of the loop: what was processed is reachable, its includes
    are processed or in the queue, and its directories are collected. *)
Record conf_inv (f : fs) (cfg : string) (sys processed : gset string) (filenames : list string) (dirs : gset string) : Prop := {
  inv_queue : forall x, x ∈ filenames -> reachable f cfg x;
  inv_processed : forall x, x ∈ processed -> reachable f cfg x;
  inv_start : cfg ∈ processed \/ cfg ∈ filenames;
  inv_closed : forall x y, x ∈ processed -> x <> "" -> y ∈ included f x -> y ∈ processed \/ y ∈ filenames;
  inv_dirs : forall d, d ∈ dirs <-> d ∈ sys \/ exists x, x ∈ processed /\ x <> "" /\ d ∈ conf_directories f x;
}.

Lemma conf_inv_step f cfg sys processed file filenames dirs :
  conf_inv f cfg sys processed (file :: filenames) dirs -> file ∉ processed -> file <> "" ->
  conf_inv f cfg sys ({[file]} ∪ processed) (filenames ++ included f file) (list_to_set (conf_directories f file) ∪ dirs).
Proof.
  intros [Hq Hp Hs Hc Hd] Hnew Hne. split.
  - intros x. rewrite elem_of_app. intros [Hx|Hx]; [apply Hq; by right|]. eapply reachable_include; [|done|exact Hx]. apply Hq. by left.
  - intros x. rewrite elem_of_union, elem_of_singleton. intros [->|Hx]; [apply Hq; by left|by apply Hp].
  - destruct Hs as [Hs|Hs]; [left; set_solver|]. apply elem_of_cons in Hs as [->|Hs]; [left; set_solver|right; set_solver].
  - intros x y. rewrite !elem_of_union, !elem_of_app, !elem_of_singleton. intros [->|Hx] Hxne Hy; [auto|].
    destruct (Hc x y Hx Hxne Hy) as [?|Hin]; [auto|]. apply elem_of_cons in Hin as [->|]; auto.
  - intros d. rewrite elem_of_union, elem_of_list_to_set, Hd. setoid_rewrite elem_of_union. setoid_rewrite elem_of_singleton.
    naive_solver.
Qed.
Lemma conf_inv_skip f cfg sys processed file filenames dirs :
  conf_inv f cfg sys processed (file :: filenames) dirs -> file ∈ processed ->
  conf_inv f cfg sys processed filenames dirs.
Proof.
  intros [Hq Hp Hs Hc Hd] Hin. split; [intros x Hx; apply Hq; by right|done| | |done].
  - rewrite elem_of_cons in Hs. naive_solver.
  - intros x y Hx Hxne Hy. destruct (Hc x y Hx Hxne Hy) as [?|H]; [by left|]. rewrite elem_of_cons in H. naive_solver.
Qed.
Lemma conf_inv_empty f cfg sys processed filenames dirs :
  conf_inv f cfg sys processed ("" :: filenames) dirs ->
  conf_inv f cfg sys ({[""]} ∪ processed) filenames dirs.
Proof.
  intros [Hq Hp Hs Hc Hd]. split.
  - intros x Hx. apply Hq. by right.
  - intros x. rewrite elem_of_union, elem_of_singleton. intros [->|Hx]; [apply Hq; by left|by apply Hp].
  - rewrite elem_of_cons in Hs. set_solver.
  - intros x y. rewrite !elem_of_union, !elem_of_singleton. intros [->|Hx] Hxne Hy; [done|].
    destruct (Hc x y Hx Hxne Hy) as [?|Hin]; [auto|]. apply elem_of_cons in Hin as [->|]; auto.
  - intros d. rewrite Hd. setoid_rewrite elem_of_union. setoid_rewrite elem_of_singleton. naive_solver.
Qed.

Lemma conf_loop_spec f cfg sys fuel : forall processed filenames dirs,
  (forall x, x ∈ filenames -> x ∈ conf_files f cfg) ->
  work f (conf_files f cfg) processed filenames <= fuel ->
  conf_inv f cfg sys processed filenames dirs ->
  match conf_loop fuel f processed filenames dirs with
  | None => False
  | Some (Err _) => exists file e, reachable f cfg file /\ processLdsoconfFile f file = Err e
  | Some (Ok dirs) => forall d, d ∈ dirs <-> d ∈ sys \/ exists file, reachable f cfg file /\ file <> "" /\ d ∈ conf_directories f file
  end.
Proof.
  induction fuel as [|fuel IH]; intros processed filenames dirs Hfiles Hwork Hinv.
  all: destruct filenames as [|file filenames]; cbn [conf_loop].
  1, 3: intros d; rewrite (inv_dirs _ _ _ _ _ _ Hinv); split; (intros [?|(x & Hx & Hne & Hd)]; [by left|right; exists x]).
  1, 3: split; [by eapply inv_processed|done].
  1, 2: split; [|done]; clear Hne Hd; induction Hx as [|x y Hx IHx Hne Hy];
    [by destruct (inv_start _ _ _ _ _ _ Hinv) as [?|?%elem_of_nil]
    |by destruct (inv_closed _ _ _ _ _ _ Hinv x y IHx Hne Hy) as [?|?%elem_of_nil]].
  { unfold work in Hwork. cbn [length] in Hwork. lia. }
  assert (Hrest : forall x, x ∈ filenames -> x ∈ conf_files f cfg) by (intros x Hx; apply Hfiles; by right).
  destruct (decide (file ∈ processed)) as [Hin|Hnew].
  { apply IH; [done|unfold work in *; cbn [length] in Hwork; lia|by eapply conf_inv_skip]. }
  assert (Hfile : file ∈ conf_files f cfg) by (apply Hfiles; by left).
  pose proof (work_process f (conf_files f cfg) processed file filenames Hfile Hnew) as Hw.
  destruct (String.eqb_spec file "") as [->|Hne].
  { apply IH; [done| |by apply conf_inv_empty]. unfold work in *. rewrite length_app in Hw. cbn [length] in *. lia. }
  pose proof (conf_inv_step _ _ _ _ _ _ _ Hinv Hnew Hne) as Hstep.
  destruct (processLdsoconfFile f file) as [[ds inc]|e] eqn:Hproc.
  - assert (Hi : included f file = inc) by (unfold included; by rewrite Hproc).
    assert (Hds : conf_directories f file = ds) by (unfold conf_directories; by rewrite Hproc).
    rewrite <- Hi, <- Hds. apply IH; [|lia|done]. intros x. rewrite elem_of_app. intros [?|Hx]; [by apply Hrest|].
    by apply (included_conf_files f cfg file).
  - exists file, e. split; [|done]. eapply inv_queue; [exact Hinv|by left].
Qed.

Lemma work_all f cfg : work f (conf_files f cfg) ∅ [cfg] = conf_fuel f cfg.
Proof.
  unfold work, conf_fuel. generalize (conf_files f cfg). change (length [cfg]) with 1.
  assert (Hempty : forall x, x ∉ (∅ : gset string)) by set_solver. revert Hempty. generalize (∅ : gset string).
  intros processed Hempty l. rewrite Nat.add_1_l. f_equal. induction l as [|x l IH]; [done|].
  cbn [sum_list_with]. by rewrite decide_False, IH.
Qed.

Lemma conf_loop_all f cfg (sys : gset string) :
  match conf_loop (conf_fuel f cfg) f ∅ [cfg] sys with
  | None => False
  | Some (Err _) => exists file e, reachable f cfg file /\ processLdsoconfFile f file = Err e
  | Some (Ok dirs) => forall d, d ∈ dirs <-> d ∈ sys \/ exists file, reachable f cfg file /\ file <> "" /\ d ∈ conf_directories f file
  end.
Proof.
  apply conf_loop_spec.
  - intros x ->%list_elem_of_singleton. left.
  - by rewrite work_all.
  - split; [intros x ->%list_elem_of_singleton; constructor|set_solver|right; by left|set_solver|set_solver].
Qed.

(** C32. Collecting the directories of the linker configuration terminates for
    every file system, whatever files include each other: the result is the
    system search paths and the directories of exactly the files that can be
    reached by includes, or the error of such a file. *)
Theorem getLdsoconfDirectories_spec GOARCH f l cfg :
  match getLdsoconfDirectories GOARCH f l cfg with
  | None => False
  | Some (Err _) => exists file e, reachable f cfg file /\ processLdsoconfFile f file = Err e
  | Some (Ok dirs) => forall d, d ∈ dirs <->
      d ∈ getSystemSearchPaths GOARCH l \/ exists file, reachable f cfg file /\ file <> "" /\ d ∈ conf_directories f file
  end.
Proof.
  unfold getLdsoconfDirectories. generalize (getSystemSearchPaths GOARCH l). intros paths.
  pose proof (conf_loop_all f cfg (list_to_set paths)) as Hspec. destruct (conf_loop _ _ _ _ _) as [[dirs|e]|]; [|done|done].
  intros d. by rewrite Hspec, elem_of_list_to_set.
Qed.

(** ** The configuration that is written *)

(** Nodes are kept, only text is appended to files. *)
Definition kept (n n' : node) : Prop :=
  n' = n \/ exists c t m, n = FileNode c m /\ n' = FileNode (c +:+ t) m.
#[export] Instance kept_trans : Transitive kept.
Proof.
  intros n1 n2 n3 [->|(c & t & m & -> & ->)]; [done|]. intros [->|(c' & t' & m' & [= <- <-] & ->)]; right.
  - by exists c, t, m.
  - exists c, (t +:+ t'), m. by rewrite sapp_assoc.
Qed.
Definition grows (f f' : fs) : Prop := forall q n, f !! q = Some n -> exists n', f' !! q = Some n' /\ kept n n'.
#[export] Instance grows_refl : Reflexive grows.
Proof. intros f q n Hn. exists n. split; [done|by left]. Qed.
#[export] Instance grows_trans : Transitive grows.
Proof.
  intros f1 f2 f3 H12 H23 q n Hn. destruct (H12 q n Hn) as (n2 & Hn2 & Hk). destruct (H23 q n2 Hn2) as (n3 & Hn3 & Hk').
  exists n3. split; [done|]. by etrans.
Qed.
Lemma grows_new f p n : f !! p = None -> grows f (<[p := n]> f).
Proof.
  intros Hp q n' Hq. exists n'. split; [|by left]. rewrite lookup_insert_ne; [done|]. intros ->. by rewrite Hp in Hq.
Qed.
Lemma create_grows n path f f' : sys_create n path f = inr f' -> grows f f' /\ exists p, f !! p = None /\ f' = <[p := n]> f.
Proof.
  unfold sys_create. destruct (resolve f false path) as [|p]; [done|]. destruct (node_at f p) eqn:Hn; [done|]. intros [= <-].
  assert (Hp : f !! p = None) by by destruct p. split; [by apply grows_new|]. by exists p.
Qed.
Lemma mkdir_all_grows mode rcs : forall f r f', mkdir_all mode rcs f = (r, f') -> grows f f'.
Proof.
  induction rcs as [|c rcs IH]; intros f r f'; cbn [mkdir_all].
  { destruct (sys_Stat _ _); by intros [= <- <-]. }
  destruct (sys_Stat _ _) as [e0|n]; [|by intros [= <- <-]].
  destruct (mkdir_all mode rcs f) as [[e|[]] f1] eqn:Hm; [intros [= <- <-]; by eapply IH|]. apply IH in Hm.
  destruct (sys_Mkdir _ _ f1) as [e|f2] eqn:Hc.
  - destruct (sys_Lstat _ _) as [|n]; [|destruct (is_dir_node n)]; by intros [= <- <-].
  - intros [= <- <-]. etrans; [done|]. by apply create_grows in Hc as [? _].
Qed.
Lemma create_temp_grows random n dir pattern f path f' : create_temp random n dir pattern f = inr (path, f') ->
  grows f f' /\ exists p, f !! p = None /\ f' = <[p := n]> f.
Proof.
  induction random as [|x random IH]; [done|]. cbn [create_temp]. destruct (sys_create _ _ f) as [e|f1] eqn:Hc.
  - by destruct e.
  - intros [= <- <-]. by eapply create_grows.
Qed.
Lemma append_grows mode t path f f' : sys_append mode t path f = inr f' -> grows f f'.
Proof.
  unfold sys_append. destruct (resolve f true path) as [|p]; [done|]. destruct (node_at f p) as [[m|c m|tg|a i m]|] eqn:Hn; try done.
  - intros [= <-]. destruct p as [|x p]; [done|]. rewrite node_at_ne in Hn by done. intros q n Hq.
    destruct (decide (q = x :: p)) as [->|Hne].
    + rewrite Hn in Hq. injection Hq as <-. exists (FileNode (c +:+ t) m). rewrite lookup_insert_eq. split; [done|].
      right. by exists c, t, m.
    + exists n. rewrite lookup_insert_ne by done. split; [done|by left].
  - by intros [= <-].
  - intros [= <-]. apply grows_new. by destruct p.
Qed.
Lemma drop_in_grows random dir pattern dirs f r f' : createLdsoconfdFile random dir pattern dirs f = (r, f') ->
  grows f f' /\ (r = Ok tt -> dirs = [] \/ exists p, f !! p = None /\ f' !! p = Some (FileNode (outputListToFile dirs) 420)).
Proof.
  unfold createLdsoconfdFile. destruct dirs as [|d dirs]; [intros [= <- <-]; split; [done|by left]|].
  set (text := FileNode _ 420). destruct (sys_MkdirAll 493 dir f) as [[e|[]] f1] eqn:Hm; apply mkdir_all_grows in Hm.
  { intros [= <- <-]. by split. }
  destruct (create_temp _ _ _ _ f1) as [e|[path f2]] eqn:Hc; intros [= <- <-]; [by split|].
  apply create_temp_grows in Hc as (Hg & p & Hnew & ->). split; [by etrans|]. intros _. right. exists p.
  rewrite lookup_insert_eq. split; [|done]. destruct (f !! p) as [n|] eqn:Hn; [|done].
  apply Hm in Hn as (n' & Hn' & _). by rewrite Hnew in Hn'.
Qed.
Lemma ensure_grows file dir f r f' : ensureLdsoconfFile file dir f = (r, f') -> grows f f'.
Proof.
  unfold ensureLdsoconfFile, sys_create_excl. destruct (sys_create _ _ f) as [e|f1] eqn:Hc.
  - destruct e; by intros [= <- <-].
  - intros [= <- <-]. by apply create_grows in Hc as [? _].
Qed.
Lemma musl_grows GOARCH dirs f r f' : createMuslPathFileIfRequired GOARCH dirs f = (r, f') -> grows f f'.
Proof.
  unfold createMuslPathFileIfRequired. destruct (_ || _); [by intros [= <- <-]|].
  destruct (String.eqb _ ""); [by intros [= <- <-]|]. destruct (sys_append _ _ _ f) as [e|f1] eqn:Ha; intros [= <- <-]; [done|].
  by eapply append_grows.
Qed.

(** A file that was not there before has the line [d]. *)
Definition new_line (f f' : fs) (d : string) : Prop :=
  exists p n lines, f !! p = None /\ f' !! p = Some n /\ kept (FileNode (text_of lines) 420) n /\ d ∈ lines.
Lemma new_line_grows f f1 f2 f3 d : grows f f1 -> new_line f1 f2 d -> grows f2 f3 -> new_line f f3 d.
Proof.
  intros H1 (p & n & lines & Hp & Hn & Hk & Hd) H3. destruct (H3 p n Hn) as (n' & Hn' & Hk').
  exists p, n', lines. split; [destruct (f !! p) eqn:E; [apply H1 in E as (? & ? & _); congruence|done]|]. split; [done|].
  split; [|done]. by etrans.
Qed.
Lemma drop_in_lines random dir pattern dirs f f' d : createLdsoconfdFile random dir pattern dirs f = (Ok tt, f') ->
  d ∈ dirs -> new_line f f' d.
Proof.
  intros Hc Hd. apply drop_in_grows in Hc as [_ Hok]. destruct (Hok eq_refl) as [->|(p & Hp & Hn)]; [inversion Hd|].
  exists p, (FileNode (outputListToFile dirs) 420), (dedup_by id ∅ dirs). split; [done|]. split; [done|]. split; [by left|].
  by apply dedup_by_same.
Qed.

(** C33. Updating the configuration of the linker never removes or rewrites
    anything in the container: nodes are added, and text is appended to files.
    When it succeeds, ldconfig is run on the configuration and every folder of
    the hook is a system search path, is named by the configuration before, or
    is a line of a new file. *)
Theorem update_config_spec GOARCH random l path f :
  let '(r, f') := update_config GOARCH random l path f in
  let l' := set_debian_container (isDebianLike f) l in
  let f1 := snd (ensureLdsoconfFile defaultTopLevelLdsoconfFilePath defaultLdsoconfdDir f) in
  grows f f' /\
  forall args, r = Ok args ->
    args = [path_base path; "-f"; "/etc/ld.so.conf"; "-C"; "/etc/ld.so.cache"] /\
    forall d, d ∈ directories l ->
      d ∈ getSystemSearchPaths GOARCH l'
      \/ (exists file, reachable f1 "/etc/ld.so.conf" file /\ d ∈ conf_directories f1 file)
      \/ new_line f f' d.
Proof.
  unfold update_config. set (l' := set_debian_container (isDebianLike f) l).
  destruct (ensureLdsoconfFile _ _ f) as [[[]|e] f1] eqn:He; apply ensure_grows in He; cbn [then_do snd];
    [|by split].
  unfold filterDirectories. pose proof (getLdsoconfDirectories_spec GOARCH f1 l' defaultTopLevelLdsoconfFilePath) as Hdirs.
  destruct (getLdsoconfDirectories _ _ _ _) as [[known|e]|]; [|by split|done].
  cbv beta iota. change (directories l') with (directories l). set (filtered := dedup_by id known (directories l)).
  destruct (createLdsoconfdFile _ _ ldsoconfdFilenamePattern filtered f1) as [[[]|e] f2] eqn:H2; cbn [then_do];
    pose proof (drop_in_grows _ _ _ _ _ _ _ H2) as [G2 _]; [|split; [by etrans|done]].
  destruct (createLdsoconfdFile _ _ ldsoconfdSystemDirsFilenamePattern _ f2) as [[[]|e] f3] eqn:H3; cbn [then_do];
    pose proof (drop_in_grows _ _ _ _ _ _ _ H3) as [G3 _]; [|split; [by do 2 (etrans; [done|])|done]].
  destruct (createMuslPathFileIfRequired _ _ f3) as [[[]|e] f4] eqn:H4; cbn [then_do]; apply musl_grows in H4;
    (split; [by do 3 (etrans; [done|])|]); [|done].
  intros args [= <-]. split; [done|]. intros d Hd.
  destruct (decide (d ∈ known)) as [Hk|Hk].
  - apply Hdirs in Hk as [?|(file & ? & _ & ?)]; [by left|]. right. left. by exists file.
  - right. right. apply (new_line_grows f f1 f2 f4); [done| |by etrans].
    apply (drop_in_lines _ _ _ _ _ _ _ H2). pose proof (dedup_by_elem (@id string) known (directories l) d) as Hin.
    rewrite !list_fmap_id in Hin. by apply Hin.
Qed.

(** A container whose [/etc/ld.so.conf] does not include the drop-in directory:
    the update succeeds, the folder of the hook is written to a new drop-in
    file, and the configuration still does not name the folder. *)
Definition plain_conf : fs := map_of_nodes [
  (["etc"], DirNode 493); (["etc"; "ld.so.conf"], FileNode (text_of ["/opt/lib"]) 420)].
Definition plain_hook : Ldconfig := mkLdconfig "/sbin/ldconfig" "/c" false false false ["/usr/local/nvidia/lib64"].
Theorem existing_conf_hides_folder :
  let '(r, f') := update_config "amd64" ["1"] plain_hook "/run/ldconfig" plain_conf in
  is_ok r = true
  /\ f' !! ["etc"; "ld.so.conf.d"; "00-nvcr-1.conf"] = Some (FileNode (text_of ["/usr/local/nvidia/lib64"]) 420)
  /\ match getLdsoconfDirectories "amd64" f' plain_hook defaultTopLevelLdsoconfFilePath with
     | Some (Ok dirs) => bool_decide ("/usr/local/nvidia/lib64" ∈ dirs) = false
     | _ => False
     end.
Proof. vm_compute. auto. Qed.

(** ** Properties of the preparation of the container root

    The system calls of [prepareRoot] in Ldconfig.v: the order of the calls,
    what is open and what is mounted on every path, and where the process is
    at the end. *)
Section Root.
Context `{Kernel} (getMounts : result (list mount_info)) (uuid : string) (host_stat : string -> result Z).

Lemma pivot_root_disciplined rootfs : disciplined (pivot_root rootfs).
Proof using Type.
  unfold pivot_root. discipline.
Qed.
Lemma mask_mounts_disciplined infos k : disciplined k -> disciplined (mask_mounts infos k).
Proof using Type.
  intros Hk. induction infos as [|info infos IH]; [done|]. cbn [mask_mounts].
  set (unmounted := fun r : option errno => match r with
    | None => mask_mounts infos k
    | Some EINVAL | Some EPERM => try (Mount "tmpfs" (At (Mountpoint info)) "tmpfs" 0 "") errno_of (mask_mounts infos k)
    | Some e => sys_ret (Err (errno_text e)) end).
  set (failed := fun e : errno => match e with ENOENT => mask_mounts infos k | _ => sys_ret (Err (errno_text e)) end).
  assert (Heq : forall t, (sys! slave := sys (Mount "" (At (Mountpoint info)) "" (flags_or [MS_SLAVE; MS_REC]) "") in
    match slave with Some e => failed e | None => sys! r := sys (Unmount (Mountpoint info) MNT_DETACH) in unmounted r end) t
    = mask_mounts (info :: infos) k t).
  { intros t. cbn [mask_mounts]. unfold sys_bind. destruct (sys _ t) as [[[]|] t1]; done. }
  apply disciplined_ext with (2 := Heq). apply disciplined_detach.
  - intros []; first [exact IH|apply disciplined_ret].
  - intros [e|]; [|exact IH]. destruct e; first [apply disciplined_ret|apply disciplined_try; [done|exact IH]].
Qed.
Lemma pivotRoot_disciplined l root : disciplined (Ldconfig_pivotRoot getMounts l root).
Proof using Type.
  unfold Ldconfig_pivotRoot. destruct (noPivotRoot l); [|apply pivot_root_disciplined].
  unfold msMoveRoot. destruct getMounts as [infos|e]; [|apply disciplined_ret]. apply mask_mounts_disciplined.
  unfold chroot. discipline.
Qed.

(** The file of the root onto which ldconfig of the host is mounted *)
Definition mounted_ldconfig (root : string) : string * string :=
  (root, sdrop 1 (path_join ["/run/nvidia-ctk-hook/" +:+ uuid; "ldconfig"])).
Lemma prepare_leaks l : leaks (mounted_ldconfig (inRoot l)) (prepareRoot getMounts uuid host_stat l).
Proof using Type.
  unfold prepareRoot, mountProc, mountLdConfig, WithProcfd, createTmpFs. leaking.
  apply then_leaks; [apply leaks_wrap|intros path; discipline; apply pivotRoot_disciplined].
  destruct (host_stat (ldconfigPath l)) as [size|e]; leaking.
Qed.

(** C31. On every path through the preparation of the root, whatever calls fail:
    no mount is detached that was not made a slave right before, and the
    descriptors that were opened are closed again in the reverse order, except
    that of the file that is made for ldconfig: it is never closed, and is left
    open whenever the preparation succeeds. *)
Theorem prepareRoot_disciplined l t :
  exists s open_files slave, snd (prepareRoot getMounts uuid host_stat l t) = t ++ s /\
    monitored t s (mkMonitor [] [] None) = Some (mkMonitor [] open_files slave) /\
    (open_files = [mounted_ldconfig (inRoot l)] \/
     open_files = [] /\ exists e, fst (prepareRoot getMounts uuid host_stat l t) = Err e).
Proof using Type. apply leaks_start, prepare_leaks. Qed.
End Root.

(** ** Where the process is *)

(** The root and the working directory of the process after calls that
    succeed, as places of the mount tree that it started in. *)
Record position := mkPosition { pos_root : string; pos_cwd : string }.
Definition move (c : call) (p : position) : position :=
  match c with
  | Fchdir d => mkPosition (pos_root p) d
  | Chdir d => mkPosition (pos_root p) (if String.eqb d "/" then pos_root p else d)
  | PivotRoot "." "." => mkPosition (pos_cwd p) (pos_cwd p)
  | Chroot d => mkPosition (if String.eqb d "." then pos_cwd p else d) (pos_cwd p)
  | _ => p
  end.
Definition moves (s : list call) (p : position) : position := foldl (fun p c => move c p) p s.

Section Position.
Context `{Kernel} (getMounts : result (list mount_info)).

(** [m] only succeeds with calls that move the process as [g] says. *)
Definition moving {A} (g : position -> position) (m : Sys (result A)) : Prop :=
  forall t a, fst (m t) = Ok a -> exists s, snd (m t) = t ++ s /\ forall p, moves s p = g p.

Lemma moving_ret {A} (a : result A) : moving id (sys_ret a).
Proof using Type. intros t a' _. exists []. by rewrite app_nil_r. Qed.
Lemma moving_try {A} c text g (k : Sys (result A)) : moving g k -> moving (fun p => g (move c p)) (try c text k).
Proof using Type.
  intros Hk t a. unfold try, sys_bind, sys. destruct (answer t c); [done|]. intros Ha. apply Hk in Ha as (s & -> & Hs).
  exists (c :: s). split; [by rewrite <- app_assoc|]. intros p. apply Hs.
Qed.
Lemma moving_defer {A} c g (m : Sys (result A)) : (forall p, move c p = p) -> moving g m -> moving g (deferring c m).
Proof using Type.
  intros Hc Hm t a. unfold deferring, sys_bind, sys, sys_ret. destruct (m t) as [r t1] eqn:Hmt. simpl. intros ->.
  destruct (Hm t a) as (s & Ht1 & Hs); [by rewrite Hmt|]. rewrite Hmt in Ht1. simpl in Ht1. subst t1.
  exists (s ++ [c]). split; [by rewrite app_assoc|]. intros p. unfold moves in *. rewrite foldl_app. simpl. by rewrite Hs, Hc.
Qed.
Lemma moving_err {A} e g : moving g (sys_ret (@Err A e)).
Proof using Type. by intros t a. Qed.
Lemma moving_sys {A} c g (k : option errno -> Sys (result A)) :
  (forall p, move c p = p) -> (forall r, moving g (k r)) -> moving g (sys_bind (sys c) k).
Proof using Type.
  intros Hc Hk t a. unfold sys_bind, sys. intros Ha. apply Hk in Ha as (s & -> & Hs). exists (c :: s).
  split; [by rewrite <- app_assoc|]. intros p. cbn. unfold moves in *. by rewrite Hc.
Qed.
Lemma moving_mask infos g k : moving g k -> moving g (mask_mounts infos k).
Proof using Type.
  intros Hk. induction infos as [|info infos IH]; [done|]. cbn [mask_mounts]. cbv zeta.
  apply moving_sys; [done|]. intros [e|]; [destruct e; first [exact IH|apply moving_err]|].
  apply moving_sys; [done|]. intros [e|]; [|exact IH].
  destruct e; first [apply moving_err|exact (moving_try _ _ _ _ IH)].
Qed.

(** Where the new process ends up when entering the container root succeeds:
    with [pivot_root] in the container, wherever it started. Without it the new
    root is the working directory that the process was started in, which
    nothing sets. *)
Theorem pivotRoot_position l rootDir t t' : Ldconfig_pivotRoot getMounts l rootDir t = (Ok tt, t') ->
  exists s, t' = t ++ s /\ forall cwd,
    let p := moves s (mkPosition "/" cwd) in
    pos_root p = (if noPivotRoot l then cwd else rootDir) /\ pos_cwd p = pos_root p.
Proof using Type.
  unfold Ldconfig_pivotRoot. destruct (noPivotRoot l).
  - unfold msMoveRoot. destruct getMounts as [infos|e]; [|done]. set (k := try _ _ chroot). intros Hrun.
    assert (Hk : moving (fun p => mkPosition (pos_cwd p) (pos_cwd p)) k).
    { unfold k, chroot. exact (moving_try _ _ _ _ (moving_try _ _ _ _ (moving_try _ _ _ _ (moving_ret _)))). }
    destruct (moving_mask (List.filter (is_full_pseudo rootDir) infos) _ _ Hk t tt) as (s & Hs & Hm); [by rewrite Hrun|].
    rewrite Hrun in Hs. exists s. split; [done|]. intros cwd. cbv zeta. by rewrite Hm.
  - intros Hrun.
    assert (Hk : moving (fun p => mkPosition rootDir rootDir) (pivot_root rootDir)).
    { unfold pivot_root. eapply (moving_try _ _ (fun _ => mkPosition rootDir rootDir)), moving_defer; [done|].
      eapply (moving_try _ _ (fun _ => mkPosition rootDir rootDir)), moving_defer; [done|].
      exact (moving_try _ _ _ _ (moving_try _ _ _ _ (moving_try _ _ _ _ (moving_try _ _ _ _ (moving_try _ _ _ _
        (moving_try _ _ _ _ (moving_ret _))))))). }
    destruct (Hk t tt) as (s & Hs & Hm); [by rewrite Hrun|]. rewrite Hrun in Hs. exists s. split; [done|]. intros cwd.
    cbv zeta. by rewrite Hm.
Qed.
End Position.

Lemma pivotRoot_position_witness :
  let l := mkLdconfig "/sbin/ldconfig" "/c" false false true [] in
  let run := @Ldconfig_pivotRoot (fun _ _ => None) (Ok [mkMountInfo "/" "proc" "/proc"]) l "/c" [] in
  exists s, snd run = [] ++ s /\ forall cwd,
    let p := moves s (mkPosition "/" cwd) in pos_root p = cwd /\ pos_cwd p = pos_root p.
Proof.
  intros l run. apply (@pivotRoot_position (fun _ _ => None) (Ok [mkMountInfo "/" "proc" "/proc"]) l "/c" []).
  vm_compute. reflexivity.
Defined.

(** The mounts that are masked are chosen by the text of their paths: those of a
    directory next to the container whose name starts with its name are not. *)
Example sibling_not_masked : is_full_pseudo "/run/c" (mkMountInfo "/" "proc" "/run/c2/proc") = false.
Proof. reflexivity. Qed.
