(* ===== verification/Toml.v ===== *)
(** * TOML configurations (src/pkg/config/toml, src/pkg/config/raw.go)

    The tree that the engine configurations edit, as the vendored
    pelletier/go-toml keeps it: a table maps keys to values, to tables or to
    arrays of tables, and a path goes through the last table of an array.
    Parsing and printing of TOML text are parameters of the model. *)
From S2P Require Import Prelude GoStrings GoPaths FileSystem OsFiles.

(** ** Trees *)

(** The values that the code inspects; [VStrs] is a Go [[]string], which only
    the code itself stores, [VAny] the [[]interface{}] of a parsed array. *)
Inductive value : Type :=
| VStr (s : string)
| VBool (b : bool)
| VInt (z : Z)
| VStrs (l : list string)
| VAny (l : list value)
| VOther (text : string).

Inductive item : Type :=
| IVal (v : value)
| ITree (t : gmap string item)
| ITrees (l : list (gmap string item)).
Local Abbreviation tree := (gmap string item).

(** [GetPath]: [None] is [nil]. *)
Fixpoint get_path (keys : list string) (t : tree) : option item :=
  match keys with
  | [] => Some (ITree t)
  | [k] => t !! k
  | k :: ks =>
      match t !! k with
      | Some (ITree t') => get_path ks t'
      | Some (ITrees l) => match last l with Some t' => get_path ks t' | None => None end
      | _ => None
      end
  end.
Definition has_path (keys : list string) (t : tree) : bool := bool_decide (is_Some (get_path keys t)).

(** The last table of an array is changed in place. *)
Fixpoint map_last {A} (f : A -> A) (l : list A) : list A :=
  match l with [] => [] | [x] => [f x] | x :: l => x :: map_last f l end.

(** [SetPath]: missing tables are created; a value on the way is skipped, the
    rest of the path then starts in the table that holds the value. An empty
    path panics in Go; no caller passes one. *)
Fixpoint set_path (keys : list string) (i : item) (t : tree) : tree :=
  match keys with
  | [] => t
  | [k] => <[k := i]> t
  | k :: ks =>
      match t !! k with
      | None => <[k := ITree (set_path ks i ∅)]> t
      | Some (ITree t') => <[k := ITree (set_path ks i t')]> t
      | Some (ITrees []) => <[k := ITrees [set_path ks i ∅]]> t
      | Some (ITrees l) => <[k := ITrees (map_last (set_path ks i) l)]> t
      | Some (IVal _) => set_path ks i t
      end
  end.

(** [DeletePath]; its error is ignored by every caller. *)
Fixpoint delete_path (keys : list string) (t : tree) : tree :=
  match keys with
  | [] => t
  | [k] => delete k t
  | k :: ks =>
      match t !! k with
      | Some (ITree t') => <[k := ITree (delete_path ks t')]> t
      | Some (ITrees l) =>
          match ks with
          | [_] => t
          | _ => <[k := ITrees (map_last (delete_path ks) l)]> t
          end
      | _ => t
      end
  end.

(** The keys of a table, in the order of a map. *)
Definition keys_of (t : tree) : list string := map fst (map_to_list t).

(** ** Type assertions on what [GetPath] returns *)

Definition as_string (i : option item) : option string :=
  match i with Some (IVal (VStr s)) => Some s | _ => None end.
Definition as_tree (i : option item) : option tree :=
  match i with Some (ITree t) => Some t | _ => None end.

(** A call that may panic: [None]. *)
Abbreviation may_panic := option.

(** [GetSubtreeByPath] panics on a value that is not a table. *)
Definition GetSubtreeByPath (get : list string -> option item) (keys : list string) : may_panic (option tree) :=
  match get keys with
  | None => Some None
  | Some (ITree t) => Some (Some t)
  | Some _ => None
  end.

(** ** Loading and saving *)

(** The library: [String] and [Marshal], which agree where they succeed, and
    [LoadBytes]. *)
Class Toml := {
  toml_Marshal : tree -> result string;
  toml_Load : string -> result tree;
}.
Definition toml_String `{Toml} (t : tree) : string := ok_or "" (toml_Marshal t).
(** [Copy]: [nil] if the text is not read back. *)
Definition Copy `{Toml} (t : tree) : option tree :=
  match toml_Load (toml_String t) with Ok t => Some t | Err _ => None end.

(** What a process works on: the files and what was written to its standard
    output. *)
Record world := mkWorld { files : fs; stdout : string }.
Definition with_files (f : fs) (w : world) : world := mkWorld f (stdout w).
Definition print (s : string) (w : world) : world := mkWorld (files w) (stdout w +:+ s).

(** [os.Create]: the file is created or emptied; writing to it succeeds. *)
Definition sys_write_file (content path : string) (f : fs) : errno + fs :=
  match resolve f true path with
  | inl e => inl e
  | inr p =>
      match node_at f p with
      | None => inr (<[p := FileNode content 438]> f)
      | Some (FileNode _ m) => inr (<[p := FileNode content m]> f)
      | Some (DeviceNode _ _ _) => inr f
      | Some _ => inl EISDIR
      end
  end.

(** [Raw.Write] returns the number of bytes. *)
Definition newline : string := String "010" "".
Definition Raw_Write (path output : string) (w : world) : result nat * world :=
  if String.eqb path "" then (Ok (String.length output), print newline (print output w))
  else if String.eqb output "" then
    match sys_Remove path (files w) with
    | inl e => (Err ("unable to remove empty file: " +:+ path_error "remove" path e), w)
    | inr f => (Ok 0, with_files f w)
    end
  else
    let dir := path_dir path in
    match (if String.eqb dir "" then (inr tt, files w) else sys_MkdirAll 493 dir (files w)) with
    | (inl e, f) => (Err ("unable to create directory " +:+ dir +:+ ": " +:+ path_error "mkdir" dir e), with_files f w)
    | (inr _, f) =>
        match sys_write_file output path f with
        | inl e => (Err ("unable to open " +:+ path +:+ " for writing: " +:+ path_error "open" path e), with_files f w)
        | inr f => (Ok (String.length output), with_files f w)
        end
    end.
(** [Tree.Save]; the receiver [nil] panics in [Marshal]. *)
Definition Tree_Save `{Toml} (t : option tree) (path : string) (w : world) : may_panic (result nat * world) :=
  t ← t;
  Some match toml_Marshal t with
       | Err e => (Err ("unable to convert to TOML: " +:+ e), w)
       | Ok output => Raw_Write path output w
       end.

(** *** Sources *)

(** The output of a command, or the text of its failure. *)
Class Commands := run_command : string -> list string -> result string.

Inductive Loader : Type :=
| Empty
| CommandLine (command : string) (args : list string)
| File (path : string)
| StringSource (contents : string)
| MapSource (t : tree)
| FirstOf (loaders : list (option Loader)).

Definition FromCommandLine (cmds : list string) : Loader :=
  match cmds with [] => Empty | c :: args => CommandLine c args end.
Definition FromFile (path : string) : Loader := if String.eqb path "" then Empty else File path.
Definition FromString (contents : string) : Loader := if String.eqb contents "" then Empty else StringSource contents.
(** The conversion of a Go map to a tree is the library's; the argument is its
    result for a map that is not [nil]. *)
Definition FromMap (m : option tree) : Loader := match m with None => Empty | Some t => MapSource t end.

(** [tomlFile.Load]: [os.IsExist] of a [nil] error is false, so that a
    directory is only noticed when it is read. *)
Definition tomlFile_Load `{Toml} (path : string) (f : fs) : result tree :=
  let load := match sys_Open f path with
              | inl e => Err (path_error "open" path e)
              | inr (DirNode _) => Err (path_error "read" path EISDIR)
              | inr n => toml_Load (node_content n)
              end in
  match sys_Stat f path with
  | inl ENOENT => Ok ∅
  | _ => load
  end.
(** [errors.Join] of an error, if any, with a new one. *)
Definition join_error (errs : option string) (e : string) : option string :=
  Some match errs with None => e | Some t => t +:+ newline +:+ e end.
(** [Load]; when every loader of a list is [nil], the tree is [nil] without an
    error. *)
Fixpoint Load `{Toml, Commands} (l : Loader) (f : fs) : result (option tree) :=
  match l with
  | Empty => Ok (Some ∅)
  | CommandLine c args =>
      match run_command c args with
      | Err e => Err ("failed to run command " +:+ c +:+ " [" +:+ join " " args +:+ "]: " +:+ e)
      | Ok out => let? t := toml_Load out in Ok (Some t)
      end
  | File path => let? t := tomlFile_Load path f in Ok (Some t)
  | StringSource s => let? t := toml_Load s in Ok (Some t)
  | MapSource t => Ok (Some t)
  | FirstOf ls =>
      (fix go (errs : option string) (ls : list (option Loader)) : result (option tree) :=
         match ls with
         | [] => match errs with None => Ok None | Some e => Err e end
         | None :: ls => go errs ls
         | Some l :: ls => match Load l f with Err e => go (join_error errs e) ls | Ok t => Ok t end
         end) None ls
  end.

(** ** Laws of the tree operations

    What a path reads after [SetPath] and [DeletePath], for paths that are
    clear: a table or nothing stands at every key on the way. *)

(** Every key before the last one holds a table or nothing. *)
Fixpoint clear (keys : list string) (t : tree) : bool :=
  match keys with
  | [] => false
  | [_] => true
  | k :: ks => match t !! k with None => true | Some (ITree t') => clear ks t' | _ => false end
  end.
(** Two paths that part at some key. *)
Fixpoint apart (p q : list string) : bool :=
  match p, q with
  | a :: p, b :: q => if String.eqb a b then apart p q else true
  | _, _ => false
  end.

Lemma clear_empty k ks : clear (k :: ks) ∅ = true.
Proof. destruct ks; [done|]. cbn. by rewrite lookup_empty. Qed.
Lemma apart_same a p q : apart (a :: p) (a :: q) = apart p q.
Proof. cbn. by rewrite String.eqb_refl. Qed.
Lemma apart_diff a b p q : a <> b -> apart (a :: p) (b :: q) = true.
Proof. intros H. cbn. apply String.eqb_neq in H. by rewrite H. Qed.
Lemma apart_app p q r : apart (p ++ q) (p ++ r) = apart q r.
Proof. induction p as [|a p IH]; [done|]. cbn [app]. by rewrite apart_same. Qed.
Lemma apart_sym p : forall q, apart p q = apart q p.
Proof.
  induction p as [|a p IH]; intros [|b q]; cbn; [done..|]. rewrite String.eqb_sym. by destruct (String.eqb b a); [apply IH|].
Qed.

(** Case analysis on the entry of a table on the way. *)
Ltac on_way t k := destruct (t !! k) as [[|?s|]|] eqn:?Hk; try discriminate.

Lemma get_path_cons k k2 ks t :
  get_path (k :: k2 :: ks) t = match t !! k with
    | Some (ITree t') => get_path (k2 :: ks) t'
    | Some (ITrees l) => match last l with Some t' => get_path (k2 :: ks) t' | None => None end
    | _ => None end.
Proof. done. Qed.
Lemma set_path_cons k k2 ks i t :
  set_path (k :: k2 :: ks) i t = match t !! k with
    | None => <[k := ITree (set_path (k2 :: ks) i ∅)]> t
    | Some (ITree t') => <[k := ITree (set_path (k2 :: ks) i t')]> t
    | Some (ITrees []) => <[k := ITrees [set_path (k2 :: ks) i ∅]]> t
    | Some (ITrees l) => <[k := ITrees (map_last (set_path (k2 :: ks) i) l)]> t
    | Some (IVal _) => set_path (k2 :: ks) i t
    end.
Proof. done. Qed.
Lemma clear_cons k k2 ks t :
  clear (k :: k2 :: ks) t = match t !! k with None => true | Some (ITree t') => clear (k2 :: ks) t' | _ => false end.
Proof. done. Qed.

Lemma get_empty k ks : get_path (k :: ks) ∅ = None.
Proof. destruct ks; cbn; by rewrite lookup_empty. Qed.

Lemma get_set_same ks i : forall t, clear ks t = true -> get_path ks (set_path ks i t) = Some i.
Proof.
  induction ks as [|k [|k2 ks] IH]; intros t Hc; [done|by cbn; rewrite lookup_insert_eq|].
  rewrite clear_cons in Hc. rewrite set_path_cons. on_way t k; rewrite get_path_cons, lookup_insert_eq; apply IH; [done|apply clear_empty].
Qed.
Lemma get_set_below ks s q : q <> [] -> forall t, clear ks t = true -> get_path (ks ++ q) (set_path ks (ITree s) t) = get_path q s.
Proof.
  intros Hq. destruct q as [|q0 q]; [done|]. induction ks as [|k [|k2 ks] IH]; intros t Hc; [done|by cbn; rewrite lookup_insert_eq|].
  cbn [app] in Hc. rewrite clear_cons in Hc. cbn [app]; rewrite set_path_cons. on_way t k; rewrite get_path_cons, lookup_insert_eq; apply IH; [done|apply clear_empty].
Qed.
Lemma get_set_apart ks i : forall q t, clear ks t = true -> apart ks q = true -> get_path q (set_path ks i t) = get_path q t.
Proof.
  induction ks as [|k [|k2 ks] IH]; intros [|b q] t Hc Ha; try done.
  - cbn in Ha |- *. destruct (String.eqb_spec k b) as [->|Hne]; [by destruct q|]. destruct q; by rewrite lookup_insert_ne.
  - destruct (String.eqb_spec k b) as [<-|Hne].
    + rewrite apart_same in Ha. destruct q as [|q0 q]; [done|]. rewrite clear_cons in Hc. rewrite set_path_cons.
      on_way t k; rewrite !get_path_cons, lookup_insert_eq, Hk; [by apply IH|].
      rewrite IH by (done || apply clear_empty). apply get_empty.
    + rewrite set_path_cons. rewrite clear_cons in Hc. on_way t k; destruct q; cbn; by rewrite lookup_insert_ne.
Qed.

(** A table on the way to the entry is a table afterwards. *)
Lemma get_set_above ks i : forall p r t, clear ks t = true -> ks = p ++ r -> p <> [] -> r <> [] ->
  get_path p (set_path ks i t) = Some (ITree (set_path r i (default ∅ (as_tree (get_path p t))))).
Proof.
  induction ks as [|k [|k2 ks] IH]; intros p r t Hc Heq Hp Hr; [by destruct p|destruct p as [|? [|]]; naive_solver|].
  destruct p as [|? p]; [done|]. injection Heq as <- Heq. rewrite clear_cons in Hc. destruct p as [|p0 p].
  - cbn [app] in Heq. subst r. rewrite set_path_cons. cbn [get_path]. on_way t k; by rewrite lookup_insert_eq.
  - rewrite get_path_cons. rewrite set_path_cons. on_way t k; rewrite get_path_cons, lookup_insert_eq, Hk; [by apply IH|].
    rewrite (IH (p0 :: p) r); [|apply clear_empty|done..]. by rewrite get_empty.
Qed.

(** *** Clear paths *)

Lemma clear_prefix p : forall r t, p <> [] -> clear (p ++ r) t = true -> clear p t = true.
Proof.
  induction p as [|k [|k2 p] IH]; intros r t Hp Hc; [done..|]. cbn in Hc |- *. on_way t k; [|done]. by apply IH in Hc.
Qed.
Lemma clear_set_apart ks i : forall q t, clear ks t = true -> apart ks q = true -> clear q (set_path ks i t) = clear q t.
Proof.
  induction ks as [|k [|k2 ks] IH]; intros [|b [|b2 q]] t Hc Ha; try done.
  - cbn in Ha |- *. destruct (String.eqb_spec k b) as [->|Hne]; [done|]. by rewrite lookup_insert_ne.
  - destruct (String.eqb_spec k b) as [<-|Hne].
    + rewrite apart_same in Ha. rewrite clear_cons in Hc. rewrite set_path_cons, !clear_cons.
      on_way t k; rewrite lookup_insert_eq; [by apply IH|]. rewrite IH by (done || apply clear_empty). apply clear_empty.
    + rewrite set_path_cons. rewrite clear_cons in Hc. on_way t k; cbn; by rewrite lookup_insert_ne.
Qed.
Lemma clear_set_prefix ks i : forall q t, clear ks t = true -> q <> [] -> (exists r, ks = q ++ r) -> clear q (set_path ks i t) = true.
Proof.
  induction ks as [|k [|k2 ks] IH]; intros q t Hc Hq [r Heq]; [by destruct q|by destruct q as [|? [|]]; naive_solver|].
  destruct q as [|? q]; [done|]. injection Heq as <- Heq. destruct q as [|q0 q]; [done|]. rewrite clear_cons in Hc. rewrite set_path_cons, clear_cons.
  on_way t k; rewrite lookup_insert_eq; (apply IH; [first [done|apply clear_empty]|done|by exists r]).
Qed.
Lemma clear_set_below ks s q : q <> [] -> forall t, clear ks t = true -> clear (ks ++ q) (set_path ks (ITree s) t) = clear q s.
Proof.
  intros Hq. destruct q as [|q0 q]; [done|]. induction ks as [|k [|k2 ks] IH]; intros t Hc; [done|by cbn; rewrite lookup_insert_eq|].
  cbn [app] in Hc. rewrite clear_cons in Hc. cbn [app]; rewrite set_path_cons, clear_cons. on_way t k; rewrite lookup_insert_eq; apply IH; [done|apply clear_empty].
Qed.
(** Two paths part, or one is a prefix of the other. *)
Lemma paths_cases p : forall q, apart p q = true \/ (exists r, p = q ++ r) \/ (exists r, r <> [] /\ q = p ++ r).
Proof.
  induction p as [|a p IH]; intros [|b q]; [right; left; by exists []|right; right; by exists (b :: q)|right; left; by exists (a :: p)|].
  destruct (String.eqb_spec a b) as [<-|Hne]; [|left; by apply apart_diff]. rewrite apart_same.
  destruct (IH q) as [?|[[r ->]|[r [? ->]]]]; [by left|right; left; by exists r|right; right; by exists r].
Qed.
(** What stands in the way of no path: a value is fatal to the paths below it. *)
Lemma clear_set ks i q t : clear ks t = true -> clear q t = true -> q <> [] ->
  (forall r, r <> [] -> q = ks ++ r -> match i with ITree s => clear r s = true | _ => False end) -> clear q (set_path ks i t) = true.
Proof.
  intros Hc Hq Hne Hi. destruct (paths_cases ks q) as [Ha|[Hr|[r [Hr ->]]]].
  - by rewrite clear_set_apart.
  - by apply clear_set_prefix.
  - specialize (Hi r Hr eq_refl). destruct i as [|s|]; [done| |done]. by rewrite clear_set_below.
Qed.

(** ** Deletion *)

Lemma delete_path_cons k k2 ks t :
  delete_path (k :: k2 :: ks) t = match t !! k with
    | Some (ITree t') => <[k := ITree (delete_path (k2 :: ks) t')]> t
    | Some (ITrees l) => match ks with [] => t | _ => <[k := ITrees (map_last (delete_path (k2 :: ks)) l)]> t end
    | _ => t
    end.
Proof. by destruct ks. Qed.

Lemma get_delete_below ks q : forall t, clear ks t = true -> get_path (ks ++ q) (delete_path ks t) = None.
Proof.
  induction ks as [|k [|k2 ks] IH]; intros t Hc; [done|destruct q; cbn; by rewrite lookup_delete_eq|].
  rewrite clear_cons in Hc. rewrite delete_path_cons. cbn [app]. rewrite get_path_cons.
  on_way t k; [rewrite lookup_insert_eq; by apply IH|by rewrite Hk].
Qed.
Lemma get_delete_apart ks : forall q t, clear ks t = true -> apart ks q = true -> get_path q (delete_path ks t) = get_path q t.
Proof.
  induction ks as [|k [|k2 ks] IH]; intros [|b q] t Hc Ha; try done.
  - cbn in Ha |- *. destruct (String.eqb_spec k b) as [->|Hne]; [by destruct q|]. destruct q; by rewrite lookup_delete_ne.
  - rewrite clear_cons in Hc. rewrite delete_path_cons. on_way t k; [|done].
    destruct (String.eqb_spec k b) as [<-|Hne]; [|destruct q; cbn; by rewrite lookup_insert_ne].
    rewrite apart_same in Ha. destruct q as [|q0 q]; [done|]. rewrite !get_path_cons, lookup_insert_eq, Hk. by apply IH.
Qed.
Lemma get_delete_above ks : forall p r t, clear ks t = true -> ks = p ++ r -> p <> [] -> r <> [] ->
  get_path p (delete_path ks t) = match get_path p t with Some (ITree s) => Some (ITree (delete_path r s)) | i => i end.
Proof.
  induction ks as [|k [|k2 ks] IH]; intros p r t Hc Heq Hp Hr; [by destruct p|destruct p as [|? [|]]; naive_solver|].
  destruct p as [|? p]; [done|]. injection Heq as <- Heq. rewrite clear_cons in Hc. rewrite delete_path_cons. destruct p as [|p0 p].
  - cbn [app] in Heq. subst r. cbn [get_path]. on_way t k; [by rewrite lookup_insert_eq|by rewrite Hk].
  - rewrite !get_path_cons. on_way t k; [rewrite lookup_insert_eq; by apply IH|by rewrite Hk].
Qed.
Lemma clear_delete ks : forall q t, clear ks t = true -> clear q t = true -> clear q (delete_path ks t) = true.
Proof.
  induction ks as [|k [|k2 ks] IH]; intros [|b [|b2 q]] t Hc Hq; try done.
  - cbn in Hq |- *. destruct (String.eqb_spec k b) as [->|Hne]; [by rewrite lookup_delete_eq|by rewrite lookup_delete_ne].
  - rewrite clear_cons in Hc, Hq |- *. rewrite delete_path_cons. on_way t k; [|done].
    destruct (String.eqb_spec k b) as [<-|Hne]; [|by rewrite lookup_insert_ne].
    rewrite lookup_insert_eq. rewrite Hk in Hq. by apply IH.
Qed.

(** Deleting an empty table changes what its own path and the paths above it
    read, and nothing else. *)
Lemma get_prune p q t : clear p t = true -> get_path p t = Some (ITree ∅) -> (forall r, p <> q ++ r) ->
  get_path q (delete_path p t) = get_path q t.
Proof.
  intros Hc He Hq. destruct (paths_cases p q) as [Ha|[[r ->]|[r [Hr ->]]]]; [by apply get_delete_apart|by destruct (Hq r)|].
  rewrite get_delete_below by done. destruct r as [|r0 r]; [done|]. clear Hq Hr.
  revert t Hc He. induction p as [|k [|k2 p] IH]; intros t Hc He; [done| |].
  - cbn in He |- *. rewrite He. by destruct r; cbn; rewrite ?lookup_empty.
  - rewrite clear_cons in Hc. cbn [app] in *. rewrite get_path_cons in He |- *. on_way t k; by apply IH.
Qed.
