(* ===== verification/Engine.v ===== *)
(** * Container engine configurations (src/pkg/config/engine)

    The interface through which the commands edit the configuration of a
    container engine, the selection of low-level runtimes, the configuration
    that reads from one place and writes to another, and the promise that the
    engines make to the commands. The methods change the receiver in place: a
    method returns what it returns in Go with the receiver it leaves, also when
    it returns an error. Logging and [String] are left out. *)
From S2P Require Import Prelude GoStrings FileSystem Toml.
Local Abbreviation tree := (gmap string item).

Definition SaveToSTDOUT : string := "".
Definition UpdateActionSet : string := "set".
Definition UpdateActionUnset : string := "unset".
Definition invalid_action (action : string) : string :=
  "invalid action " +:+ quote action +:+ ", valid actions are " +:+ quote UpdateActionSet +:+ " and " +:+ quote UpdateActionUnset.
Definition known_action (action : string) : bool :=
  String.eqb action UpdateActionSet || String.eqb action UpdateActionUnset.

(** A method that changes the receiver: [None] is a panic. *)
Abbreviation step C := (option (result unit * C)%type).
Definition done {C} (c : C) : step C := Some (Ok tt, c).

(** [engine.Interface]. A [RuntimeConfig] is its [GetBinaryPath]. *)
Class Interface (C : Type) := {
  AddRuntime : string -> string -> bool -> C -> step C;
  DefaultRuntime : C -> may_panic string;
  EnableCDI : C -> may_panic C;
  GetRuntimeConfig : string -> C -> may_panic (result string);
  RemoveRuntime : string -> C -> step C;
  UpdateDefaultRuntime : string -> string -> C -> step C;
  Save : string -> C -> world -> may_panic (result nat * (C * world));
}.

(** ** [engine.go] *)

Definition isValidDefault (s : string) : bool :=
  if String.eqb s "" then false else negb (has_prefix s "nvidia").
Definition GetLowLevelRuntimes (defaultRuntime : string) : list string :=
  (if isValidDefault defaultRuntime then [defaultRuntime] else []) ++ ["runc"; "crun"].

(** The loop of [GetBinaryPathsForRuntimes]. *)
Fixpoint binary_paths (get : string -> may_panic (result string)) (seen : list string) (runtimes : list string) : may_panic (list string) :=
  match runtimes with
  | [] => Some []
  | r :: runtimes =>
      rc ← get r;
      match rc with
      | Err _ => binary_paths get seen runtimes
      | Ok p =>
          if String.eqb p "" || bool_decide (p ∈ seen) then binary_paths get seen runtimes
          else ps ← binary_paths get (p :: seen) runtimes; Some (p :: ps)
      end
  end.
Definition GetBinaryPathsForRuntimes `{Interface C} (cfg : C) : may_panic (list string) :=
  d ← DefaultRuntime cfg;
  binary_paths (fun r => GetRuntimeConfig r cfg) [] (GetLowLevelRuntimes d).

(** ** [config.go]: a source and a destination

    Both are views of one state, since the destination of a containerd
    configuration shares a table with its source. *)

(** The options of a runtime: [nil], or a tree, which is [nil] when [Copy]
    fails. *)
Inductive options : Type := NoOptions | Options (t : option tree).

Class RuntimeConfigSource (C : Type) := {
  Source_DefaultRuntime : C -> may_panic string;
  Source_GetRuntimeConfig : string -> C -> may_panic (result string);
  Source_GetDefaultRuntimeOptions : C -> may_panic options;
}.
Class RuntimeConfigDestination (C : Type) := {
  Destination_AddRuntimeWithOptions : string -> string -> bool -> options -> C -> step C;
  Destination_EnableCDI : C -> may_panic C;
  Destination_RemoveRuntime : string -> C -> step C;
  Destination_UpdateDefaultRuntime : string -> string -> C -> step C;
  Destination_Save : string -> C -> world -> may_panic (result nat * (C * world));
}.
Definition Config_AddRuntime `{RuntimeConfigSource C, RuntimeConfigDestination C} (name path : string) (setAsDefault : bool) (c : C) : step C :=
  opts ← Source_GetDefaultRuntimeOptions c;
  Destination_AddRuntimeWithOptions name path setAsDefault opts c.
#[export] Instance Config_Interface `{RuntimeConfigSource C, RuntimeConfigDestination C} : Interface C := {
  AddRuntime := Config_AddRuntime;
  DefaultRuntime := Source_DefaultRuntime;
  EnableCDI := Destination_EnableCDI;
  GetRuntimeConfig := Source_GetRuntimeConfig;
  RemoveRuntime := Destination_RemoveRuntime;
  UpdateDefaultRuntime := Destination_UpdateDefaultRuntime;
  Save := Destination_Save;
}.

(** ** Trees that a configuration edits

    A plain tree, or a tree that shares a table with another one. *)
Class Trees (T : Type) := {
  shown : T -> tree;
  t_set : list string -> item -> T -> T;
  t_delete : list string -> T -> T;
}.
Definition t_get `{Trees T} (keys : list string) (c : T) : option item := get_path keys (shown c).
Class TreesLaws (T : Type) `{Trees T} : Prop := {
  shown_set keys i c : shown (t_set keys i c) = set_path keys i (shown c);
  shown_delete keys c : shown (t_delete keys c) = delete_path keys (shown c);
}.
#[export] Instance plain_trees : Trees tree := { shown := fun t => t; t_set := set_path; t_delete := delete_path }.
#[export] Instance plain_trees_laws : TreesLaws tree.
Proof. by split. Qed.

(** [c.Tree] *)
Definition deref {A} (p : option A) : may_panic A := p.
(** Run a method on the tree of a configuration, and put it back. *)
Definition in_tree {T} (f : T -> step T) (c : option T) : step (option T) :=
  t ← deref c; '(r, t) ← f t; Some (r, Some t).

(** ** What an engine promises

    [ok] are the configurations whose tables have the shape the engine
    documents. [written] and [written_default] are the path of a runtime and
    the default runtime in what [Save] writes. *)
Class Engine (C : Type) `{Interface C} := {
  ok : C -> Prop;
  written : C -> string -> string;
  written_default : C -> string;
}.
(** The default [d'] after the runtime [name] stops being the default. *)
Definition dropped (name d d' : string) : Prop := (d <> name -> d' = d) /\ (d = name -> d' = "" \/ d' = "runc").
Lemma dropped_empty name d : dropped name d (if String.eqb d name then "" else d).
Proof. split; intros H; [apply String.eqb_neq in H|apply String.eqb_eq in H]; rewrite H; auto. Qed.
Class EngineLaws (C : Type) `{Engine C} : Prop := {
  AddRuntime_law name path (setAsDefault : bool) c : ok c -> exists c',
    AddRuntime name path setAsDefault c = done c' /\ ok c' /\
    (forall n, written c' n = if String.eqb n name then path else written c n) /\
    (if setAsDefault then written_default c' = name
     else written_default c' = written_default c \/ (written_default c = name /\ written_default c' = ""));
  RemoveRuntime_law name c : ok c -> exists c',
    RemoveRuntime name c = done c' /\ ok c' /\
    (forall n, written c' n = if String.eqb n name then "" else written c n) /\
    dropped name (written_default c) (written_default c');
  EnableCDI_law c : ok c -> exists c',
    EnableCDI c = Some c' /\ ok c' /\ (forall n, written c' n = written c n) /\ written_default c' = written_default c;
  UpdateDefaultRuntime_law name action c : ok c -> exists r c',
    UpdateDefaultRuntime name action c = Some (r, c') /\ ok c' /\ (forall n, written c' n = written c n) /\
    if String.eqb action UpdateActionSet then r = Ok tt /\ written_default c' = name
    else if String.eqb action UpdateActionUnset then
      r = Ok tt /\ dropped name (written_default c) (written_default c')
    else r = Err (invalid_action action) /\ written_default c' = written_default c;
}.
