(* ===== verification/Docker.v ===== *)
(** * The docker configuration (src/pkg/config/engine/docker) *)
From S2P Require Import Prelude GoStrings FileSystem OsFiles Toml Engine.

(** The values of a decoded [daemon.json], and those the code stores itself:
    [JStrings] is a [[]string], [JBools] a [map[string]bool]. *)
Inductive json_value : Type :=
| JString (s : string)
| JStrings (l : list string)
| JBools (m : gmap string bool)
| JObject (m : gmap string json_value)
| JOther (text : string).
Local Abbreviation object := (gmap string json_value).

(** [Config], a map that is [nil] after a file that holds [null]; the pointers
    to it are those that [New] returns, never [nil]. *)
Definition Docker : Type := option object.
Definition entries (c : Docker) : object := default ∅ c.
(** A write to the map panics when it is [nil]. *)
Definition assign (k : string) (v : json_value) (c : Docker) : may_panic Docker :=
  m ← c; Some (Some (<[k := v]> m)).
Definition remove_key (k : string) (c : Docker) : Docker := delete k <$> c.

Class Json := {
  json_MarshalIndent : Docker -> result string;
  json_Decode : string -> result Docker;
}.

Definition defaultDockerRuntime : string := "runc".
Definition as_object (v : json_value) : may_panic object := match v with JObject m => Some m | _ => None end.
Definition as_str (v : json_value) : may_panic string := match v with JString s => Some s | _ => None end.

Definition docker_AddRuntime (name path : string) (setAsDefault : bool) (c : Docker) : step Docker :=
  runtimes ← match entries c !! "runtimes" with Some v => as_object v | None => Some ∅ end;
  let runtimes := <[name := JObject (<["path" := JString path]> (<["args" := JStrings []]> ∅))]> runtimes in
  c ← assign "runtimes" (JObject runtimes) c;
  c ← (if setAsDefault then assign "default-runtime" (JString name) c else Some c);
  done c.

Definition docker_DefaultRuntime (c : Docker) : may_panic string :=
  Some match entries c !! "default-runtime" with Some (JString s) => s | _ => "" end.

Definition docker_EnableCDI (c : Docker) : may_panic Docker :=
  let features := match entries c !! "features" with Some (JBools m) => m | _ => ∅ end in
  assign "features" (JBools (<["cdi" := true]> features)) c.

(** The reset of the default runtime in [RemoveRuntime] and
    [UpdateDefaultRuntime]. *)
Definition unset_default (name : string) (c : Docker) : may_panic Docker :=
  match entries c !! "default-runtime" with
  | None => Some c
  | Some v =>
      defaultRuntime ← as_str v;
      if String.eqb defaultRuntime name then assign "default-runtime" (JString defaultDockerRuntime) c else Some c
  end.

Definition docker_RemoveRuntime (name : string) (c : Docker) : step Docker :=
  c ← unset_default name c;
  match entries c !! "runtimes" with
  | None => done c
  | Some v =>
      runtimes ← as_object v;
      let runtimes := delete name runtimes in
      c ← assign "runtimes" (JObject runtimes) c;
      done (if decide (runtimes = ∅) then remove_key "runtimes" c else c)
  end.

Definition docker_UpdateDefaultRuntime (name action : string) (c : Docker) : step Docker :=
  if negb (known_action action) then Some (Err (invalid_action action), c)
  else
    c ← (if String.eqb action UpdateActionSet then assign "default-runtime" (JString name) c else unset_default name c);
    done c.

Definition docker_Save `{Json} (path : string) (c : Docker) (w : world) : may_panic (result nat * (Docker * world)) :=
  Some match json_MarshalIndent c with
       | Err e => (Err ("unable to convert to JSON: " +:+ e), (c, w))
       | Ok output => let '(r, w) := Raw_Write path output w in (r, (c, w))
       end.

(** [GetBinaryPath] of a [dockerRuntime]. *)
Definition docker_GetBinaryPath (d : object) : string :=
  match d !! "path" with Some (JString s) => s | _ => "" end.
Definition docker_GetRuntimeConfig (name : string) (c : Docker) : may_panic (result string) :=
  match entries c !! "runtimes" with
  | None => Some (Ok (docker_GetBinaryPath ∅))
  | Some v =>
      runtimes ← as_object v;
      match runtimes !! name with
      | None => Some (Ok (docker_GetBinaryPath ∅))
      | Some r => d ← as_object r; Some (Ok (docker_GetBinaryPath d))
      end
  end.

#[export] Instance docker_Interface `{Json} : Interface Docker := {
  AddRuntime := docker_AddRuntime;
  DefaultRuntime := docker_DefaultRuntime;
  EnableCDI := docker_EnableCDI;
  GetRuntimeConfig := docker_GetRuntimeConfig;
  RemoveRuntime := docker_RemoveRuntime;
  UpdateDefaultRuntime := docker_UpdateDefaultRuntime;
  Save := docker_Save;
}.

(** [build] and [loadConfig]; the test for a directory is dead, since
    [os.IsExist] of a [nil] error is false. *)
Definition docker_loadConfig `{Json} (path : string) (f : fs) : result Docker :=
  match sys_Stat f path with
  | inl ENOENT => Ok (Some ∅)
  | _ =>
      let? content := wrap "unable to read config"
        match sys_Open f path with
        | inl e => Err (path_error "open" path e)
        | inr (DirNode _) => Err (path_error "read" path EISDIR)
        | inr n => Ok (node_content n)
        end in
      json_Decode content
  end.
Definition docker_New `{Json} (path : string) (f : fs) : result Docker :=
  if String.eqb path "" then Ok (Some ∅) else docker_loadConfig path f.

(** ** The promise of the engines *)

Definition is_obj (v : json_value) : Prop := exists m, v = JObject m.
Definition docker_ok (c : Docker) : Prop := exists m, c = Some m /\
  (forall v, m !! "runtimes" = Some v -> is_obj v) /\ (forall v, m !! "default-runtime" = Some v -> exists s, v = JString s).
Definition docker_written (c : Docker) (n : string) : string :=
  match entries c !! "runtimes" with
  | Some (JObject rs) => match rs !! n with Some (JObject d) => docker_GetBinaryPath d | _ => "" end
  | _ => ""
  end.
Definition docker_written_default (c : Docker) : string :=
  match entries c !! "default-runtime" with Some (JString s) => s | _ => "" end.
#[export] Instance docker_Engine `{Json} : Engine Docker :=
  { ok := docker_ok; written := docker_written; written_default := docker_written_default }.

Lemma docker_runtimes m : docker_ok (Some m) ->
  (exists rs, m !! "runtimes" = Some (JObject rs)) \/ m !! "runtimes" = None.
Proof. intros (? & [= <-] & H & _). destruct (m !! "runtimes") as [v|]; [|by right]. destruct (H v eq_refl) as [rs ->]. left; by exists rs. Qed.
Lemma docker_default m : docker_ok (Some m) ->
  (exists s, m !! "default-runtime" = Some (JString s)) \/ m !! "default-runtime" = None.
Proof. intros (? & [= <-] & _ & H). destruct (m !! "default-runtime") as [v|]; [|by right]. destruct (H v eq_refl) as [s ->]. left; by exists s. Qed.

(** ** The docker configuration keeps the promise of the engines *)
Section DockerLaws.
Context `{Json}.

Lemma docker_ok_insert m k v : docker_ok (Some m) -> (k = "runtimes" -> is_obj v) -> (k = "default-runtime" -> exists s, v = JString s) ->
  docker_ok (Some (<[k := v]> m)).
Proof using Type.
  intros (? & [= <-] & Hr & Hd) Hk1 Hk2. exists (<[k := v]> m). split; [done|].
  split; intros u; [destruct (decide (k = "runtimes"))|destruct (decide (k = "default-runtime"))]; subst;
    (rewrite lookup_insert_eq; intros [= <-]; auto) || (rewrite lookup_insert_ne by done; auto).
Qed.

(** What the two keys hold determines what is written. *)
Lemma docker_AddRuntime_ok name path d c : docker_ok c -> exists c',
  docker_AddRuntime name path d c = done c' /\ docker_ok c' /\
  (forall n, docker_written c' n = if String.eqb n name then path else docker_written c n) /\
  docker_written_default c' = if d then name else docker_written_default c.
Proof using Type.
  intros Hok. destruct c as [m|]; [|by destruct Hok as (? & ? & _)].
  unfold docker_AddRuntime, docker_written, docker_written_default, assign. change (entries (Some m)) with m.
  set (rt := <["path" := JString path]> _).
  assert (Hpath : docker_GetBinaryPath rt = path) by (unfold docker_GetBinaryPath, rt; by rewrite lookup_insert_eq).
  destruct (docker_runtimes m Hok) as [[rs Hrs]|Hrs]; rewrite Hrs; cbn; destruct d; eexists; (split; [reflexivity|]);
    (split; [repeat apply docker_ok_insert; first [exact Hok|discriminate|intros _; by eexists]|]);
    (split; [intros n|]); cbn;
    rewrite ?lookup_insert_eq, ?(lookup_insert_ne _ "runtimes" "default-runtime"), ?(lookup_insert_ne _ "default-runtime" "runtimes"), ?lookup_insert_eq by done;
    try done.
  all: destruct (String.eqb_spec n name) as [->|Hne]; [by rewrite lookup_insert_eq|by rewrite lookup_insert_ne].
Qed.
Lemma docker_EnableCDI_ok c : docker_ok c -> exists c',
  docker_EnableCDI c = Some c' /\ docker_ok c' /\ (forall n, docker_written c' n = docker_written c n) /\ docker_written_default c' = docker_written_default c.
Proof using Type.
  intros Hok. destruct c as [m|]; [|by destruct Hok as (? & ? & _)]. eexists. split; [reflexivity|].
  split; [by apply docker_ok_insert|]. unfold docker_written, docker_written_default. cbn.
  by split; [intros n|]; rewrite lookup_insert_ne.
Qed.

Definition default_is (name : string) (c : Docker) : bool :=
  match entries c !! "default-runtime" with Some (JString s) => String.eqb s name | _ => false end.

(** [unset_default] succeeds and leaves everything else. *)
Lemma unset_default_ok name c : docker_ok c -> exists c',
  unset_default name c = Some c' /\ docker_ok c' /\ entries c' !! "runtimes" = entries c !! "runtimes" /\
  docker_written_default c' = (if default_is name c then "runc" else docker_written_default c).
Proof using Type.
  intros Hok. destruct c as [m|]; [|by destruct Hok as (? & ? & _)]. unfold unset_default, default_is, docker_written_default.
  change (entries (Some m)) with m. destruct (docker_default m Hok) as [[s Hs]|Hs]; rewrite Hs; cbn.
  - destruct (String.eqb s name); eexists; (split; [reflexivity|]); [|by cbn; rewrite Hs].
    split; [apply docker_ok_insert; first [exact Hok|discriminate|intros _; by eexists]|]. cbn. by rewrite lookup_insert_ne, lookup_insert_eq.
  - eexists. split; [reflexivity|]. by cbn; rewrite Hs.
Qed.
Lemma default_is_written name c : docker_ok c -> default_is name c = true -> docker_written_default c = name.
Proof using Type.
  unfold default_is, docker_written_default. intros _. destruct (entries c !! "default-runtime") as [[s| | | |]|]; try done. by destruct (String.eqb_spec s name).
Qed.
(** What dropping the default does to the default that is written. *)
Lemma unset_default_written name c c' : docker_written_default c' = (if default_is name c then "runc" else docker_written_default c) ->
  docker_ok c -> dropped name (docker_written_default c) (docker_written_default c').
Proof using Type.
  intros Hd Hok. destruct (default_is name c) eqn:E.
  - apply default_is_written in E; [|done]. rewrite Hd, E. by split; [|right].
  - rewrite Hd. split; [done|]. intros Heq. left. unfold default_is, docker_written_default in *.
    destruct (entries c !! "default-runtime") as [[s| | | |]|]; try done. subst. by rewrite String.eqb_refl in E.
Qed.
Lemma docker_RemoveRuntime_ok name c : docker_ok c -> exists c',
  docker_RemoveRuntime name c = done c' /\ docker_ok c' /\
  (forall n, docker_written c' n = if String.eqb n name then "" else docker_written c n) /\
  docker_written_default c' = (if default_is name c then "runc" else docker_written_default c).
Proof using Type.
  intros Hok. destruct (unset_default_ok name c Hok) as (c1 & Hu & Hok1 & Hr & Hd). unfold docker_RemoveRuntime. rewrite Hu. cbn -[entries].
  destruct c1 as [m|]; [|by destruct Hok1 as (? & ? & _)]. rewrite <- Hd. unfold docker_written. rewrite <- Hr. clear c Hok Hu Hr Hd.
  change (entries (Some m)) with m. destruct (docker_runtimes m Hok1) as [[rs Hrs]|Hrs]; rewrite Hrs; cbn -[decide].
  - destruct (decide (delete name rs = ∅)) as [He|He]; eexists; (split; [reflexivity|]).
    + split; [|split].
      * destruct (docker_ok_insert m "runtimes" (JObject (delete name rs)) Hok1) as (m' & [= <-] & H1 & H2); [by eexists|done|].
        exists (delete "runtimes" (<["runtimes" := JObject (delete name rs)]> m)). split; [done|].
        split; intros v [? ?]%lookup_delete_Some; auto.
      * intros n. cbn. rewrite lookup_delete_eq. destruct (String.eqb_spec n name) as [|Hne]; [done|].
        rewrite <- (lookup_delete_ne rs name n), He by done. by rewrite lookup_empty.
      * unfold docker_written_default. cbn. by rewrite lookup_delete_ne, lookup_insert_ne.
    + split; [apply docker_ok_insert; [done|by eexists|done]|split].
      * intros n. cbn. rewrite lookup_insert_eq. destruct (String.eqb_spec n name) as [->|Hne]; [by rewrite lookup_delete_eq|by rewrite lookup_delete_ne].
      * unfold docker_written_default. cbn. by rewrite lookup_insert_ne.
  - eexists. split; [reflexivity|]. split; [done|]. split; [|done]. intros n. cbn. rewrite Hrs. by destruct (String.eqb n name).
Qed.

Lemma docker_UpdateDefaultRuntime_ok name action c : docker_ok c -> exists r c',
  docker_UpdateDefaultRuntime name action c = Some (r, c') /\ docker_ok c' /\ (forall n, docker_written c' n = docker_written c n) /\
  if String.eqb action UpdateActionSet then r = Ok tt /\ docker_written_default c' = name
  else if String.eqb action UpdateActionUnset then r = Ok tt /\ docker_written_default c' = (if default_is name c then "runc" else docker_written_default c)
  else r = Err (invalid_action action) /\ docker_written_default c' = docker_written_default c.
Proof using Type.
  intros Hok. unfold docker_UpdateDefaultRuntime, known_action. destruct (String.eqb action UpdateActionSet).
  - destruct c as [m|]; [|by destruct Hok as (? & ? & _)]. do 2 eexists. split; [reflexivity|].
    split; [apply docker_ok_insert; first [exact Hok|discriminate|intros _; by eexists]|]. unfold docker_written, docker_written_default. cbn.
    split; [intros n; by rewrite lookup_insert_ne|]. by rewrite lookup_insert_eq.
  - destruct (String.eqb action UpdateActionUnset); cbn [orb negb].
    + destruct (unset_default_ok name c Hok) as (c' & -> & Hok' & Hr & Hd). do 2 eexists. split; [reflexivity|].
      split; [done|]. split; [|done]. intros n. unfold docker_written. by rewrite Hr.
    + by exists (Err (invalid_action action)), c.
Qed.

#[export] Instance docker_laws : EngineLaws Docker.
Proof using Type.
  split; cbn -[docker_UpdateDefaultRuntime].
  - intros name path d c Hok. destruct (docker_AddRuntime_ok name path d c Hok) as (c' & ? & ? & ? & Hd). exists c'.
    split_and!; [done..|]. destruct d; [done|by left].
  - intros name c Hok. destruct (docker_RemoveRuntime_ok name c Hok) as (c' & ? & ? & ? & Hd). exists c'. split_and!; [done..|].
    by apply unset_default_written.
  - apply docker_EnableCDI_ok.
  - intros name action c Hok. destruct (docker_UpdateDefaultRuntime_ok name action c Hok) as (r & c' & ? & ? & ? & Hd). exists r, c'.
    split_and!; [done..|]. destruct (String.eqb action UpdateActionSet); [done|]. destruct (String.eqb action UpdateActionUnset); [|done].
    destruct Hd as [-> Hd]. split; [done|]. by apply unset_default_written.
Qed.
End DockerLaws.
