(* ===== verification/Crio.v ===== *)
(** * The cri-o configuration (src/pkg/config/engine/crio) *)
From S2P Require Import Prelude GoStrings FileSystem Toml Engine.
Local Abbreviation tree := (gmap string item).

(** [GetDefaultRuntimeOptions] looks for the table of each low-level runtime;
    [found] is what it returns for a table, [missing] without one. Shared with
    containerd. *)
Fixpoint first_options `{Toml} (get : list string -> option item) (base : list string) (missing : options) (runtimes : list string) : may_panic options :=
  match runtimes with
  | [] => Some missing
  | r :: runtimes =>
      found ← GetSubtreeByPath get (base ++ [r]);
      match found with
      | Some t => Some (Options (Copy t))
      | None => first_options get base missing runtimes
      end
  end.
(** [SetPath] of the options: a [nil] tree panics, no options are skipped. *)
Definition set_options `{Trees T} (keys : list string) (opts : options) (c : T) : may_panic T :=
  match opts with
  | NoOptions => Some c
  | Options None => None
  | Options (Some t) => Some (t_set keys (ITree t) c)
  end.
(** Delete the default runtime if it is the given one. *)
Definition drop_default `{Trees T} (keys : list string) (name : string) (c : T) : T :=
  match as_string (t_get keys c) with
  | Some d => if String.eqb d name then t_delete keys c else c
  | None => c
  end.

(** ** [crio.Config] on its tree *)

Definition crio_runtimes : list string := ["crio"; "runtime"; "runtimes"].
Definition crio_default : list string := ["crio"; "runtime"; "default_runtime"].

Definition crio_tree_DefaultRuntime (t : tree) : string := default "" (as_string (get_path crio_default t)).
(** The receiver and its tree may be [nil]. *)
Definition crio_DefaultRuntime (c : option tree) : may_panic string :=
  Some match c with None => "" | Some t => crio_tree_DefaultRuntime t end.
Definition crio_GetBinaryPath (rt : option tree) : string :=
  match rt with Some t => default "" (as_string (get_path ["runtime_path"] t)) | None => "" end.
Definition crio_GetRuntimeConfig (name : string) (c : option tree) : may_panic (result string) :=
  match c with
  | None => Some (Err "config is nil")
  | Some t => rt ← GetSubtreeByPath (fun k => get_path k t) (crio_runtimes ++ [name]); Some (Ok (crio_GetBinaryPath rt))
  end.
Definition crio_GetDefaultRuntimeOptions `{Toml} (c : option tree) : may_panic options :=
  d ← crio_DefaultRuntime c;
  t ← deref c;
  first_options (fun k => get_path k t) crio_runtimes NoOptions (GetLowLevelRuntimes d).

Definition crio_AddRuntimeWithOptions (name path : string) (setAsDefault : bool) (opts : options) (t : tree) : step tree :=
  t ← set_options (crio_runtimes ++ [name]) opts t;
  let t := set_path (crio_runtimes ++ [name; "runtime_path"]) (IVal (VStr path)) t in
  let t := set_path (crio_runtimes ++ [name; "runtime_type"]) (IVal (VStr "oci")) t in
  done (if setAsDefault then set_path crio_default (IVal (VStr name)) t else drop_default crio_default name t).
(** [crio.Config.AddRuntime], for a configuration without a source. *)
Definition crio_AddRuntime `{Toml} (name path : string) (setAsDefault : bool) (c : option tree) : step (option tree) :=
  match c with
  | None => Some (Err "config is nil", c)
  | Some _ =>
      opts ← crio_GetDefaultRuntimeOptions c;
      in_tree (crio_AddRuntimeWithOptions name path setAsDefault opts) c
  end.

(** The loop of [RemoveRuntime]: the paths, the longest one first, until a
    table that is not empty. *)
Fixpoint crio_prune (paths : list (list string)) (t : tree) : tree :=
  match paths with
  | [] => t
  | p :: paths =>
      match as_tree (get_path p t) with
      | Some entry => if decide (keys_of entry = []) then crio_prune paths (delete_path p t) else t
      | None => crio_prune paths t
      end
  end.
(** The prefixes of a path that are not empty, the longest one first. *)
Fixpoint prefixes (p : list string) : list (list string) :=
  match p with
  | [] => []
  | k :: ks => map (cons k) (prefixes ks) ++ [[k]]
  end.
Definition crio_RemoveRuntime (name : string) (t : tree) : step tree :=
  let t := drop_default crio_default name t in
  let t := delete_path (crio_runtimes ++ [name]) t in
  done (crio_prune (prefixes (crio_runtimes ++ [name])) t).

Definition crio_UpdateDefaultRuntime (name action : string) (c : option tree) : step (option tree) :=
  if negb (known_action action) then Some (Err (invalid_action action), c)
  else match c with
       | None => Some (if String.eqb action UpdateActionSet then Err "config toml is nil" else Ok tt, c)
       | Some t =>
           done (Some (if String.eqb action UpdateActionSet then set_path crio_default (IVal (VStr name)) t
                       else drop_default crio_default name t))
       end.

(** ** The configuration with a source and a destination *)

Record CrioConfig := mkCrio { crio_source : option tree; crio_destination : option tree }.
Definition in_destination (f : option tree -> step (option tree)) (c : CrioConfig) : step CrioConfig :=
  '(r, d) ← f (crio_destination c); Some (r, mkCrio (crio_source c) d).

#[export] Instance crio_Source `{Toml} : RuntimeConfigSource CrioConfig := {
  Source_DefaultRuntime := fun c => crio_DefaultRuntime (crio_source c);
  Source_GetRuntimeConfig := fun n c => crio_GetRuntimeConfig n (crio_source c);
  Source_GetDefaultRuntimeOptions := fun c => crio_GetDefaultRuntimeOptions (crio_source c);
}.
#[export] Instance crio_Destination `{Toml} : RuntimeConfigDestination CrioConfig := {
  Destination_AddRuntimeWithOptions := fun name path d opts => in_destination (in_tree (crio_AddRuntimeWithOptions name path d opts));
  Destination_EnableCDI := Some;
  Destination_RemoveRuntime := fun name => in_destination (in_tree (crio_RemoveRuntime name));
  Destination_UpdateDefaultRuntime := fun name action => in_destination (crio_UpdateDefaultRuntime name action);
  Destination_Save := fun path c w => '(r, w) ← Tree_Save (crio_destination c) path w; Some (r, (c, w));
}.

(** ** [New] and the command line source *)

Record crio_builder := mkCrioBuilder {
  crio_configSource : option Loader; crio_configDestination : option Loader; crio_topLevelConfigPath : string;
}.
Definition crio_New `{Toml, Commands} (b : crio_builder) (f : fs) : result CrioConfig :=
  let source := default (FromFile (crio_topLevelConfigPath b)) (crio_configSource b) in
  let? sourceConfig := Load source f in
  let? destinationConfig := match crio_configDestination b with
                            | Some l => Load l f
                            | None => Ok (Some ∅)
                            end in
  Ok (mkCrio sourceConfig destinationConfig).

Definition chrootIfRequired (hostRoot : string) (commandLine : list string) : list string :=
  if String.eqb hostRoot "" || String.eqb hostRoot "/" then commandLine else ["chroot"; hostRoot] ++ commandLine.
Definition crio_CommandLineSource (hostRoot executablePath : string) : Loader :=
  let executablePath := if String.eqb executablePath "" then "crio" else executablePath in
  FirstOf [Some (FromCommandLine (chrootIfRequired hostRoot [executablePath; "status"; "config"]));
           Some (FromCommandLine (chrootIfRequired hostRoot ["crio-status"; "config"]))].
