(* ===== verification/Containerd.v ===== *)
(** * The containerd configuration (src/pkg/config/engine/containerd)

    The destination of a drop-in configuration shares the table of the CRI
    plugin with its source ([getBaseDropInConfigTree] stores the pointer), so
    the edits are written over [Trees]: a plain tree, or the pair of the two
    trees with the shared table kept in step. *)
From S2P Require Import Prelude GoStrings GoPaths FileSystem Toml Engine Crio.
Local Abbreviation tree := (gmap string item).

Definition defaultConfigVersion : Z := 2.
Definition defaultRuntimeType : string := "io.containerd.runc.v2".

Record configOptions := mkConfigOptions {
  Version : Z;
  RuntimeType : string;
  ContainerAnnotations : list string;
  UseLegacyConfig : bool;
  CRIRuntimePluginName : string;
}.

(** ** Reading *)

Definition containerd_GetBinaryPath (rt : option tree) : string :=
  match rt with Some t => default "" (as_string (get_path ["options"; "BinaryName"] t)) | None => "" end.

(** The strings of an array. *)
Fixpoint strings_of (l : list value) : result (list string) :=
  match l with
  | [] => Ok []
  | VStr s :: l => let? ss := strings_of l in Ok (s :: ss)
  | _ :: _ => Err "invalid annotation"
  end.
(** [getStringArrayValue] on a tree. *)
Definition getStringArrayValue (get : list string -> option item) (path : list string) : result (list string) :=
  match get path with
  | None => Ok []
  | Some (IVal (VAny l)) => strings_of l
  | Some _ => Err "invalid annotations: []"
  end.

Section Paths.
Variable o : configOptions.
Definition plugin_path : list string := ["plugins"; CRIRuntimePluginName o].
Definition containerd_path : list string := plugin_path ++ ["containerd"].
Definition runtimes_path : list string := containerd_path ++ ["runtimes"].
Definition default_path : list string := containerd_path ++ ["default_runtime_name"].

(** The configuration without a tree panics, but where the code tests for it. *)
Definition containerd_DefaultRuntime (c : option tree) : may_panic string :=
  t ← deref c; Some (default "" (as_string (get_path default_path t))).
Definition containerd_GetRuntimeConfig (name : string) (c : option tree) : may_panic (result string) :=
  match c with
  | None => Some (Err "config is nil")
  | Some t => rt ← GetSubtreeByPath (fun k => get_path k t) (runtimes_path ++ [name]); Some (Ok (containerd_GetBinaryPath rt))
  end.

Definition fallback_options : tree :=
  <["runtime_type" := IVal (VStr (RuntimeType o))]> (<["runtime_root" := IVal (VStr "")]>
  (<["runtime_engine" := IVal (VStr "")]> (<["privileged_without_host_devices" := IVal (VBool false)]> ∅))).
Definition containerd_GetDefaultRuntimeOptions `{Toml} (c : option tree) : may_panic options :=
  d ← containerd_DefaultRuntime c;
  t ← deref c;
  first_options (fun k => get_path k t) runtimes_path (Options (Some fallback_options)) (GetLowLevelRuntimes d).

(** ** Editing *)

Section Edit.
Context `{Trees T}.

(** The annotations are put before those of the options. *)
Definition add_annotations (name : string) (c : T) : result unit * T :=
  match ContainerAnnotations o with
  | [] => (Ok tt, c)
  | added =>
      let path := runtimes_path ++ [name; "container_annotations"] in
      match getStringArrayValue (fun k => t_get k c) path with
      | Err e => (Err e, c)
      | Ok old => (Ok tt, t_set path (IVal (VStrs (added ++ old))) c)
      end
  end.
Definition containerd_AddRuntimeWithOptions (name path : string) (setAsDefault : bool) (opts : options) (c : T) : step T :=
  let c := t_set ["version"] (IVal (VInt (Version o))) c in
  c ← set_options (runtimes_path ++ [name]) opts c;
  match add_annotations name c with
  | (Err e, c) => Some (Err e, c)
  | (Ok _, c) =>
      let c := t_set (runtimes_path ++ [name; "options"; "BinaryName"]) (IVal (VStr path)) c in
      done (if setAsDefault then t_set default_path (IVal (VStr name)) c else drop_default default_path name c)
  end.

Definition containerd_EnableCDI (c : T) : T := t_set (plugin_path ++ ["enable_cdi"]) (IVal (VBool true)) c.

(** Every empty table on the path goes. *)
Fixpoint containerd_prune (paths : list (list string)) (c : T) : T :=
  match paths with
  | [] => c
  | p :: paths =>
      containerd_prune paths
        (match as_tree (t_get p c) with
         | Some runtimes => if decide (keys_of runtimes = []) then t_delete p c else c
         | None => c
         end)
  end.
Definition drop_version (c : T) : T :=
  if decide (keys_of (shown c) = ["version"]) then t_delete ["version"] c else c.
Definition containerd_RemoveRuntime (name : string) (c : T) : step T :=
  let c := t_delete (runtimes_path ++ [name]) c in
  let c := drop_default default_path name c in
  done (drop_version (containerd_prune (prefixes (runtimes_path ++ [name])) c)).

Definition containerd_UpdateDefaultRuntime (name action : string) (c : option T) : step (option T) :=
  if negb (known_action action) then Some (Err (invalid_action action), c)
  else match c with
       | None => Some (if String.eqb action UpdateActionSet then Err "config toml is nil" else Ok tt, c)
       | Some t =>
           done (Some (if String.eqb action UpdateActionSet then t_set default_path (IVal (VStr name)) t
                       else drop_default default_path name t))
       end.
End Edit.
End Paths.

(** [RemoveRuntime] does nothing without a tree. *)
Definition or_nothing {T} (f : T -> step T) (c : option T) : step (option T) :=
  match c with None => done None | Some _ => in_tree f c end.
(** [Config.AddRuntime], for a configuration without a source. *)
Definition containerd_AddRuntime `{Toml} (o : configOptions) (name path : string) (setAsDefault : bool) (c : option tree) : step (option tree) :=
  match c with
  | None => Some (Err "config is nil", c)
  | Some _ =>
      opts ← containerd_GetDefaultRuntimeOptions o c;
      in_tree (containerd_AddRuntimeWithOptions o name path setAsDefault opts) c
  end.

(** ** Drop-in files and version 1 of the containerd configuration

    [ConfigV1], [ConfigWithDropIn] with its top-level configuration, and [New]
    of src/pkg/config/engine/containerd. *)

(** ** A destination that shares a table with its source

    [shared] is the path of the table while both trees hold the same one. A
    write below the path changes the table, so it shows in both trees; when
    the destination drops the table, the source keeps it. *)
Record sharing := mkSharing { source : tree; destination : tree; shared : option (list string) }.

(** Both trees show the table at [p] as the destination has it. *)
Definition mirror (p : list string) (s d : tree) : tree :=
  match get_path p d with Some i => set_path p i s | None => s end.
Definition strictly_below (p keys : list string) : bool :=
  bool_decide (take (length p) keys = p) && Nat.ltb (length p) (length keys).
Definition on_or_above (p keys : list string) : bool := bool_decide (take (length keys) p = keys).
Definition update_destination (keys : list string) (d : tree) (c : sharing) : sharing :=
  match shared c with
  | None => mkSharing (source c) d None
  | Some p =>
      if strictly_below p keys then mkSharing (mirror p (source c) d) d (Some p)
      else if on_or_above p keys then mkSharing (source c) d None
      else mkSharing (source c) d (Some p)
  end.
#[export] Instance sharing_trees : Trees sharing := {
  shown := destination;
  t_set := fun keys i c => update_destination keys (set_path keys i (destination c)) c;
  t_delete := fun keys c => update_destination keys (delete_path keys (destination c)) c;
}.

(** The source of a drop-in configuration may be without a tree; then [New]
    panics, so a [sharing] always has two trees. *)
Definition getBaseDropInConfigTree (o : configOptions) (source : option tree) : may_panic sharing :=
  s ← deref source;
  criPlugin ← GetSubtreeByPath (fun k => get_path k s) (plugin_path o);
  Some match criPlugin with
       | Some t => mkSharing s (set_path (plugin_path o) (ITree t) ∅) (Some (plugin_path o))
       | None => mkSharing s ∅ None
       end.

(** ** The top-level configuration *)

Record topLevelConfig := mkTopLevel {
  tl_path : string; containerToHostPathMap : gmap string string; tl_tree : option tree;
}.
Definition with_tl_tree (t : option tree) (c : topLevelConfig) : topLevelConfig :=
  mkTopLevel (tl_path c) (containerToHostPathMap c) t.

Definition asHostPath (c : topLevelConfig) (path : string) : string := default path (containerToHostPathMap c !! path).
Definition importPattern (c : topLevelConfig) (dropInFilename : string) : string :=
  if String.eqb dropInFilename SaveToSTDOUT then "/etc/containerd/conf.d/*.toml"
  else asHostPath c (path_dir dropInFilename) +:+ "/*.toml".

Definition removeImports (requiredImport : string) (t : tree) : tree :=
  if negb (Nat.eqb (length (keys_of t)) 2) then t
  else match get_path ["version"] t, get_path ["imports"] t with
       | Some _, Some _ =>
           match getStringArrayValue (fun k => get_path k t) ["imports"] with
           | Ok [current] => if String.eqb current requiredImport then delete_path ["imports"] t else t
           | _ => t
           end
       | _, _ => t
       end.
Definition removeVersion (t : tree) : tree :=
  if Nat.ltb 1 (length (keys_of t)) then t
  else match get_path ["version"] t with Some _ => delete_path ["version"] t | None => t end.
Definition topLevel_simplify (requiredImport : string) (t : tree) : tree := removeVersion (removeImports requiredImport t).

Definition getCurrentImports (t : tree) : list string :=
  match get_path ["imports"] t with
  | Some (IVal (VStrs l)) => l
  | Some (IVal (VAny l)) => omap (fun v => match v with VStr s => Some s | _ => None end) l
  | _ => []
  end.
Definition ensureImports (version : Z) (requiredImport : string) (t : tree) : tree :=
  let currentImports := getCurrentImports t in
  if bool_decide (requiredImport ∈ currentImports) then t
  else
    let imports := IVal (VStrs (currentImports ++ [requiredImport])) in
    let t := if decide (keys_of t = []) then set_path ["version"] (IVal (VInt version)) t else t in
    set_path ["imports"] imports t.

Definition topLevel_Save `{Toml} (dropInPath : string) (c : topLevelConfig) (w : world) : may_panic (result nat * world) :=
  Tree_Save (tl_tree c) (if String.eqb dropInPath SaveToSTDOUT then SaveToSTDOUT else tl_path c) w.

(** ** [ConfigWithDropIn] *)

Record ConfigWithDropIn := mkDropIn {
  dropin_options : configOptions; topLevel : topLevelConfig; dropin : sharing;
}.
Definition in_dropin (f : sharing -> step sharing) (c : ConfigWithDropIn) : step ConfigWithDropIn :=
  '(r, s) ← f (dropin c); Some (r, mkDropIn (dropin_options c) (topLevel c) s).
Definition some_tree {T} (f : option T -> step (option T)) (c : T) : step T :=
  '(r, c') ← f (Some c); c' ← c'; Some (r, c').

Definition dropin_RemoveRuntime (name : string) (c : ConfigWithDropIn) : step ConfigWithDropIn :=
  let o := dropin_options c in
  '(r, t) ← or_nothing (containerd_RemoveRuntime o name) (tl_tree (topLevel c));
  let c := mkDropIn o (with_tl_tree t (topLevel c)) (dropin c) in
  match r with
  | Err e => Some (Err e, c)
  | Ok _ => in_dropin (containerd_RemoveRuntime o name) c
  end.

Definition dropin_Save `{Toml} (dropInPath : string) (c : ConfigWithDropIn) (w : world) : may_panic (result nat * (ConfigWithDropIn * world)) :=
  '(r, w) ← Tree_Save (Some (destination (dropin c))) dropInPath w;
  match r with
  | Err e => Some (Err e, (c, w))
  | Ok bytesWritten =>
      let required := importPattern (topLevel c) dropInPath in
      t ← deref (tl_tree (topLevel c));
      let t := if Nat.eqb bytesWritten 0 then topLevel_simplify required t else ensureImports (Version (dropin_options c)) required t in
      let c := mkDropIn (dropin_options c) (with_tl_tree (Some t) (topLevel c)) (dropin c) in
      '(r, w) ← topLevel_Save dropInPath (topLevel c) w;
      Some (match r with
            | Err e => Err ("failed to save top-level config: " +:+ e)
            | Ok _ => Ok bytesWritten
            end, (c, w))
  end.

#[export] Instance dropin_Source `{Toml} : RuntimeConfigSource ConfigWithDropIn := {
  Source_DefaultRuntime := fun c => containerd_DefaultRuntime (dropin_options c) (Some (source (dropin c)));
  Source_GetRuntimeConfig := fun n c => containerd_GetRuntimeConfig (dropin_options c) n (Some (source (dropin c)));
  Source_GetDefaultRuntimeOptions := fun c => containerd_GetDefaultRuntimeOptions (dropin_options c) (Some (source (dropin c)));
}.
#[export] Instance dropin_Destination `{Toml} : RuntimeConfigDestination ConfigWithDropIn := {
  Destination_AddRuntimeWithOptions := fun name path d opts c =>
    in_dropin (containerd_AddRuntimeWithOptions (dropin_options c) name path d opts) c;
  Destination_EnableCDI := fun c =>
    Some (mkDropIn (dropin_options c) (topLevel c) (containerd_EnableCDI (dropin_options c) (dropin c)));
  Destination_RemoveRuntime := dropin_RemoveRuntime;
  Destination_UpdateDefaultRuntime := fun name action c =>
    in_dropin (some_tree (containerd_UpdateDefaultRuntime (dropin_options c) name action)) c;
  Destination_Save := dropin_Save;
}.

(** ** [ConfigV1] *)

Record ConfigV1 := mkV1 { v1_options : configOptions; v1_tree : option tree }.
Definition cri : list string := ["plugins"; "cri"; "containerd"].
Definition default_runtime : list string := cri ++ ["default_runtime"].

(** The legacy section for the default runtime. *)
Definition set_default_section (o : configOptions) (path : string) (t : tree) : tree :=
  let t := match get_path default_runtime t with
           | Some _ => t
           | None =>
               let t := set_path (default_runtime ++ ["runtime_type"]) (IVal (VStr (RuntimeType o))) t in
               let t := set_path (default_runtime ++ ["runtime_root"]) (IVal (VStr "")) t in
               let t := set_path (default_runtime ++ ["runtime_engine"]) (IVal (VStr "")) t in
               set_path (default_runtime ++ ["privileged_without_host_devices"]) (IVal (VBool false)) t
           end in
  let t := set_path (default_runtime ++ ["options"; "BinaryName"]) (IVal (VStr path)) t in
  set_path (default_runtime ++ ["options"; "Runtime"]) (IVal (VStr path)) t.
Definition v1_AddRuntimeWithOptions (o : configOptions) (name path : string) (setAsDefault : bool) (opts : options) (t : tree) : step tree :=
  '(r, t) ← containerd_AddRuntimeWithOptions o name path (setAsDefault && negb (UseLegacyConfig o)) opts t;
  match r with
  | Err e => Some (Err e, t)
  | Ok _ =>
      let t := set_path (cri ++ ["runtimes"; name; "options"; "Runtime"]) (IVal (VStr path)) t in
      done (if negb (UseLegacyConfig o) || negb setAsDefault then t else set_default_section o path t)
  end.
Definition v1_AddRuntime `{Toml} (name path : string) (setAsDefault : bool) (c : ConfigV1) : step ConfigV1 :=
  match v1_tree c with
  | None => Some (Err "config is nil", c)
  | Some _ =>
      opts ← containerd_GetDefaultRuntimeOptions (v1_options c) (v1_tree c);
      '(r, t) ← in_tree (v1_AddRuntimeWithOptions (v1_options c) name path setAsDefault opts) (v1_tree c);
      Some (r, mkV1 (v1_options c) t)
  end.

Definition v1_DefaultRuntime (c : ConfigV1) : may_panic string :=
  t ← deref (v1_tree c); Some (default "" (as_string (get_path (cri ++ ["default_runtime_name"]) t))).

(** The path of a runtime or of the default section: [BinaryName], or
    [Runtime] if that is missing or empty. *)
Definition section_path (section : list string) (t : tree) : string :=
  match as_string (get_path (section ++ ["options"; "BinaryName"]) t) with
  | Some p => if String.eqb p "" then default "" (as_string (get_path (section ++ ["options"; "Runtime"]) t)) else p
  | None => default "" (as_string (get_path (section ++ ["options"; "Runtime"]) t))
  end.
Definition v1_remove (name : string) (t : tree) : step tree :=
  let runtimePath := section_path (cri ++ ["runtimes"; name]) t in
  let defaultRuntimePath := section_path default_runtime t in
  let t := if negb (String.eqb runtimePath "") && negb (String.eqb defaultRuntimePath "") && String.eqb runtimePath defaultRuntimePath
           then delete_path default_runtime t else t in
  let t := delete_path (cri ++ ["runtimes"; name]) t in
  let t := drop_default (cri ++ ["default_runtime_name"]) name t in
  done (drop_version (containerd_prune (prefixes (cri ++ ["runtimes"; name])) t)).
Definition v1_RemoveRuntime (name : string) (c : ConfigV1) : step ConfigV1 :=
  '(r, t) ← or_nothing (v1_remove name) (v1_tree c); Some (r, mkV1 (v1_options c) t).
Definition v1_GetRuntimeConfig (name : string) (c : ConfigV1) : may_panic (result string) :=
  match v1_tree c with
  | None => Some (Err "config is nil")
  | Some t => rt ← GetSubtreeByPath (fun k => get_path k t) (cri ++ ["runtimes"; name]); Some (Ok (containerd_GetBinaryPath rt))
  end.
Definition v1_EnableCDI (c : ConfigV1) : may_panic ConfigV1 :=
  t ← deref (v1_tree c);
  Some (mkV1 (v1_options c) (Some (set_path (cri ++ ["enable_cdi"]) (IVal (VBool true)) t))).

#[export] Instance v1_Interface `{Toml} : Interface ConfigV1 := {
  AddRuntime := v1_AddRuntime;
  DefaultRuntime := v1_DefaultRuntime;
  EnableCDI := v1_EnableCDI;
  GetRuntimeConfig := v1_GetRuntimeConfig;
  RemoveRuntime := v1_RemoveRuntime;
  UpdateDefaultRuntime := fun _ _ c => Some (Err "this method is not implemented", c);
  Save := fun path c w => '(r, w) ← Tree_Save (v1_tree c) path w; Some (r, (c, w));
}.

(** ** [New] *)

Record containerd_builder := mkBuilder {
  configSource : option Loader; configVersion : Z; useLegacyConfig : bool; topLevelConfigPath : string;
  runtimeType : string; containerAnnotations : list string; containerToHost : gmap string string;
}.
Definition default_builder : containerd_builder := mkBuilder None defaultConfigVersion false "" defaultRuntimeType [] ∅.

Definition WithContainerPathAsHostPath (containerPath hostPath : string) (b : containerd_builder) : containerd_builder :=
  if String.eqb containerPath "" || String.eqb hostPath "" || String.eqb containerPath hostPath then b
  else mkBuilder (configSource b) (configVersion b) (useLegacyConfig b) (topLevelConfigPath b) (runtimeType b)
         (containerAnnotations b) (<[containerPath := hostPath]> (containerToHost b)).

Definition parseVersion (b : containerd_builder) (c : option tree) : result Z :=
  match c with
  | None => Ok (if useLegacyConfig b then 1%Z else configVersion b)
  | Some t =>
      if decide (keys_of t = []) then Ok (if useLegacyConfig b then 1%Z else configVersion b)
      else match get_path ["version"] t with
           | None => Ok 1%Z
           | Some (IVal (VInt v)) => Ok v
           | Some _ => Err "unsupported type for version field"
           end
  end.
Definition criRuntimePluginName (configVersion : Z) : string :=
  if Z.eqb configVersion 1 then "cri"
  else if Z.eqb configVersion 2 then "io.containerd.grpc.v1.cri"
  else "io.containerd.cri.v1.runtime".

Definition Containerd : Type := ConfigV1 + ConfigWithDropIn.
(** The error of loading the top-level configuration is dropped. *)
Definition containerd_New `{Toml, Commands} (b : containerd_builder) (f : fs) : may_panic (result Containerd) :=
  let source := default (FromFile (topLevelConfigPath b)) (configSource b) in
  match wrap "failed to load config" (Load source f) with
  | Err e => Some (Err e)
  | Ok sourceTree =>
      match wrap "failed to parse config version" (parseVersion b sourceTree) with
      | Err e => Some (Err e)
      | Ok v =>
          let o := mkConfigOptions v (runtimeType b) (containerAnnotations b) (useLegacyConfig b) (criRuntimePluginName v) in
          if Z.eqb v 1 then Some (Ok (inl (mkV1 o sourceTree)))
          else
            let top := mkTopLevel (topLevelConfigPath b) (containerToHost b)
                         (match Load (FromFile (topLevelConfigPath b)) f with Ok t => t | Err _ => None end) in
            s ← getBaseDropInConfigTree o sourceTree;
            Some (Ok (inr (mkDropIn o top s)))
      end
  end.
Definition CommandLineSource (hostRoot executablePath : string) : Loader :=
  FromCommandLine (chrootIfRequired hostRoot
    [(if String.eqb executablePath "" then "containerd" else executablePath); "config"; "dump"]).
