(* ===== verification/RuntimeTables.v ===== *)
(** * Tables of runtimes

    cri-o and containerd keep their runtimes alike: a table [B] with a table
    per runtime, in which the path [X] holds the binary, and a value at [D]
    for the default runtime. The keys [A] of a runtime hold arrays of strings.
    The lemmas here are about any such layout. *)
From S2P Require Import Prelude GoStrings FileSystem Toml Engine Crio Containerd.
Local Abbreviation tree := (gmap string item).

(** *** More on paths *)

Lemma apart_ext p q r s : apart p q = true -> apart (p ++ r) (q ++ s) = true.
Proof. revert q. induction p as [|a p IH]; intros [|b q]; cbn; [done..|]. destruct (String.eqb a b); [apply IH|done]. Qed.
Lemma apart_prefix p r : apart p (p ++ r) = false.
Proof. induction p as [|a p IH]; [done|]. cbn [app]. by rewrite apart_same. Qed.
Lemma app_ne {A} (p : list A) q : q <> [] -> p ++ q <> [].
Proof. by destruct p, q. Qed.
Lemma get_path_app p s r : r <> [] -> forall t, clear p t = true -> get_path p t = Some (ITree s) -> get_path (p ++ r) t = get_path r s.
Proof.
  intros Hr. destruct r as [|r0 r]; [done|]. induction p as [|k [|k2 p] IH]; intros t Hc Hg; [done| |].
  - cbn in Hg. cbn [app]. by rewrite get_path_cons, Hg.
  - rewrite clear_cons in Hc. cbn [app]. rewrite get_path_cons in Hg |- *. on_way t k; by apply IH.
Qed.
Lemma get_path_app_none p r : r <> [] -> forall t, clear p t = true -> get_path p t = None -> get_path (p ++ r) t = None.
Proof.
  intros Hr. destruct r as [|r0 r]; [done|]. induction p as [|k [|k2 p] IH]; intros t Hc Hg; [done| |].
  - cbn in Hg. cbn [app]. by rewrite get_path_cons, Hg.
  - rewrite clear_cons in Hc. cbn [app]. rewrite get_path_cons in Hg |- *. on_way t k; [by apply IH|done].
Qed.
Lemma clear_app p s r : r <> [] -> forall t, clear p t = true -> get_path p t = Some (ITree s) -> clear (p ++ r) t = clear r s.
Proof.
  intros Hr. destruct r as [|r0 r]; [done|]. induction p as [|k [|k2 p] IH]; intros t Hc Hg; [done| |].
  - cbn in Hg. cbn [app]. by rewrite clear_cons, Hg.
  - rewrite clear_cons in Hc. cbn [app]. rewrite get_path_cons in Hg. rewrite clear_cons. on_way t k. by apply IH.
Qed.
Lemma clear_table p r : r <> [] -> p <> [] -> forall t, clear (p ++ r) t = true -> (exists s, get_path p t = Some (ITree s)) \/ get_path p t = None.
Proof.
  intros Hr Hp. destruct r as [|r0 r]; [done|]. induction p as [|k [|k2 p] IH]; intros t Hc; [done| |].
  - cbn [app] in Hc. rewrite clear_cons in Hc. cbn. on_way t k; eauto.
  - cbn [app] in Hc. rewrite clear_cons in Hc. rewrite get_path_cons. on_way t k; [by apply IH|by right].
Qed.
Lemma clear_last p a b r : forall t, clear (p ++ a :: r) t = true -> clear (p ++ [b]) t = true.
Proof.
  induction p as [|k [|k2 p] IH]; intros t Hc; [done| |]; cbn [app] in *; rewrite clear_cons in Hc |- *; on_way t k; [done..|by apply IH|done].
Qed.

Lemma get_set_value ks v u : u <> [] -> forall t, clear ks t = true -> get_path (ks ++ u) (set_path ks (IVal v) t) = None.
Proof.
  intros Hu. destruct u as [|u0 u]; [done|]. induction ks as [|k [|k2 ks] IH]; intros t Hc; [done| |].
  - cbn [app set_path]. by rewrite get_path_cons, lookup_insert_eq.
  - rewrite clear_cons in Hc. cbn [app]. rewrite set_path_cons, get_path_cons.
    on_way t k; rewrite lookup_insert_eq; apply IH; first [done|apply clear_empty].
Qed.

Lemma keys_of_nil t : keys_of t = [] -> t = ∅.
Proof.
  unfold keys_of. intros H. destruct (map_to_list t) eqn:E; [by apply map_to_list_empty_iff|done].
Qed.
Lemma prefixes_spec q ks : ks ∈ prefixes q -> ks <> [] /\ exists r, q = ks ++ r.
Proof.
  revert ks. induction q as [|k q IH]; intros ks; cbn; [by intros ?%not_elem_of_nil|]. rewrite elem_of_app. intros [H|H].
  - apply list_elem_of_fmap_1 in H as (ks' & -> & [_ [r ->]]%IH). split; [done|]. by exists r.
  - apply list_elem_of_singleton in H as ->. split; [done|]. by exists q.
Qed.

(** *** Values that are printed and read back *)

Definition is_str (v : value) : bool := match v with VStr _ => true | _ => false end.
Definition plain_value (v : value) : bool :=
  match v with VStr _ | VBool _ | VInt _ | VStrs _ => true | VAny l => forallb is_str l | VOther _ => false end.
Definition plain_item (i : option item) : bool :=
  match i with Some (IVal v) => plain_value v | Some (ITrees _) => false | _ => true end.
Definition plain_tree (t : tree) : Prop := forall q, plain_item (get_path q t) = true.
(** Arrays of strings come back as arrays of any values. *)
Definition string_array (i : option item) : bool :=
  match i with None | Some (IVal (VStrs _)) => true | Some (IVal (VAny l)) => forallb is_str l | _ => false end.
Definition parsed_array (i : option item) : bool :=
  match i with None => true | Some (IVal (VAny l)) => forallb is_str l | _ => false end.
(** What the text of a plain tree is read back as: tables stay tables. *)
Class TomlReadsBack `{Toml} : Prop :=
  reads_back t : plain_tree t -> exists t', Copy t = Some t' /\ plain_tree t' /\
    (forall q, clear q t = true -> clear q t' = true) /\
    (forall q, string_array (get_path q t) = true -> parsed_array (get_path q t') = true).

Section Tables.
Variables (B D X p A : list string).
(** The runtimes and the default are below [p], apart from each other. *)
Class layout : Prop := mkLayout {
  layout_arrays a : a ∈ A -> apart [a] X = true;
  layout_default : apart D B = true;
  layout_binary : X <> [];
  layout_runtimes_below : exists r, r <> [] /\ B = p ++ r;
  layout_default_below : exists r, r <> [] /\ D = p ++ r;
}.
Context `{L : layout}.

(** The path of runtime [n], and of its binary. *)
Definition rt (n : string) : list string := B ++ [n].
Definition bin (n : string) : list string := rt n ++ X.

Definition ok_tree (t : tree) : Prop :=
  clear D t = true /\ (forall n, clear (bin n) t = true) /\ (forall n q, plain_item (get_path (rt n ++ q) t) = true) /\
  (forall n a, a ∈ A -> string_array (get_path (rt n ++ [a]) t) = true).
Definition path_of (t : tree) (n : string) : string := default "" (as_string (get_path (bin n) t)).
Definition default_of (t : tree) : string := default "" (as_string (get_path D t)).

Lemma apart_D_rt n q : apart D (rt n ++ q) = true.
Proof using L.
  pose proof L as [HA HDB HX HpB HpD]. unfold rt. rewrite <- (app_nil_r D), <- app_assoc. by apply apart_ext. Qed.
Lemma apart_rt n m q r : n <> m -> apart (rt n ++ q) (rt m ++ r) = true.
Proof using Type. intros H. unfold rt. rewrite <- !app_assoc. rewrite apart_app. by apply apart_diff. Qed.
Lemma rt_ne n : rt n <> [].
Proof using Type. by apply app_ne. Qed.
Lemma rt_app_ne n q : rt n ++ q <> [].
Proof using Type. unfold rt. rewrite <- app_assoc. by apply app_ne. Qed.
Lemma clear_rt n t : ok_tree t -> clear (rt n) t = true.
Proof using L.
  pose proof L as [HA HDB HX HpB HpD]. intros (_ & H & _ & _). apply (clear_prefix (rt n) X); [apply rt_ne|apply H]. Qed.
Lemma table_rt n t : ok_tree t -> (exists s, get_path (rt n) t = Some (ITree s)) \/ get_path (rt n) t = None.
Proof using L.
  pose proof L as [HA HDB HX HpB HpD]. intros (_ & H & _). apply (clear_table (rt n) X); [done|apply rt_ne|apply H]. Qed.

(** A write in the table of runtime [n] keeps the layout. *)
Lemma ok_set n q i t : ok_tree t -> clear (rt n ++ q) t = true ->
  (forall r, r <> [] -> X = q ++ r -> match i with ITree s => clear r s = true | _ => False end) ->
  match i with ITree s => plain_tree s | IVal v => plain_value v = true | ITrees _ => False end ->
  (forall a, a ∈ A -> match q with
    | [] => match i with ITree s => string_array (get_path [a] s) = true | _ => False end
    | b :: u => b <> a \/ (u = [] /\ string_array (Some i) = true) end) ->
  ok_tree (set_path (rt n ++ q) i t).
Proof using L.
  pose proof L as [HA HDB HX HpB HpD].
  intros (Hd & Hb & Hpl & Har) Hc Hx Hi Hia. split_and!.
  - rewrite clear_set_apart; [done..|]. rewrite apart_sym. apply apart_D_rt.
  - intros m. apply clear_set; [done|apply Hb|by apply app_ne|]. intros r Hr Heq. apply Hx; [done|].
    unfold bin, rt in Heq. rewrite <- !app_assoc in Heq. apply app_inv_head in Heq. by injection Heq as _ ->.
  - intros m r. destruct (paths_cases (rt n ++ q) (rt m ++ r)) as [Ha|[[u Hu]|[u [Hu Heq]]]].
    + by rewrite get_set_apart.
    + destruct u as [|u0 u].
      * rewrite app_nil_r in Hu. rewrite <- Hu, get_set_same by done. by destruct i; [|done|].
      * erewrite get_set_above; [done|done|exact Hu|by apply rt_app_ne|done].
    + rewrite Heq. destruct i as [v|s|l]; [|by rewrite get_set_below by done; apply Hi|done].
      by rewrite get_set_value.
  - intros m a Ha. specialize (Hia a Ha). destruct (decide (m = n)) as [->|Hne];
      [|rewrite get_set_apart; [by apply Har|done|by apply apart_rt]].
    destruct q as [|b u].
    + rewrite app_nil_r in *. destruct i; [done| |done]. by rewrite get_set_below.
    + destruct (decide (b = a)) as [->|Hne]; [destruct Hia as [?|[-> Hia]]; [done|by rewrite get_set_same]|].
      rewrite get_set_apart; [by apply Har|done|]. rewrite apart_app. by apply apart_diff.
Qed.
(** Deleting keeps the layout. *)
Lemma delete_keeps (Q : option item -> bool) ks q t : Q None = true ->
  (forall s s', Q (Some (ITree s)) = true -> Q (Some (ITree s')) = true) -> q <> [] ->
  clear ks t = true -> Q (get_path q t) = true -> Q (get_path q (delete_path ks t)) = true.
Proof using Type.
  intros Hn Ht Hne Hc Hq. destruct (paths_cases ks q) as [Ha|[[r ->]|[r [Hr ->]]]]; [by rewrite get_delete_apart| |by rewrite get_delete_below].
  destruct r as [|r0 r].
  - rewrite app_nil_r in *. pose proof (get_delete_below q [] t Hc) as E. rewrite app_nil_r in E. by rewrite E.
  - erewrite get_delete_above; [|done..]. destruct (get_path q t) as [[]|]; eauto.
Qed.
Lemma ok_delete ks t : ok_tree t -> clear ks t = true -> ok_tree (delete_path ks t).
Proof using Type.
  intros (Hd & Hb & Hpl & Har) Hc. split_and!; intros; [by apply clear_delete..| |].
  - apply (delete_keeps plain_item); [done|done|by apply rt_app_ne|done|done].
  - apply (delete_keeps string_array); [done..|by apply rt_app_ne|done|by apply Har].
Qed.
(** A write at the default, or aside from the runtimes and the default. *)
Lemma ok_set_default v t : ok_tree t -> ok_tree (set_path D (IVal v) t).
Proof using L.
  pose proof L as [HA HDB HX HpB HpD].
  intros (Hd & Hb & Hpl & Har). split_and!.
  - apply clear_set_prefix; [done|by intros E; rewrite E in Hd|by exists []; rewrite app_nil_r].
  - intros n. rewrite clear_set_apart; [apply Hb|done|apply apart_D_rt].
  - intros n q. rewrite get_set_apart; [done..|apply apart_D_rt].
  - intros n a Ha. rewrite get_set_apart; [by apply Har|done|apply apart_D_rt].
Qed.
Definition aside (ks : list string) : Prop := apart ks D = true /\ apart ks B = true.
Lemma aside_rt ks n q : aside ks -> apart ks (rt n ++ q) = true.
Proof using Type. intros [_ H]. unfold rt. rewrite <- (app_nil_r ks), <- app_assoc. by apply apart_ext. Qed.
Lemma ok_set_aside ks i t : aside ks -> clear ks t = true -> ok_tree t -> ok_tree (set_path ks i t).
Proof using Type.
  intros Ha Hc (Hd & Hb & Hpl & Har). split_and!.
  - rewrite clear_set_apart; [done..|apply Ha].
  - intros n. rewrite clear_set_apart; [apply Hb|done|by apply aside_rt].
  - intros n q. rewrite get_set_apart; [done..|by apply aside_rt].
  - intros n a Hin. rewrite get_set_apart; [by apply Har|done|by apply aside_rt].
Qed.

(** *** Runs over the trees of an engine

    [P] is what the engine keeps of its trees, [st c w d] that the runtimes
    of [c] have the paths [w] and the default runtime is [d]. *)
Section Runs.
Context {T : Type} `{HT : TreesLaws T}.
Variable P : T -> Prop.
Record carries : Prop := {
  carries_ok c : P c -> ok_tree (shown c);
  carries_set ks i c : P c -> (apart ks p = true \/ exists r, r <> [] /\ ks = p ++ r) -> clear ks (shown c) = true ->
    ok_tree (set_path ks i (shown c)) -> P (t_set ks i c);
  carries_delete ks c : P c -> clear ks (shown c) = true -> ok_tree (delete_path ks (shown c)) -> P (t_delete ks c);
}.
Hypothesis HP : carries.
Definition st (c : T) (w : string -> string) (d : string) : Prop :=
  P c /\ (forall n, path_of (shown c) n = w n) /\ default_of (shown c) = d.
Definition upd (w : string -> string) (n : string) (v : string) : string -> string := fun m => if String.eqb m n then v else w m.

Lemma st_ext c w w' d : (forall n, w n = w' n) -> st c w d -> st c w' d.
Proof using Type. intros Hw (? & Hq & ?). split_and!; [done| |done]. intros n. by rewrite Hq. Qed.
Lemma below_rt n q : apart (rt n ++ q) p = true \/ exists r, r <> [] /\ rt n ++ q = p ++ r.
Proof using L.
  pose proof L as [HA HDB HX HpB HpD]. destruct HpB as (r & Hr & HBr). right. exists (r ++ [n] ++ q). split; [by destruct r|]. unfold rt. by rewrite HBr, <- !app_assoc. Qed.
Lemma below_D : apart D p = true \/ exists r, r <> [] /\ D = p ++ r.
Proof using L.
  pose proof L as [HA HDB HX HpB HpD]. destruct HpD as (r & Hr & HDr). right. by exists r. Qed.

Lemma st_set_bin n v c w d : st c w d -> st (t_set (bin n) (IVal (VStr v)) c) (upd w n v) d.
Proof using L HP HT.
  pose proof L as [HA HDB HX HpB HpD].
  intros (Hc & Hw & Hd). pose proof (carries_ok HP c Hc) as Hok. pose proof Hok as (_ & Hb & _). split_and!.
  - apply (carries_set HP); [done|apply below_rt|apply Hb|]. apply ok_set; [done|apply Hb| |done|].
    + intros r Hr Heq. rewrite <- (app_nil_r X) in Heq at 1. apply app_inv_head in Heq. by subst.
    + intros a Ha. specialize (HA a Ha). destruct X as [|x X']; [done|]. left. intros ->. cbn in HA. by rewrite String.eqb_refl in HA.
  - intros m. rewrite shown_set. unfold path_of, upd. destruct (String.eqb_spec m n) as [->|Hne].
    + by rewrite get_set_same by apply Hb.
    + rewrite get_set_apart; [apply Hw|apply Hb|apply apart_rt; congruence].
  - rewrite shown_set. unfold default_of. rewrite get_set_apart; [done|apply Hb|]. rewrite apart_sym. apply apart_D_rt.
Qed.
Lemma st_set_field n k v c w d : apart [k] X = true -> plain_value v = true -> string_array (Some (IVal v)) = true \/ k ∉ A -> st c w d ->
  st (t_set (rt n ++ [k]) (IVal v) c) w d.
Proof using L HP HT.
  pose proof L as [HA HDB HX HpB HpD].
  intros Hk Hv Hs (Hc & Hw & Hd). pose proof (carries_ok HP c Hc) as Hok.
  assert (Hck : clear (rt n ++ [k]) (shown c) = true).
  { destruct Hok as (_ & Hb & _). specialize (Hb n). unfold bin in Hb. destruct X as [|x0 X']; [done|]. exact (clear_last _ _ k _ _ Hb). }
  split_and!.
  - apply (carries_set HP); [done|apply below_rt|done|]. apply ok_set; [done|done| |done|].
    + intros r Hr Heq. rewrite Heq in Hk. cbn in Hk. rewrite String.eqb_refl in Hk. done.
    + intros a Ha. destruct (decide (k = a)) as [->|Hne]; [right; by destruct Hs|by left].
  - intros m. rewrite shown_set. unfold path_of, bin. destruct (decide (m = n)) as [->|Hne]; (rewrite get_set_apart; [apply Hw|done|]).
    + by rewrite apart_app.
    + apply apart_rt. congruence.
  - rewrite shown_set. unfold default_of. rewrite get_set_apart; [done|done|]. rewrite apart_sym. apply apart_D_rt.
Qed.
Lemma st_set_table n s c w d : plain_tree s -> clear X s = true -> (forall a, a ∈ A -> string_array (get_path [a] s) = true) -> st c w d ->
  st (t_set (rt n) (ITree s) c) (upd w n (default "" (as_string (get_path X s)))) d.
Proof using L HP HT.
  pose proof L as [HA HDB HX HpB HpD].
  intros Hs Hx Hsa (Hc & Hw & Hd). pose proof (carries_ok HP c Hc) as Hok. pose proof (clear_rt n _ Hok) as Hcr. split_and!.
  - apply (carries_set HP); [done|by rewrite <- (app_nil_r (rt n)); apply below_rt|done|]. rewrite <- (app_nil_r (rt n)).
    apply ok_set; [done|by rewrite app_nil_r| |done|done]. intros r _ Heq. cbn in Heq. by rewrite <- Heq.
  - intros m. rewrite shown_set. unfold path_of, upd, bin. destruct (String.eqb_spec m n) as [->|Hne].
    + by rewrite get_set_below.
    + rewrite get_set_apart; [apply Hw|done|]. rewrite <- (app_nil_r (rt n)). apply apart_rt. congruence.
  - rewrite shown_set. unfold default_of. rewrite get_set_apart; [done|done|]. rewrite apart_sym, <- (app_nil_r (rt n)). apply apart_D_rt.
Qed.
Lemma st_set_default v c w d : st c w d -> st (t_set D (IVal (VStr v)) c) w v.
Proof using L HP HT.
  pose proof L as [HA HDB HX HpB HpD].
  intros (Hc & Hw & Hd). pose proof (carries_ok HP c Hc) as Hok. pose proof Hok as (HcD & _). split_and!.
  - apply (carries_set HP); [done|apply below_D|done|by apply ok_set_default].
  - intros m. rewrite shown_set. unfold path_of. rewrite get_set_apart; [apply Hw|done|apply apart_D_rt].
  - rewrite shown_set. unfold default_of. by rewrite get_set_same.
Qed.
Lemma st_set_aside ks v c w d : aside ks -> clear ks (shown c) = true -> (apart ks p = true \/ exists r, r <> [] /\ ks = p ++ r) ->
  st c w d -> st (t_set ks (IVal v) c) w d.
Proof using HP HT.
  intros Ha Hck Hp' (Hc & Hw & Hd). pose proof (carries_ok HP c Hc) as Hok. split_and!.
  - apply (carries_set HP); [done..|by apply ok_set_aside].
  - intros m. rewrite shown_set. unfold path_of. rewrite get_set_apart; [apply Hw|done|by apply aside_rt].
  - rewrite shown_set. unfold default_of. rewrite get_set_apart; [done|done|apply Ha].
Qed.
Lemma st_drop_default n c w d : st c w d -> st (drop_default D n c) w (if String.eqb d n then "" else d).
Proof using L HP HT.
  pose proof L as [HA HDB HX HpB HpD].
  intros (Hc & Hw & Hd). pose proof (carries_ok HP c Hc) as Hok. pose proof Hok as (HcD & _). unfold drop_default, t_get.
  unfold default_of in Hd. destruct (as_string (get_path D (shown c))) as [d'|] eqn:E; cbn in Hd; subst.
  - destruct (String.eqb_spec d n) as [->|Hne]; [|by split_and!; [done..|unfold default_of; rewrite E]]. split_and!.
    + apply (carries_delete HP); [done..|by apply ok_delete].
    + intros m. rewrite shown_delete. unfold path_of. rewrite get_delete_apart; [apply Hw|done|apply apart_D_rt].
    + rewrite shown_delete. unfold default_of. pose proof (get_delete_below D [] _ HcD) as E'. rewrite app_nil_r in E'. by rewrite E'.
  - split_and!; [done..|]. unfold default_of. rewrite E. by destruct (String.eqb _ n).
Qed.
Lemma st_delete_rt n c w d : st c w d -> st (t_delete (rt n) c) (upd w n "") d.
Proof using L HP HT.
  pose proof L as [HA HDB HX HpB HpD].
  intros (Hc & Hw & Hd). pose proof (carries_ok HP c Hc) as Hok. pose proof (clear_rt n _ Hok) as Hcr. split_and!.
  - apply (carries_delete HP); [done..|by apply ok_delete].
  - intros m. rewrite shown_delete. unfold path_of, upd, bin. destruct (String.eqb_spec m n) as [->|Hne].
    + by rewrite get_delete_below.
    + rewrite get_delete_apart; [apply Hw|done|]. rewrite <- (app_nil_r (rt n)). apply apart_rt. congruence.
  - rewrite shown_delete. unfold default_of. rewrite get_delete_apart; [done|done|]. rewrite apart_sym, <- (app_nil_r (rt n)). apply apart_D_rt.
Qed.
(** Deleting an empty table on the way to a runtime. *)
Lemma st_prune ks n r c w d : rt n = ks ++ r -> ks <> [] -> get_path ks (shown c) = Some (ITree ∅) ->
  st c w d -> st (t_delete ks c) w d.
Proof using L HP HT.
  pose proof L as [HA HDB HX HpB HpD].
  intros Hr Hks He (Hc & Hw & Hd). pose proof (carries_ok HP c Hc) as Hok.
  assert (Hck : clear ks (shown c) = true) by (apply (clear_prefix ks r); [done|rewrite <- Hr; by apply clear_rt]).
  assert (Hapart : apart D (rt n) = true) by (rewrite <- (app_nil_r (rt n)); apply apart_D_rt). split_and!.
  - apply (carries_delete HP); [done..|by apply ok_delete].
  - intros m. rewrite shown_delete. unfold path_of. rewrite get_prune; [apply Hw|done|done|]. intros u ->.
    apply (f_equal length) in Hr. unfold bin, rt in Hr. rewrite !length_app in Hr. cbn in Hr. assert (length X <> 0) by (by destruct X). lia.
  - rewrite shown_delete. unfold default_of. rewrite get_prune; [done..|]. intros u ->.
    by rewrite Hr, <- app_assoc, apart_prefix in Hapart.
Qed.
Lemma st_delete_aside ks c w d : aside ks -> clear ks (shown c) = true -> st c w d -> st (t_delete ks c) w d.
Proof using HP HT.
  intros Ha Hck (Hc & Hw & Hd). pose proof (carries_ok HP c Hc) as Hok. split_and!.
  - apply (carries_delete HP); [done..|by apply ok_delete].
  - intros m. rewrite shown_delete. unfold path_of. rewrite get_delete_apart; [apply Hw|done|by apply aside_rt].
  - rewrite shown_delete. unfold default_of. rewrite get_delete_apart; [done|done|apply Ha].
Qed.
Lemma st_drop_version c w d : aside ["version"] -> st c w d -> st (drop_version c) w d.
Proof using HP HT. intros Ha Hst. unfold drop_version. case_decide; [by apply st_delete_aside|done]. Qed.
Lemma st_containerd_prune n paths c w d : (forall ks, ks ∈ paths -> ks <> [] /\ exists r, rt n = ks ++ r) ->
  st c w d -> st (containerd_prune paths c) w d.
Proof using L HP HT.
  pose proof L as [HA HDB HX HpB HpD].
  revert c. induction paths as [|ks paths IH]; intros c Hks Hst; [done|]. cbn [containerd_prune].
  destruct (Hks ks) as [Hne [r Hr]]; [by left|]. apply IH; [intros; apply Hks; by right|]. unfold t_get.
  destruct (get_path ks (shown c)) as [[|s|]|] eqn:E; try done. cbn. case_decide as Hk; [|done].
  apply (st_prune ks n r); try done. by apply keys_of_nil in Hk as ->.
Qed.
Lemma st_crio_prune n paths (c : T) w d : (forall ks, ks ∈ paths -> ks <> [] /\ exists r, rt n = ks ++ r) ->
  st c w d -> exists c', shown c' = crio_prune paths (shown c) /\ st c' w d.
Proof using L HP HT.
  pose proof L as [HA HDB HX HpB HpD].
  revert c. induction paths as [|ks paths IH]; intros c Hks Hst; [by exists c|]. cbn [crio_prune].
  destruct (Hks ks) as [Hne [r Hr]]; [by left|].
  assert (IH' : forall c, st c w d -> exists c', shown c' = crio_prune paths (shown c) /\ st c' w d).
  { intros c1. apply IH. intros; apply Hks; by right. }
  destruct (get_path ks (shown c)) as [[|s|]|] eqn:E; cbn [as_tree]; try (by apply IH'). case_decide as Hk; [|by exists c].
  rewrite <- shown_delete. apply IH', (st_prune ks n r); try done. by apply keys_of_nil in Hk as ->.
Qed.
End Runs.

(** A plain tree carries its layout. *)
Lemma carries_plain : carries (T := tree) ok_tree.
Proof using Type. by split. Qed.

(** *** The options of the default runtime *)

Section Options.
Context `{TomlReadsBack}.
Definition good_options (opts : options) : Prop :=
  match opts with
  | NoOptions => True
  | Options None => False
  | Options (Some s) => plain_tree s /\ clear X s = true /\ forall a, a ∈ A -> parsed_array (get_path [a] s) = true
  end.
Lemma first_options_ok t missing rs : ok_tree t -> good_options missing -> exists opts,
  first_options (fun k => get_path k t) B missing rs = Some opts /\ good_options opts.
Proof using L H0.
  pose proof L as [HA HDB HX HpB HpD].
  intros Hok Hm. induction rs as [|r rs IH]; [by eexists|]. cbn [first_options]. unfold GetSubtreeByPath.
  fold (rt r). destruct (table_rt r t Hok) as [[s Hs]|Hs]; rewrite Hs; cbn; [|done].
  pose proof (clear_rt r t Hok) as Hc. destruct Hok as (_ & Hb & Hpl & Har).
  assert (Hsub : plain_tree s).
  { intros [|k q]; [done|]. rewrite <- (get_path_app (rt r) s (k :: q)) with (t := t); [apply Hpl|done..]. }
  destruct (reads_back s Hsub) as (s' & -> & Hpl' & Hcl & Hst). eexists. split; [reflexivity|]. split_and!; [done| |].
  - apply Hcl. rewrite <- (clear_app (rt r) s X) with (t := t); [apply Hb|done..].
  - intros a Ha. apply Hst. rewrite <- (get_path_app (rt r) s [a]) with (t := t); [by apply Har|done..].
Qed.
End Options.
End Tables.
