(* ===== verification/ContainerdProps.v ===== *)
(** * Editing a containerd configuration

    What the edits of Containerd.v do to the runtimes and the default runtime,
    over any trees that carry the layout. *)
From S2P Require Import Prelude GoStrings FileSystem Toml Engine Crio Containerd RuntimeTables.
Local Abbreviation tree := (gmap string item).
Definition binary_name : list string := ["options"; "BinaryName"].
Definition annotation_keys : list string := ["container_annotations"].

Section ContainerdLaws.
Variable o : configOptions.
Local Abbreviation B := (runtimes_path o).
Local Abbreviation D := (default_path o).
#[export] Instance containerd_layout : layout B D binary_name (plugin_path o) annotation_keys.
Proof using Type.
  split.
  - by intros a ->%list_elem_of_singleton.
  - unfold default_path, runtimes_path. by rewrite apart_app.
  - done.
  - exists ["containerd"; "runtimes"]. split; [done|]. unfold runtimes_path, containerd_path. by rewrite <- !app_assoc.
  - exists ["containerd"; "default_runtime_name"]. split; [done|]. unfold default_path, containerd_path. by rewrite <- !app_assoc.
Qed.
Lemma aside_version : aside B D ["version"].
Proof using Type. done. Qed.
Definition cdi_path : list string := plugin_path o ++ ["enable_cdi"].
Lemma aside_cdi : aside B D cdi_path.
Proof using Type.
  unfold cdi_path, aside, runtimes_path, default_path, containerd_path. rewrite <- !app_assoc. by rewrite !apart_app.
Qed.
Lemma strings_of_ok l : forallb is_str l = true -> exists ss, strings_of l = Ok ss.
Proof using Type.
  induction l as [|v l IH]; [by exists []|]. cbn. intros [Hv Hl]%andb_true_iff. destruct v; try done.
  destruct (IH Hl) as [ss ->]. by eexists.
Qed.

Context {T : Type} `{TreesLaws T} (P : T -> Prop).
Hypothesis HP : carries B D binary_name (plugin_path o) annotation_keys P.
Local Abbreviation st := (st B D binary_name P).

Lemma clear_cdi c w d : st c w d -> clear cdi_path (shown c) = true.
Proof using HP.
  intros (Hc & _). apply (carries_ok _ _ _ _ _ _ HP) in Hc as (Hc & _). unfold default_path, containerd_path in Hc.
  rewrite <- !app_assoc in Hc. by apply (clear_last _ _ "enable_cdi") in Hc.
Qed.
Lemma containerd_EnableCDI_ok c w d : st c w d -> st (containerd_EnableCDI o c) w d.
Proof using HP H0.
  intros Hst. unfold containerd_EnableCDI. fold cdi_path.
  apply (st_set_aside _ _ _ _ _ _ HP); [apply aside_cdi|by eapply clear_cdi|right; by exists ["enable_cdi"]|done].
Qed.
Lemma add_annotations_ok name s c w d : st c w d -> get_path (rt B name) (shown c) = Some (ITree s) ->
  parsed_array (get_path annotation_keys s) = true ->
  exists c', add_annotations o name c = (Ok tt, c') /\ st c' w d.
Proof using HP H0.
  intros Hst Hs Hp. unfold add_annotations. destruct (ContainerAnnotations o) as [|a added]; [by exists c|].
  assert (Hok := carries_ok _ _ _ _ _ _ HP c (proj1 Hst)).
  change (runtimes_path o ++ [name; "container_annotations"]) with (B ++ ([name] ++ annotation_keys)).
  rewrite app_assoc. fold (rt B name).
  assert (Hg : exists old, getStringArrayValue (fun k => t_get k c) (rt B name ++ annotation_keys) = Ok old).
  { unfold getStringArrayValue, t_get. rewrite (get_path_app _ s) by (done || by apply (clear_rt B D binary_name (plugin_path o) annotation_keys)).
    destruct (get_path annotation_keys s) as [[[]| |]|]; try discriminate; [|by exists []]. by apply strings_of_ok. }
  destruct Hg as [old ->]. eexists. split; [reflexivity|].
  by apply (st_set_field _ _ _ _ _ _ HP name "container_annotations" (VStrs _)); [..|left|].
Qed.
Definition new_default (setAsDefault : bool) (name d : string) : string :=
  if setAsDefault then name else if String.eqb d name then "" else d.
Lemma containerd_AddRuntimeWithOptions_ok name path sd s c w d : good_options binary_name annotation_keys (Options (Some s)) ->
  st c w d -> exists c', containerd_AddRuntimeWithOptions o name path sd (Options (Some s)) c = done c' /\
    st c' (upd w name path) (new_default sd name d).
Proof using HP H0.
  intros (Hp & Hx & Ha) Hst. unfold containerd_AddRuntimeWithOptions, set_options. cbn [mbind option_bind].
  assert (Hst1 : st (t_set ["version"] (IVal (VInt (Version o))) c) w d).
  { apply (st_set_aside _ _ _ _ _ _ HP); [apply aside_version|done|left; done|done]. }
  set (c1 := t_set ["version"] _ c) in *. fold (rt B name).
  assert (Hok1 := carries_ok _ _ _ _ _ _ HP c1 (proj1 Hst1)).
  assert (Hget : get_path (rt B name) (shown (t_set (rt B name) (ITree s) c1)) = Some (ITree s)).
  { rewrite shown_set. by apply get_set_same, (clear_rt B D binary_name (plugin_path o) annotation_keys). }
  apply (st_set_table _ _ _ _ _ _ HP name s) in Hst1; [|done..|].
  2: { intros a Hin. specialize (Ha a Hin). by destruct (get_path [a] s) as [[[]| |]|]. }
  destruct (add_annotations_ok name s _ _ _ Hst1 Hget (Ha _ (list_elem_of_here _ _))) as (c2 & -> & Hst2).
  change (runtimes_path o ++ [name; "options"; "BinaryName"]) with (B ++ ([name] ++ binary_name)). rewrite app_assoc. fold (rt B name).
  fold (bin B binary_name name). apply (st_set_bin _ _ _ _ _ _ HP name path) in Hst2.
  apply (st_ext _ _ _ _ _ _ (upd w name path)) in Hst2; [|intros n; unfold upd; by destruct (String.eqb n name)].
  eexists. split; [reflexivity|]. destruct sd.
  - by apply (st_set_default _ _ _ _ _ _ HP) with (v := name) in Hst2.
  - by apply (st_drop_default _ _ _ _ _ _ HP) with (n := name) in Hst2.
Qed.
Lemma containerd_RemoveRuntime_ok name c w d : st c w d ->
  exists c', containerd_RemoveRuntime o name c = done c' /\ st c' (upd w name "") (if String.eqb d name then "" else d).
Proof using HP H0.
  intros Hst. unfold containerd_RemoveRuntime. eexists. split; [reflexivity|]. apply (st_drop_version _ _ _ _ _ _ HP); [apply aside_version|].
  apply (st_containerd_prune _ _ _ _ _ _ HP name); [apply prefixes_spec|].
  apply (st_drop_default _ _ _ _ _ _ HP). by apply (st_delete_rt _ _ _ _ _ _ HP).
Qed.
End ContainerdLaws.

(** ** The shared table of a drop-in configuration

    While the destination holds the table of the source, both show the same
    plugin; the layout of both is kept by every edit of the destination. *)

#[export] Instance sharing_trees_laws : TreesLaws sharing.
Proof.
  split; intros; cbn; unfold update_destination; destruct (shared c); cbn; try done;
    destruct (strictly_below _ _); try done; by destruct (on_or_above _ _).
Qed.

Lemma strictly_below_spec p ks : strictly_below p ks = true <-> exists r, r <> [] /\ ks = p ++ r.
Proof.
  unfold strictly_below. rewrite andb_true_iff, bool_decide_eq_true, Nat.ltb_lt. split.
  - intros [Ht Hl]. exists (drop (length p) ks). split; [|by rewrite <- Ht at 1; rewrite take_drop].
    intros E. apply (f_equal length) in E. rewrite length_drop in E. cbn in E. lia.
  - intros (r & Hr & ->). rewrite take_app_length, length_app. destruct r; [done|]. cbn. split; [done|lia].
Qed.
Lemma on_or_above_spec p ks : on_or_above p ks = true <-> exists r, p = ks ++ r.
Proof.
  unfold on_or_above. rewrite bool_decide_eq_true. split.
  - intros H. exists (drop (length ks) p). by rewrite <- H at 1; rewrite take_drop.
  - intros [r ->]. by rewrite take_app_length.
Qed.
Lemma apart_not_prefix p q r : apart p q = true -> q <> p ++ r /\ p <> q ++ r.
Proof. intros H. split; intros ->; [by rewrite apart_prefix in H|by rewrite apart_sym, apart_prefix in H]. Qed.

Section Sharing.
Variable o : configOptions.
Local Abbreviation p := (plugin_path o).
Local Abbreviation ok_containerd := (ok_tree (runtimes_path o) (default_path o) binary_name annotation_keys).

Definition same_plugin (s d : tree) : Prop :=
  clear p s = true /\ clear p d = true /\ exists t, get_path p s = Some (ITree t) /\ get_path p d = Some (ITree t).
Definition ok_sharing (c : sharing) : Prop :=
  ok_containerd (source c) /\ ok_containerd (destination c) /\
  match shared c with None => True | Some q => q = p /\ same_plugin (source c) (destination c) end.

(** The layout depends on the plugin's table only. *)
Lemma ok_same_plugin s d : same_plugin s d -> ok_containerd d -> ok_containerd s.
Proof using Type.
  intros (Hs & Hd & t & Hgs & Hgd) (H1 & H2 & H3 & H4).
  assert (Hg : forall r, r <> [] -> get_path (p ++ r) s = get_path (p ++ r) d).
  { intros r Hr. by rewrite !(get_path_app p t r) by done. }
  assert (Hc : forall r, r <> [] -> clear (p ++ r) s = clear (p ++ r) d).
  { intros r Hr. by rewrite !(clear_app p t r) by done. }
  split_and!.
  - unfold default_path, containerd_path in *. rewrite <- !app_assoc in *. by rewrite Hc.
  - intros n. specialize (H2 n). unfold bin, rt, runtimes_path, containerd_path in *. rewrite <- !app_assoc in *. by rewrite Hc.
  - intros n q. specialize (H3 n q). unfold rt, runtimes_path, containerd_path in *. rewrite <- !app_assoc in *. by rewrite Hg.
  - intros n a Ha. specialize (H4 n a Ha). unfold rt, runtimes_path, containerd_path in *. rewrite <- !app_assoc in *. by rewrite Hg.
Qed.
(** The source after an edit below the table. *)
Lemma mirror_same s d t' : clear p s = true -> clear p d = true -> get_path p d = Some (ITree t') -> same_plugin (mirror p s d) d.
Proof using Type.
  intros Hs Hd Hg. unfold mirror. rewrite Hg. split_and!; [|done|].
  - apply clear_set_prefix; [done|done|by exists []; rewrite app_nil_r].
  - exists t'. split; [|done]. by apply get_set_same.
Qed.
Lemma below_shown ks c : ok_sharing c -> shared c = Some p -> strictly_below p ks = true -> forall d,
  clear p d = true -> (exists t', get_path p d = Some (ITree t')) -> ok_containerd d -> ok_sharing (update_destination ks d c).
Proof using Type.
  intros (Hs & Hd & Hsh) E Hb d Hc [t' Ht'] Hok. unfold update_destination. rewrite E in *. rewrite Hb. destruct Hsh as (_ & Hcs & _).
  pose proof (mirror_same (source c) d t' Hcs Hc Ht') as Hm. split_and!; [|done|done..]; by apply (ok_same_plugin _ d).
Qed.
Lemma aside_shown ks c d : ok_sharing c -> shared c = Some p -> apart ks p = true ->
  get_path p d = get_path p (destination c) -> clear p d = true -> ok_containerd d -> ok_sharing (update_destination ks d c).
Proof using Type.
  intros (Hs & Hd & Hsh) E Ha Hg Hc Hok. unfold update_destination. rewrite E in *.
  destruct (strictly_below p ks) eqn:E1; [apply strictly_below_spec in E1 as (r & _ & ->); by destruct (apart_not_prefix _ _ r Ha)|].
  destruct (on_or_above p ks) eqn:E2; [apply on_or_above_spec in E2 as [r Hr]; by destruct (apart_not_prefix _ _ r Ha)|].
  destruct Hsh as (_ & Hcs & _ & t & Hts & Htd). split; [done|]. split; [done|]. split; [done|]. split; [done|]. split; [done|]. exists t. split; [done|]. by rewrite <- Htd, <- Hg.
Qed.

Lemma carries_sharing : carries (runtimes_path o) (default_path o) binary_name p annotation_keys ok_sharing.
Proof using Type.
  split; [by intros c (_ & ? & _)| |].
  - intros ks i c HP Hks Hc Hok. cbn [shown t_set t_delete sharing_trees] in *. destruct (shared c) as [q|] eqn:E.
    2: { unfold update_destination. rewrite E. destruct HP as (? & ? & _). split; [done|]. by split. }
    assert (Hq : q = p) by (destruct HP as (_ & _ & H); rewrite E in H; by destruct H). subst q.
    pose proof HP as (_ & _ & Hsh). rewrite E in Hsh. destruct Hsh as (_ & Hcs & Hcd & t & Hts & Htd).
    destruct Hks as [Ha|(r & Hr & ->)].
    + apply aside_shown; [done..| |by rewrite clear_set_apart|done]. by apply get_set_apart.
    + apply below_shown; [done|done|apply strictly_below_spec; by exists r| | |done].
      * apply clear_set_prefix; [done|done|by exists r].
      * eexists. by apply (get_set_above (p ++ r) i p r).
  - intros ks c HP Hc Hok. cbn [shown t_set t_delete sharing_trees] in *. destruct (shared c) as [q|] eqn:E.
    2: { unfold update_destination. rewrite E. destruct HP as (? & ? & _). split; [done|]. by split. }
    assert (Hq : q = p) by (destruct HP as (_ & _ & H); rewrite E in H; by destruct H). subst q.
    pose proof HP as (Hs & _ & Hsh). rewrite E in Hsh. destruct Hsh as (_ & Hcs & Hcd & t & Hts & Htd).
    destruct (paths_cases ks p) as [Ha|[[r ->]|(r & Hr & Hp)]].
    + apply aside_shown; [done..| |by apply clear_delete|done]. by apply get_delete_apart.
    + destruct r as [|r0 r].
      * unfold update_destination. rewrite E. rewrite app_nil_r in *.
        destruct (strictly_below p p) eqn:E1; [apply strictly_below_spec in E1 as (r & Hr & Hp); by rewrite <- (app_nil_r p) in Hp at 1; apply app_inv_head in Hp as <-|].
        assert (on_or_above p p = true) as -> by (apply on_or_above_spec; by exists []; rewrite app_nil_r). split; [done|]. by split.
      * apply below_shown; [done|done|apply strictly_below_spec; by exists (r0 :: r)|by apply clear_delete| |done].
        erewrite get_delete_above; [|done..]. rewrite Htd. by eexists.
    + unfold update_destination. rewrite E.
      destruct (strictly_below p ks) eqn:E1.
      { apply strictly_below_spec in E1 as (r' & Hr' & ->). apply (f_equal length) in Hp. rewrite !length_app in Hp. destruct r; cbn in Hp; [done|lia]. }
      assert (on_or_above p ks = true) as -> by (apply on_or_above_spec; by exists r). split; [done|]. by split.
Qed.
End Sharing.

(** ** The cri-o configuration keeps the promise of the engines *)

#[export] Instance crio_layout : layout crio_runtimes crio_default ["runtime_path"] ["crio"; "runtime"] [].
Proof. split; [by intros a ?%not_elem_of_nil|done|done|by exists ["runtimes"]|by exists ["default_runtime"]]. Qed.

Local Abbreviation crio_ok_tree := (ok_tree crio_runtimes crio_default ["runtime_path"] []).
Local Abbreviation crio_st := (st crio_runtimes crio_default ["runtime_path"] crio_ok_tree).
Local Abbreviation crio_path_of := (path_of crio_runtimes ["runtime_path"]).
Local Abbreviation crio_default_of := (default_of crio_default).
Local Abbreviation crio_carries := (carries_plain crio_runtimes crio_default ["runtime_path"] ["crio"; "runtime"] []).

Section CrioLaws.
Context `{TomlReadsBack}.

Definition crio_ok (c : CrioConfig) : Prop :=
  exists s d, c = mkCrio (Some s) (Some d) /\ crio_ok_tree s /\ crio_ok_tree d.
Definition shown_destination (c : CrioConfig) : tree := default ∅ (crio_destination c).
#[export] Instance crio_Engine : Engine CrioConfig := {
  ok := crio_ok;
  written := fun c n => crio_path_of (shown_destination c) n;
  written_default := fun c => crio_default_of (shown_destination c);
}.

Lemma crio_AddRuntimeWithOptions_ok name path d opts t w def : good_options ["runtime_path"] [] opts -> crio_st t w def ->
  exists t', crio_AddRuntimeWithOptions name path d opts t = done t' /\
    crio_st t' (upd w name path) (if d then name else if String.eqb def name then "" else def).
Proof using Type.
  intros Hopts Hst. unfold crio_AddRuntimeWithOptions.
  assert (Hset : exists t1 w1, set_options (crio_runtimes ++ [name]) opts t = Some t1 /\ crio_st t1 w1 def /\ forall v, forall m, upd w1 name v m = upd w name v m).
  { destruct opts as [|[s|]]; [by exists t, w|destruct Hopts as (Hp & Hx & Ha)|done]. do 2 eexists. split; [reflexivity|]. split.
    - apply (st_set_table _ _ _ _ _ _ crio_carries _ s _ w def); [done|done|by intros a ?%not_elem_of_nil|done].
    - intros v m. unfold upd. by destruct (String.eqb m name). }
  destruct Hset as (t1 & w1 & -> & Hst1 & Hw1). cbn -[set_path crio_runtimes crio_default drop_default].
  change (crio_runtimes ++ [name; "runtime_path"]) with (bin crio_runtimes ["runtime_path"] name).
  change (crio_runtimes ++ [name; "runtime_type"]) with (rt crio_runtimes name ++ ["runtime_type"]).
  apply (st_set_bin _ _ _ _ _ _ crio_carries name path) in Hst1. apply (st_ext _ _ _ _ _ _ (upd w name path)) in Hst1; [|apply Hw1].
  apply (st_set_field _ _ _ _ _ _ crio_carries name "runtime_type" (VStr "oci")) in Hst1; [|done|done|right; by apply not_elem_of_nil].
  eexists. split; [reflexivity|]. destruct d.
  - by apply (st_set_default _ _ _ _ _ _ crio_carries) with (v := name) in Hst1.
  - by apply (st_drop_default _ _ _ _ _ _ crio_carries) with (n := name) in Hst1.
Qed.
Lemma crio_RemoveRuntime_ok name t w def : crio_st t w def ->
  exists t', crio_RemoveRuntime name t = done t' /\ crio_st t' (upd w name "") (if String.eqb def name then "" else def).
Proof using Type.
  intros Hst. unfold crio_RemoveRuntime.
  apply (st_drop_default _ _ _ _ _ _ crio_carries) with (n := name) in Hst.
  apply (st_delete_rt _ _ _ _ _ _ crio_carries) with (n := name) in Hst.
  destruct (st_crio_prune _ _ _ _ _ _ crio_carries name (prefixes (crio_runtimes ++ [name])) _ _ _ (prefixes_spec _) Hst) as (t' & Ht' & Hst').
  exists t'. split; [|done]. exact (f_equal done (eq_sym Ht')).
Qed.
Lemma crio_view s d : crio_ok_tree d -> crio_st d (written (mkCrio (Some s) (Some d))) (written_default (mkCrio (Some s) (Some d))).
Proof using Type. intros Hd. split; [done|]. by split. Qed.

Lemma crio_UpdateDefaultRuntime_ok name action t w def : crio_st t w def -> exists r t',
  crio_UpdateDefaultRuntime name action (Some t) = Some (r, Some t') /\
  if String.eqb action UpdateActionSet then r = Ok tt /\ crio_st t' w name
  else if String.eqb action UpdateActionUnset then r = Ok tt /\ crio_st t' w (if String.eqb def name then "" else def)
  else r = Err (invalid_action action) /\ crio_st t' w def.
Proof using Type.
  intros Hst. unfold crio_UpdateDefaultRuntime, known_action. destruct (String.eqb action UpdateActionSet); [|destruct (String.eqb action UpdateActionUnset)];
    cbn [orb negb]; (do 2 eexists; split; [reflexivity|]); (split; [done|]).
  - by apply (st_set_default _ _ _ _ _ _ crio_carries) with (v := name) in Hst.
  - by apply (st_drop_default _ _ _ _ _ _ crio_carries) with (n := name) in Hst.
  - done.
Qed.
Lemma crio_outcome s t t' name v (d : string) : crio_st t' (upd (crio_path_of t) name v) d -> crio_ok_tree s ->
  ok (mkCrio (Some s) (Some t')) /\
  (forall n, written (mkCrio (Some s) (Some t')) n = if String.eqb n name then v else written (mkCrio (Some s) (Some t)) n) /\
  written_default (mkCrio (Some s) (Some t')) = d.
Proof using Type. intros (Hok & Hw & Hd) Hs. split; [by exists s, t'|]. by split. Qed.

#[export] Instance crio_laws : EngineLaws CrioConfig.
Proof using H0.
  split.
  - intros name path d c (s & t & -> & Hs & Ht).
    destruct (first_options_ok _ _ _ _ _ s NoOptions (GetLowLevelRuntimes (crio_default_of s)) Hs I) as (opts & Ho & Hgood).
    destruct (crio_AddRuntimeWithOptions_ok name path d opts t _ _ Hgood (crio_view s t Ht)) as (t' & Ht' & Hst).
    exists (mkCrio (Some s) (Some t')). destruct (crio_outcome s t t' name _ _ Hst Hs) as (Hok & Hw & Hd). split_and!; [|done..|].
    + cbn -[crio_AddRuntimeWithOptions first_options GetLowLevelRuntimes].
      unfold Config_AddRuntime. cbn -[crio_AddRuntimeWithOptions first_options GetLowLevelRuntimes].
      unfold crio_GetDefaultRuntimeOptions. cbn -[crio_AddRuntimeWithOptions first_options GetLowLevelRuntimes].
      change (crio_tree_DefaultRuntime s) with (crio_default_of s). rewrite Ho. cbn -[crio_AddRuntimeWithOptions].
      unfold in_destination, in_tree. cbn -[crio_AddRuntimeWithOptions]. by rewrite Ht'.
    + rewrite Hd. destruct d; [done|]. destruct (String.eqb_spec (written_default (mkCrio (Some s) (Some t))) name); [by right|by left].
  - intros name c (s & t & -> & Hs & Ht).
    destruct (crio_RemoveRuntime_ok name t _ _ (crio_view s t Ht)) as (t' & Ht' & Hst).
    exists (mkCrio (Some s) (Some t')). destruct (crio_outcome s t t' name _ _ Hst Hs) as (Hok & Hw & Hd). split_and!; [|done..|].
    + cbn -[crio_RemoveRuntime]. unfold in_destination, in_tree. cbn -[crio_RemoveRuntime]. by rewrite Ht'.
    + rewrite Hd. apply dropped_empty.
  - intros c Hc. by exists c.
  - intros name action c (s & t & -> & Hs & Ht).
    destruct (crio_UpdateDefaultRuntime_ok name action t _ _ (crio_view s t Ht)) as (r & t' & Hu & Hr).
    exists r, (mkCrio (Some s) (Some t')). split.
    + cbn -[crio_UpdateDefaultRuntime]. unfold in_destination. cbn -[crio_UpdateDefaultRuntime]. by rewrite Hu.
    + destruct (String.eqb action UpdateActionSet); [|destruct (String.eqb action UpdateActionUnset)];
        destruct Hr as (Hr & Hok & Hw & Hd); (split; [by exists s, t'|split; [exact Hw|split; [exact Hr|]]]); [exact Hd| |exact Hd].
      change (written_default (mkCrio (Some s) (Some t'))) with (crio_default_of (shown t')). rewrite Hd. apply dropped_empty.
Qed.
End CrioLaws.
