(* ===== verification/InstallerRuntimes.v ===== *)
(** * Configuring the container engines (src/cmd/nvidia-ctk-installer/container)

    The runtimes that the installer adds ([operator]), the shared options and
    the setup and cleanup of each engine. Commands that are run, and the
    attempts to signal a daemon, are parameters. *)
From S2P Require Import Prelude GoStrings GoPaths FileSystem OsFiles Toml Engine Docker Crio Containerd Json.

(** ** [operator] *)

Module operator.
Definition defaultRuntimeName : string := "nvidia".
Record Runtime := mkRuntime { name : string; Path : string; SetAsDefault : bool }.
Abbreviation Runtimes := (gmap string Runtime).
Record config := mkConfig { root : string; nvidiaRuntimeName : string; setAsDefault : bool }.

Definition newRuntime (c : config) (name binary : string) : Runtime :=
  mkRuntime name (path_join [root c; binary]) (setAsDefault c && String.eqb name (nvidiaRuntimeName c)).
Definition nvidiaRuntime (c : config) : Runtime :=
  let name := nvidiaRuntimeName c in
  let name := if String.eqb name "nvidia-cdi" || String.eqb name "nvidia-legacy" then defaultRuntimeName else name in
  newRuntime c name "nvidia-container-runtime".
Definition modeRuntime (c : config) (mode : string) : Runtime :=
  newRuntime c ("nvidia-" +:+ mode) ("nvidia-container-runtime." +:+ mode).
Definition add (rs : Runtimes) (r : Runtime) : Runtimes := <[name r := r]> rs.
(** The options set the three fields. *)
Definition GetRuntimes (c : config) : Runtimes :=
  let c := mkConfig (root c) (if String.eqb (nvidiaRuntimeName c) "" then defaultRuntimeName else nvidiaRuntimeName c) (setAsDefault c) in
  foldl (fun rs mode => add rs (modeRuntime c mode)) (add ∅ (nvidiaRuntime c)) ["cdi"; "legacy"].
Definition DefaultRuntimeName `{MapRange} (rs : Runtimes) : string :=
  match List.find (fun kr => SetAsDefault kr.2) (range rs) with Some (_, r) => name r | None => "" end.
End operator.

(** ** [container.Options] *)

Record Options := mkOptions {
  DropInConfig : string; DropInConfigHostPath : string; TopLevelConfigPath : string; Socket : string;
  ExecutablePath : string; WithCDI : bool; RuntimeName : string; RuntimeDir : string; SetAsDefault : bool;
  RestartMode : string; HostRootMount : string; ConfigSources : list string;
}.
Definition runtimes_of (o : Options) : operator.Runtimes :=
  operator.GetRuntimes (operator.mkConfig (RuntimeDir o) (RuntimeName o) (SetAsDefault o)).

Section Engines.
Context {C : Type} `{Interface C} `{MapRange}.

(** The loops over the runtimes, in the order of the map. *)
Fixpoint add_runtimes (rs : list (string * operator.Runtime)) (cfg : C) : step C :=
  match rs with
  | [] => done cfg
  | (name, r) :: rs =>
      '(e, cfg) ← AddRuntime name (operator.Path r) (operator.SetAsDefault r) cfg;
      match e with
      | Err e => Some (Err ("failed to update runtime " +:+ quote name +:+ ": " +:+ e), cfg)
      | Ok _ => add_runtimes rs cfg
      end
  end.
Definition UpdateConfig (o : Options) (cfg : C) : step C :=
  '(e, cfg) ← add_runtimes (range (runtimes_of o)) cfg;
  match e with
  | Err e => Some (Err e, cfg)
  | Ok _ => if WithCDI o then cfg ← EnableCDI cfg; done cfg else done cfg
  end.
Fixpoint remove_runtimes (names : list string) (cfg : C) : step C :=
  match names with
  | [] => done cfg
  | name :: names =>
      '(e, cfg) ← RemoveRuntime name cfg;
      match e with
      | Err e => Some (Err ("failed to remove runtime " +:+ quote name +:+ ": " +:+ e), cfg)
      | Ok _ => remove_runtimes names cfg
      end
  end.
Definition RevertConfig (o : Options) (cfg : C) : step C := remove_runtimes (range (runtimes_of o)).*1 cfg.

(** A step that also writes files. *)
Abbreviation saving := (option (result unit * (C * world))).
Definition Flush (o : Options) (cfg : C) (w : world) : saving :=
  let filepath := if String.eqb (DropInConfig o) "" then TopLevelConfigPath o else DropInConfig o in
  '(n, (cfg, w)) ← Save filepath cfg w;
  Some (match n with Err e => Err ("unable to flush config: " +:+ e) | Ok _ => Ok tt end, (cfg, w)).
Definition Configure (o : Options) (cfg : C) (w : world) : saving :=
  '(e, cfg) ← UpdateConfig o cfg;
  match e with
  | Err e => Some (Err ("unable to update config: " +:+ e), (cfg, w))
  | Ok _ => Flush o cfg w
  end.
Definition Unconfigure (o : Options) (cfg : C) (w : world) : saving :=
  '(e, cfg) ← RevertConfig o cfg;
  match e with
  | Err e => Some (Err ("unable to update config: " +:+ e), (cfg, w))
  | Ok _ =>
      '(e, (cfg, w)) ← Flush o cfg w;
      match e with
      | Err e => Some (Err e, (cfg, w))
      | Ok _ =>
          if String.eqb (DropInConfig o) "" then Some (Ok tt, (cfg, w))
          else match sys_Remove (DropInConfig o) (files w) with
               | inr f => Some (Ok tt, (cfg, with_files f w))
               | inl ENOENT => Some (Ok tt, (cfg, w))
               | inl e => Some (Err ("failed to remove drop-in config file: " +:+ path_error "remove" (DropInConfig o) e), (cfg, w))
               end
      end
  end.
End Engines.

(** ** Restarting a service *)

(** The outcome of the attempt to signal a daemon through its socket; the
    attempts are numbered from 0. *)
Class Daemons := signal_attempt : string -> nat -> result unit.

Definition maxReloadAttempts : nat := 6.
(** The loop of [SignalDocker] and [SignalContainerd], from attempt [i] on. It
    sleeps between the attempts. *)
Fixpoint signal_loop `{Daemons} (socket : string) (remaining i : nat) : result unit :=
  match remaining with
  | O => Ok tt
  | S remaining =>
      match signal_attempt socket i with
      | Ok _ => Ok tt
      | Err e => match remaining with O => Err e | S _ => signal_loop socket remaining (S i) end
      end
  end.
Definition Signal `{Daemons} (socket : string) : result unit := signal_loop socket maxReloadAttempts 0.

Definition SystemdRestart `{Commands} (o : Options) (service : string) : result unit :=
  let args := (if String.eqb (HostRootMount o) "" then [] else ["chroot"; HostRootMount o]) ++ ["systemctl"; "restart"; service] in
  match run_command (hd "" args) (tl args) with
  | Err e => Err ("error restarting " +:+ service +:+ " using systemd: " +:+ e)
  | Ok _ => Ok tt
  end.
Definition Restart `{Commands} (o : Options) (service : string) (withSignal : string -> result unit) : result unit :=
  if String.eqb (RestartMode o) "none" then Ok tt
  else if String.eqb (RestartMode o) "signal" then withSignal (Socket o)
  else if String.eqb (RestartMode o) "systemd" then SystemdRestart o service
  else Err ("invalid restart mode specified: " +:+ RestartMode o).

(** ** The sources of a configuration

    A command source without a function panics: the code warns and calls it. *)
Fixpoint config_loaders (o : Options) (commandSource : option (string -> string -> Loader)) (sources : list string) : may_panic (result (list Loader)) :=
  match sources with
  | [] => Some (Ok [])
  | configSource :: sources =>
      let parts := splitN 2 "=" configSource in
      let source := trim_space (hd "" parts) in
      let next (l : Loader) := ls ← config_loaders o commandSource sources; Some (let? ls := ls in Ok (l :: ls)) in
      if String.eqb source "file" then
        next (FromFile (match parts with _ :: p :: _ => trim_space p | _ => TopLevelConfigPath o end))
      else if String.eqb source "command" then
        f ← commandSource;
        next (f (HostRootMount o) (ExecutablePath o))
      else Some (Err ("unsupported config source " +:+ quote configSource))
  end.
Definition GetConfigLoaders (o : Options) (commandSource : option (string -> string -> Loader)) : may_panic (result (list Loader)) :=
  if decide (ConfigSources o = []) then Some (Ok [Empty]) else config_loaders o commandSource (ConfigSources o).

(** ** The engines *)

(** The methods of the two types that [containerd.New] returns. *)
Definition on_sum {A B R} (f : A -> may_panic (R * A)) (g : B -> may_panic (R * B)) (c : A + B) : may_panic (R * (A + B)) :=
  match c with
  | inl a => '(r, a) ← f a; Some (r, inl a)
  | inr b => '(r, b) ← g b; Some (r, inr b)
  end.
#[export] Instance containerd_Interface `{Toml} : Interface Containerd := {
  AddRuntime := fun name path d => on_sum (AddRuntime name path d) (AddRuntime name path d);
  DefaultRuntime := fun c => match c with inl a => DefaultRuntime a | inr b => DefaultRuntime b end;
  EnableCDI := fun c => match c with inl a => a ← EnableCDI a; Some (inl a) | inr b => b ← EnableCDI b; Some (inr b) end;
  GetRuntimeConfig := fun n c => match c with inl a => GetRuntimeConfig n a | inr b => GetRuntimeConfig n b end;
  RemoveRuntime := fun n => on_sum (RemoveRuntime n) (RemoveRuntime n);
  UpdateDefaultRuntime := fun n a => on_sum (UpdateDefaultRuntime n a) (UpdateDefaultRuntime n a);
  Save := fun path c w => match c with
    | inl a => '(r, (a, w)) ← Save path a w; Some (r, (inl a, w))
    | inr b => '(r, (b, w)) ← Save path b w; Some (r, (inr b, w))
    end;
}.

(** What [Setup] and [Cleanup] of an engine return, with the world they leave. *)
Abbreviation run := (option (result unit * world)).
(** [msg: err] for an outcome that carries a state. *)
Definition or_fail {A} (msg : string) (r : may_panic (result unit * (A * world))) (k : world -> run) : run :=
  '(e, (_, w)) ← r;
  match e with Err e => Some (Err (msg +:+ ": " +:+ e), w) | Ok _ => k w end.
Definition finish (msg : string) (r : result unit) (w : world) : run := Some (wrap msg r, w).

Section Docker.
Context `{Json, MapRange, Commands, Daemons}.
Definition docker_getRuntimeConfig (o : Options) (w : world) : result Docker := docker_New (TopLevelConfigPath o) (files w).
Definition RestartDocker (o : Options) : result unit := Restart o "docker" Signal.
Definition docker_Setup (o : Options) (w : world) : run :=
  match docker_getRuntimeConfig o w with
  | Err e => Some (Err ("unable to load config: " +:+ e), w)
  | Ok cfg => or_fail "unable to configure docker" (Configure o cfg w) (finish "unable to restart docker" (RestartDocker o))
  end.
Definition docker_Cleanup (o : Options) (w : world) : run :=
  match docker_getRuntimeConfig o w with
  | Err e => Some (Err ("unable to load config: " +:+ e), w)
  | Ok cfg => or_fail "unable to unconfigure docker" (Unconfigure o cfg w) (finish "unable to signal docker" (RestartDocker o))
  end.
Definition docker_GetLowlevelRuntimePaths (o : Options) (w : world) : may_panic (result (list string)) :=
  match wrap "unable to load docker config" (docker_New (TopLevelConfigPath o) (files w)) with
  | Err e => Some (Err e)
  | Ok cfg => ps ← GetBinaryPathsForRuntimes cfg; Some (Ok ps)
  end.
End Docker.

(** The containerd-specific options. *)
Record ContainerdOptions := mkContainerdOptions {
  legacyConfig : bool; requestedRuntimeType : string; CDIAnnotationPrefixes : list string;
}.
Section ContainerdEngine.
Context `{Toml, MapRange, Commands, Daemons}.
Definition containerAnnotationsFromCDIPrefixes (co : ContainerdOptions) : list string :=
  map (fun prefix => prefix +:+ "*") (CDIAnnotationPrefixes co).
Definition containerd_getRuntimeConfig (o : Options) (co : ContainerdOptions) (w : world) : may_panic (result Containerd) :=
  loaders ← GetConfigLoaders o (Some CommandLineSource);
  match loaders with
  | Err e => Some (Err e)
  | Ok loaders =>
      let b := mkBuilder (Some (FirstOf (map Some loaders))) defaultConfigVersion (legacyConfig co) (TopLevelConfigPath o)
                 (requestedRuntimeType co) (containerAnnotationsFromCDIPrefixes co) ∅ in
      let b := if negb (String.eqb (DropInConfigHostPath o) "") && negb (String.eqb (DropInConfig o) "")
               then WithContainerPathAsHostPath (path_dir (DropInConfig o)) (path_dir (DropInConfigHostPath o)) b else b in
      containerd_New b (files w)
  end.
Definition RestartContainerd (o : Options) : result unit := Restart o "containerd" Signal.
Definition containerd_Setup (o : Options) (co : ContainerdOptions) (w : world) : run :=
  cfg ← containerd_getRuntimeConfig o co w;
  match cfg with
  | Err e => Some (Err ("unable to load config: " +:+ e), w)
  | Ok cfg => or_fail "unable to configure containerd" (Configure o cfg w) (finish "unable to restart containerd" (RestartContainerd o))
  end.
Definition containerd_Cleanup (o : Options) (co : ContainerdOptions) (w : world) : run :=
  cfg ← containerd_getRuntimeConfig o co w;
  match cfg with
  | Err e => Some (Err ("unable to load config: " +:+ e), w)
  | Ok cfg => or_fail "unable to unconfigure containerd" (Unconfigure o cfg w) (finish "unable to restart containerd" (RestartContainerd o))
  end.
Definition containerd_GetLowlevelRuntimePaths (o : Options) (co : ContainerdOptions) (w : world) : may_panic (result (list string)) :=
  cfg ← containerd_getRuntimeConfig o co w;
  match wrap "unable to load containerd config" cfg with
  | Err e => Some (Err e)
  | Ok cfg => ps ← GetBinaryPathsForRuntimes cfg; Some (Ok ps)
  end.
End ContainerdEngine.

(** ** The OCI hook file (src/pkg/config/ocihook) *)
Module ocihook.
Record specHook := mkSpecHook { Path : string; Args : list string; Env : list string; Timeout : option Z }.
Record When := mkWhen { Always : option bool; Annotations : gmap string string; Commands : list string; HasBindMounts : option bool; Or : bool }.
Record podmanHook := mkPodmanHook { Version : string; Hook : specHook; hook_When : When; Stages : list string }.

Definition path_parts : list string := ["/usr/local/sbin"; "/usr/local/bin"; "/usr/sbin"; "/usr/bin"; "/sbin"; "/bin"].
Definition generateOciHook (executablePath : string) : podmanHook :=
  let dir := path_dir executablePath in
  let pathParts := if bool_decide (dir ∈ path_parts) then path_parts else path_parts ++ [dir] in
  mkPodmanHook "1.0.0"
    (mkSpecHook executablePath [path_base executablePath; "prestart"] ["PATH=" +:+ join ":" pathParts] None)
    (mkWhen (Some true) ∅ [".*"] None false)
    ["prestart"].

(** [Encoder.Encode] with an indentation of two spaces, on the fields that
    [generateOciHook] fills; the others are empty and left out. *)
Definition lines_of (indent : string) (opening closing : string) (ls : list string) : string :=
  opening +:+ newline +:+ join ("," +:+ newline) (map (fun l => indent +:+ "  " +:+ l) ls) +:+ newline +:+ indent +:+ closing.
Definition json_key (k v : string) : string := json_string k +:+ ": " +:+ v.
Definition json_strings (indent : string) (l : list string) : string := lines_of indent "[" "]" (map json_string l).
Definition encode_hook (h : podmanHook) : string :=
  lines_of "" "{" "}"
    [json_key "version" (json_string (Version h));
     json_key "hook" (lines_of "  " "{" "}"
       ([json_key "path" (json_string (Path (Hook h)))]
        ++ (if decide (Args (Hook h) = []) then [] else [json_key "args" (json_strings "    " (Args (Hook h)))])
        ++ (if decide (Env (Hook h) = []) then [] else [json_key "env" (json_strings "    " (Env (Hook h)))])));
     json_key "when" (lines_of "  " "{" "}"
       (match Always (hook_When h) with Some b => [json_key "always" (fmt_bool b)] | None => [] end
        ++ (if decide (Commands (hook_When h) = []) then [] else [json_key "commands" (json_strings "    " (Commands (hook_When h)))])));
     json_key "stages" (json_strings "  " (Stages h))] +:+ newline.

Definition CreateHook (hookFilePath executablePath : string) (w : world) : result unit * world :=
  let text := encode_hook (generateOciHook executablePath) in
  if String.eqb hookFilePath "" then (Ok tt, print text w)
  else
    let hooksDir := path_dir hookFilePath in
    match (if String.eqb hooksDir "" then (inr tt, files w) else sys_MkdirAll 493 hooksDir (files w)) with
    | (inl e, f) => (Err ("error creating hooks directory " +:+ hooksDir +:+ ": " +:+ path_error "mkdir" hooksDir e), with_files f w)
    | (inr _, f) =>
        match sys_write_file text hookFilePath f with
        | inl e => (Err ("error creating hook file '" +:+ hookFilePath +:+ "': " +:+ path_error "open" hookFilePath e), with_files f w)
        | inr f => (Ok tt, with_files f w)
        end
    end.
End ocihook.
