(* ===== verification/InstallerEngines.v ===== *)
(** * Engines of the installer (src/cmd/nvidia-ctk-installer/container/runtime)

    The setup of cri-o, the validation of the options and the dispatch to the
    engine that is configured. *)
From S2P Require Import Prelude GoStrings GoPaths FileSystem OsFiles Toml Engine Docker Crio Containerd InstallerRuntimes.

Record CrioOptions := mkCrioOptions { crio_configMode : string; hooksDir : string; hookFilename : string }.

Section CrioEngine.
Context `{Toml, MapRange, Commands, Daemons}.
Definition crio_Validate (co : CrioOptions) : result unit :=
  if String.eqb (crio_configMode co) "config" || String.eqb (crio_configMode co) "hook" then Ok tt
  else Err ("invalid cri-o config mode: " +:+ quote (crio_configMode co)).
Definition crio_getRuntimeConfig (o : Options) (loadDestinationConfig : bool) (w : world) : may_panic (result CrioConfig) :=
  loaders ← GetConfigLoaders o (Some crio_CommandLineSource);
  match loaders with
  | Err e => Some (Err e)
  | Ok loaders =>
      let path := if String.eqb (DropInConfig o) "" then TopLevelConfigPath o else DropInConfig o in
      Some (crio_New (mkCrioBuilder (Some (FirstOf (map Some loaders)))
                        (if loadDestinationConfig then Some (FromFile path) else None) (TopLevelConfigPath o)) (files w))
  end.
Definition RestartCrio (o : Options) : result unit :=
  Restart o "crio" (fun _ => Err "supporting crio via signal is unsupported").
Definition setupHook (o : Options) (co : CrioOptions) (w : world) : run :=
  let '(r, w) := ocihook.CreateHook (path_join [hooksDir co; hookFilename co]) (path_join [RuntimeDir o; "nvidia-container-runtime-hook"]) w in
  finish "error creating hook" r w.
Definition setupConfig (o : Options) (w : world) : run :=
  cfg ← crio_getRuntimeConfig o false w;
  match cfg with
  | Err e => Some (Err ("unable to load config: " +:+ e), w)
  | Ok cfg => or_fail "unable to configure cri-o" (Configure o cfg w) (finish "unable to restart crio" (RestartCrio o))
  end.
Definition crio_Setup (o : Options) (co : CrioOptions) (w : world) : run :=
  if String.eqb (crio_configMode co) "hook" then setupHook o co w
  else if String.eqb (crio_configMode co) "config" then setupConfig o w
  else Some (Err ("invalid config-mode '" +:+ crio_configMode co +:+ "'"), w).
Definition cleanupHook (co : CrioOptions) (w : world) : run :=
  let hookPath := path_join [hooksDir co; hookFilename co] in
  match sys_Remove hookPath (files w) with
  | inl e => Some (Err ("error removing hook '" +:+ hookPath +:+ "': " +:+ path_error "remove" hookPath e), w)
  | inr f => Some (Ok tt, with_files f w)
  end.
Definition cleanupConfig (o : Options) (w : world) : run :=
  if negb (InstallerRuntimes.SetAsDefault o) then Some (Ok tt, w)
  else
    cfg ← crio_getRuntimeConfig o true w;
    match cfg with
    | Err e => Some (Err ("unable to load config: " +:+ e), w)
    | Ok cfg =>
        '(e, cfg) ← UpdateDefaultRuntime (RuntimeName o) UpdateActionUnset cfg;
        match e with
        | Err e => Some (Err ("failed to unset " +:+ quote (RuntimeName o) +:+ " as the default runtime: " +:+ e), w)
        | Ok _ =>
            '(e, (_, w)) ← Flush o cfg w;
            match e with
            | Err e => Some (Err e, w)
            | Ok _ => finish "unable to restart crio" (RestartCrio o) w
            end
        end
    end.
Definition crio_Cleanup (o : Options) (co : CrioOptions) (w : world) : run :=
  if String.eqb (crio_configMode co) "hook" then cleanupHook co w
  else if String.eqb (crio_configMode co) "config" then cleanupConfig o w
  else Some (Err ("invalid config-mode '" +:+ crio_configMode co +:+ "'"), w).
Definition crio_GetLowlevelRuntimePaths (o : Options) (w : world) : may_panic (result (list string)) :=
  cfg ← crio_getRuntimeConfig o false w;
  match wrap "unable to load crio config" cfg with
  | Err e => Some (Err e)
  | Ok cfg => ps ← GetBinaryPathsForRuntimes cfg; Some (Ok ps)
  end.
End CrioEngine.

(** ** [runtime.go] *)

Record RuntimeOptions := mkRuntimeOptions { shared_options : Options; containerd_options : ContainerdOptions; crio_options : CrioOptions }.

Definition runtimeSpecificDefault : string := "RUNTIME_SPECIFIC_DEFAULT".
Definition known_engine (r : string) : bool := String.eqb r "containerd" || String.eqb r "crio" || String.eqb r "docker".
(** The defaults of an engine: its configuration, drop-in file, socket and
    restart mode. *)
Definition engine_defaults (r : string) : string * string * string * string :=
  if String.eqb r "containerd" then ("/etc/containerd/config.toml", "/etc/containerd/conf.d/99-nvidia.toml", "/run/containerd/containerd.sock", "signal")
  else if String.eqb r "crio" then ("/etc/crio/crio.conf", "/etc/crio/conf.d/99-nvidia.toml", "/var/run/crio/crio.sock", "systemd")
  else ("/etc/docker/daemon.json", "", "/var/run/docker.sock", "signal").
Definition or_default (s d : string) : string := if String.eqb s runtimeSpecificDefault then d else s.
Definition with_defaults (r : string) (o : Options) : Options :=
  let '(config, dropIn, socket, mode) := engine_defaults r in
  mkOptions (or_default (DropInConfig o) dropIn) (DropInConfigHostPath o) (or_default (TopLevelConfigPath o) config)
    (or_default (Socket o) socket) (ExecutablePath o) (WithCDI o) (RuntimeName o) (RuntimeDir o)
    (InstallerRuntimes.SetAsDefault o) (or_default (RestartMode o) mode) (HostRootMount o) (ConfigSources o).
(** Docker has no drop-in files, no command for its configuration, and reads
    the file. *)
Definition docker_only (o : Options) : Options :=
  let dropIn := if negb (String.eqb (DropInConfig o) "") && negb (String.eqb (DropInConfig o) runtimeSpecificDefault) then "" else DropInConfig o in
  mkOptions dropIn (DropInConfigHostPath o) (TopLevelConfigPath o) (Socket o) "" (WithCDI o) (RuntimeName o) (RuntimeDir o)
    (InstallerRuntimes.SetAsDefault o) (RestartMode o) (HostRootMount o) ["file"].
Definition with_root (toolkitRoot : string) (cdi : option bool) (o : Options) : Options :=
  mkOptions (DropInConfig o) (DropInConfigHostPath o) (TopLevelConfigPath o) (Socket o) (ExecutablePath o)
    (default (WithCDI o) cdi) (RuntimeName o) toolkitRoot (InstallerRuntimes.SetAsDefault o) (RestartMode o) (HostRootMount o) (ConfigSources o).
(** [cdi_set]: whether the flag [enable-cdi-in-runtime] is set; else the value
    is that of the toolkit. *)
Definition runtime_Validate (r toolkitRoot : string) (cdi_set toolkit_cdi : bool) (opts : RuntimeOptions) : result RuntimeOptions :=
  if negb (known_engine r) then
    Err ("invalid runtime " +:+ quote r +:+ "; expected one of [containerd | crio | docker]")
  else
    let o := with_root toolkitRoot (if cdi_set then None else Some toolkit_cdi) (shared_options opts) in
    let o := if String.eqb r "docker" then docker_only o else o in
    let? _ := if String.eqb r "crio" then wrap "invalid cri-o config" (crio_Validate (crio_options opts)) else Ok tt in
    Ok (mkRuntimeOptions (with_defaults r o) (containerd_options opts) (crio_options opts)).

(** [NewConfigurer]: [None] does nothing. *)
Definition NewConfigurer (name : string) (noConfigureRuntime nriEnabled : bool) : option string :=
  if noConfigureRuntime || nriEnabled then None else Some name.

Section Configurer.
Context `{Toml, Json, MapRange, Commands, Daemons}.
Definition undefined_runtime (r : string) : string := "undefined runtime " +:+ r.
Definition configurer_Setup (c : option string) (opts : RuntimeOptions) (w : world) : run :=
  match c with
  | None => Some (Ok tt, w)
  | Some r =>
      let o := shared_options opts in
      if String.eqb r "containerd" then containerd_Setup o (containerd_options opts) w
      else if String.eqb r "crio" then crio_Setup o (crio_options opts) w
      else if String.eqb r "docker" then docker_Setup o w
      else Some (Err (undefined_runtime r), w)
  end.
Definition configurer_Cleanup (c : option string) (opts : RuntimeOptions) (w : world) : run :=
  match c with
  | None => Some (Ok tt, w)
  | Some r =>
      let o := shared_options opts in
      if String.eqb r "containerd" then containerd_Cleanup o (containerd_options opts) w
      else if String.eqb r "crio" then crio_Cleanup o (crio_options opts) w
      else if String.eqb r "docker" then docker_Cleanup o w
      else Some (Err (undefined_runtime r), w)
  end.
Definition configurer_GetLowlevelRuntimePaths (c : option string) (opts : RuntimeOptions) (w : world) : may_panic (result (list string)) :=
  match c with
  | None => Some (Ok [])
  | Some r =>
      let o := shared_options opts in
      if String.eqb r "containerd" then containerd_GetLowlevelRuntimePaths o (containerd_options opts) w
      else if String.eqb r "crio" then crio_GetLowlevelRuntimePaths o w
      else if String.eqb r "docker" then docker_GetLowlevelRuntimePaths o w
      else Some (Err (undefined_runtime r))
  end.
End Configurer.
