(* ===== verification/Configure.v ===== *)
(** * [nvidia-ctk runtime configure] (src/cmd/nvidia-ctk/runtime/configure) *)
From S2P Require Import Prelude GoStrings GoPaths FileSystem Toml Engine Docker Crio Containerd InstallerRuntimes.

Record config := mkConfig {
  dryRun : bool; runtime : string; configFilePath : string; dropInConfigPath : string; executablePath : string;
  config_source : string; mode : string; hookFilePath : string;
  nvidiaRuntime_name : string; nvidiaRuntime_path : string; nvidiaRuntime_hookPath : string; nvidiaRuntime_setAsDefault : bool;
  cdi_enabled : bool;
}.
Definition default_config : config :=
  mkConfig false "docker" "" "RUNTIME_SPECIFIC_DEFAULT" "" "file" "" "" "nvidia" "nvidia-container-runtime"
    "/usr/bin/nvidia-container-runtime-hook" false false.

(** The paths that are used when the flags do not name them. *)
Definition default_paths (r : string) : string * string :=
  if String.eqb r "containerd" then ("/etc/containerd/config.toml", "/etc/containerd/conf.d/99-nvidia.toml")
  else if String.eqb r "crio" then ("/etc/crio/crio.conf", "/etc/crio/conf.d/99-nvidia.toml")
  else ("/etc/docker/daemon.json", "").
Definition is_hook_mode (m : string) : bool := String.eqb m "oci-hook" || String.eqb m "hook".
Definition known_runtime (r : string) : bool := String.eqb r "containerd" || String.eqb r "crio" || String.eqb r "docker".
Definition is_toml_runtime (r : string) : bool := String.eqb r "containerd" || String.eqb r "crio".

(** The flags after validation. *)
Definition validateFlags (c : config) : result config :=
  if is_hook_mode (mode c) then
    if is_abs (nvidiaRuntime_hookPath c) then Ok c
    else Err ("the NVIDIA runtime hook path " +:+ quote (nvidiaRuntime_hookPath c) +:+ " is not an absolute path")
  else if negb (known_runtime (runtime c)) then Err ("unrecognized runtime '" +:+ runtime c +:+ "'")
  else
    let is_docker := String.eqb (runtime c) "docker" in
    let path := if is_toml_runtime (runtime c) && String.eqb (nvidiaRuntime_path c) "nvidia-container-runtime"
                then "/usr/bin/nvidia-container-runtime" else nvidiaRuntime_path c in
    if is_toml_runtime (runtime c) && negb (is_abs path) then
      Err ("the NVIDIA runtime path " +:+ quote path +:+ " is not an absolute path")
    else
      let cdi := if negb (String.eqb (runtime c) "containerd") && negb is_docker then false else cdi_enabled c in
      let exe := if negb (String.eqb (executablePath c) "") && is_docker then "" else executablePath c in
      let source := if String.eqb (config_source c) "command" && is_docker then "file" else config_source c in
      if negb (String.eqb (config_source c) "command") && negb (String.eqb (config_source c) "file") then
        Err ("unrecognized Config Source: " +:+ config_source c)
      else
        let '(file, dropIn) := default_paths (runtime c) in
        let file := if String.eqb (configFilePath c) "" then file else configFilePath c in
        let dropIn := if String.eqb (dropInConfigPath c) "RUNTIME_SPECIFIC_DEFAULT" then dropIn else dropInConfigPath c in
        if negb (String.eqb dropIn "") && is_docker then
          Err ("runtime " +:+ runtime c +:+ " does not support drop-in configs")
        else if negb (String.eqb dropIn "") && negb (is_abs dropIn) then
          Err ("the drop-in-config path " +:+ quote dropIn +:+ " is not an absolute path")
        else Ok (mkConfig (dryRun c) (runtime c) file dropIn exe source "config-file" (hookFilePath c)
                   (nvidiaRuntime_name c) path (nvidiaRuntime_hookPath c) (nvidiaRuntime_setAsDefault c) cdi).

Definition getCommandConfigSource (c : config) : Loader :=
  if String.eqb (runtime c) "containerd" then CommandLineSource "" (executablePath c)
  else if String.eqb (runtime c) "crio" then crio_CommandLineSource "" (executablePath c)
  else Empty.
Definition resolveConfigSource (c : config) : result Loader :=
  if String.eqb (config_source c) "command" then Ok (getCommandConfigSource c)
  else if String.eqb (config_source c) "file" then Ok (FromFile (configFilePath c))
  else Err ("unrecognized config source: " +:+ config_source c).
Definition getOutputConfigPath (c : config) : string :=
  if dryRun c then SaveToSTDOUT
  else if negb (String.eqb (dropInConfigPath c) "") then dropInConfigPath c
  else configFilePath c.

(** The part of [configureConfigFile] after the configuration is loaded. *)
Definition configure_engine {C} `{Interface C} (c : config) (cfg : C) (w : world) : run :=
  '(e, cfg) ← AddRuntime (nvidiaRuntime_name c) (nvidiaRuntime_path c) (nvidiaRuntime_setAsDefault c) cfg;
  match e with
  | Err e => Some (Err ("unable to update config: " +:+ e), w)
  | Ok _ =>
      cfg ← (if cdi_enabled c then EnableCDI cfg else Some cfg);
      '(n, (_, w)) ← Save (getOutputConfigPath c) cfg w;
      Some (match n with Err e => Err ("unable to flush config: " +:+ e) | Ok _ => Ok tt end, w)
  end.
Section Command.
Context `{Toml, Json, Commands}.
Definition load_error (c : config) (e : string) : string := "unable to load config for runtime " +:+ runtime c +:+ ": " +:+ e.
Definition configureConfigFile (c : config) (w : world) : run :=
  match resolveConfigSource c with
  | Err e => Some (Err e, w)
  | Ok source =>
      if String.eqb (runtime c) "containerd" then
        cfg ← containerd_New (mkBuilder (Some source) defaultConfigVersion false (configFilePath c) defaultRuntimeType [] ∅) (files w);
        match cfg with Err e => Some (Err (load_error c e), w) | Ok cfg => configure_engine c cfg w end
      else if String.eqb (runtime c) "crio" then
        match crio_New (mkCrioBuilder (Some source) None (configFilePath c)) (files w) with
        | Err e => Some (Err (load_error c e), w)
        | Ok cfg => configure_engine c cfg w
        end
      else if String.eqb (runtime c) "docker" then
        match docker_New (configFilePath c) (files w) with
        | Err e => Some (Err (load_error c e), w)
        | Ok cfg => configure_engine c cfg w
        end
      else Some (Err (load_error c ("unrecognized runtime '" +:+ runtime c +:+ "'")), w)
  end.
Definition configureOCIHook (c : config) (w : world) : run :=
  let '(r, w) := ocihook.CreateHook (hookFilePath c) (nvidiaRuntime_hookPath c) w in
  finish "error creating OCI hook" r w.
Definition configureWrapper (c : config) (w : world) : run :=
  if is_hook_mode (mode c) then configureOCIHook c w
  else if String.eqb (mode c) "config-file" || String.eqb (mode c) "config" then configureConfigFile c w
  else Some (Err ("unsupported config-mode: " +:+ mode c), w).
(** The command: [Before] and [Action]. *)
Definition configure (c : config) (w : world) : run :=
  match validateFlags c with
  | Err e => Some (Err e, w)
  | Ok c => configureWrapper c w
  end.
End Command.
