(* ===== verification/DropInProps.v ===== *)
(** * The drop-in configuration of containerd keeps the promise of the engines

    The options of the default runtime come from the source, through the
    table that the destination shares with it. *)
From S2P Require Import Prelude GoStrings FileSystem Toml Engine Crio Containerd RuntimeTables ContainerdProps GoPaths.
Local Abbreviation tree := (gmap string item).

Section DropInLaws.
Context `{TomlReadsBack}.

(** The paths of a configuration. *)
Local Abbreviation B c := (runtimes_path (dropin_options c)).
Local Abbreviation D c := (default_path (dropin_options c)).
Definition dropin_ok (c : ConfigWithDropIn) : Prop := ok_sharing (dropin_options c) (dropin c).
#[export] Instance dropin_Engine : Engine ConfigWithDropIn := {
  ok := dropin_ok;
  written := fun c n => path_of (B c) binary_name (destination (dropin c)) n;
  written_default := fun c => default_of (D c) (destination (dropin c));
}.
Definition dst (o : configOptions) (s : sharing) (w : string -> string) (d : string) : Prop :=
  st (runtimes_path o) (default_path o) binary_name (ok_sharing o) s w d.
Lemma dropin_view c : dropin_ok c -> dst (dropin_options c) (dropin c) (written c) (written_default c).
Proof using Type. intros Hok. split; [done|]. by split. Qed.
Lemma dropin_outcome o top s w d : dst o s w d ->
  ok (mkDropIn o top s) /\ (forall n, written (mkDropIn o top s) n = w n) /\ written_default (mkDropIn o top s) = d.
Proof using Type. intros (Hok & Hw & Hd). split; [done|]. by split. Qed.

(** *** Options *)

Lemma plain_flat t : (forall k i, t !! k = Some i -> exists v, i = IVal v /\ plain_value v = true) -> plain_tree t.
Proof using Type.
  intros Hf [|k [|k2 q]]; [done| |].
  - cbn. destruct (t !! k) as [i|] eqn:E; [|done]. by destruct (Hf _ _ E) as (v & -> & ?).
  - rewrite get_path_cons. destruct (t !! k) as [i|] eqn:E; [|done]. by destruct (Hf _ _ E) as (v & -> & _).
Qed.
Lemma fallback_good o : good_options binary_name annotation_keys (Options (Some (fallback_options o))).
Proof using Type.
  assert (Hk : forall k i, fallback_options o !! k = Some i -> (exists v, i = IVal v /\ plain_value v = true) /\ k <> "options" /\ k <> "container_annotations").
  { intros k i. unfold fallback_options. rewrite !lookup_insert_Some, lookup_empty. intros Hi. split; [naive_solver|].
    split; intros ->; naive_solver. }
  split; [|split].
  - apply plain_flat. intros k i Hi. by apply Hk in Hi as [? _].
  - unfold binary_name. rewrite clear_cons. destruct (fallback_options o !! "options") as [i|] eqn:E; [|done]. by apply Hk in E as (_ & ? & _).
  - intros a ->%list_elem_of_singleton. unfold get_path. destruct (fallback_options o !! "container_annotations") as [i|] eqn:E; [|done]. by apply Hk in E as (_ & _ & ?).
Qed.
Lemma first_options_some get base missing rs opts : missing <> NoOptions ->
  first_options get base missing rs = Some opts -> opts <> NoOptions.
Proof using Type.
  intros Hm. induction rs as [|r rs IH]; cbn; [by intros [= <-]|]. destruct (GetSubtreeByPath get _) as [[t|]|]; cbn; [by intros [= <-]|done|done].
Qed.
Lemma default_options_good o s : ok_tree (runtimes_path o) (default_path o) binary_name annotation_keys s -> exists t,
  containerd_GetDefaultRuntimeOptions o (Some s) = Some (Options (Some t)) /\ good_options binary_name annotation_keys (Options (Some t)).
Proof using H0.
  intros Hok. unfold containerd_GetDefaultRuntimeOptions, containerd_DefaultRuntime, deref. cbn -[first_options fallback_options GetLowLevelRuntimes default_path runtimes_path].
  set (rs := GetLowLevelRuntimes _).
  destruct (first_options_ok _ _ _ (plugin_path o) _ s (Options (Some (fallback_options o))) rs Hok (fallback_good o)) as (opts & Ho & Hg).
  rewrite Ho. apply first_options_some in Ho; [|done]. destruct opts as [|[t|]]; [done| |done]. by exists t.
Qed.

(** *** The promise *)

#[export] Instance dropin_laws : EngineLaws ConfigWithDropIn.
Proof using H0.
  split.
  - intros name path sd [o top s] Hok. destruct (default_options_good o (source s)) as (t & Ho & Hg); [apply Hok|].
    destruct (containerd_AddRuntimeWithOptions_ok o _ (carries_sharing o) name path sd t s _ _ Hg (dropin_view _ Hok)) as (s' & Hs' & Hst).
    destruct (dropin_outcome o top s' _ _ Hst) as (Hok' & Hw & Hd). exists (mkDropIn o top s'). split_and!; [|done..|].
    + change (AddRuntime name path sd (mkDropIn o top s)) with (Config_AddRuntime name path sd (mkDropIn o top s)). unfold Config_AddRuntime.
      cbn -[containerd_GetDefaultRuntimeOptions containerd_AddRuntimeWithOptions]. rewrite Ho.
      cbn -[containerd_GetDefaultRuntimeOptions containerd_AddRuntimeWithOptions]. unfold in_dropin.
      cbn -[containerd_AddRuntimeWithOptions]. by rewrite Hs'.
    + unfold new_default in Hd. rewrite Hd. destruct sd; [done|].
      destruct (String.eqb_spec (written_default (mkDropIn o top s)) name); [by right|by left].
  - intros name [o top s] Hok.
    destruct (containerd_RemoveRuntime_ok o _ (carries_sharing o) name s _ _ (dropin_view _ Hok)) as (s' & Hs' & Hst).
    assert (Htop : exists t, or_nothing (containerd_RemoveRuntime o name) (tl_tree top) = done t).
    { destruct (tl_tree top); by eexists. }
    destruct Htop as [t Ht]. destruct (dropin_outcome o (with_tl_tree t top) s' _ _ Hst) as (Hok' & Hw & Hd).
    exists (mkDropIn o (with_tl_tree t top) s'). split_and!; [|done..|].
    + change (RemoveRuntime name (mkDropIn o top s)) with (dropin_RemoveRuntime name (mkDropIn o top s)). unfold dropin_RemoveRuntime.
      cbn -[containerd_RemoveRuntime or_nothing]. rewrite Ht. unfold in_dropin. cbn -[containerd_RemoveRuntime]. by rewrite Hs'.
    + rewrite Hd. apply dropped_empty.
  - intros [o top s] Hok. pose proof (containerd_EnableCDI_ok o _ (carries_sharing o) s _ _ (dropin_view _ Hok)) as Hst.
    destruct (dropin_outcome o top _ _ _ Hst) as (Hok' & Hw & Hd). by exists (mkDropIn o top (containerd_EnableCDI o s)).
  - intros name action [o top s] Hok. pose proof (dropin_view _ Hok) as Hst.
    assert (Hu : exists r s', containerd_UpdateDefaultRuntime o name action (Some s) = Some (r, Some s') /\
      if String.eqb action UpdateActionSet then r = Ok tt /\ dst o s' (written (mkDropIn o top s)) name
      else if String.eqb action UpdateActionUnset then r = Ok tt /\ dst o s' (written (mkDropIn o top s))
        (if String.eqb (written_default (mkDropIn o top s)) name then "" else written_default (mkDropIn o top s))
      else r = Err (invalid_action action) /\ dst o s' (written (mkDropIn o top s)) (written_default (mkDropIn o top s))).
    { unfold containerd_UpdateDefaultRuntime, known_action. destruct (String.eqb action UpdateActionSet); [|destruct (String.eqb action UpdateActionUnset)];
        cbn [orb negb]; (do 2 eexists; split; [reflexivity|]); (split; [done|]).
      - by apply (st_set_default _ _ _ _ _ _ (carries_sharing o)) with (v := name) in Hst.
      - by apply (st_drop_default _ _ _ _ _ _ (carries_sharing o)) with (n := name) in Hst.
      - done. }
    destruct Hu as (r & s' & Hu & Hr). exists r, (mkDropIn o top s'). split.
    + change (UpdateDefaultRuntime name action (mkDropIn o top s)) with
        (in_dropin (some_tree (containerd_UpdateDefaultRuntime o name action)) (mkDropIn o top s)).
      unfold in_dropin, some_tree. cbn -[containerd_UpdateDefaultRuntime]. by rewrite Hu.
    + destruct (String.eqb action UpdateActionSet); [|destruct (String.eqb action UpdateActionUnset)];
        destruct Hr as (Hr & (Hok' & Hw & Hd)%(dropin_outcome o top)); (split; [exact Hok'|split; [exact Hw|split; [exact Hr|]]]); [done| |done].
      rewrite Hd. apply dropped_empty.
Qed.
End DropInLaws.

(** ** Drop-in configurations that [New] makes

    The configuration starts with a shared table, edits of the destination
    show in the source while it is shared, and the order in which runtimes are
    added shows in their options. *)

Section New.
Context `{TomlReadsBack}.
Variable o : configOptions.
Local Abbreviation p := (plugin_path o).
Local Abbreviation ok_containerd := (ok_tree (runtimes_path o) (default_path o) binary_name annotation_keys).

Lemma plugin_below_default : default_path o = p ++ ["containerd"; "default_runtime_name"].
Proof using Type. unfold default_path, containerd_path. by rewrite <- !app_assoc. Qed.
Lemma clear_plugin s : ok_containerd s -> clear p s = true.
Proof using Type. intros (Hd & _). rewrite plugin_below_default in Hd. by apply clear_prefix in Hd. Qed.
(** A tree without the plugin has nothing to go wrong. *)
Lemma ok_empty : ok_containerd ∅.
Proof using Type.
  assert (Hb : forall q, get_path (p ++ q) (∅ : tree) = None \/ p ++ q = []) by (intros q; left; apply get_empty).
  unfold ok_tree, bin, rt, runtimes_path, default_path, containerd_path, plugin_path. cbn -[get_path clear].
  split_and!; intros; rewrite ?get_empty; try done; apply clear_empty.
Qed.
Lemma getBaseDropInConfigTree_ok s : ok_containerd s -> exists c,
  getBaseDropInConfigTree o (Some s) = Some c /\ ok_sharing o c /\ source c = s /\ (shared c = Some p <-> is_Some (get_path p s)).
Proof using Type.
  intros Hok. pose proof (clear_plugin s Hok) as Hc. unfold getBaseDropInConfigTree, GetSubtreeByPath. cbn [deref mbind option_bind].
  assert (Ht : (exists t, get_path p s = Some (ITree t)) \/ get_path p s = None).
  { apply (clear_table p ["containerd"; "default_runtime_name"]); [done..|]. destruct Hok as (Hd & _). by rewrite <- plugin_below_default. }
  destruct Ht as [[t Ht]|Ht]; rewrite Ht; cbn [mbind option_bind]; eexists; (split; [reflexivity|]).
  - assert (Hsame : same_plugin o s (set_path p (ITree t) ∅)).
    { split; [done|]. split; [apply clear_set_prefix; [apply clear_empty|done|by exists []; rewrite app_nil_r]|].
      exists t. split; [done|]. apply get_set_same, clear_empty. }
    split; [|split; [done|by split; [by intros _; eexists|]]].
    split; [done|]. split; [|by split]. apply (ok_same_plugin o _ s); [|done].
    destruct Hsame as (H1 & H2 & t' & H3 & H4). split; [done|]. split; [done|]. by exists t'.
  - split; [|split; [done|split; [done|by intros [? ?]]]]. split; [done|]. split; [apply ok_empty|done].
Qed.

(** While the table is shared, the source shows every runtime of the
    destination. *)
Lemma shared_same_path c n : ok_sharing o c -> shared c = Some p ->
  path_of (runtimes_path o) binary_name (source c) n = path_of (runtimes_path o) binary_name (destination c) n.
Proof using Type.
  intros (_ & _ & Hsh) E. rewrite E in Hsh. destruct Hsh as (_ & Hs & Hd & t & Hts & Htd). unfold path_of, bin, rt, runtimes_path, containerd_path.
  rewrite <- !app_assoc. by rewrite !(get_path_app p t) by done.
Qed.
End New.

(** *** Edits keep the table shared *)

Section Shared.
Context `{TomlReadsBack}.
Variable o : configOptions.
Local Abbreviation p := (plugin_path o).
Local Abbreviation ok_containerd := (ok_tree (runtimes_path o) (default_path o) binary_name annotation_keys).

Lemma shared_set c ks d : shared c = Some p -> strictly_below p ks = true \/ apart ks p = true ->
  shared (update_destination ks d c) = Some p.
Proof using Type.
  intros E Hks. unfold update_destination. rewrite E. destruct (strictly_below p ks) eqn:E1; [done|].
  destruct Hks as [?|Ha]; [done|]. destruct (on_or_above p ks) eqn:E2; [|done].
  apply on_or_above_spec in E2 as [r Hr]. by destruct (apart_not_prefix _ _ r Ha).
Qed.
Lemma below_runtimes n r : strictly_below p (runtimes_path o ++ n :: r) = true.
Proof using Type.
  apply strictly_below_spec. exists (["containerd"; "runtimes"] ++ n :: r). split; [done|].
  unfold runtimes_path, containerd_path. by rewrite <- !app_assoc.
Qed.
Lemma below_default : strictly_below p (default_path o) = true.
Proof using Type. apply strictly_below_spec. exists ["containerd"; "default_runtime_name"]. split; [done|]. apply plugin_below_default. Qed.
Lemma AddRuntimeWithOptions_shared name path sd opts c r c' : shared c = Some p ->
  containerd_AddRuntimeWithOptions o name path sd opts c = Some (r, c') -> shared c' = Some p.
Proof using Type.
  intros E. unfold containerd_AddRuntimeWithOptions. set (c1 := t_set ["version"] _ c).
  assert (E1 : shared c1 = Some p) by (apply shared_set; [done|by right]). clearbody c1.
  assert (Hopts : forall c2, set_options (runtimes_path o ++ [name]) opts c1 = Some c2 -> shared c2 = Some p).
  { intros c2. destruct opts as [|[t|]]; cbn; intros [= <-]; [done|]. apply shared_set; [done|]. left. apply below_runtimes. }
  destruct (set_options _ opts c1) as [c2|]; [|done]. cbn [mbind option_bind]. specialize (Hopts c2 eq_refl).
  assert (Hann : shared (add_annotations o name c2).2 = Some p).
  { unfold add_annotations. destruct (ContainerAnnotations o) as [|a l]; [done|]. cbv zeta.
    destruct (getStringArrayValue _ _) as [old|e]; [|done]. apply shared_set; [done|]. left. apply below_runtimes. }
  destruct (add_annotations o name c2) as [[u|e] c3]; cbn [snd] in Hann; [|by intros [= <- <-]].
  set (c4 := t_set (runtimes_path o ++ [name; "options"; "BinaryName"]) _ c3).
  assert (E4 : shared c4 = Some p) by (apply shared_set; [done|]; left; apply below_runtimes). clearbody c4.
  intros [= <- <-]. destruct sd; [apply shared_set; [done|]; left; apply below_default|].
  unfold drop_default. destruct (as_string _) as [d|]; [|done]. destruct (String.eqb d name); [|done].
  apply shared_set; [done|]. left. apply below_default.
Qed.
Lemma runtime_config_ok s n : ok_containerd s -> containerd_GetRuntimeConfig o n (Some s) = Some (Ok (path_of (runtimes_path o) binary_name s n)).
Proof using Type.
  intros Hok. unfold containerd_GetRuntimeConfig, GetSubtreeByPath. fold (rt (runtimes_path o) n).
  pose proof (clear_rt _ _ _ (plugin_path o) _ n s Hok) as Hc.
  destruct (table_rt _ _ _ (plugin_path o) _ n s Hok) as [[t Ht]|Ht]; rewrite Ht; cbn [mbind option_bind]; unfold path_of, bin, containerd_GetBinaryPath.
  - by rewrite (get_path_app _ t) by done.
  - by rewrite get_path_app_none.
Qed.
End Shared.

(** C9. On a drop-in configuration that shares the table of its source, an
    added runtime is visible through the source: [GetRuntimeConfig] returns its
    path and, when it is set as the default, [DefaultRuntime] its name, though
    both read the source and [AddRuntime] writes the destination. *)
Theorem AddRuntime_visible `{TomlReadsBack} name path d (c : ConfigWithDropIn) :
  ok c -> shared (dropin c) = Some (plugin_path (dropin_options c)) -> exists c',
  AddRuntime name path d c = done c' /\ GetRuntimeConfig name c' = Some (Ok path) /\
  (d = true -> DefaultRuntime c' = Some name).
Proof.
  intros Hok E. destruct c as [o top s]. cbn [dropin dropin_options] in E.
  destruct (default_options_good o (source s)) as (t & Ho & Hg); [apply Hok|].
  destruct (containerd_AddRuntimeWithOptions_ok o _ (carries_sharing o) name path d t s _ _ Hg (dropin_view _ Hok)) as (s' & Hs' & Hok' & Hw & Hd).
  pose proof (AddRuntimeWithOptions_shared o _ _ _ _ _ _ _ E Hs') as E'. exists (mkDropIn o top s'). split; [|split].
  - change (AddRuntime name path d (mkDropIn o top s)) with (Config_AddRuntime name path d (mkDropIn o top s)). unfold Config_AddRuntime.
    cbn -[containerd_GetDefaultRuntimeOptions containerd_AddRuntimeWithOptions]. rewrite Ho.
    cbn -[containerd_GetDefaultRuntimeOptions containerd_AddRuntimeWithOptions]. unfold in_dropin.
    cbn -[containerd_AddRuntimeWithOptions]. by rewrite Hs'.
  - change (GetRuntimeConfig name (mkDropIn o top s')) with (containerd_GetRuntimeConfig o name (Some (source s'))).
    rewrite (runtime_config_ok o) by apply Hok'. rewrite (shared_same_path o) by done.
    change (destination s') with (shown s'). rewrite Hw. unfold upd. by rewrite String.eqb_refl.
  - intros ->. change (DefaultRuntime (mkDropIn o top s')) with (containerd_DefaultRuntime o (Some (source s'))).
    unfold containerd_DefaultRuntime, deref. cbn [mbind option_bind]. f_equal.
    destruct Hok' as (Hs1 & Hs2 & Hsh). rewrite E' in Hsh. destruct Hsh as (_ & Hc1 & Hc2 & t' & Ht1 & Ht2).
    unfold default_of in Hd. change (shown s') with (destination s') in Hd.
    rewrite plugin_below_default in Hd |- *. rewrite (get_path_app _ t') in Hd |- *; done.
Qed.
