(* ===== verification/InstallerProps.v ===== *)
(** * What the installer does to a container engine

    Proved for every engine that keeps the promise of Engine.v: the runtimes
    that are added and removed, and the default runtime, whatever the order in
    which the map of runtimes is visited. *)
From S2P Require Import Prelude GoStrings GoPaths FileSystem Toml Engine Docker Crio Containerd InstallerRuntimes ContainerdProps RuntimeTables DropInProps.

(** ** The set of runtimes *)

Definition effective_name (o : Options) : string := if String.eqb (RuntimeName o) "" then "nvidia" else RuntimeName o.
(** The runtime that is set as the default is the requested one. *)
Lemma GetRuntimes_spec o k r : runtimes_of o !! k = Some r ->
  operator.SetAsDefault r = (InstallerRuntimes.SetAsDefault o && String.eqb k (effective_name o)).
Proof.
  unfold runtimes_of, operator.GetRuntimes, operator.add, operator.modeRuntime, operator.nvidiaRuntime, operator.newRuntime, effective_name.
  cbn -[path_join String.eqb]. change operator.defaultRuntimeName with "nvidia".
  set (n := if String.eqb (RuntimeName o) "" then "nvidia" else RuntimeName o). rewrite !lookup_insert_Some, lookup_empty.
  intros [[<- <-]|[_ [[<- <-]|[_ [[<- <-]|[_ ?]]]]]]; try done.
Qed.
Lemma GetRuntimes_effective o : is_Some (runtimes_of o !! effective_name o).
Proof.
  unfold runtimes_of, operator.GetRuntimes, operator.add, operator.modeRuntime, operator.nvidiaRuntime, operator.newRuntime, effective_name.
  cbn -[path_join String.eqb]. change operator.defaultRuntimeName with "nvidia".
  set (n := if String.eqb (RuntimeName o) "" then "nvidia" else RuntimeName o). rewrite !lookup_insert_is_Some.
  destruct (decide ("nvidia-legacy" = n)) as [|H1]; [by left|]. right. split; [done|].
  destruct (decide ("nvidia-cdi" = n)) as [|H2]; [by left|]. right. split; [done|]. left.
  destruct (String.eqb_spec n "nvidia-cdi"); [by subst|]. destruct (String.eqb_spec n "nvidia-legacy"); [by subst|done].
Qed.

(** ** Adding and removing runtimes *)

Section Engines.
Context {C : Type} `{EngineLaws C} `{MapRange}.
Abbreviation entry := (string * operator.Runtime)%type.

(** The path of a runtime in a list of entries, or the one before. *)
Definition path_in (rs : list entry) (w : string -> string) (n : string) : string :=
  match list_to_map (M := gmap string _) rs !! n with Some r => operator.Path r | None => w n end.
Lemma path_in_cons k r rs w n : k ∉ rs.*1 -> path_in rs (fun m => if String.eqb m k then operator.Path r else w m) n = path_in ((k, r) :: rs) w n.
Proof using Type.
  intros Hk. unfold path_in. cbn. destruct (String.eqb_spec n k) as [->|Hne].
  - by rewrite lookup_insert_eq, not_elem_of_list_to_map_1.
  - by rewrite lookup_insert_ne.
Qed.
Lemma path_in_ext rs w w' n : (forall m, w m = w' m) -> path_in rs w n = path_in rs w' n.
Proof using Type. intros Hw. unfold path_in. by destruct (_ !! n). Qed.
(** The default after the entries are added: the last entry that asks for it,
    otherwise the old one, unless that is one of the entries. *)
Definition default_after (rs : list entry) (d d' : string) : Prop :=
  (forall k r, (k, r) ∈ rs -> operator.SetAsDefault r = true -> (forall k' r', (k', r') ∈ rs -> operator.SetAsDefault r' = true -> k' = k) -> d' = k) /\
  ((forall k r, (k, r) ∈ rs -> operator.SetAsDefault r = false) -> d' = d \/ (d ∈ rs.*1 /\ d' = "")).
Lemma default_after_cons k r rs d d1 d' : k ∉ rs.*1 ->
  (if operator.SetAsDefault r then d1 = k else d1 = d \/ (d = k /\ d1 = "")) ->
  default_after rs d1 d' -> default_after ((k, r) :: rs) d d'.
Proof using Type.
  intros Hk Hd1 [Hs Hn]. split.
  - intros k2 r2 Hin Hset Huniq. destruct (operator.SetAsDefault r) eqn:E.
    + assert (k2 = k) as -> by (symmetry; by apply (Huniq k r); [left|]). subst d1.
      assert (Hall : forall k' r', (k', r') ∈ rs -> operator.SetAsDefault r' = false).
      { intros k' r' Hin'. destruct (operator.SetAsDefault r') eqn:E'; [|done]. exfalso. apply Hk.
        assert (k' = k) as <- by (apply (Huniq k' r'); [by right|done]). by apply (list_elem_of_fmap_2 fst) in Hin'. }
      destruct (Hn Hall) as [->|[Hin' _]]; [done|]. done.
    + apply elem_of_cons in Hin as [[= -> ->]|Hin]; [congruence|]. apply (Hs k2 r2); [done..|]. intros k' r' ? ?. apply (Huniq k' r'); [by right|done].
  - intros Hall. assert (E : operator.SetAsDefault r = false) by (apply (Hall k r); by left). rewrite E in Hd1.
    destruct (Hn (fun k' r' Hin => Hall k' r' (list_elem_of_further _ _ _ Hin))) as [->|[Hin ->]].
    + destruct Hd1 as [->|[-> ->]]; [by left|right]. split; [by left|done].
    + right. split; [|done]. destruct Hd1 as [->|[-> _]]; [by right|by left].
Qed.

Lemma add_runtimes_spec rs : NoDup rs.*1 -> forall c, ok c -> exists c',
  add_runtimes rs c = done c' /\ ok c' /\ (forall n, written c' n = path_in rs (written c) n) /\
  default_after rs (written_default c) (written_default c').
Proof using H1.
  induction rs as [|[k r] rs IH]; intros Hnd c Hok.
  - exists c. split_and!; [done..|]. split; [by intros ? ? ?%not_elem_of_nil|by left].
  - apply NoDup_cons in Hnd as [Hk Hnd]. cbn [add_runtimes].
    destruct (AddRuntime_law k (operator.Path r) (operator.SetAsDefault r) c Hok) as (c1 & -> & Hok1 & Hw1 & Hd1).
    destruct (IH Hnd c1 Hok1) as (c' & Hadd & Hok' & Hw & Hd). exists c'. split_and!; [exact Hadd|done| |].
    + intros n. rewrite Hw, <- path_in_cons by done. apply path_in_ext, Hw1.
    + by apply (default_after_cons k r rs _ (written_default c1)).
Qed.
Lemma remove_runtimes_spec names : forall c, ok c -> exists c',
  remove_runtimes names c = done c' /\ ok c' /\
  (forall n, written c' n = if bool_decide (n ∈ names) then "" else written c n) /\
  (written_default c ∉ names -> written_default c' = written_default c).
Proof using H1.
  induction names as [|k names IH]; intros c Hok; [exists c; split_and!; [done..| |done]; intros n; by rewrite bool_decide_false by apply not_elem_of_nil|].
  cbn [remove_runtimes]. destruct (RemoveRuntime_law k c Hok) as (c1 & -> & Hok1 & Hw1 & Hd1 & _).
  destruct (IH c1 Hok1) as (c' & Hr & Hok' & Hw & Hd). exists c'. split_and!; [exact Hr|done| |].
  - intros n. rewrite Hw, Hw1. destruct (String.eqb_spec n k) as [->|Hne].
    + rewrite (bool_decide_true (k ∈ k :: names)) by left. by case_bool_decide.
    + assert (Hiff : n ∈ k :: names <-> n ∈ names) by (rewrite elem_of_cons; naive_solver). by rewrite (bool_decide_ext _ _ Hiff).
  - intros Hn. apply not_elem_of_cons in Hn as [Hne Hn]. rewrite <- (Hd1 Hne). apply Hd. by rewrite (Hd1 Hne).
Qed.
Lemma path_in_range (rs : operator.Runtimes) w n : path_in (range rs) w n = match rs !! n with Some r => operator.Path r | None => w n end.
Proof using Type.
  unfold path_in. rewrite (list_to_map_proper (range rs) (map_to_list rs)); [by rewrite list_to_map_to_list|apply NoDup_range|apply range_perm].
Qed.

Lemma UpdateConfig_writes o c : ok c -> exists c',
  UpdateConfig o c = done c' /\ ok c' /\
  (forall n, written c' n = match runtimes_of o !! n with Some r => operator.Path r | None => written c n end) /\
  default_after (range (runtimes_of o)) (written_default c) (written_default c').
Proof using H1.
  intros Hok. unfold UpdateConfig.
  destruct (add_runtimes_spec _ (NoDup_range (runtimes_of o)) c Hok) as (c1 & -> & Hok1 & Hw1 & Hdef). cbn -[runtimes_of].
  assert (Hcdi : exists c', (if WithCDI o then cfg ← EnableCDI c1; done cfg else done c1) = done c' /\ ok c' /\
    (forall n, written c' n = written c1 n) /\ written_default c' = written_default c1).
  { destruct (WithCDI o); [|by exists c1]. destruct (EnableCDI_law c1 Hok1) as (c2 & -> & ?). by exists c2. }
  destruct Hcdi as (c' & Hc' & Hok' & Hw & Hd). exists c'. split_and!; [exact Hc'|done| |by rewrite Hd].
  intros n. by rewrite Hw, Hw1, path_in_range.
Qed.

(** C4. Whatever the order in which the map of runtimes is visited,
    [UpdateConfig] on an engine that keeps its promise succeeds and writes the
    path of each of the three runtimes and no other path; when the runtimes are
    set as default, the default is the requested runtime name (also when that
    is one of the predefined runtimes), otherwise the default is kept, unless
    it was one of these runtimes, which unsets it in some engines. *)
Theorem UpdateConfig_configures o c : ok c -> exists c',
  UpdateConfig o c = done c' /\ ok c' /\
  (forall n, written c' n = match runtimes_of o !! n with Some r => operator.Path r | None => written c n end) /\
  (if InstallerRuntimes.SetAsDefault o then written_default c' = effective_name o
   else written_default c' = written_default c \/ (is_Some (runtimes_of o !! written_default c) /\ written_default c' = "")).
Proof using H1.
  intros Hok. destruct (UpdateConfig_writes o c Hok) as (c' & Hc' & Hok' & Hw & Hset & Hkeep). exists c'. split_and!; [done..|].
  destruct (InstallerRuntimes.SetAsDefault o) eqn:E.
  - destruct (GetRuntimes_effective o) as [r Hr]. apply (Hset (effective_name o) r); [by apply elem_of_range| |].
    + rewrite (GetRuntimes_spec _ _ _ Hr), E. by rewrite String.eqb_refl.
    + intros k' r' Hin%elem_of_range. rewrite (GetRuntimes_spec _ _ _ Hin), E. by intros ?%String.eqb_eq.
  - destruct Hkeep as [->|[Hin ->]]; [|by left|right; split; [|done]].
    + intros k r Hin%elem_of_range. by rewrite (GetRuntimes_spec _ _ _ Hin), E.
    + apply list_elem_of_fmap in Hin as ([k r] & -> & Hin%elem_of_range). by exists r.
Qed.

Lemma RevertConfig_writes o c : ok c -> exists c', RevertConfig o c = done c' /\ ok c' /\
  forall n, written c' n = if runtimes_of o !! n is Some _ then "" else written c n.
Proof using H1.
  intros Hok. destruct (remove_runtimes_spec (range (runtimes_of o)).*1 c Hok) as (c' & Hr & Hok' & Hw & _).
  exists c'. split_and!; [exact Hr|done|]. intros n. rewrite Hw.
  assert (Hiff : n ∈ (range (runtimes_of o)).*1 <-> is_Some (runtimes_of o !! n)).
  { rewrite list_elem_of_fmap. split.
    - intros ([k r] & -> & Hin%elem_of_range). by exists r.
    - intros [r Hr']. exists (n, r). split; [done|]. by apply elem_of_range. }
  rewrite (bool_decide_ext _ _ Hiff). destruct (runtimes_of o !! n); [by rewrite bool_decide_true|].
  rewrite bool_decide_false; [done|]. by intros [].
Qed.

(** C5. [RevertConfig] after [UpdateConfig] leaves the paths of all other
    runtimes as they were, and no path for the three runtimes. *)
Theorem UpdateConfig_RevertConfig o c : ok c -> exists c1 c2,
  UpdateConfig o c = done c1 /\ RevertConfig o c1 = done c2 /\
  forall n, written c2 n = if bool_decide (is_Some (runtimes_of o !! n)) then "" else written c n.
Proof using H1.
  intros Hok. destruct (UpdateConfig_writes o c Hok) as (c1 & Hc1 & Hok1 & Hw1 & _).
  destruct (RevertConfig_writes o c1 Hok1) as (c2 & Hr & _ & Hw2).
  exists c1, c2. split_and!; [exact Hc1|exact Hr|]. intros n. rewrite Hw2, Hw1.
  by destruct (runtimes_of o !! n); [rewrite bool_decide_true|rewrite bool_decide_false by by intros []].
Qed.
End Engines.

(** ** Engines on concrete configurations

    A small printer and parser of tables, and configurations on which the
    theorems about engines are applied. *)
Local Abbreviation tree := (gmap string item).

(** Tables are printed as the text of their [runtime_type]. *)
Definition typed_table (s : string) : tree := <["runtime_type" := IVal (VStr s)]> ∅.
#[local] Instance lab_toml : Toml := {
  toml_Marshal := fun t => Ok (default "" (as_string (t !! "runtime_type")));
  toml_Load := fun s => Ok (if String.eqb s "" then ∅ else typed_table s);
}.
#[local] Instance lab_reads_back : TomlReadsBack.
Proof.
  intros t _. unfold Copy, toml_String. cbn. eexists. split; [reflexivity|].
  destruct (as_string (t !! "runtime_type")) as [s|] eqn:E; cbn; [destruct (String.eqb_spec s "") as [|Hs]|].
  2: assert (Ht : t !! "runtime_type" = Some (IVal (VStr s))) by (destruct (t !! "runtime_type") as [[[]| |]|]; naive_solver).
  2: assert (Hk : forall k, typed_table s !! k = if String.eqb k "runtime_type" then Some (IVal (VStr s)) else None)
       by (intros k; unfold typed_table; destruct (String.eqb_spec k "runtime_type") as [->|]; [by rewrite lookup_insert_eq|by rewrite lookup_insert_ne]).
  1, 3: split; [intros [|k q]; [done|by rewrite get_empty]|split; [intros [|k q]; [done|by rewrite clear_empty]|intros [|k q]; [done|by rewrite get_empty]]].
  split; [|split].
  - intros [|k [|k2 q]]; [done| |]; [cbn|rewrite get_path_cons]; rewrite Hk; by destruct (String.eqb k "runtime_type").
  - intros [|k [|k2 q]]; [done..|]. rewrite !clear_cons, Hk. destruct (String.eqb_spec k "runtime_type") as [->|]; [by rewrite Ht|done].
  - intros [|k [|k2 q]]; [done| |]; [cbn|rewrite !get_path_cons]; rewrite Hk; destruct (String.eqb_spec k "runtime_type") as [->|]; [by rewrite Ht|done|done|done].
Qed.

(** ** Witnesses *)

Definition lab_options : configOptions := mkConfigOptions 2 "io.containerd.runc.v2" [] false "io.containerd.grpc.v1.cri".
Definition bare_source : tree := set_path (plugin_path lab_options) (ITree ∅) ∅.
Lemma ok_bare : ok_tree (runtimes_path lab_options) (default_path lab_options) binary_name annotation_keys bare_source.
Proof.
  assert (Hc : clear (plugin_path lab_options) (∅ : tree) = true) by apply clear_empty.
  assert (Hget : forall k q, get_path (plugin_path lab_options ++ k :: q) bare_source = None).
  { intros k q. unfold bare_source. rewrite get_set_below by done. apply get_empty. }
  assert (Hcl : forall k q, clear (plugin_path lab_options ++ k :: q) bare_source = true).
  { intros k q. unfold bare_source. rewrite clear_set_below by done. apply clear_empty. }
  unfold ok_tree, bin, rt, runtimes_path, default_path, containerd_path.
  split_and!; intros; rewrite <- ?app_assoc; cbn [app]; first [apply Hcl|by rewrite Hget].
Qed.
Definition lab_top : topLevelConfig := mkTopLevel "/etc/containerd/config.toml" ∅ (Some ∅).
Definition bare_config : ConfigWithDropIn :=
  mkDropIn lab_options lab_top (mkSharing bare_source (set_path (plugin_path lab_options) (ITree ∅) ∅) (Some (plugin_path lab_options))).
Lemma bare_config_ok : ok bare_config.
Proof.
  destruct (getBaseDropInConfigTree_ok lab_options bare_source ok_bare) as (c & Hc & Hok & _).
  assert (c = dropin bare_config) as -> by (vm_compute in Hc; injection Hc as <-; vm_compute; reflexivity). exact Hok.
Qed.
Lemma AddRuntime_visible_witness : exists c', AddRuntime "nvidia" "/usr/bin/nvidia-container-runtime" true bare_config = done c' /\
  GetRuntimeConfig "nvidia" c' = Some (Ok "/usr/bin/nvidia-container-runtime") /\ (true = true -> DefaultRuntime c' = Some "nvidia").
Proof. apply (AddRuntime_visible "nvidia" "/usr/bin/nvidia-container-runtime" true bare_config bare_config_ok). reflexivity. Defined.

Definition lab_install (name : string) (setAsDefault : bool) : Options :=
  mkOptions "/etc/containerd/conf.d/99-nvidia.toml" "" "/etc/containerd/config.toml" "/run/containerd/containerd.sock" "" true name
    "/usr/local/nvidia/toolkit" setAsDefault "signal" "/host" ["file"].
Lemma UpdateConfig_configures_witness : exists c',
  UpdateConfig (H0 := map_to_list_range) (lab_install "nvidia-cdi" true) bare_config = done c' /\
  written c' "nvidia-legacy" = "/usr/local/nvidia/toolkit/nvidia-container-runtime.legacy" /\ written_default c' = "nvidia-cdi".
Proof.
  destruct (UpdateConfig_configures (H2 := map_to_list_range) (lab_install "nvidia-cdi" true) bare_config bare_config_ok) as (c' & Hc & _ & Hw & Hd).
  exists c'. split; [exact Hc|split; [|exact Hd]]. rewrite (Hw "nvidia-legacy"). vm_compute. reflexivity.
Defined.
Lemma UpdateConfig_RevertConfig_witness : exists c1 c2,
  UpdateConfig (H0 := map_to_list_range) (lab_install "nvidia" true) (mkCrio (Some ∅) (Some ∅)) = done c1 /\
  RevertConfig (H0 := map_to_list_range) (lab_install "nvidia" true) c1 = done c2 /\ written c2 "nvidia" = "".
Proof.
  destruct (UpdateConfig_RevertConfig (H2 := map_to_list_range) (lab_install "nvidia" true) (mkCrio (Some ∅) (Some ∅))) as (c1 & c2 & H1 & H2 & Hw).
  - exists ∅, ∅. assert (Hok : ok_tree crio_runtimes crio_default ["runtime_path"] [] (∅ : tree)).
    { unfold ok_tree, bin, rt, crio_runtimes, crio_default. cbn -[get_path clear].
      split; [apply clear_empty|split; [intros n; apply clear_empty|split; [intros n q; by rewrite get_empty|intros n a ?%not_elem_of_nil; done]]]. }
    by split_and!.
  - exists c1, c2. split_and!; [exact H1|exact H2|]. rewrite (Hw "nvidia"). vm_compute. reflexivity.
Defined.

(** C3. Docker, cri-o and containerd with a drop-in file keep the promise of
    an engine: on a well-formed configuration every operation succeeds without
    a panic, stays well-formed and changes exactly the paths and the default
    runtime that it should. For the TOML engines this assumes that a printed
    tree is read back. *)
Theorem engines_keep_promise `{Json, TomlReadsBack} :
  EngineLaws Docker /\ EngineLaws CrioConfig /\ EngineLaws ConfigWithDropIn.
Proof. split; [|split]; apply _. Qed.
#[local] Instance lab_json : Json := {
  json_MarshalIndent := fun _ => Ok "";
  json_Decode := fun _ => Ok (Some ∅);
}.
Lemma engines_keep_promise_witness : EngineLaws Docker /\ EngineLaws CrioConfig /\ EngineLaws ConfigWithDropIn.
Proof. exact engines_keep_promise. Defined.

(** ** What the engines do not do *)

(** The other order of a map. *)
Definition reversed_range : MapRange.
Proof. refine {| range := fun _ m => rev (map_to_list m) |}. intros V m. by rewrite <- Permutation_rev. Defined.
(** A source whose default runtime and runc have different types. *)
Definition two_types : tree :=
  set_path (default_path lab_options) (IVal (VStr "custom"))
    (set_path (runtimes_path lab_options ++ ["custom"]) (ITree (typed_table "c"))
      (set_path (runtimes_path lab_options ++ ["runc"]) (ITree (typed_table "r")) ∅)).
Definition two_types_config : option ConfigWithDropIn :=
  s ← getBaseDropInConfigTree lab_options (Some two_types); Some (mkDropIn lab_options lab_top s).
Definition type_of (name : string) (r : option (result unit * ConfigWithDropIn)) : option item :=
  '(_, c) ← r; get_path (runtimes_path lab_options ++ [name; "runtime_type"]) (destination (dropin c)).

(** The options of the added runtimes depend on the order in which the map
    of runtimes is visited: once the requested runtime is the default in the
    shared table, the options are inferred from runc instead of from the
    runtime that was the default. *)
Theorem options_depend_on_order : exists cfg, two_types_config = Some cfg /\
  type_of "nvidia-cdi" (UpdateConfig (H0 := map_to_list_range) (lab_install "nvidia" true) cfg) <>
  type_of "nvidia-cdi" (UpdateConfig (H0 := reversed_range) (lab_install "nvidia" true) cfg).
Proof. eexists. split; [vm_compute; reflexivity|]. vm_compute. congruence. Qed.

(** The features of a decoded [daemon.json] are lost when CDI is enabled. *)
Theorem docker_EnableCDI_drops m features : m !! "features" = Some (JObject features) ->
  docker_EnableCDI (Some m) = Some (Some (<["features" := JBools (<["cdi" := true]> ∅)]> m)).
Proof. intros Hf. unfold docker_EnableCDI. cbn. by rewrite Hf. Qed.

(** Saving an empty configuration fails when its file does not exist. *)
Theorem empty_save_needs_file path w : path <> "" -> sys_Remove path (files w) = inl ENOENT ->
  exists e, Raw_Write path "" w = (Err e, w).
Proof. intros Hp Hr. unfold Raw_Write. apply String.eqb_neq in Hp. rewrite Hp, Hr. by eexists. Qed.
(** So that a cleanup without anything to clean up fails. *)
Definition no_options : ContainerdOptions := mkContainerdOptions false "io.containerd.runc.v2" [].
Theorem cleanup_of_nothing_fails `{Commands, Daemons} : exists e w,
  containerd_Cleanup (H0 := map_to_list_range) (lab_install "nvidia" true) no_options (mkWorld (map_of_nodes []) "") = Some (Err e, w).
Proof. vm_compute. by do 2 eexists. Qed.

(** Version 1 cannot unset a default runtime, and enables CDI in a table that
    is not the one of the later versions. *)
Theorem v1_UpdateDefaultRuntime_fails name action (c : ConfigV1) :
  UpdateDefaultRuntime name action c = Some (Err "this method is not implemented", c).
Proof. done. Qed.
Theorem v1_EnableCDI_table o t c : EnableCDI (mkV1 o (Some t)) = Some c -> clear ["plugins"; "cri"; "containerd"; "enable_cdi"] t = true ->
  exists t', v1_tree c = Some t' /\ get_path ["plugins"; "cri"; "enable_cdi"] t' = get_path ["plugins"; "cri"; "enable_cdi"] t.
Proof.
  intros Hc Hclear. set (t' := set_path (cri ++ ["enable_cdi"]) (IVal (VBool true)) t).
  change (Some (mkV1 o (Some t')) = Some c) in Hc. injection Hc as <-. exists t'. split; [done|]. by apply get_set_apart.
Qed.
