(* ===== verification/InstallerDaemon.v ===== *)
(** * The installer as a daemon (src/cmd/nvidia-ctk-installer/main.go)

    [Run] on the main goroutine, the goroutine that [initialize] starts for
    signals, and the two channels between them, as a step relation. A phase of
    [Run] may succeed or fail; signals may arrive at any time after
    [initialize]. *)
From S2P Require Import Prelude.

Local Open Scope Z_scope.

Inductive phase : Type :=
| Initializing | Installing | SettingUp | StartingNRI
| Announcing   (* before [waitingForSignal <- true] *)
| Awaiting     (* at [<-signalReceived] *)
| CleaningUp
| ShuttingDown (ok : bool)   (* before the deferred [a.shutdown] *)
| Returned (ok : bool).
Inductive handler_state : Type :=
| Off
| Listening    (* at [<-sigs] *)
| Selecting    (* at the [select] *)
| Sending      (* before [signalReceived <- true] *)
| Stopping     (* before [a.shutdown] *)
| Exiting      (* before [os.Exit(0)] *)
| Ended.

Record state := mkState {
  main : phase;
  handler : handler_state;
  sigs : bool;              (* a signal in the channel [sigs] *)
  waitingForSignal : bool;  (* a value in the channel, of capacity 1 *)
  signalReceived : bool;
  pidFile : bool;           (* the file exists *)
  configured : bool;        (* the engine is set up *)
  exited : option Z;
  warned : bool;            (* a removal of the pid file failed *)
}.
Definition initial : state := mkState Initializing Off false false false false false None false.

Definition at_phase (p : phase) (s : state) : state :=
  mkState p (handler s) (sigs s) (waitingForSignal s) (signalReceived s) (pidFile s) (configured s) (exited s) (warned s).
Definition at_handler (h : handler_state) (s : state) : state :=
  mkState (main s) h (sigs s) (waitingForSignal s) (signalReceived s) (pidFile s) (configured s) (exited s) (warned s).
Definition set_sigs (b : bool) (s : state) : state :=
  mkState (main s) (handler s) b (waitingForSignal s) (signalReceived s) (pidFile s) (configured s) (exited s) (warned s).
Definition set_waiting (b : bool) (s : state) : state :=
  mkState (main s) (handler s) (sigs s) b (signalReceived s) (pidFile s) (configured s) (exited s) (warned s).
Definition set_received (b : bool) (s : state) : state :=
  mkState (main s) (handler s) (sigs s) (waitingForSignal s) b (pidFile s) (configured s) (exited s) (warned s).
Definition set_pidFile (b : bool) (s : state) : state :=
  mkState (main s) (handler s) (sigs s) (waitingForSignal s) (signalReceived s) b (configured s) (exited s) (warned s).
Definition set_configured (b : bool) (s : state) : state :=
  mkState (main s) (handler s) (sigs s) (waitingForSignal s) (signalReceived s) (pidFile s) b (exited s) (warned s).
Definition exit (code : Z) (s : state) : state :=
  mkState (main s) (handler s) (sigs s) (waitingForSignal s) (signalReceived s) (pidFile s) (configured s) (Some code) (warned s).
Definition set_warned (b : bool) (s : state) : state :=
  mkState (main s) (handler s) (sigs s) (waitingForSignal s) (signalReceived s) (pidFile s) (configured s) (exited s) b.

(** The options [no-daemon] and [enable-nri-plugin]. *)
Section Daemon.
Variables (noDaemon enableNRI : bool).
Definition after_setup : phase :=
  if noDaemon then ShuttingDown true else if enableNRI then StartingNRI else Announcing.

(** [initialize] fails before the deferred shutdown is set up; a failing setup
    or cleanup may or may not have changed the engine. [shutdown] only warns when
    [os.Remove] fails, as it does when the other goroutine was first. *)
Inductive main_step : state -> state -> Prop :=
| initialize_ok s : main s = Initializing -> main_step s (at_phase Installing (at_handler Listening (set_pidFile true s)))
| initialize_fails s b : main s = Initializing -> main_step s (at_phase (Returned false) (set_pidFile b s))
| install_ok s : main s = Installing -> main_step s (at_phase SettingUp s)
| install_fails s : main s = Installing -> main_step s (at_phase (ShuttingDown false) s)
| setup_ok s : main s = SettingUp -> main_step s (at_phase after_setup (set_configured true s))
| setup_fails s b : main s = SettingUp -> main_step s (at_phase (ShuttingDown false) (set_configured b s))
| nri_ok s : main s = StartingNRI -> main_step s (at_phase Announcing s)
| nri_fails s : main s = StartingNRI -> main_step s (at_phase (ShuttingDown false) s)
| announce s : main s = Announcing -> waitingForSignal s = false -> main_step s (at_phase Awaiting (set_waiting true s))
| receive s : main s = Awaiting -> signalReceived s = true -> main_step s (at_phase CleaningUp (set_received false s))
| cleanup_ok s : main s = CleaningUp -> main_step s (at_phase (ShuttingDown true) (set_configured false s))
| cleanup_fails s b : main s = CleaningUp -> main_step s (at_phase (ShuttingDown false) (set_configured b s))
| shutdown s ok : main s = ShuttingDown ok -> pidFile s = true -> main_step s (at_phase (Returned ok) (set_pidFile false s))
| shutdown_fails s ok : main s = ShuttingDown ok -> main_step s (at_phase (Returned ok) (set_warned true s))
| main_exits s ok : main s = Returned ok -> main_step s (exit (if ok then 0 else 1) s).
Inductive handler_step : state -> state -> Prop :=
| take_signal s : handler s = Listening -> sigs s = true -> handler_step s (at_handler Selecting (set_sigs false s))
| take_waiting s : handler s = Selecting -> waitingForSignal s = true -> handler_step s (at_handler Sending (set_waiting false s))
| not_waiting s : handler s = Selecting -> waitingForSignal s = false -> handler_step s (at_handler Stopping s)
| send s : handler s = Sending -> signalReceived s = false -> handler_step s (at_handler Ended (set_received true s))
| handler_shutdown s : handler s = Stopping -> pidFile s = true -> handler_step s (at_handler Exiting (set_pidFile false s))
| handler_shutdown_fails s : handler s = Stopping -> handler_step s (at_handler Exiting (set_warned true s))
| handler_exits s : handler s = Exiting -> handler_step s (exit 0 s).
(** A step of the process, and the arrival of a signal, which is dropped when
    the channel is full. *)
Definition internal (s s' : state) : Prop := exited s = None /\ (main_step s s' \/ handler_step s s').
Definition signal_arrives (s s' : state) : Prop := exited s = None /\ handler s <> Off /\ s' = set_sigs true s.
Definition step (s s' : state) : Prop := internal s s' \/ signal_arrives s s'.

Inductive reachable : state -> Prop :=
| reachable_initial : reachable initial
| reachable_step s s' : reachable s -> step s s' -> reachable s'.
(** An execution with its number of internal steps. *)
Inductive execution : nat -> state -> state -> Prop :=
| execution_refl s : execution 0 s s
| execution_internal n s1 s2 s3 : internal s1 s2 -> execution n s2 s3 -> execution (S n) s1 s3
| execution_signal n s1 s2 s3 : signal_arrives s1 s2 -> execution n s2 s3 -> execution n s1 s3.

(** *** Invariant *)

Definition same_phase (p q : phase) : bool :=
  match p, q with
  | Initializing, Initializing | Installing, Installing | SettingUp, SettingUp | StartingNRI, StartingNRI
  | Announcing, Announcing | Awaiting, Awaiting | CleaningUp, CleaningUp | ShuttingDown _, ShuttingDown _
  | Returned _, Returned _ => true
  | _, _ => false
  end.
(** The pid file is gone, or its removal failed. *)
Definition released (s : state) : bool := negb (pidFile s) || warned s.
(** By the state of the handler: where the main goroutine may be, and what the
    channels hold. *)
Definition consistent (s : state) : bool :=
  let at_ p := same_phase (main s) p in
  let w := waitingForSignal s in let r := signalReceived s in
  let gone := if exited s is Some _ then true else false in
  match handler s with
  | Off => (at_ Initializing || at_ (Returned true)) && negb w && negb r && negb (sigs s)
  | Listening | Selecting =>
      negb (at_ Initializing) && negb (at_ CleaningUp) && negb r && Bool.eqb w (at_ Awaiting)
      && (if at_ (Returned true) then released s else negb gone)
  | Sending => at_ Awaiting && negb w && negb r && negb gone
  | Stopping => negb (at_ Initializing) && negb (at_ CleaningUp) && negb r && Bool.eqb w (at_ Awaiting)
      && (if at_ (Returned true) then released s else negb gone)
  | Exiting => negb (at_ Initializing) && negb (at_ CleaningUp) && negb r && Bool.eqb w (at_ Awaiting)
      && released s
  | Ended => negb w && Bool.eqb r (at_ Awaiting)
      && (r || at_ CleaningUp || at_ (ShuttingDown true) || at_ (Returned true))
      && match main s with
         | ShuttingDown true | Returned true => negb (configured s)
         | _ => if exited s is Some 0 then false else true
         end
      && (if at_ (Returned true) then released s else negb gone)
  end.
Ltac daemon_step := match goal with
  | H : main_step _ _ |- _ => inversion H; subst; clear H
  | H : handler_step _ _ |- _ => inversion H; subst; clear H
  end.
Lemma reachable_consistent s : reachable s -> consistent s = true.
Proof using Type.
  induction 1 as [|s s' _ IH Hs]; [done|].
  destruct s as [m h sg w r p c e wn].
  destruct Hs as [[He Hstep]|(He & Hh & ->)]; cbn in He; subst e; [|by destruct h].
  destruct Hstep; daemon_step; cbn in *; subst; unfold after_setup;
    try (destruct noDaemon, enableNRI); try (destruct h); try (destruct w); try (destruct r);
    try (destruct p); try (destruct c);
    try discriminate; try done; try (destruct ok); try discriminate; try done; destruct m as [| | | | | | |[]|[]]; done.
Qed.

(** *** Termination *)

Definition main_rank (p : phase) : nat :=
  match p with
  | Initializing => 8 | Installing => 7 | SettingUp => 6 | StartingNRI => 5 | Announcing => 4
  | Awaiting => 3 | CleaningUp => 2 | ShuttingDown _ => 1 | Returned _ => 0
  end.
Definition handler_rank (h : handler_state) : nat :=
  match h with
  | Off | Listening => 4 | Selecting => 3 | Sending | Stopping => 2 | Exiting => 1 | Ended => 0
  end.
Definition remaining (s : state) : nat :=
  if exited s is Some _ then 0 else S (main_rank (main s) + handler_rank (handler s)).
Lemma remaining_bound s : (remaining s <= 13)%nat.
Proof using Type. destruct s as [[] [] ? ? ? ? ? [] ?]; cbn; lia. Qed.
Lemma internal_decreases s s' : reachable s -> internal s s' -> (remaining s' < remaining s)%nat.
Proof using Type.
  intros Hr%reachable_consistent [He Hs]. destruct s as [m h sg w r p c e wn]. cbn in He. subst e.
  destruct Hs; daemon_step; cbn in *; subst; unfold remaining, after_setup; cbn;
    try (destruct noDaemon, enableNRI; cbn); try lia; destruct h, w, r; try done; cbn; lia.
Qed.
Lemma execution_bounded n s s' : execution n s s' -> reachable s -> reachable s' /\ (n + remaining s' <= remaining s)%nat.
Proof using Type.
  induction 1 as [s|n s1 s2 s3 H12 _ IH|n s1 s2 s3 H12 _ IH]; intros Hr; [split; [done|lia]|..].
  - destruct IH as [? ?]; [by apply (reachable_step s1); [|left]|].
    pose proof (internal_decreases s1 s2 Hr H12). split; [done|lia].
  - destruct IH as [? ?]; [by apply (reachable_step s1); [|right]|]. split; [done|].
    destruct H12 as (He & _ & ->). destruct s1. cbn in *. by subst.
Qed.

(** *** Progress *)

(** A signal has arrived. *)
Definition signalled (s : state) : bool :=
  sigs s || match handler s with Off | Listening => false | _ => true end.
Lemma progress s : reachable s -> exited s = None -> signalled s = true -> exists s', internal s s'.
Proof using Type.
  intros Hr%reachable_consistent He Hs.
  assert (Hm : (exists s', main_step s s') \/ main s = Announcing \/ main s = Awaiting).
  { destruct (main s) eqn:E; try (by right; left); try (by right; right); left; eexists;
      eauto using main_step. }
  destruct Hm as [[s' ?]|Hm]; [by exists s'; split; [|left]|].
  assert (Hh : exists s', main_step s s' \/ handler_step s s'); [|destruct Hh as [s' ?]; by exists s'].
  destruct s as [m h sg w r p c e wn]. cbn in *. subst e. destruct Hm; subst m;
    destruct h, sg, w, r; try done; eauto using main_step, handler_step.
  Unshelve. all: exact false.
Qed.
Lemma internal_signalled s s' : internal s s' -> reachable s -> signalled s = true -> signalled s' = true.
Proof using Type.
  intros [He Hs] Hr%reachable_consistent Hg. destruct s as [m h sg w r p c e wn]. cbn in He. subst e.
  destruct Hs; daemon_step; cbn in *; subst; unfold signalled in *; cbn in *; try done;
    destruct sg; try done; by destruct h, w, r.
Qed.
Lemma execution_signalled n s s' : execution n s s' -> reachable s -> signalled s = true -> signalled s' = true.
Proof using Type.
  induction 1 as [s|n s1 s2 s3 H12 _ IH|n s1 s2 s3 H12 _ IH]; intros Hr Hs; [done|..].
  - apply IH; [by apply (reachable_step s1); [|left]|by apply (internal_signalled s1)].
  - apply IH; [by apply (reachable_step s1); [|right]|by destruct H12 as (_ & _ & ->)].
Qed.

(** *** What the process leaves behind *)

(** C7. Once a signal has arrived the installer ends: however the scheduler
    interleaves [Run] with the goroutine for signals, whatever fails and
    however many further signals arrive, at most 13 steps remain, until the
    process has exited there is a step to take, and once it has exited its
    pid file is gone, unless the installer warned that it could not remove it. *)
Theorem signal_ends (n : nat) (s s' : state) (Hr : reachable s) (Hs : signalled s = true)
    (He : execution n s s') :
  (n <= 13)%nat /\ (exited s' = None -> exists s'', internal s' s'') /\ 
  (exited s' <> None -> warned s' = false -> pidFile s' = false).
Proof using Type.
  destruct (execution_bounded n s s' He Hr) as [Hr' Hn]. pose proof (remaining_bound s).
  pose proof (execution_signalled n s s' He Hr Hs) as Hs'. split; [lia|]. split.
  - intros E. by apply progress.
  - apply reachable_consistent in Hr'. destruct s' as [m h sg w r p c e wn]. cbn. intros ? ->.
    destruct e; [|done]. destruct h, m as [| | | | | | |[]|[]], p, w, r, sg, c; try done; by destruct z.
Qed.

(** C8. A daemon that was told to stop while it was waiting undoes what it has
    set up: if the process has exited with code 0 and the signal was handed to
    [Run], then the engine is no longer configured. *)
Theorem clean_exit_unconfigures (s : state) (Hr : reachable s) (He : exited s = Some 0)
    (Hh : handler s = Ended) : configured s = false.
Proof using Type.
  apply reachable_consistent in Hr. destruct s as [m h sg w r p c e wn]. cbn in He, Hh. subst e h. cbn in Hr.
  destruct m as [| | | | | | |[]|[]], w, r, p, c; done.
Qed.
End Daemon.

(** *** Runs *)

Lemma step_back s s' : main_step false false s s' \/ handler_step s s' -> exited s = None ->
  reachable false false s -> reachable false false s'.
Proof. intros Hs He Hr. apply (reachable_step _ _ s); [done|]. by left. Qed.
Ltac back rule st :=
  apply (step_back st); [first [left; by apply (rule st)|right; by apply (rule st)|left; by apply (rule st true)]|done|].


(** A signal between setup and the wait. *)
Definition set_up : state := mkState Announcing Listening false false false true true None false.
Lemma set_up_reachable : reachable false false set_up.
Proof.
  back (setup_ok false false) (mkState SettingUp Listening false false false true false None false).
  back (install_ok false false) (mkState Installing Listening false false false true false None false).
  back (initialize_ok false false) initial.
  constructor.
Qed.
Definition told : state := mkState Announcing Listening true false false true true None false.
Definition selecting : state := mkState Announcing Selecting false false false true true None false.
Lemma told_execution : execution false false 1 told selecting.
Proof. eapply execution_internal; [|constructor]. split; [done|]. right. by apply (take_signal told). Qed.
Lemma told_reachable : reachable false false told.
Proof. eapply reachable_step; [apply set_up_reachable|]. by right. Qed.
Lemma signal_ends_witness : exists s'', internal false false selecting s''.
Proof.
  refine (proj1 (proj2 (signal_ends false false 1 told selecting told_reachable eq_refl told_execution)) eq_refl).
Defined.
(** The goroutine finds nobody waiting, removes the pid file and exits with 0:
    the engine stays configured. *)
Lemma early_signal_leaves_configured :
  exists s, reachable false false s /\ exited s = Some 0 /\ configured s = true.
Proof.
  exists (mkState Announcing Exiting false false false false true (Some 0) false). split; [|done].
  back handler_exits (mkState Announcing Exiting false false false false true None false).
  back handler_shutdown (mkState Announcing Stopping false false false true true None false).
  back not_waiting selecting.
  eapply reachable_step; [apply told_reachable|]. left. split; [done|]. right. by apply (take_signal told).
Qed.
Lemma orderly_reachable : reachable false false (mkState (Returned true) Ended false false false false false (Some 0) false).
Proof.
  back (main_exits false false) (mkState (Returned true) Ended false false false false false None false).
  back (shutdown false false) (mkState (ShuttingDown true) Ended false false false true false None false).
  back (cleanup_ok false false) (mkState CleaningUp Ended false false false true true None false).
  back (receive false false) (mkState Awaiting Ended false false true true true None false).
  back send (mkState Awaiting Sending false false false true true None false).
  back take_waiting (mkState Awaiting Selecting false true false true true None false).
  back take_signal (mkState Awaiting Listening true true false true true None false).
  apply (reachable_step _ _ (mkState Awaiting Listening false true false true true None false)); [|by right].
  back (announce false false) set_up.
  apply set_up_reachable.
Qed.
Lemma clean_exit_unconfigures_witness : configured (mkState (Returned true) Ended false false false false false (Some 0) false) = false.
Proof. exact (clean_exit_unconfigures false false _ orderly_reachable eq_refl eq_refl). Defined.
