(* ===== verification/ToolkitInstaller.v ===== *)
(** * Installing the components of the toolkit (src/cmd/nvidia-ctk-installer/toolkit/installer)

    Which libraries and executables are located, what is copied, and the
    wrapper scripts that take the place of the executables. A file is copied
    as it is on the file system: emptied first, then filled, then its mode is
    set. *)
From S2P Require Import Prelude GoStrings GoPaths Lookup FileSystem OsFiles Toml InstallerRuntimes.

(** ** The host of a file system

    The calls of the locators on a file system; relative paths start at the
    root. *)
Definition info_of (n : node) : file_info :=
  match n with
  | DirNode m => mkFileInfo true false false (Z.land m 511)
  | FileNode _ m => mkFileInfo false false false (Z.land m 511)
  | LinkNode _ => mkFileInfo false true false 511
  | DeviceNode _ _ m => mkFileInfo false false true (Z.land m 511)
  end.
Definition to_option {E A} (r : E + A) : option A := match r with inl _ => None | inr a => Some a end.
Definition fs_host (env : string -> option string) (f : fs) : Host := {|
  os_Stat := fun p => info_of <$> to_option (sys_Stat f p);
  os_Lstat := fun p => info_of <$> to_option (sys_Lstat f p);
  os_Readlink := fun p => to_option (sys_Readlink f p);
  EvalSymlinks := fun p => (fun x => abs_path x.1) <$> to_option (existing f true p);
  filepath_Glob := fun p => ok_or [] (fs_Glob f p);
  filepath_Abs := fun p => Some (if is_abs p then clean p else path_join ["/"; p]);
  os_LookupEnv := env;
|}.

(** [os.RemoveAll]: it is no error if there is nothing to remove. *)
Definition remove_tree (p : list string) (f : fs) : fs := filter (fun kn => ~ p `prefix_of` kn.1) f.
Definition sys_RemoveAll (path : string) (f : fs) : (errno + unit) * fs :=
  if String.eqb path "" then (inr tt, f)
  else match existing f false path with
       | inl ENOENT => (inr tt, f)
       | inl e => (inl e, f)
       | inr ([], _) => (inl EBUSY, ∅)
       | inr (p, _) => (inr tt, remove_tree p f)
       end.

(** ** [installer.go] *)

(** The outcome of an installation step: an error, if any, and the files. *)
Abbreviation step := (option string * fs)%type.

Definition installSymlink (target link : string) (f : fs) : step :=
  match sys_Symlink target link f with
  | inl e => (Some ("error creating symlink '" +:+ link +:+ "' => '" +:+ target +:+ "': symlink " +:+ target +:+ " " +:+ link
                    +:+ ": " +:+ errno_text e), f)
  | inr f => (None, f)
  end.
(** [os.Create] and [os.Chmod] around the copy of the content, which is read
    from the files when the destination has been created. *)
Definition installContent (content : fs -> result string) (dest : string) (mode : Z) (f : fs) : step :=
  match sys_write_file "" dest f with
  | inl e => (Some ("error creating destination: " +:+ path_error "open" dest e), f)
  | inr f =>
      match content f with
      | Err e => (Some ("error copying file: " +:+ e), f)
      | Ok text =>
          match sys_write_file text dest f with
          | inl e => (Some ("error copying file: " +:+ path_error "write" dest e), f)
          | inr f =>
              match sys_Chmod mode dest f with
              | inl e => (Some ("error setting mode for '" +:+ dest +:+ "': " +:+ path_error "chmod" dest e), f)
              | inr f => (None, f)
              end
          end
      end
  end.
(** Reading from an open file: what its node holds now. *)
Definition node_mode (n : node) : Z := match n with DirNode m | FileNode _ m | DeviceNode _ _ m => m | LinkNode _ => 511 end.
Definition read_open (src : string) (p : list string) (f : fs) : result string :=
  match node_at f p with
  | Some (DirNode _) => Err (path_error "read" src EISDIR)
  | Some n => Ok (node_content n)
  | None => Ok ""
  end.
(** The mode of the source and the outcome. *)
Definition installFile (src dest : string) (f : fs) : Z * step :=
  match existing f true src with
  | inl e => (0%Z, (Some ("error getting file info for '" +:+ src +:+ "': " +:+ path_error "stat" src e), f))
  | inr (p, n) =>
      let '(e, f) := installContent (read_open src p) dest (node_mode n) f in
      (if e is Some _ then 0%Z else node_mode n, (e, f))
  end.

(** ** [artifact-root.go] *)

Record artifactRoot := mkArtifactRoot { path : string; libraries : Locator; executables : Locator }.
Definition librarySearchPaths (root : string) : list string :=
  map (fun l => path_join [root; l]) ["/usr/lib64"; "/usr/lib/x86_64-linux-gnu"; "/usr/lib/aarch64-linux-gnu"].
(** With search paths the library locator does not use the cache of the
    linker. *)
Definition newArtifactRoot `{Host} (rootDirectoryPath : string) : artifactRoot :=
  mkArtifactRoot rootDirectoryPath
    (NewLibraryLocator (fun _ => None) (fun _ => None) [WithCount 1; WithSearchPaths (librarySearchPaths rootDirectoryPath)])
    (NewExecutableLocator rootDirectoryPath).
Definition first_candidate (kind name : string) (l : located) : result string :=
  match l with
  | Failed e => Err ("error locating " +:+ kind +:+ ": " +:+ msg e)
  | Found [] => Err (kind +:+ " " +:+ name +:+ " not found")
  | Found (c :: _) => Ok c
  end.
Definition findLibrary (r : artifactRoot) (name : string) : result string := first_candidate "library" name (libraries r name).
Definition findExecutable (r : artifactRoot) (name : string) : result string := first_candidate "executable" name (executables r name).

(** ** Wrapper scripts (executables.go) *)

Record wrapper := mkWrapper {
  Source : string; Envvars : gmap string string; WrappedExecutable : string; CheckModules : bool;
  DefaultRuntimeExecutablePath : string;
}.

(** The template is one of html/template: its texts are always in the context
    of HTML text, so that a value is escaped as such. *)
Definition html_escape_char (c : ascii) : string :=
  if Ascii.eqb c "000" then String "239" (String "191" (String "189" ""))
  else if Ascii.eqb c dquote then "&#34;" else if Ascii.eqb c "&" then "&amp;" else if Ascii.eqb c "'" then "&#39;"
  else if Ascii.eqb c "+" then "&#43;" else if Ascii.eqb c "<" then "&lt;" else if Ascii.eqb c ">" then "&gt;"
  else String c "".
Fixpoint html_escape (s : string) : string :=
  match s with
  | "" => ""
  | String c s => html_escape_char c +:+ html_escape s
  end.

Definition tab : string := String "009" "".
Definition quoted (s : string) : string := String dquote s +:+ String dquote "".
Definition lines (ls : list string) : string := join "" (map (fun l => l +:+ newline) ls).
(** The lines of the script, for an escaping of the values. [range] visits the
    keys of a map in order. *)
Definition script_with (esc : string -> string) (w : wrapper) (DestDir : string) : string :=
  let runtime := esc (DefaultRuntimeExecutablePath w) in
  lines (
    ["#! /bin/sh"] ++
    (if CheckModules w then
       ["cat /proc/modules | grep -e " +:+ quoted "^nvidia " +:+ " >/dev/null 2>&1";
        "if [ " +:+ quoted "${?}" +:+ " != " +:+ quoted "0" +:+ " ]; then";
        tab +:+ "echo " +:+ quoted ("nvidia driver modules are not yet loaded, invoking " +:+ runtime +:+ " directly") +:+ " >&2";
        tab +:+ "exec " +:+ runtime +:+ " " +:+ quoted "$@";
        "fi"]
     else []) ++
    map (fun k => esc k +:+ "=" +:+ esc (default "" (Envvars w !! k)) +:+ " \") (sort_strings (map fst (map_to_list (Envvars w)))) ++
    [tab +:+ esc DestDir +:+ "/" +:+ esc (WrappedExecutable w) +:+ " \";
     tab +:+ tab +:+ quoted "$@"]).
Definition render (w : wrapper) (DestDir : string) : string := script_with html_escape w DestDir.

(** ** The installers *)

Inductive Installer : Type :=
| CreateDirectory
| Library (path : string)
| Wrapper (w : wrapper)
| Symlink (linkname target : string).

Definition Install (i : Installer) (destDir : string) (f : fs) : step :=
  match i with
  | CreateDirectory =>
      if String.eqb destDir "" then (None, f)
      else match sys_MkdirAll 493 destDir f with
           | (inl e, f) => (Some ("error creating directory: " +:+ path_error "mkdir" destDir e), f)
           | (inr _, f) => (None, f)
           end
  | Library l => (installFile l (path_join [destDir; path_base l]) f).2
  | Wrapper w =>
      let '(mode, (e, f)) := installFile (Source w) (path_join [destDir; WrappedExecutable w]) f in
      match e with
      | Some e => (Some e, f)
      | None => installContent (fun _ => Ok (render w destDir)) (path_join [destDir; path_base (Source w)]) (Z.lor mode 73) f
      end
  | Symlink linkname target => installSymlink target (path_join [destDir; linkname]) f
  end.

Record ToolkitInstaller := mkInstaller {
  ignoreErrors : bool; artifact_root : artifactRoot; defaultRuntimeExecutablePath : string;
}.
(** [New]: the source root is the root by default. *)
Definition New `{Host} (sourceRoot : option string) (ignore : bool) (runtime : string) : ToolkitInstaller :=
  mkInstaller ignore (newArtifactRoot (default "/" sourceRoot)) runtime.

(** [libraries.go] *)
Definition requiredLibraries : list string := ["libnvidia-container.so.1"; "libnvidia-container-go.so.1"].
Fixpoint collect {A} (t : ToolkitInstaller) (find : A -> result string) (make : A -> string -> list Installer) (l : list A) : result (list Installer) :=
  match l with
  | [] => Ok []
  | x :: l =>
      match find x with
      | Err e => if ignoreErrors t then collect t find make l else Err e
      | Ok p => let? rest := collect t find make l in Ok (make x p ++ rest)
      end
  end.
Definition library_installers (l libraryPath : string) : list Installer :=
  Library libraryPath :: (if String.eqb (path_base libraryPath) l then [] else [Symlink l (path_base libraryPath)]).
Definition collectLibraries (t : ToolkitInstaller) : result (list Installer) :=
  collect t (findLibrary (artifact_root t)) library_installers requiredLibraries.

Record executable := mkExecutable {
  requiresKernelModule : bool; exe_path : string; symlink : string; env : gmap string string;
}.
Definition FilePathOverrideEnvVar : string := "NVIDIA_CTK_CONFIG_FILE_PATH".
(** The runtimes are visited in the order of a map. *)
Definition executables_of `{MapRange} (destDir : string) : list executable :=
  let configFilePath := path_join [destDir; ".config"; "nvidia-container-runtime"; "config.toml"] in
  let config_env : gmap string string := {[FilePathOverrideEnvVar := configFilePath]} in
  [mkExecutable false "nvidia-ctk" "" ∅; mkExecutable false "nvidia-cdi-hook" "" ∅] ++
  map (fun kr => mkExecutable true (operator.Path kr.2) "" config_env) (range (operator.GetRuntimes (operator.mkConfig "" "" false))) ++
  [mkExecutable false "nvidia-container-cli" "" {["LD_LIBRARY_PATH" := destDir +:+ ":$LD_LIBRARY_PATH"]};
   mkExecutable false "nvidia-container-runtime-hook" "nvidia-container-toolkit" config_env].
Definition executable_installers (t : ToolkitInstaller) (destDir : string) (e : executable) (executablePath : string) : list Installer :=
  let filename := path_base executablePath in
  Wrapper (mkWrapper executablePath (env e ∪ {["PATH" := destDir +:+ ":$PATH"]}) (filename +:+ ".real") (requiresKernelModule e)
             (if Nat.ltb 0 (String.length (defaultRuntimeExecutablePath t)) then defaultRuntimeExecutablePath t else "runc"))
  :: (if String.eqb (symlink e) "" then [] else [Symlink (symlink e) filename]).
Definition collectExecutables `{MapRange} (t : ToolkitInstaller) (destDir : string) : result (list Installer) :=
  collect t (fun e => findExecutable (artifact_root t) (exe_path e)) (executable_installers t destDir) (executables_of destDir).

(** Every installer runs, and the errors are joined. *)
Fixpoint install_all (todo : list Installer) (destDir : string) (errs : option string) (f : fs) : step :=
  match todo with
  | [] => (errs, f)
  | i :: todo =>
      let '(e, f) := Install i destDir f in
      install_all todo destDir (match e with None => errs | Some e => join_error errs e end) f
  end.
Definition toolkit_Install `{MapRange} (t : ToolkitInstaller) (destDir : string) (f : fs) : step :=
  match collectLibraries t with
  | Err e => (Some ("failed to collect libraries: " +:+ e), f)
  | Ok ls =>
      match collectExecutables t destDir with
      | Err e => (Some ("failed to collect executables: " +:+ e), f)
      | Ok es => install_all (CreateDirectory :: ls ++ es) destDir None f
      end
  end.

Example script_ex : render (mkWrapper "" {["PATH" := "/foo/bar/baz"]} "some-runtime" true "runc") "/dest-dir" = lines
  ["#! /bin/sh"; "cat /proc/modules | grep -e " +:+ quoted "^nvidia " +:+ " >/dev/null 2>&1";
   "if [ " +:+ quoted "${?}" +:+ " != " +:+ quoted "0" +:+ " ]; then";
   tab +:+ "echo " +:+ quoted "nvidia driver modules are not yet loaded, invoking runc directly" +:+ " >&2";
   tab +:+ "exec runc " +:+ quoted "$@"; "fi"; "PATH=/foo/bar/baz \"; tab +:+ "/dest-dir/some-runtime \"; tab +:+ tab +:+ quoted "$@"].
Proof. vm_compute. reflexivity. Qed.
