(* ===== verification/ToolkitInstallerProps.v ===== *)
(** * Properties of the installation of the toolkit

    What the installed directory holds, and the wrapper scripts. *)
From S2P Require Import Prelude GoStrings GoPaths Lookup LookupProps FileSystem OsFiles Toml InstallerRuntimes ToolkitInstaller.

(** ** Installing into a directory *)

Section Into.
Context (cs : list string) (Hcs : Forall proper cs).
Local Abbreviation D := (abs_path cs).
Local Abbreviation child n := (cs ++ [n]).

(** The target directory is there, without links on its path. *)
Definition ready (f : fs) : Prop := well_formed f /\ no_link f cs /\ exists m, node_at f cs = Some (DirNode m).

Lemma join_child n : proper n -> path_join [D; n] = abs_path (child n).
Proof using Hcs.
  intros Hn. assert (Hs : split_byte slash n = [n]) by by apply split_byte_free_id, Hn.
  rewrite path_join_abs; rewrite ?Hs; [|done|by constructor; [right|]]. f_equal. f_equal. apply filter_proper. by apply Forall_singleton.
Qed.
Lemma child_proper n : proper n -> Forall proper (child n).
Proof using Hcs. intros. apply Forall_app. split; [done|]. by apply Forall_singleton. Qed.
Lemma ready_insert f n x : ready f -> f !! child n = None -> ready (<[child n := x]> f).
Proof using Type.
  clear Hcs. intros (Hwf & Hl & m & Hm) Hn.
  assert (Hcn : forall q, q `prefix_of` cs -> q <> child n).
  { intros q Hq ->. apply prefix_length in Hq. rewrite length_app in Hq. simpl in Hq. lia. }
  assert (Hm' : node_at (<[child n := x]> f) cs = Some (DirNode m)).
  { destruct (decide (cs = [])) as [E|E]; [by rewrite E in *|]. rewrite node_at_ne in * by done.
    rewrite lookup_insert_ne; [done|]. intros Hc. symmetry in Hc. by apply (Hcn cs) in Hc. }
  split; [|split; [|by exists m]].
  - apply well_formed_insert; [done|apply snoc_ne|done|]. intros c q [-> ->]%app_inj_tail. by exists m.
  - intros q Hq t. rewrite lookup_insert_ne by (symmetry; by apply Hcn). by apply Hl.
Qed.
Lemma resolve_ready f b n : ready f -> proper n -> (forall t, f !! child n <> Some (LinkNode t)) ->
  resolve f b (abs_path (child n)) = inr (child n).
Proof using Hcs. intros (Hwf & Hl & m & Hm) Hn Ht. eapply resolve_child; [done|by apply child_proper|done|done|done]. Qed.
Lemma write_new f n text : ready f -> proper n -> f !! child n = None ->
  sys_write_file text (abs_path (child n)) f = inr (<[child n := FileNode text 438]> f).
Proof using Hcs.
  intros Hr Hn Hnew. unfold sys_write_file. rewrite resolve_ready by (done || by rewrite Hnew).
  rewrite node_at_ne by apply snoc_ne. by rewrite Hnew.
Qed.
Lemma write_again f n old mode text : ready f -> proper n -> f !! child n = Some (FileNode old mode) ->
  sys_write_file text (abs_path (child n)) f = inr (<[child n := FileNode text mode]> f).
Proof using Hcs.
  intros Hr Hn Hold. unfold sys_write_file. rewrite resolve_ready by (done || by rewrite Hold).
  rewrite node_at_ne by apply snoc_ne. by rewrite Hold.
Qed.
Lemma chmod_child f n old mode mode' : ready f -> proper n -> f !! child n = Some (FileNode old mode) ->
  sys_Chmod mode' (abs_path (child n)) f = inr (<[child n := FileNode old mode']> f).
Proof using Hcs.
  intros Hr Hn Hold. unfold sys_Chmod, existing. rewrite resolve_ready by (done || by rewrite Hold).
  rewrite node_at_ne by apply snoc_ne. rewrite Hold. destruct (child n) eqn:E; [by destruct cs|done].
Qed.

Lemma installContent_new content n mode f text : ready f -> proper n -> f !! child n = None ->
  content (<[child n := FileNode "" 438]> f) = Ok text ->
  installContent content (path_join [D; n]) mode f = (None, <[child n := FileNode text mode]> f).
Proof using Hcs.
  intros Hr Hn Hnew Hc. unfold installContent. rewrite join_child, write_new by done. rewrite Hc.
  pose proof (ready_insert f n (FileNode "" 438) Hr Hnew) as Hr1.
  rewrite (write_again _ n "" 438) by (done || by rewrite lookup_insert_eq). rewrite insert_insert_eq.
  assert (Hr2 : ready (<[child n := FileNode text 438]> f)).
  { by apply ready_insert. }
  rewrite (chmod_child _ n text 438) by (done || by rewrite lookup_insert_eq). by rewrite insert_insert_eq.
Qed.

(** *** What an installer puts there *)

Definition source_node (f : fs) (src : string) : option node :=
  match existing f true src with
  | inr (_, n) => if is_dir_node n then None else Some n
  | inl _ => None
  end.
Definition copy_of (n : node) : node := FileNode (node_content n) (node_mode n).
Definition delivers (f : fs) (i : Installer) : list (string * node) :=
  match i with
  | CreateDirectory => []
  | Library l => match source_node f l with Some n => [(path_base l, copy_of n)] | None => [] end
  | Wrapper w =>
      match source_node f (Source w) with
      | Some n => [(WrappedExecutable w, copy_of n); (path_base (Source w), FileNode (render w D) (Z.lor (node_mode n) 73))]
      | None => []
      end
  | Symlink l t => [(l, LinkNode t)]
  end.
Definition sourced (f : fs) (i : Installer) : Prop :=
  match i with
  | CreateDirectory => False
  | Library l => is_Some (source_node f l)
  | Wrapper w => is_Some (source_node f (Source w))
  | Symlink _ _ => True
  end.
Definition put (f : fs) (l : list (string * node)) : fs := foldl (fun f nx => <[child nx.1 := nx.2]> f) f l.
(** Nothing of that name is there yet. *)
Definition fresh (f : fs) (l : list (string * node)) : Prop :=
  NoDup l.*1 /\ Forall (fun n => proper n /\ f !! child n = None) l.*1.

Lemma fresh_cons f n x l : fresh f ((n, x) :: l) ->
  proper n /\ f !! child n = None /\ fresh (<[child n := x]> f) l.
Proof using Type.
  intros [Hnd Hf]. cbn in *. apply NoDup_cons in Hnd as [Hn Hnd]. apply Forall_cons in Hf as [[Hp Hf1] Hf].
  split; [done|]. split; [done|]. split; [done|]. rewrite Forall_forall in Hf |- *. intros m Hm. destruct (Hf m Hm) as [Hpm Hfm].
  split; [done|]. rewrite lookup_insert_ne; [done|]. by intros [_ ->]%app_inj_tail.
Qed.
Lemma put_installed f l : ready f -> fresh f l ->
  ready (put f l) /\ f ⊆ put f l /\ (forall n x, (n, x) ∈ l -> put f l !! child n = Some x)
  /\ forall q, (forall n, n ∈ l.*1 -> q <> child n) -> put f l !! q = f !! q.
Proof using Type.
  revert f. induction l as [|[n x] l IH]; intros f Hr Hf.
  { split_and!; [done..| |done]. intros n x []%not_elem_of_nil. }
  apply fresh_cons in Hf as (Hp & Hn & Hf). destruct (IH _ (ready_insert f n x Hr Hn) Hf) as (H1 & H2 & H3 & H4).
  change (put f ((n, x) :: l)) with (put (<[child n := x]> f) l). split_and!.
  - done.
  - etrans; [|done]. by apply insert_subseteq.
  - intros m y [[= -> ->]|Hin]%elem_of_cons; [|by apply H3].
    rewrite map_subseteq_spec in H2. apply H2, lookup_insert_eq.
  - intros q Hq. rewrite H4, lookup_insert_ne; [done| |].
    + intros E. apply (Hq n); [by left|done].
    + intros m Hm. apply Hq. by right.
Qed.
Lemma source_node_mono f f' src n : f ⊆ f' -> source_node f src = Some n -> source_node f' src = Some n.
Proof using Type.
  intros Hsub. unfold source_node. destruct (existing f true src) as [|[p x]] eqn:E; [done|].
  by rewrite (existing_mono f f' true src (p, x)).
Qed.
Lemma sourced_mono f f' i : f ⊆ f' -> sourced f i -> sourced f' i /\ delivers f' i = delivers f i.
Proof using Type.
  intros Hsub. destruct i as [|l|w|l t]; cbn; [done| | |done]; intros [n Hn];
    rewrite (source_node_mono f f' _ n Hsub Hn), Hn; (split; [by eexists|done]).
Qed.

Lemma installFile_new f src n x : ready f -> proper n -> f !! child n = None -> source_node f src = Some x ->
  installFile src (path_join [D; n]) f = (node_mode x, (None, <[child n := copy_of x]> f)).
Proof using Hcs.
  intros Hr Hn Hnew. unfold source_node, installFile, existing at 1 2. destruct (resolve f true src) as [|p]; [done|].
  destruct (node_at f p) as [y|] eqn:Hp; [|done]. destruct (is_dir_node y) eqn:Hd; [done|]. intros [= ->].
  rewrite (installContent_new _ n _ f (node_content x)); [done..|]. unfold read_open.
  rewrite (node_at_mono f (<[child n := FileNode "" 438]> f) p x) by (done || by apply insert_subseteq). by destruct x.
Qed.
Lemma Install_new f i : ready f -> sourced f i -> fresh f (delivers f i) -> Install i D f = (None, put f (delivers f i)).
Proof using Hcs.
  intros Hr. destruct i as [|l|w|l t]; cbn [Install sourced delivers]; [done|intros [x Hx]..|intros _].
  - rewrite Hx. intros (Hp & Hn & _)%fresh_cons. by rewrite (installFile_new f l _ x).
  - rewrite Hx. intros (Hp & Hn & (Hp2 & Hn2 & _)%fresh_cons)%fresh_cons. rewrite (installFile_new f _ _ x) by done.
    by rewrite (installContent_new _ _ _ _ (render w D)) by (done || by apply ready_insert).
  - intros (Hp & Hn & _)%fresh_cons. unfold installSymlink, sys_Symlink, sys_create. rewrite join_child, resolve_ready by (done || by rewrite Hn).
    rewrite node_at_ne by apply snoc_ne. by rewrite Hn.
Qed.
Lemma fresh_app f l l' : ready f -> fresh f (l ++ l') -> fresh f l /\ fresh (put f l) l'.
Proof using Type.
  revert f. induction l as [|[n x] l IH]; intros f Hr; [by split; [split; constructor|]|].
  intros (Hp & Hn & Hf)%fresh_cons. destruct (IH _ (ready_insert f n x Hr Hn) Hf) as [H1 H2]. split; [|done].
  destruct H1 as [Hnd Hall]. split.
  - cbn. apply NoDup_cons. split; [|done]. intros Hin. rewrite Forall_forall in Hall. apply Hall in Hin as [_ Hin].
    by rewrite lookup_insert_eq in Hin.
  - cbn. apply Forall_cons. split; [done|]. rewrite Forall_forall in Hall |- *. intros m Hm. destruct (Hall m Hm) as [Hpm Hfm].
    split; [done|]. apply lookup_insert_None in Hfm. by destruct Hfm.
Qed.
Lemma install_all_new f todo : ready f -> Forall (sourced f) todo -> fresh f (concat (map (delivers f) todo)) ->
  install_all todo D None f = (None, put f (concat (map (delivers f) todo))).
Proof using Hcs.
  revert f. induction todo as [|i todo IH]; intros f Hr Hs Hf; [done|]. apply Forall_cons in Hs as [Hi Hs].
  cbn [map concat] in *. destruct (fresh_app _ _ _ Hr Hf) as [Hf1 Hf2]. destruct (put_installed f _ Hr Hf1) as (Hr' & Hsub & _).
  cbn [install_all]. rewrite Install_new by done. set (f1 := put f (delivers f i)) in *.
  assert (Hsame : Forall (sourced f1) todo /\ map (delivers f1) todo = map (delivers f) todo).
  { split; [eapply Forall_impl; [exact Hs|]; intros j Hj; by apply (sourced_mono f)|].
    apply map_ext_Forall. eapply Forall_impl; [exact Hs|]. intros j Hj. by apply sourced_mono. }
  destruct Hsame as [Hs1 Hmap]. rewrite (IH f1 Hr' Hs1); rewrite Hmap; [|done]. unfold put. by rewrite foldl_app.
Qed.
End Into.

(** ** Removing and creating the directory *)

Lemma lookup_remove_tree p f q : remove_tree p f !! q = if decide (p `prefix_of` q) then None else f !! q.
Proof.
  unfold remove_tree. case_decide as Hp.
  - apply map_lookup_filter_None. right. intros x _ Hn. by apply Hn.
  - destruct (f !! q) as [x|] eqn:E; [by apply map_lookup_filter_Some|]. apply map_lookup_filter_None. by left.
Qed.
Lemma remove_tree_ready p f : well_formed f -> p <> [] -> no_link_above f p ->
  well_formed (remove_tree p f) /\ no_link (remove_tree p f) p.
Proof.
  intros [Hroot Hwf] Hp Hl. split; [split|].
  - rewrite lookup_remove_tree. by case_decide.
  - intros q c n. rewrite lookup_remove_tree. case_decide as Hq; [done|]. intros Hn. apply Hwf in Hn as [m Hm]. exists m.
    destruct (decide (q = [])) as [->|Hne]; [done|]. rewrite node_at_ne in * by done. rewrite lookup_remove_tree.
    case_decide as Hpq; [|done]. destruct Hq. etrans; [done|]. by exists [c].
  - intros q Hq t. rewrite lookup_remove_tree. case_decide as Hpq; [done|]. apply Hl; [done|]. by intros ->.
Qed.
Lemma RemoveAll_spec cs f f1 : well_formed f -> Forall proper cs -> cs <> [] -> no_link_above f cs ->
  sys_RemoveAll (abs_path cs) f = (inr tt, f1) -> f1 = remove_tree cs f.
Proof.
  intros Hwf Hcs Hne Hl. unfold sys_RemoveAll. destruct (String.eqb_spec (abs_path cs) "") as [E|_]; [done|].
  assert (Hnone : f !! cs = None -> f = remove_tree cs f).
  { intros Hn. apply map_eq. intros q. rewrite lookup_remove_tree. case_decide as Hq; [|done]. destruct Hq as [r ->].
    destruct (decide (r = [])) as [->|Hr]; [by rewrite app_nil_r|]. destruct (f !! (cs ++ r)) eqn:E; [|done].
    apply (parents_exist f cs r) in E as [m Hm]; [|done..]. rewrite node_at_ne in Hm by done. by rewrite Hn in Hm. }
  unfold existing. destruct (resolve_plain f false cs Hwf Hcs Hl) as [[-> _]|[[-> | ->] Hn]].
  - rewrite node_at_ne by done. destruct (f !! cs) eqn:E; [|intros [= <-]; by apply Hnone]. destruct cs; [done|]. by intros [= <-].
  - intros [= <-]. by apply Hnone.
  - done.
Qed.
Lemma Stat_missing cs f c : Forall proper cs -> ready cs f -> proper c -> f !! (cs ++ [c]) = None ->
  sys_Stat f (abs_path (cs ++ [c])) = inl ENOENT.
Proof.
  intros Hcs Hr Hc Hn. unfold sys_Stat, existing. rewrite (resolve_ready cs Hcs) by (done || by rewrite Hn).
  rewrite node_at_ne by apply snoc_ne. by rewrite Hn.
Qed.
Lemma Mkdir_missing cs f c mode : Forall proper cs -> ready cs f -> proper c -> f !! (cs ++ [c]) = None ->
  sys_Mkdir mode (abs_path (cs ++ [c])) f = inr (<[cs ++ [c] := DirNode mode]> f).
Proof.
  intros Hcs Hr Hc Hn. unfold sys_Mkdir, sys_create. rewrite (resolve_ready cs Hcs) by (done || by rewrite Hn).
  rewrite node_at_ne by apply snoc_ne. by rewrite Hn.
Qed.
Lemma mkdir_all_snoc mode cs c f : mkdir_all mode (rev (cs ++ [c])) f =
  match sys_Stat f (abs_path (cs ++ [c])) with
  | inr n => ((if is_dir_node n then inr tt else inl ENOTDIR), f)
  | inl _ =>
      match mkdir_all mode (rev cs) f with
      | (inl e, f) => (inl e, f)
      | (inr _, f) =>
          match sys_Mkdir mode (abs_path (cs ++ [c])) f with
          | inr f => (inr tt, f)
          | inl e => match sys_Lstat f (abs_path (cs ++ [c])) with
                     | inr n => if is_dir_node n then (inr tt, f) else (inl e, f)
                     | inl _ => (inl e, f)
                     end
          end
      end
  end.
Proof.
  rewrite rev_app_distr. cbn [rev app].
  assert (E : rev (c :: rev cs) = cs ++ [c]) by (cbn [rev]; by rewrite rev_involutive). rewrite <- E. reflexivity.
Qed.
#[local] Opaque mkdir_all sys_Stat sys_Mkdir sys_Lstat.
(** [MkdirAll] changes nothing but the path and the directories above it. *)
Lemma mkdir_all_frame mode cs f r f' : well_formed f -> Forall proper cs -> no_link f cs ->
  mkdir_all mode (rev cs) f = (r, f') -> forall q, ~ q `prefix_of` cs -> f' !! q = f !! q.
Proof.
  intros Hwf Hcs. revert r f'. induction cs as [|c cs IH] using rev_ind; intros r f' Hl Hm q Hq.
  - rewrite (mkdir_all_exists mode [] f (DirNode 493)) in Hm by done. by injection Hm as _ <-.
  - apply Forall_app in Hcs as Hcs'. destruct Hcs' as [Hcs' _].
    assert (Hl' : no_link f cs) by (eapply no_link_prefix; [|done]; by exists [c]).
    assert (Hq' : ~ q `prefix_of` cs) by (intros Hqc; apply Hq; etrans; [done|]; by exists [c]).
    rewrite mkdir_all_snoc in Hm.
    destruct (sys_Stat f (abs_path (cs ++ [c]))) eqn:Es; [|by injection Hm as _ <-].
    destruct (mkdir_all mode (rev cs) f) as [r1 f1] eqn:Hm1. pose proof (IH Hcs' r1 f1 Hl' eq_refl q Hq') as Hf1.
    destruct r1 as [e1|[]]; [by injection Hm as _ <-|].
    destruct (mkdir_all_plain mode [] cs f (inr tt) f1 Hwf Hcs') as (Hwf1 & _ & Ha & _); [by intros q' Hq''%prefix_nil_inv|done..|].
    assert (Hl1 : no_link f1 (cs ++ [c])).
    { eapply adds_dirs_no_link; [exact Ha|done]. }
    destruct (mkdir_last mode (cs ++ [c]) f1 r f' Hwf1 Hcs Hl1 Hm) as (_ & [->|[_ ->]] & _); [done|].
    rewrite lookup_insert_ne; [done|]. intros <-. by apply Hq.
Qed.
(** A directory in a directory that is there. *)
Lemma mkdir_child cs f c : Forall proper (cs ++ [c]) -> ready cs f -> f !! (cs ++ [c]) = None ->
  mkdir_all 493 (rev (cs ++ [c])) f = (inr tt, <[cs ++ [c] := DirNode 493]> f) /\ ready (cs ++ [c]) (<[cs ++ [c] := DirNode 493]> f).
Proof.
  intros Hp Hr Hn. pose proof Hr as (Hwf & Hl & m & Hm). apply Forall_app in Hp as Hp'. destruct Hp' as [Hcs Hc]. rewrite Forall_singleton in Hc.
  split.
  - rewrite mkdir_all_snoc.
    assert (Hl' : forall t, f !! (cs ++ [c]) <> Some (LinkNode t)) by (intros t; by rewrite Hn).
    rewrite (Stat_missing cs f c) by done. rewrite (mkdir_all_exists 493 cs f _ Hwf Hcs Hl Hm). cbn [is_dir_node].
    by rewrite (Mkdir_missing cs f c).
  - destruct (ready_insert cs f c (DirNode 493) Hr Hn) as (Hwf' & Hl' & _). split; [done|]. split.
    + apply no_link_snoc; [done|]. intros t. by rewrite lookup_insert_eq.
    + exists 493%Z. rewrite node_at_ne by apply snoc_ne. by rewrite lookup_insert_eq.
Qed.

#[local] Transparent mkdir_all sys_Stat sys_Mkdir sys_Lstat.

(** ** The artifacts that are located *)

#[local] Opaque existing.

Section Located.
Context (env : string -> option string) (f : fs) (Hwf : well_formed f).
Local Instance host : Host := fs_host env f.

Lemma file_source c : assertFile c = true -> exists p n, existing f true c = inr (p, n) /\ source_node f c = Some n.
Proof using Type.
  unfold assertFile, source_node. cbn. unfold sys_Stat. destruct (existing f true c) as [|[p n]]; [done|]. cbn. intros Hd.
  exists p, n. split; [done|]. by destruct n.
Qed.
Lemma EvalSymlinks_existing c t : EvalSymlinks c = Some t -> exists p n, existing f true c = inr (p, n) /\ t = abs_path p.
Proof using Type.
  cbn [EvalSymlinks host fs_host]. destruct (existing f true c) as [|[p n]]; cbn [to_option fmap option_fmap option_map fst]; [done|].
  intros [= <-]. by exists p, n.
Qed.
Lemma NewFileLocator_passes opts pattern l c : NewFileLocator opts pattern = Found l -> c ∈ l ->
  default assertFile (filter_ (NewFactory opts)) c = true.
Proof using Type.
  rewrite NewFileLocator_first_matches. cbv zeta. set (all := List.filter _ _). intros Hl Hc.
  assert (c ∈ all) as Hin.
  { destruct (limit _ all) eqn:E; [done|]. injection Hl as <-. rewrite <- E in Hc. unfold limit in Hc.
    destruct (count _); [done|]. by eapply elem_of_take in Hc as (i & Hi%list_elem_of_lookup_2 & _). }
  apply list_elem_of_In, filter_In in Hin. tauto.
Qed.
Lemma eval_all_found cs ts l t : eval_all cs ts = Found l -> t ∈ l -> t ∈ ts \/ exists c, c ∈ cs /\ EvalSymlinks c = Some t.
Proof using Type.
  revert ts. induction cs as [|c cs IH]; intros ts; cbn [eval_all]; [intros [= ->]; by left|].
  destruct (EvalSymlinks c) as [u|] eqn:E; [|done]. intros Hl Ht.
  destruct (IH _ Hl Ht) as [[Hin|Hu]%elem_of_app|(d & Hd & He)]; [by left|apply list_elem_of_singleton in Hu as ->|].
  - right. exists c. split; [by left|done].
  - right. exists d. split; [by right|done].
Qed.
Lemma symlink_source opts pattern l c : filter_ (NewFactory opts) = Some assertFile -> NewSymlinkLocator opts pattern = Found l -> c ∈ l -> is_Some (source_node f c).
Proof using Hwf.
  intros Hopts. unfold NewSymlinkLocator, AsUnique, WithEvaluatedSymlinks.
  destruct (NewFileLocator _ pattern) as [found|] eqn:E; [|done]. destruct (eval_all found []) as [ts|] eqn:He; [|done].
  intros [= <-] Hc%dedup_by_sub. destruct (eval_all_found _ _ _ _ He Hc) as [[]%not_elem_of_nil|(d & Hd & Ht)].
  apply (NewFileLocator_passes _ _ _ _ E) in Hd. rewrite Hopts in Hd. apply file_source in Hd as (p & n & Hp & Hn).
  apply EvalSymlinks_existing in Ht as (p' & n' & Hp' & ->). rewrite Hp in Hp'. injection Hp' as <- <-.
  exists n. unfold source_node in *. rewrite Hp in Hn. by rewrite (existing_resolved f d p n).
Qed.
Lemma findLibrary_source root name c : findLibrary (newArtifactRoot root) name = Ok c -> is_Some (source_node f c).
Proof using Hwf.
  unfold findLibrary. cbn [newArtifactRoot libraries]. destruct (NewLibraryLocator _ _ _ name) as [[|d l]|] eqn:E; [done| |done].
  intros [= ->]. unfold NewLibraryLocator in E. cbv zeta in E.
  destruct (searchPaths _) as [|p ps].
  - unfold First in E. cbn [omap list_omap id first_loop newLdcacheLocator notFound] in E.
    set (loc := NewSymlinkLocator _ _) in E. destruct loc as [[|? ?]|] eqn:El; [done| |done].
    injection E as -> ->. eapply symlink_source; [|exact El|by left]; done.
  - eapply symlink_source; [|exact E|by left]; done.
Qed.
Lemma findExecutable_source root name c : findExecutable (newArtifactRoot root) name = Ok c -> is_Some (source_node f c).
Proof using Type.
  unfold findExecutable. cbn [newArtifactRoot executables]. unfold NewExecutableLocator, newExecutableLocator.
  intros Hc. assert (Hx : assertExecutable c = true).
  { destruct (contains name "/").
    - destruct (assertExecutable name) eqn:E; [|done]. by injection Hc as <-.
    - destruct (NewFileLocator _ name) as [[|d l]|] eqn:E; [done| |done]. injection Hc as ->.
      by apply (NewFileLocator_passes _ _ _ c) in E; [|by left]. }
  apply andb_prop in Hx as [(p & n & _ & Hn)%file_source _]. by exists n.
Qed.
Lemma collect_sourced {A} t find make (l : list A) rest :
  collect t find make l = Ok rest -> (forall x p, find x = Ok p -> Forall (sourced f) (make x p)) -> Forall (sourced f) rest.
Proof using Type.
  intros Hl Hm. revert rest Hl. induction l as [|x l IH]; intros rest; cbn [collect]; [by intros [= <-]|].
  destruct (find x) as [p|e] eqn:E; [|destruct (ignoreErrors t); [apply IH|done]].
  destruct (collect t find make l) as [rest'|]; [|done]. intros [= <-]. apply Forall_app. split; [by apply (Hm x)|by apply IH].
Qed.
End Located.

(** ** The whole installation *)

Section Whole.
Context `{MapRange} (env : string -> option string) (f : fs) (cs : list string).
Context (Hwf : well_formed f) (Hcs : Forall proper cs) (Hl : no_link f cs).
Local Abbreviation D := (abs_path cs).

Lemma mkdir_ready f1 : sys_MkdirAll 493 D f = (inr tt, f1) -> ready cs f1 /\ f ⊆ f1.
Proof using Hwf Hcs Hl.
  unfold sys_MkdirAll. rewrite clean_components_abs_path by done. intros Hm.
  destruct (mkdir_all_plain 493 [] cs f (inr tt) f1 Hwf Hcs) as (Hwf1 & _ & Ha & Hd); [by intros q Hq%prefix_nil_inv|done..|].
  split; [split; [done|split; [by eapply adds_dirs_no_link|by apply Hd]]|].
  apply map_subseteq_spec. intros q n Hq. destruct (Ha q) as [->|[Hn _]]; [done|by rewrite Hn in Hq].
Qed.

Lemma toolkit_Install_puts (root : option string) (ignore : bool) (runtime : string) (f1 : fs) (ls es : list Installer)
    (t := New (H := fs_host env f) root ignore runtime)
    (Hm : sys_MkdirAll 493 D f = (inr tt, f1)) (Hls : collectLibraries t = Ok ls) (Hes : collectExecutables t D = Ok es)
    (Hfresh : fresh cs f1 (concat (map (delivers cs f) (ls ++ es)))) :
  toolkit_Install t D f = (None, put cs f1 (concat (map (delivers cs f) (ls ++ es)))).
Proof using Hwf Hcs Hl.
  destruct (mkdir_ready f1 Hm) as [Hr Hsub].
  assert (Hs : Forall (sourced f) (ls ++ es)).
  { apply Forall_app. split.
    - eapply collect_sourced; [exact Hls|]. intros l p Hp%findLibrary_source; [|done]. unfold library_installers.
      constructor; [done|]. destruct (String.eqb _ _); by repeat constructor.
    - eapply collect_sourced; [exact Hes|]. intros e p Hp%findExecutable_source. unfold executable_installers. cbv zeta.
      constructor; [done|]. destruct (String.eqb _ _); by repeat constructor. }
  assert (Hsame : Forall (sourced f1) (ls ++ es) /\ map (delivers cs f1) (ls ++ es) = map (delivers cs f) (ls ++ es)).
  { split; [eapply Forall_impl; [exact Hs|]; intros j Hj; by apply (sourced_mono cs f)|].
    apply map_ext_Forall. eapply Forall_impl; [exact Hs|]. intros j Hj. by apply sourced_mono. }
  destruct Hsame as [Hs1 Hmap]. rewrite <- Hmap in Hfresh |- *.
  unfold toolkit_Install. rewrite Hls, Hes. cbn [install_all Install].
  destruct (String.eqb_spec D "") as [E|_]; [done|]. rewrite Hm. by apply install_all_new.
Qed.
(** When every artifact is located and their names differ, the components are
    installed without an error: the target directory holds each of them, and
    nothing else changes. *)
Theorem toolkit_Install_delivers (root : option string) (ignore : bool) (runtime : string) (f1 : fs) (ls es : list Installer)
    (t := New (H := fs_host env f) root ignore runtime)
    (Hm : sys_MkdirAll 493 D f = (inr tt, f1)) (Hls : collectLibraries t = Ok ls) (Hes : collectExecutables t D = Ok es)
    (Hfresh : fresh cs f1 (concat (map (delivers cs f) (ls ++ es)))) : exists f',
  toolkit_Install t D f = (None, f') /\ f1 ⊆ f' /\
  (forall n x, (n, x) ∈ concat (map (delivers cs f) (ls ++ es)) -> f' !! (cs ++ [n]) = Some x) /\
  (forall q, (forall n, n ∈ (concat (map (delivers cs f) (ls ++ es))).*1 -> q <> cs ++ [n]) -> f' !! q = f1 !! q).
Proof using Hwf Hcs Hl.
  destruct (mkdir_ready f1 Hm) as [Hr _]. destruct (put_installed cs f1 _ Hr Hfresh) as (_ & Hsub & Hput & Hframe).
  eexists. split; [by apply toolkit_Install_puts|done].
Qed.
End Whole.

(** ** An installation *)

#[local] Transparent existing.
Definition lab_dirs : list (list string) :=
  [["artifacts"]; ["artifacts"; "usr"]; ["artifacts"; "usr"; "bin"]; ["artifacts"; "usr"; "lib64"]; ["usr"]; ["usr"; "local"]].
Definition lab_executables : list string :=
  ["nvidia-ctk"; "nvidia-cdi-hook"; "nvidia-container-runtime"; "nvidia-container-runtime.cdi"; "nvidia-container-runtime.legacy";
   "nvidia-container-cli"; "nvidia-container-runtime-hook"].
Definition lab_files : fs := map_of_nodes (
  map (fun d => (d, DirNode 493)) lab_dirs ++
  map (fun e => (["artifacts"; "usr"; "bin"; e], FileNode ("ELF " +:+ e) 493)) lab_executables ++
  [(["artifacts"; "usr"; "lib64"; "libnvidia-container.so.1"], LinkNode "libnvidia-container.so.1.18.0");
   (["artifacts"; "usr"; "lib64"; "libnvidia-container.so.1.18.0"], FileNode "ELF library" 420);
   (["artifacts"; "usr"; "lib64"; "libnvidia-container-go.so.1"], FileNode "ELF go library" 420)]).
Definition lab_root : list string := ["usr"; "local"; "nvidia"; "toolkit"].
Definition no_env (_ : string) : option string := None.
Definition lab_toolkit : ToolkitInstaller := New (H := fs_host no_env lab_files) (Some "/artifacts") false "/usr/bin/runc".
Definition lab_mkdir : fs := (sys_MkdirAll 493 (abs_path lab_root) lab_files).2.
Definition lab_libraries : list Installer := ok_or [] (collectLibraries lab_toolkit).
Definition lab_wrappers : list Installer := ok_or [] (collectExecutables (H := map_to_list_range) lab_toolkit (abs_path lab_root)).
Lemma ok_or_eq {A} (d : A) r : is_ok r = true -> r = Ok (ok_or d r).
Proof. by destruct r. Qed.
#[local] Instance fresh_dec cs f l : Decision (fresh cs f l).
Proof. unfold fresh. apply _. Defined.
Lemma toolkit_Install_delivers_witness : exists f',
  toolkit_Install (H := map_to_list_range) lab_toolkit (abs_path lab_root) lab_files = (None, f') /\
  f' !! (lab_root ++ ["libnvidia-container.so.1"]) = Some (LinkNode "libnvidia-container.so.1.18.0") /\
  f' !! (lab_root ++ ["nvidia-container-runtime.cdi.real"]) = Some (FileNode "ELF nvidia-container-runtime.cdi" 493).
Proof.
  destruct (toolkit_Install_delivers (H := map_to_list_range) no_env lab_files lab_root) with (root := Some "/artifacts") (ignore := false)
    (runtime := "/usr/bin/runc") (f1 := lab_mkdir) (ls := lab_libraries) (es := lab_wrappers) as (f' & Hi & _ & Hd & _).
  - apply well_formed_b_true. vm_compute. reflexivity.
  - apply (bool_decide_unpack _). vm_compute. exact I.
  - apply no_link_b_true. vm_compute. reflexivity.
  - unfold lab_mkdir. rewrite (surjective_pairing (sys_MkdirAll _ _ _)) at 1.
    assert ((sys_MkdirAll 493 (abs_path lab_root) lab_files).1 = inr tt) as -> by (vm_compute; reflexivity). reflexivity.
  - apply ok_or_eq. vm_compute. reflexivity.
  - apply ok_or_eq. vm_compute. reflexivity.
  - apply (bool_decide_unpack _). vm_compute. exact I.
  - exists f'. split; [exact Hi|].
    split; apply Hd; apply (bool_decide_unpack _); vm_compute; exact I.
Defined.
