(* ===== verification/SystemDevices.v ===== *)
(** * Device nodes, kernel modules and links below /dev/char

    The packages src/pkg/system/nvdevices and src/pkg/system/nvmodules and the
    commands of nvidia-ctk system that use them
    (src/cmd/nvidia-ctk/system). Commands that are run and the PCI devices
    are parameters. *)
From S2P Require Import Prelude GoStrings GoPaths Lookup ProcInfo FileSystem OsFiles Toml ToolkitInstaller.
#[local] Open Scope Z_scope.

(** Files as the readers of ProcInfo.v see them; directories are read only
    by code that runs elsewhere. *)
Definition fs_files (f : fs) : HostFiles := {|
  os_ReadFile := fun p => match sys_Open f p with inr (DirNode _) | inl _ => None | inr n => Some (node_content n) end;
  os_ReadError := fun p => match sys_Open f p with
    | inl ENOENT => NotExist | inl e => NotOpened (path_error "open" p e) | inr _ => NotRead (path_error "read" p EISDIR) end;
  os_ReadDir := fun p => match sys_Stat f p with
    | inr (DirNode _) => Some (map (fun n => (n, match sys_Lstat f (path_join [p; n]) with inr (DirNode _) => true | _ => false end)) (readdirnames f p))
    | _ => None
    end;
|}.

(** An operation on files that may panic: its error, if any, and the files. *)
Abbreviation operation := (may_panic (option string * fs)).
Definition wrap_error (msg : string) (r : option string * fs) : option string * fs :=
  (match r.1 with Some e => Some (msg +:+ ": " +:+ e) | None => None end, r.2).

(** ** [nvdevices] *)

Module nvdevices.
(** The devices are [nil] when /proc/devices does not exist. *)
Record Interface := mkInterface { Devices : option devices; dryRun : bool; devRoot : string }.
Definition New (dry : bool) (root : string) (f : fs) : result Interface :=
  let? d := wrap "failed to create devices info" (nvidiaDevices (H := fs_files f) procDevicesPath) in
  Ok (mkInterface d dry (if String.eqb root "" then "/" else root)).

Definition errInvalidDeviceNode : string := "invalid device node".
Definition NVIDIAModesetMinor : Z := 254.
Definition NVIDIAUVMToolsMinor : Z := 1.
Definition NVIDIAUVMMinor : Z := 0.
Definition NVIDIACTLMinor : Z := 255.

(** A call of a method of a [nil] interface panics. *)
Definition Major (m : Interface) (node : string) : may_panic (result Z) :=
  let get name := d ← Devices m; Some match Get d name with Some major => Ok major | None => Err errInvalidDeviceNode end in
  if String.eqb node "nvidia-uvm" || String.eqb node "nvidia-uvm-tools" then get NVIDIAUVM
  else if String.eqb node "nvidia-modeset" || String.eqb node "nvidiactl" then get NVIDIAGPU
  else Some (Err errInvalidDeviceNode).
Definition Minor (node : string) : result Z :=
  if String.eqb node "nvidia-modeset" then Ok NVIDIAModesetMinor
  else if String.eqb node "nvidia-uvm-tools" then Ok NVIDIAUVMToolsMinor
  else if String.eqb node "nvidia-uvm" then Ok NVIDIAUVMMinor
  else if String.eqb node "nvidiactl" then Ok NVIDIACTLMinor
  else Err errInvalidDeviceNode.

(** [mknodUnix] and [mknodLogger]; a new node has no permissions until the
    mode is set. *)
Definition mknodUnix (path : string) (major minor : Z) (f : fs) : option string * fs :=
  match sys_Stat f path with
  | inr _ => (None, f)
  | inl ENOENT =>
      match sys_create (DeviceNode (major mod 2 ^ 32) (minor mod 2 ^ 32) 0) path f with
      | inl e => (Some (errno_text e), f)
      | inr f => match sys_Chmod 438 path f with
                 | inl e => (Some (errno_text e), f)
                 | inr f => (None, f)
                 end
      end
  | inl e => (Some ("failed to stat " +:+ path +:+ ": " +:+ path_error "stat" path e), f)
  end.
Definition Mknode (m : Interface) (path : string) (major minor : Z) (f : fs) : option string * fs :=
  if dryRun m then (None, f) else mknodUnix path major minor f.

Definition createDeviceNode (m : Interface) (path : string) (major minor : Z) (f : fs) : option string * fs :=
  Mknode m (path_join [devRoot m; path]) major minor f.
Definition CreateNVIDIADevice (m : Interface) (node : string) (f : fs) : operation :=
  let node := path_base node in
  if negb (has_prefix node "nvidia") then Some (Some ("invalid device node " +:+ quote node +:+ ": " +:+ errInvalidDeviceNode), f)
  else
    major ← Major m node;
    match major with
    | Err e => Some (Some ("failed to determine major: " +:+ e), f)
    | Ok major =>
        match Minor node with
        | Err e => Some (Some ("failed to determine minor: " +:+ e), f)
        | Ok minor => Some (createDeviceNode m (path_join ["dev"; node]) major minor f)
        end
    end.
Definition controlNodes : list string := ["nvidiactl"; "nvidia-modeset"; "nvidia-uvm"; "nvidia-uvm-tools"].
Fixpoint create_loop (m : Interface) (nodes : list string) (f : fs) : operation :=
  match nodes with
  | [] => Some (None, f)
  | node :: nodes =>
      '(e, f) ← CreateNVIDIADevice m node f;
      match e with
      | Some e => Some (Some ("failed to create device node " +:+ node +:+ ": " +:+ e), f)
      | None => create_loop m nodes f
      end
  end.
Definition CreateNVIDIAControlDevices (m : Interface) (f : fs) : operation := create_loop m controlNodes f.
End nvdevices.

(** ** [nvmodules] *)

Module nvmodules.
Record Interface := mkInterface { dryRun : bool; root : string }.
Definition New (dry : bool) (root : string) : Interface := mkInterface dry (if String.eqb root "" then "/" else root).
(** The arguments of the command. *)
Definition load_command (m : Interface) (module : string) : list string :=
  (if negb (String.eqb (root m) "/") then ["chroot"; root m] else []) ++ ["/sbin/modprobe"; module].
Definition Load `{Commands} (m : Interface) (module : string) : option string :=
  if negb (has_prefix module "nvidia") then Some "invalid module"
  else if dryRun m then None
  else let args := load_command m module in
       match run_command (hd "" args) (tl args) with Err e => Some e | Ok _ => None end.
Definition modules : list string := ["nvidia"; "nvidia-uvm"; "nvidia-modeset"].
Fixpoint load_loop `{Commands} (m : Interface) (l : list string) : option string :=
  match l with
  | [] => None
  | module :: l =>
      match Load m module with
      | Some e => Some ("failed to load module " +:+ module +:+ ": " +:+ e)
      | None => load_loop m l
      end
  end.
Definition LoadAll `{Commands} (m : Interface) : option string := load_loop m modules.
End nvmodules.

(** ** Links below /dev/char (create-dev-char-symlinks) *)

(** The number of GPUs that go-nvlib finds below a directory. *)
Class PCI := count_GPUs : string -> result nat.
Definition PCIDevicesRoot : string := "/sys/bus/pci/devices".

Module devchar.
Record deviceNode := mkNode { path : string; major : Z; minor : Z }.
Definition devCharName (d : deviceNode) : string := fmt_Z (major d) +:+ ":" +:+ fmt_Z (minor d).

(** *** All possible nodes (all.go) *)

Record allPossible := mkAll { all_devRoot : string; deviceMajors : devices; migCaps : gmap string Z }.
Fixpoint check_majors (d : devices) (names : list string) : result unit :=
  match names with
  | [] => Ok tt
  | name :: names => if Exists d name then check_majors d names else Err ("missing required device major " +:+ name)
  end.
(** A method of [nil] majors panics. *)
Definition newAllPossible (devRoot : string) (f : fs) : may_panic (result allPossible) :=
  match wrap "failed reading device majors" (nvidiaDevices (H := fs_files f) procDevicesPath) with
  | Err e => Some (Err e)
  | Ok deviceMajors =>
      match wrap "failed to read MIG caps" (NewMigCaps (H := fs_files f)) with
      | Err e => Some (Err e)
      | Ok caps =>
          let required := (match caps with Some _ => [NVIDIACaps] | None => [] end) ++ [NVIDIAGPU; NVIDIAUVM] in
          d ← deviceMajors;
          Some (let? _ := check_majors d required in Ok (mkAll devRoot d (default ∅ caps)))
      end
  end.
Definition newDeviceNode (m : allPossible) (deviceName path : string) (minor : Z) : deviceNode :=
  mkNode (path_join [all_devRoot m; path]) (default 0 (Get (deviceMajors m) deviceName) mod 2 ^ 32) (minor mod 2 ^ 32).
Definition getControlDeviceNodes (m : allPossible) : list deviceNode :=
  [newDeviceNode m NVIDIAGPU "/dev/nvidia-modeset" nvdevices.NVIDIAModesetMinor;
   newDeviceNode m NVIDIAGPU "/dev/nvidiactl" nvdevices.NVIDIACTLMinor;
   newDeviceNode m NVIDIAUVM "/dev/nvidia-uvm" nvdevices.NVIDIAUVMMinor;
   newDeviceNode m NVIDIAUVM "/dev/nvidia-uvm-tools" nvdevices.NVIDIAUVMToolsMinor] ++
  omap (fun c => (fun minor => newDeviceNode m NVIDIACaps (MigMinor_DevicePath minor) minor) <$> migCaps m !! c) ["config"; "monitor"].
Definition getGPUDeviceNodes (m : allPossible) (gpu : Z) : list deviceNode :=
  [newDeviceNode m NVIDIAGPU ("/dev/nvidia" +:+ fmt_Z gpu) gpu].
(** The loops over the instances of a GPU run until a capability is missing,
    that is, at most as often as there are capabilities. *)
Fixpoint compute_loop (caps : gmap string Z) (gpu gi : Z) (fuel : nat) (ci : Z) : list Z :=
  match fuel with
  | O => []
  | S fuel =>
      match caps !! NewComputeInstanceCap gpu gi ci with
      | None => []
      | Some ciMinor => ciMinor :: compute_loop caps gpu gi fuel (ci + 1)
      end
  end.
Fixpoint instance_loop (caps : gmap string Z) (gpu : Z) (fuel : nat) (gi : Z) : list Z :=
  match fuel with
  | O => []
  | S fuel =>
      match caps !! NewGPUInstanceCap gpu gi with
      | None => []
      | Some giMinor => giMinor :: compute_loop caps gpu gi (S (size caps)) 0 ++ instance_loop caps gpu fuel (gi + 1)
      end
  end.
Definition getNVCapDeviceNodes (m : allPossible) (gpu : Z) : list deviceNode :=
  map (fun minor => newDeviceNode m NVIDIACaps (MigMinor_DevicePath minor) minor) (instance_loop (migCaps m) gpu (S (size (migCaps m))) 0).
Definition all_DeviceNodes `{PCI} (m : allPossible) : result (list deviceNode) :=
  let? count := wrap "failed to get GPU information" (count_GPUs (path_join [all_devRoot m; PCIDevicesRoot])) in
  if Nat.eqb count 0 then Ok []
  else Ok (getControlDeviceNodes m ++
           concat (map (fun gpu => getGPUDeviceNodes m (Z.of_nat gpu) ++ getNVCapDeviceNodes m (Z.of_nat gpu)) (seq 0 count))).

(** *** Existing nodes (existing.go) *)

Definition nodeIsBlocked (p : string) : bool :=
  existsb (has_prefix (path_base p)) ["nvidia-fs"; "nvidia-nvswitch"; "nvidia-nvlink"].
Definition located_or_none (l : located) : list string := match l with Found l => l | Failed _ => [] end.
Definition existing_DeviceNodes (env : string -> option string) (devRoot : string) (f : fs) : list deviceNode :=
  let locator := AsOptional (NewCharDeviceLocator (H := fs_host env f) [WithRoot devRoot]) in
  let devices := located_or_none (locator "/dev/nvidia*") in
  let capDevices := located_or_none (locator "/dev/nvidia-caps/nvidia-*") in
  omap (fun d => match sys_Stat f d with
                 | inr (DeviceNode major minor _) => Some (mkNode d major minor)
                 | inr _ => Some (mkNode d 0 0)
                 | inl _ => None
                 end) (List.filter (fun d => negb (nodeIsBlocked d)) (devices ++ capDevices)).

(** *** The links *)

Inductive nodeLister := all (m : allPossible) | existing (devRoot : string).
Record linkCreator := mkCreator {
  lister : nodeLister; driverRoot : string; devRoot : string; devCharPath : string; dryRun : bool;
}.
Record config := mkConfig {
  cfg_devCharPath : string; cfg_driverRoot : string; cfg_dryRun : bool; createAll : bool;
  createDeviceNodes : bool; loadKernelModules : bool;
}.
Definition validateFlags (c : config) : config :=
  mkConfig (cfg_devCharPath c) (cfg_driverRoot c) (cfg_dryRun c) (createAll c)
    (createDeviceNodes c && createAll c) (loadKernelModules c && createAll c).
Definition or_else (s d : string) : string := if String.eqb s "" then d else s.
Definition setup `{Commands} (c : config) (driverRoot devRoot : string) (f : fs) : operation :=
  match (if loadKernelModules c then nvmodules.LoadAll (nvmodules.New (cfg_dryRun c) driverRoot) else None) with
  | Some e => Some (Some ("failed to load NVIDIA kernel modules: " +:+ e), f)
  | None =>
      if createDeviceNodes c then
        match nvdevices.New (cfg_dryRun c) devRoot f with
        | Err e => Some (Some e, f)
        | Ok m => r ← nvdevices.CreateNVIDIAControlDevices m f; Some (wrap_error "failed to create NVIDIA device nodes" r)
        end
      else Some (None, f)
  end.
(** The command passes no root of the device nodes. *)
Definition NewSymlinkCreator `{Commands} (c : config) (f : fs) : may_panic (result linkCreator * fs) :=
  let driverRoot := or_else (cfg_driverRoot c) "/" in
  let devRoot := "/" in
  let devCharPath := or_else (cfg_devCharPath c) "/dev/char" in
  '(e, f) ← setup c driverRoot devRoot f;
  match e with
  | Some e => Some (Err e, f)
  | None =>
      if createAll c then
        l ← newAllPossible devRoot f;
        Some (let? l := wrap "failed to create all possible device lister" l in
              Ok (mkCreator (all l) driverRoot devRoot devCharPath (cfg_dryRun c)), f)
      else Some (Ok (mkCreator (existing devRoot) driverRoot devRoot devCharPath (cfg_dryRun c)), f)
  end.
(** A link that cannot be created is only warned about. *)
Definition link_node (m : linkCreator) (f : fs) (d : deviceNode) : fs :=
  if dryRun m then f
  else match sys_Symlink (path d) (path_join [devCharPath m; devCharName d]) f with
       | inl _ => f
       | inr f => f
       end.
Definition CreateLinks `{PCI} (env : string -> option string) (m : linkCreator) (f : fs) : option string * fs :=
  match (match lister m with all a => all_DeviceNodes a | existing root => Ok (existing_DeviceNodes env root f) end) with
  | Err e => (Some ("failed to get device nodes: " +:+ e), f)
  | Ok deviceNodes =>
      match (if negb (Nat.eqb (length deviceNodes) 0) && negb (dryRun m) then sys_MkdirAll 493 (devCharPath m) f else (inr tt, f)) with
      | (inl e, f) => (Some ("failed to create directory " +:+ devCharPath m +:+ ": " +:+ path_error "mkdir" (devCharPath m) e), f)
      | (inr _, f) => (None, foldl (link_node m) f deviceNodes)
      end
  end.
Definition run `{PCI, Commands} (env : string -> option string) (c : config) (f : fs) : operation :=
  '(l, f) ← NewSymlinkCreator c f;
  match l with
  | Err e => Some (Some ("failed to create symlink creator: " +:+ e), f)
  | Ok l => Some (wrap_error "failed to create links" (CreateLinks env l f))
  end.
End devchar.

(** ** create-device-nodes *)

Module createdevicenodes.
Record options := mkOptions { root : string; devRoot : string; dryRun : bool; control : bool; loadKernelModules : bool }.
Definition validateFlags (o : options) : options :=
  mkOptions (root o) (if String.eqb (devRoot o) "" && negb (String.eqb (root o) "") then root o else devRoot o)
    (dryRun o) (control o) (loadKernelModules o).
Definition run `{Commands} (o : options) (f : fs) : operation :=
  match (if loadKernelModules o then nvmodules.LoadAll (nvmodules.New (dryRun o) (root o)) else None) with
  | Some e => Some (Some ("failed to load NVIDIA kernel modules: " +:+ e), f)
  | None =>
      if control o then
        match nvdevices.New (dryRun o) (devRoot o) f with
        | Err e => Some (Some e, f)
        | Ok m => r ← nvdevices.CreateNVIDIAControlDevices m f; Some (wrap_error "failed to create NVIDIA control device nodes" r)
        end
      else Some (None, f)
  end.
End createdevicenodes.
