(* ===== verification/SystemDevicesProps.v ===== *)
(** * Properties of device nodes and of the links below /dev/char *)
From S2P Require Import Prelude GoStrings GoPaths Json CDIParser Lookup ProcInfo FileSystem OsFiles Toml ToolkitInstaller ToolkitInstallerProps SystemDevices.
#[local] Open Scope Z_scope.

(** ** Control devices *)

(** Adding a node where there is none. *)
Lemma add_missing (f : fs) k x : match f !! k with Some _ => f | None => <[k := x]> f end = f ∪ {[k := x]}.
Proof.
  apply map_eq. intros q. rewrite lookup_union. destruct (f !! k) eqn:E.
  - destruct (f !! q) eqn:Eq; [by rewrite union_Some_l|]. rewrite lookup_singleton_ne by congruence. done.
  - destruct (decide (q = k)) as [->|]; [rewrite lookup_insert_eq, E, lookup_singleton_eq; done|].
    rewrite lookup_insert_ne, lookup_singleton_ne by done. by destruct (f !! q).
Qed.

Section Control.
Context (dev : list string) (Hdev : Forall proper dev).
Local Abbreviation child n := (dev ++ [n]).

(** There is a directory, and no name that is used in it is a link. *)
Definition usable (f : fs) (names : list string) : Prop :=
  ready dev f /\ Forall (fun n => proper n /\ forall t, f !! child n <> Some (LinkNode t)) names.

Lemma ready_union f n x : ready dev f -> ready dev (f ∪ {[child n := x]}).
Proof using Type.
  intros Hr. rewrite <- add_missing. destruct (f !! child n) eqn:E; [done|]. by apply ready_insert.
Qed.
Lemma usable_union f n names x : is_link_node x = false -> usable f names -> usable (f ∪ {[child n := x]}) names.
Proof using Type.
  intros Hx [Hr Hn]. split; [by apply ready_union|]. eapply Forall_impl; [exact Hn|]. intros m [Hp Hm]. split; [done|].
  intros t [Ht|[_ [_ ->]%lookup_singleton_Some]]%lookup_union_Some_raw; [by apply (Hm t)|done].
Qed.
Lemma Stat_child f n : ready dev f -> proper n -> (forall t, f !! child n <> Some (LinkNode t)) ->
  sys_Stat f (abs_path (child n)) = match f !! child n with Some x => inr x | None => inl ENOENT end.
Proof using Hdev.
  intros Hr Hn Hl. unfold sys_Stat, existing. rewrite resolve_ready by done. rewrite node_at_ne by apply snoc_ne.
  by destruct (f !! child n).
Qed.
Lemma mknod_child f n major minor : ready dev f -> proper n -> (forall t, f !! child n <> Some (LinkNode t)) ->
  nvdevices.mknodUnix (abs_path (child n)) major minor f
  = (None, f ∪ {[child n := DeviceNode (major mod 2 ^ 32) (minor mod 2 ^ 32) 438]}).
Proof using Hdev.
  intros Hr Hn Hl. unfold nvdevices.mknodUnix. rewrite Stat_child, <- add_missing by done. destruct (f !! child n) eqn:E; [done|].
  unfold sys_create. rewrite resolve_ready by (done || by rewrite E). rewrite node_at_ne, E by apply snoc_ne.
  set (x := DeviceNode _ _ 0). set (f1 := <[child n := x]> f). assert (Hr1 : ready dev f1) by by apply ready_insert.
  unfold sys_Chmod, existing. rewrite resolve_ready by (done || by unfold f1; rewrite lookup_insert_eq).
  rewrite node_at_ne by apply snoc_ne. unfold f1. rewrite lookup_insert_eq.
  destruct (child n) eqn:Ec; [by destruct dev|]. by rewrite insert_insert_eq.
Qed.
End Control.

(** The control nodes, for the majors of the two drivers. *)
Definition control_nodes (dev : list string) (gpu uvm : Z) : fs :=
  {[dev ++ ["nvidiactl"] := DeviceNode (gpu mod 2 ^ 32) 255 438]} ∪ ({[dev ++ ["nvidia-modeset"] := DeviceNode (gpu mod 2 ^ 32) 254 438]}
  ∪ ({[dev ++ ["nvidia-uvm"] := DeviceNode (uvm mod 2 ^ 32) 0 438]} ∪ {[dev ++ ["nvidia-uvm-tools"] := DeviceNode (uvm mod 2 ^ 32) 1 438]})).

Lemma device_path root n : Forall proper root -> n ∈ nvdevices.controlNodes ->
  path_join [abs_path root; path_join ["dev"; n]] = abs_path ((root ++ ["dev"]) ++ [n]).
Proof.
  intros Hp Hn. rewrite <- app_assoc. unfold nvdevices.controlNodes in Hn.
  repeat (apply elem_of_cons in Hn as [-> | Hn]; [by rewrite path_join_abs by (done || (apply (bool_decide_unpack _); vm_compute; exact I))|]).
  by apply not_elem_of_nil in Hn.
Qed.
Definition node_of (gpu uvm : Z) (n : string) : node :=
  if String.eqb n "nvidiactl" then DeviceNode (gpu mod 2 ^ 32) 255 438
  else if String.eqb n "nvidia-modeset" then DeviceNode (gpu mod 2 ^ 32) 254 438
  else if String.eqb n "nvidia-uvm" then DeviceNode (uvm mod 2 ^ 32) 0 438
  else DeviceNode (uvm mod 2 ^ 32) 1 438.

Section Create.
Context (m : nvdevices.Interface) (d : devices) (root : list string) (gpu uvm : Z).
Context (Hm : nvdevices.Devices m = Some d) (Hdry : nvdevices.dryRun m = false) (Hroot : nvdevices.devRoot m = abs_path root)
  (Hp : Forall proper root) (Hgpu : Get d NVIDIAGPU = Some gpu) (Huvm : Get d NVIDIAUVM = Some uvm).
Local Abbreviation dev := (root ++ ["dev"]).
Lemma dev_proper : Forall proper dev.
Proof using Hp. apply Forall_app; split; [done|]. apply Forall_singleton. by apply (bool_decide_unpack _). Qed.
Lemma create_control f n names : usable dev f names -> n ∈ names -> n ∈ nvdevices.controlNodes ->
  nvdevices.CreateNVIDIADevice m n f = Some (None, f ∪ {[dev ++ [n] := node_of gpu uvm n]}).
Proof using Hm Hdry Hroot Hp Hgpu Huvm.
  intros [Hr Hn] Hin Hc. rewrite Forall_forall in Hn. destruct (Hn n Hin) as [Hpn Hl].
  unfold nvdevices.CreateNVIDIADevice.
  assert (Hb : path_base n = n /\ has_prefix n "nvidia" = true /\ exists major minor,
    nvdevices.Major m n = Some (Ok major) /\ nvdevices.Minor n = Ok minor /\ node_of gpu uvm n = DeviceNode (major mod 2 ^ 32) (minor mod 2 ^ 32) 438).
  { unfold nvdevices.Major. rewrite Hm. unfold nvdevices.controlNodes in Hc.
    repeat (apply elem_of_cons in Hc as [-> | Hc];
      [split; [by vm_compute|]; split; [done|]; cbn [mbind option_bind String.eqb Ascii.eqb Bool.eqb orb]; rewrite ?Hgpu, ?Huvm; by do 2 eexists|]).
    by apply not_elem_of_nil in Hc. }
  destruct Hb as (-> & -> & major & minor & -> & -> & ->). cbn [negb mbind option_bind].
  unfold nvdevices.createDeviceNode, nvdevices.Mknode. rewrite Hdry, Hroot, device_path by done.
  f_equal. apply mknod_child; [apply dev_proper|done..].
Qed.
Lemma create_loop_adds f names : usable dev f names -> (forall n, n ∈ names -> n ∈ nvdevices.controlNodes) ->
  nvdevices.create_loop m names f = Some (None, foldl (fun f n => f ∪ {[dev ++ [n] := node_of gpu uvm n]}) f names).
Proof using Hm Hdry Hroot Hp Hgpu Huvm.
  revert f. induction names as [|n names IH]; intros f Hu Hin; [done|]. cbn [nvdevices.create_loop foldl].
  rewrite (create_control f n (n :: names)) by (done || by first [left|apply Hin; left]). cbn [mbind option_bind]. apply IH.
  - apply usable_union; [unfold node_of; repeat (destruct (String.eqb _ _)); done|].
    destruct Hu as [Hr Hn]. split; [done|]. by apply Forall_cons in Hn as [_ Hn].
  - intros n' Hn'. apply Hin. by right.
Qed.
End Create.

(** C17. Creating the control devices adds the four device nodes, with the
    majors of the drivers and mode 0666, where nothing has that name, and
    changes nothing else; so doing it again changes nothing. *)
Theorem CreateNVIDIAControlDevices_adds (m : nvdevices.Interface) (d : devices) (root : list string) (f : fs) (gpu uvm : Z)
    (Hm : nvdevices.Devices m = Some d) (Hdry : nvdevices.dryRun m = false) (Hroot : nvdevices.devRoot m = abs_path root)
    (Hp : Forall proper root) (Hgpu : Get d NVIDIAGPU = Some gpu) (Huvm : Get d NVIDIAUVM = Some uvm)
    (Hu : usable (root ++ ["dev"]) f nvdevices.controlNodes) :
  let f' := f ∪ control_nodes (root ++ ["dev"]) gpu uvm in
  nvdevices.CreateNVIDIAControlDevices m f = Some (None, f') /\
  nvdevices.CreateNVIDIAControlDevices m f' = Some (None, f').
Proof.
  pose proof (create_loop_adds m d root gpu uvm Hm Hdry Hroot Hp Hgpu Huvm) as Hloop.
  assert (Hall : forall g, usable (root ++ ["dev"]) g nvdevices.controlNodes ->
    nvdevices.CreateNVIDIAControlDevices m g = Some (None, g ∪ control_nodes (root ++ ["dev"]) gpu uvm)).
  { intros g Hg. unfold nvdevices.CreateNVIDIAControlDevices. rewrite Hloop by done.
    cbn [foldl nvdevices.controlNodes]. unfold control_nodes. by rewrite !(assoc_L (∪)). }
  cbv zeta. rewrite (Hall f Hu). split; [done|]. rewrite (Hall (f ∪ _)).
  - by rewrite <- (assoc_L (∪)), (idemp_L (∪)).
  - unfold control_nodes. rewrite !(assoc_L (∪)). by repeat (apply usable_union; [done|]).
Qed.
Definition lab_devices : devices := {["nvidia" := 195; "nvidia-uvm" := 510]}.
Definition lab_dev : fs := map_of_nodes [(["driver"], DirNode 493); (["driver"; "dev"], DirNode 493); (["driver"; "dev"; "nvidiactl"], DeviceNode 195 255 438)].
Lemma CreateNVIDIAControlDevices_adds_witness : exists f',
  nvdevices.CreateNVIDIAControlDevices (nvdevices.mkInterface (Some lab_devices) false "/driver") lab_dev = Some (None, f') /\
  f' !! ["driver"; "dev"; "nvidia-uvm-tools"] = Some (DeviceNode 510 1 438).
Proof.
  exists (lab_dev ∪ control_nodes ["driver"; "dev"] 195 510). split.
  - apply (CreateNVIDIAControlDevices_adds (nvdevices.mkInterface (Some lab_devices) false "/driver") lab_devices ["driver"] lab_dev 195 510);
      try reflexivity.
    + apply (bool_decide_unpack _). vm_compute. exact I.
    + split; [split; [|split]|].
      * apply well_formed_b_true. vm_compute. reflexivity.
      * apply no_link_b_true. vm_compute. reflexivity.
      * by exists 493.
      * repeat constructor; try (by apply (bool_decide_unpack _); vm_compute); by intros t Ht.
  - vm_compute. reflexivity.
Defined.

(** ** Capability devices *)

(** Counting up from [i] while the key is there. *)
Definition counts (caps : gmap string Z) (key : Z -> string) (i : Z) (n : nat) : Prop :=
  (forall k, (k < n)%nat -> is_Some (caps !! key (i + Z.of_nat k))) /\ caps !! key (i + Z.of_nat n) = None.
Lemma counts_exists caps key i : (forall x y, key x = key y -> x = y) -> exists n, (n <= size caps)%nat /\ counts caps key i n.
Proof.
  intros Hinj.
  assert (Hb : forall n, (forall k, (k < n)%nat -> is_Some (caps !! key (i + Z.of_nat k))) -> (n <= size caps)%nat).
  { intros n Hn. rewrite <- size_dom. set (ks := map (fun k => key (i + Z.of_nat k)) (seq 0 n)).
    assert (Hnd : NoDup ks) by (apply NoDup_fmap_2_strong; [intros x y _ _ E%Hinj; lia|apply NoDup_seq]).
    transitivity (length ks); [by unfold ks; rewrite length_map, length_seq|].
    rewrite <- (size_list_to_set (C := gset string)) by done. apply subseteq_size. intros k. rewrite elem_of_list_to_set.
    intros (j & -> & Hj%elem_of_seq)%list_elem_of_fmap. apply elem_of_dom, Hn. lia. }
  assert (Hs : forall m, (forall k, (k < m)%nat -> is_Some (caps !! key (i + Z.of_nat k))) \/ exists n, counts caps key i n).
  { intros m. induction m as [|m [IH|IH]]; [left; lia| |by right].
    destruct (caps !! key (i + Z.of_nat m)) eqn:E; [left; intros k Hk; destruct (decide (k = m)) as [->|]; [by rewrite E|apply IH; lia]|].
    right. by exists m. }
  destruct (Hs (S (size caps))) as [Hall|[n Hn]]; [apply Hb in Hall; lia|]. exists n. split; [apply Hb, Hn|done].
Qed.
Definition key_from (caps : gmap string Z) (key : Z -> string) (i : Z) (k : nat) : Z := default 0 (caps !! key (i + Z.of_nat k)).

Lemma compute_loop_spec caps gpu gi fuel i n : counts caps (NewComputeInstanceCap gpu gi) i n -> (n < fuel)%nat ->
  devchar.compute_loop caps gpu gi fuel i = map (key_from caps (NewComputeInstanceCap gpu gi) i) (seq 0 n).
Proof.
  revert i n. induction fuel as [|fuel IH]; intros i n [Hs Hn] Hf; [lia|]. cbn [devchar.compute_loop].
  destruct n as [|n].
  - rewrite Z.add_0_r in Hn. by rewrite Hn.
  - destruct (Hs 0%nat) as [m Hm]; [lia|]. rewrite Z.add_0_r in Hm. rewrite Hm. cbn [seq map]. f_equal.
    + unfold key_from. by rewrite Z.add_0_r, Hm.
    + rewrite (IH (i + 1) n); [|split|lia].
      * rewrite <- seq_shift, map_map. apply map_ext. intros k. unfold key_from. do 3 f_equal. lia.
      * intros k Hk. destruct (Hs (S k)) as [x Hx]; [lia|]. exists x. rewrite <- Hx. do 2 f_equal. lia.
      * rewrite <- Hn. do 2 f_equal. lia.
Qed.
Lemma instance_loop_spec caps gpu fuel i n (per : Z -> nat) : counts caps (NewGPUInstanceCap gpu) i n -> (n < fuel)%nat ->
  (forall gi, (per gi <= size caps)%nat /\ counts caps (NewComputeInstanceCap gpu gi) 0 (per gi)) ->
  devchar.instance_loop caps gpu fuel i
  = concat (map (fun k => key_from caps (NewGPUInstanceCap gpu) i k ::
      map (key_from caps (NewComputeInstanceCap gpu (i + Z.of_nat k)) 0) (seq 0 (per (i + Z.of_nat k)))) (seq 0 n)).
Proof.
  intros Hc Hf Hper. revert i n Hc Hf. induction fuel as [|fuel IH]; intros i n [Hs Hn] Hf; [lia|]. cbn [devchar.instance_loop].
  destruct n as [|n].
  - rewrite Z.add_0_r in Hn. by rewrite Hn.
  - destruct (Hs 0%nat) as [m Hm]; [lia|]. rewrite Z.add_0_r in Hm. rewrite Hm. cbn [seq map concat app]. f_equal.
    + unfold key_from. by rewrite Z.add_0_r, Hm.
    + rewrite Z.add_0_r. f_equal.
      * apply compute_loop_spec; [apply Hper|]. destruct (Hper i) as [Hp _]. lia.
      * rewrite (IH (i + 1) n); [|split|lia].
        -- rewrite <- seq_shift, map_map. f_equal. apply map_ext. intros k.
           replace (i + 1 + Z.of_nat k) with (i + Z.of_nat (S k)) by lia. f_equal. unfold key_from. do 3 f_equal. lia.
        -- intros k Hk. destruct (Hs (S k)) as [x Hx]; [lia|]. exists x. rewrite <- Hx. do 2 f_equal. lia.
        -- rewrite <- Hn. do 2 f_equal. lia.
Qed.
Lemma gi_key_inj gpu x y : NewGPUInstanceCap gpu x = NewGPUInstanceCap gpu y -> x = y.
Proof. unfold NewGPUInstanceCap. intros He%sapp_inj_l%sapp_inj_l%sapp_inj_l%sapp_inj_r. by apply (inj pretty.pretty) in He. Qed.
Lemma ci_key_inj gpu gi x y : NewComputeInstanceCap gpu gi x = NewComputeInstanceCap gpu gi y -> x = y.
Proof.
  unfold NewComputeInstanceCap. intros He%sapp_inj_l%sapp_inj_l%sapp_inj_l%sapp_inj_l%sapp_inj_l%sapp_inj_r.
  by apply (inj pretty.pretty) in He.
Qed.

(** C20. The loops over the MIG instances of a GPU end for every table of
    capabilities, and list the device of each GPU instance, counted from 0 up
    to the first one that is missing, followed by those of its compute
    instances, counted the same way. *)
Theorem getNVCapDeviceNodes_spec (m : devchar.allPossible) (gpu : Z) : exists (n : nat) (per : Z -> nat),
  let caps := devchar.migCaps m in
  counts caps (NewGPUInstanceCap gpu) 0 n /\ (forall gi, counts caps (NewComputeInstanceCap gpu gi) 0 (per gi)) /\
  devchar.getNVCapDeviceNodes m gpu
  = map (fun minor => devchar.newDeviceNode m NVIDIACaps (MigMinor_DevicePath minor) minor)
      (concat (map (fun gi => key_from caps (NewGPUInstanceCap gpu) 0 gi ::
                      map (key_from caps (NewComputeInstanceCap gpu (Z.of_nat gi)) 0) (seq 0 (per (Z.of_nat gi)))) (seq 0 n))).
Proof.
  destruct (counts_exists (devchar.migCaps m) (NewGPUInstanceCap gpu) 0 (gi_key_inj gpu)) as (n & Hn & Hc).
  assert (Hper : forall gi, { k | (k <= size (devchar.migCaps m))%nat /\ counts (devchar.migCaps m) (NewComputeInstanceCap gpu gi) 0 k }).
  { intros gi. set (caps := devchar.migCaps m) in *. set (P := fun k => (k <= size caps)%nat /\ counts caps (NewComputeInstanceCap gpu gi) 0 k).
    exists (length (devchar.compute_loop caps gpu gi (S (size caps)) 0)).
    destruct (counts_exists caps (NewComputeInstanceCap gpu gi) 0 (ci_key_inj gpu gi)) as (k & Hk & Hck).
    rewrite (compute_loop_spec caps gpu gi _ 0 k) by (done || lia). by rewrite length_map, length_seq. }
  exists n, (fun gi => proj1_sig (Hper gi)). cbv zeta. split; [done|]. split; [intros gi; by destruct (proj2_sig (Hper gi))|].
  unfold devchar.getNVCapDeviceNodes. f_equal.
  rewrite (instance_loop_spec _ gpu _ 0 n (fun gi => proj1_sig (Hper gi)) Hc); [done|lia|].
  intros gi. exact (proj2_sig (Hper gi)).
Qed.

(** ** Links *)

Lemma devCharName_proper d : proper (devchar.devCharName d).
Proof.
  unfold devchar.devCharName. destruct (fmt_Z_cons (devchar.major d)) as (c & s & Hc & _).
  assert (Hs : forall z, has_byte slash (fmt_Z z) = false) by (intros z; by apply (string_all_free _ _ _ (fmt_Z_num z))).
  assert (Hcolon : has_byte ":" (fmt_Z (devchar.major d) +:+ ":" +:+ fmt_Z (devchar.minor d)) = true).
  { rewrite has_byte_app. apply orb_true_iff. by right. }
  split_and!; try (intros E; rewrite E in Hcolon; done).
  by rewrite !has_byte_app, !Hs.
Qed.
Definition links (cs : list string) (nodes : list devchar.deviceNode) : list (list string * node) :=
  map (fun d => (cs ++ [devchar.devCharName d], LinkNode (devchar.path d))) nodes.
Definition listed `{PCI} (env : string -> option string) (m : devchar.linkCreator) (f : fs) : result (list devchar.deviceNode) :=
  match devchar.lister m with devchar.all a => devchar.all_DeviceNodes a | devchar.existing root => Ok (devchar.existing_DeviceNodes env root f) end.

(** Once its directory is made, [CreateLinks] adds for every listed device
    node a link with its numbers to its path, where nothing has that name (the
    first of two nodes with the same numbers wins), and changes nothing else. *)
Theorem CreateLinks_adds `{PCI} (env : string -> option string) (m : devchar.linkCreator) (f f1 : fs) (cs : list string) (nodes : list devchar.deviceNode)
    (Hdry : devchar.dryRun m = false) (Hpath : devchar.devCharPath m = abs_path cs) (Hcs : Forall proper cs)
    (Hwf : well_formed f) (Hl : no_link f cs) (Hn : listed env m f = Ok nodes) (Hne : nodes <> [])
    (Hm : sys_MkdirAll 493 (abs_path cs) f = (inr tt, f1)) :
  devchar.CreateLinks env m f = (None, f1 ∪ list_to_map (links cs nodes)).
Proof.
  destruct (mkdir_ready f cs Hwf Hcs Hl f1 Hm) as [Hr _].
  unfold devchar.CreateLinks. unfold listed in Hn. rewrite Hn, Hdry, Hpath.
  assert (Nat.eqb (length nodes) 0 = false) as -> by (apply Nat.eqb_neq; by destruct nodes). cbn [negb andb]. rewrite Hm. f_equal.
  clear Hn Hne Hm. revert f1 Hr. induction nodes as [|d nodes IH]; intros f1 Hr; [cbn; by rewrite (right_id_L ∅ (∪))|].
  cbn [foldl links map list_to_map foldr]. assert (Hlink : devchar.link_node m f1 d = f1 ∪ {[cs ++ [devchar.devCharName d] := LinkNode (devchar.path d)]}).
  { unfold devchar.link_node. rewrite Hdry, Hpath, join_child, <- add_missing by (done || apply devCharName_proper).
    destruct Hr as (Hwf1 & Hl1 & k & Hk). unfold sys_Symlink, sys_create.
    rewrite (resolve_below f1 cs _ k Hwf1) by first [done|apply child_proper; [done|apply devCharName_proper]].
    rewrite node_at_ne by apply snoc_ne. by destruct (f1 !! _). }
  rewrite Hlink, IH by by apply ready_union. rewrite <- (assoc_L (∪)). f_equal. by rewrite insert_union_singleton_l.
Qed.
#[local] Instance one_GPU : PCI := fun _ => Ok 1%nat.
Definition lab_creator : devchar.linkCreator :=
  devchar.mkCreator (devchar.all (devchar.mkAll "/" lab_devices ∅)) "/" "/" "/dev/char" false.
Definition lab_nodes : list devchar.deviceNode := ok_or [] (listed no_env lab_creator ∅).
Definition lab_char : fs := (sys_MkdirAll 493 "/dev/char" (map_of_nodes [])).2.
Lemma CreateLinks_adds_witness : exists f', devchar.CreateLinks no_env lab_creator (map_of_nodes []) = (None, f') /\
  f' !! ["dev"; "char"; "195:0"] = Some (LinkNode "/dev/nvidia0").
Proof.
  exists (lab_char ∪ list_to_map (links ["dev"; "char"] lab_nodes)). split.
  - apply (CreateLinks_adds no_env lab_creator (map_of_nodes []) lab_char ["dev"; "char"] lab_nodes); try reflexivity.
    + apply (bool_decide_unpack _). vm_compute. exact I.
    + apply well_formed_b_true. vm_compute. reflexivity.
    + apply no_link_b_true. vm_compute. reflexivity.
    + intros E. apply (f_equal length) in E. vm_compute in E. done.
  - vm_compute. reflexivity.
Defined.
(** The driver root that the command is given is not the root of the nodes. *)
Lemma devRoot_is_root `{Commands} c f l f' : devchar.NewSymlinkCreator c f = Some (Ok l, f') -> devchar.devRoot l = "/".
Proof.
  unfold devchar.NewSymlinkCreator. destruct (devchar.setup _ _ _ _) as [[[e|] g]|]; [done| |done]. cbn [mbind option_bind].
  destruct (devchar.createAll c); [|by intros [= <- <-]].
  destruct (devchar.newAllPossible _ _) as [[a|e]|]; [|done..]. cbn. by intros [= <- <-].
Qed.
(** Without /proc/devices every device node panics. *)
Lemma no_majors_panics m node f : nvdevices.Devices m = None -> node ∈ nvdevices.controlNodes -> nvdevices.CreateNVIDIADevice m node f = None.
Proof.
  intros Hm Hn. unfold nvdevices.CreateNVIDIADevice, nvdevices.Major. rewrite Hm. unfold nvdevices.controlNodes in Hn.
  repeat (apply elem_of_cons in Hn as [-> | Hn]; [by vm_compute|]). by apply not_elem_of_nil in Hn.
Qed.
