(* ===== verification/Toolkit.v ===== *)
(** * The toolkit installer (src/cmd/nvidia-ctk-installer/toolkit/toolkit.go)

    The validation of the options and the installation of the toolkit: its
    components, its configuration, the control device nodes and the CDI
    specification for management containers. The generator of the
    specification and the cache that writes it are interfaces. *)
From S2P Require Import Prelude GoStrings GoPaths Lookup ProcInfo CDIParser CDISpec RootTransform SpecBuilder NvcdiOptions Config FileSystem OsFiles Toml InstallerRuntimes ToolkitInstaller SystemDevices.

(** ** Options *)

Record cdiOptions := mkCdiOptions { Enabled : bool; outputDir : string; kind : string; cdi_vendor : string; cdi_class : string }.
Record Options := mkOptions {
  DriverRoot : string; DevRoot : string; DriverRootCtrPath : string; DevRootCtrPath : string;
  ContainerRuntimeMode : string; ContainerRuntimeDebug : string; ContainerRuntimeLogLevel : string;
  ContainerRuntimeModesCdiDefaultKind : string; ContainerRuntimeModesCDIAnnotationPrefixes : list string;
  ContainerRuntimeRuntimes : list string; ContainerRuntimeHookSkipModeDetection : bool; ContainerCLIDebug : string;
  CDI : cdiOptions; createDeviceNodes_modes : list string;
  acceptNVIDIAVisibleDevicesWhenUnprivileged : bool; acceptNVIDIAVisibleDevicesAsVolumeMounts : bool;
  ignore_errors : bool; optInFeatures : list string;
}.
Definition with_validated (c : cdiOptions) (modes : list string) (o : Options) : Options :=
  mkOptions (DriverRoot o) (DevRoot o) (DriverRootCtrPath o) (DevRootCtrPath o) (ContainerRuntimeMode o) (ContainerRuntimeDebug o)
    (ContainerRuntimeLogLevel o) (ContainerRuntimeModesCdiDefaultKind o) (ContainerRuntimeModesCDIAnnotationPrefixes o)
    (ContainerRuntimeRuntimes o) (ContainerRuntimeHookSkipModeDetection o) (ContainerCLIDebug o) c modes
    (acceptNVIDIAVisibleDevicesWhenUnprivileged o) (acceptNVIDIAVisibleDevicesAsVolumeMounts o) (ignore_errors o) (optInFeatures o).
Definition with_runtimes (rs : list string) (o : Options) : Options :=
  mkOptions (DriverRoot o) (DevRoot o) (DriverRootCtrPath o) (DevRootCtrPath o) (ContainerRuntimeMode o) (ContainerRuntimeDebug o)
    (ContainerRuntimeLogLevel o) (ContainerRuntimeModesCdiDefaultKind o) (ContainerRuntimeModesCDIAnnotationPrefixes o)
    rs (ContainerRuntimeHookSkipModeDetection o) (ContainerCLIDebug o) (CDI o) (createDeviceNodes_modes o)
    (acceptNVIDIAVisibleDevicesWhenUnprivileged o) (acceptNVIDIAVisibleDevicesAsVolumeMounts o) (ignore_errors o) (optInFeatures o).

(** The installer; [NewInstaller] derives the path of the configuration. *)
Record Installer := mkToolkit { sourceRoot : string; toolkitRoot : string; toolkitConfigFilePath : string }.
Definition NewInstaller (sourceRoot toolkitRoot : string) : Installer :=
  mkToolkit sourceRoot toolkitRoot
    (if Nat.ltb 0 (String.length toolkitRoot) then path_join [toolkitRoot; ".config"; "nvidia-container-runtime"; "config.toml"] else "").

(** ** [ValidateOptions] *)

(** The loop over the modes: whether the creation of nodes is disabled. *)
Fixpoint modes_loop (modes : list string) : result bool :=
  match modes with
  | [] => Ok false
  | mode :: modes =>
      if negb (String.eqb mode "") && negb (String.eqb mode "none") && negb (String.eqb mode "control")
      then Err ("invalid --create-device-nodes value: " +:+ mode)
      else if String.eqb mode "" || String.eqb mode "none" then Ok true
      else modes_loop modes
  end.
(** The text of the error of a name is the parser's; the validation of a name
    of one letter panics. *)
Definition ValidateOptions (t : Installer) (o : Options) : may_panic (result Options) :=
  if String.eqb (toolkitRoot t) "" then Some (Err "invalid --toolkit-root option: ")
  else
    let '(vendor, class) := ParseQualifier (kind (CDI o)) in
    v ← validateVendorOrClassName vendor;
    if negb v then Some (Err "invalid CDI vendor name")
    else
      c ← validateVendorOrClassName class;
      if negb c then Some (Err "invalid CDI class name")
      else
        let enabled := Enabled (CDI o) && negb (String.eqb (outputDir (CDI o)) "") in
        Some (let? disabled := modes_loop (createDeviceNodes_modes o) in
              let disabled := disabled || negb enabled in
              Ok (with_validated (mkCdiOptions enabled (outputDir (CDI o)) (kind (CDI o)) vendor class)
                    (if disabled then [] else createDeviceNodes_modes o) o)).

(** ** The configuration of the toolkit *)

Section Config.
Context `{Toml, MapRange} (env : string -> option string).
(** The library's [Marshal] of a configuration and [Unmarshal] of a text into
    one; which options were given on the command line. *)
Context (marshal : Config -> result string) (unmarshal : string -> Config -> result Config) (is_set : string -> bool).

(** [config.New] without a file, and with one that is required. *)
Definition default_config (f : fs) : Config := GetDefault (H := fs_host env f) (H0 := fs_files f).
Definition defaultToml (f : fs) : result (gmap string item) := let? text := marshal (default_config f) in toml_Load text.
Definition GetInstalledConfig (t : Installer) (f : fs) : result Config :=
  let msg := "error loading installed toolkit config file" in
  let? text := match sys_Stat f (toolkitConfigFilePath t) with
    | inl ENOENT => Err (msg +:+ ": file does not exist")
    | inl e => Err (msg +:+ ": failed to load specified config file: " +:+ path_error "open" (toolkitConfigFilePath t) e)
    | inr (DirNode _) => Err (msg +:+ ": " +:+ path_error "read" (toolkitConfigFilePath t) EISDIR)
    | inr n => Ok (node_content n)
    end in
  let? _ := wrap msg (toml_Load text) in
  let? cfg := wrap "failed to unmarshal config" (unmarshal text (default_config f)) in
  let? _ := Config_assertValid cfg in Ok cfg.

(** [Toml.Set]: the key is split at the dots. *)
Definition Set_ (cfg : gmap string item) (key : string) (v : value) : gmap string item := set_path (split "." key) (IVal v) cfg.
Definition set_all (m : gmap string value) (cfg : gmap string item) : gmap string item :=
  foldl (fun cfg kv => Set_ cfg kv.1 kv.2) cfg (range m).
(** [nvidia-container-cli.ldconfig] is a string in the default configuration. *)
Definition driver_ldconfig (o : Options) (f : fs) (cfg : gmap string item) : string :=
  let ldconfigPath := default "/sbin/ldconfig" (as_string (get_path ["nvidia-container-cli"; "ldconfig"] cfg)) in
  normalize (H := fs_host env f) ("@" +:+ path_join [DriverRoot o; trim_prefix ldconfigPath "@/"]).
Definition configValues (t : Installer) (o : Options) (ldconfig : string) : gmap string value :=
  let values : gmap string value := list_to_map
    [("accept-nvidia-visible-devices-envvar-when-unprivileged", VBool (acceptNVIDIAVisibleDevicesWhenUnprivileged o));
     ("accept-nvidia-visible-devices-as-volume-mounts", VBool (acceptNVIDIAVisibleDevicesAsVolumeMounts o));
     ("nvidia-container-cli.root", VStr (DriverRoot o));
     ("nvidia-container-cli.path", VStr (path_join [toolkitRoot t; "nvidia-container-cli"]));
     ("nvidia-container-cli.ldconfig", VStr ldconfig);
     ("nvidia-ctk.path", VStr (path_join [toolkitRoot t; "nvidia-ctk"]));
     ("nvidia-container-runtime-hook.path", VStr (path_join [toolkitRoot t; "nvidia-container-runtime-hook"]));
     ("nvidia-container-runtime-hook.skip-mode-detection", VBool (ContainerRuntimeHookSkipModeDetection o))] in
  let values := if Nat.ltb 0 (length (ContainerRuntimeRuntimes o))
                then <["nvidia-container-runtime.runtimes" := VStrs (ContainerRuntimeRuntimes o)]> values else values in
  foldl (fun m feature => <["features." +:+ feature := VBool true]> m) values (optInFeatures o).
(** The optional values that are given and are not the empty string; the case
    for lists of the type switch is never taken, so that they are set also when
    they are empty. *)
Definition given (kv : string * value) : bool := is_set kv.1 && match kv.2 with VStr "" => false | _ => true end.
Definition optionalConfigValues (o : Options) : gmap string value :=
  base.filter (fun kv : string * value => given kv = true) (list_to_map
    [("nvidia-container-runtime.debug", VStr (ContainerRuntimeDebug o));
     ("nvidia-container-runtime.log-level", VStr (ContainerRuntimeLogLevel o));
     ("nvidia-container-runtime.mode", VStr (ContainerRuntimeMode o));
     ("nvidia-container-runtime.modes.cdi.annotation-prefixes", VStrs (ContainerRuntimeModesCDIAnnotationPrefixes o));
     ("nvidia-container-runtime.modes.cdi.default-kind", VStr (ContainerRuntimeModesCdiDefaultKind o));
     ("nvidia-container-runtime.runtimes", VStrs (ContainerRuntimeRuntimes o));
     ("nvidia-container-cli.debug", VStr (ContainerCLIDebug o))] : gmap string value).
Definition toolkit_config (t : Installer) (o : Options) (f : fs) (cfg : gmap string item) : gmap string item :=
  set_all (optionalConfigValues o) (set_all (configValues t o (driver_ldconfig o f cfg)) cfg).

(** The file is created before it is known what to write to it. The text is
    also written to the standard output. *)
Definition write_config (t : Installer) (o : Options) (w : world) : option string * world :=
  match defaultToml (files w) with
  | Err e => (Some ("could not open source config file: " +:+ e), w)
  | Ok cfg =>
      match sys_write_file "" (toolkitConfigFilePath t) (files w) with
      | inl e => (Some ("could not create target config file: " +:+ path_error "open" (toolkitConfigFilePath t) e), w)
      | inr f =>
          match toml_Marshal (toolkit_config t o f cfg) with
          | Err e => (Some ("error writing config: " +:+ e), with_files f w)
          | Ok text =>
              match sys_write_file text (toolkitConfigFilePath t) f with
              | inl e => (Some ("error writing config: " +:+ path_error "write" (toolkitConfigFilePath t) e), with_files f w)
              | inr f => (None, print text (print ("Using config:" +:+ newline) (with_files f w)))
              end
          end
      end
  end.
Definition installToolkitConfig (t : Installer) (o : Options) (w : world) : option string * world :=
  let dir := path_dir (toolkitConfigFilePath t) in
  let '(r, f) := sys_MkdirAll 493 dir (files w) in
  let w := with_files f w in
  match r with
  | inl e =>
      if ignore_errors o then write_config t o w
      else (Some ("could not create required directories: error creating directory: " +:+ path_error "mkdir" dir e), w)
  | inr _ => write_config t o w
  end.
End Config.

(** ** Device nodes *)

(** Other modes than [control] are skipped with a warning. *)
Fixpoint create_modes (m : nvdevices.Interface) (modes : list string) (f : fs) : operation :=
  match modes with
  | [] => Some (None, f)
  | mode :: modes =>
      if negb (String.eqb mode "control") then create_modes m modes f
      else
        '(e, f) ← nvdevices.CreateNVIDIAControlDevices m f;
        match e with
        | Some e => Some (Some ("failed to create control device nodes: " +:+ e), f)
        | None => create_modes m modes f
        end
  end.
Definition createDeviceNodes (o : Options) (f : fs) : operation :=
  match createDeviceNodes_modes o with
  | [] => Some (None, f)
  | modes =>
      match nvdevices.New false (DevRootCtrPath o) f with
      | Err e => Some (Some ("failed to create library: " +:+ e), f)
      | Ok m => create_modes m modes f
      end
  end.

(** ** The specification for management containers *)

(** [nvcdi.New] and, inside, [GetSpec] on the files of the host; the write of
    a specification by the CDI cache; [os.Getwd]. *)
Class CDILibrary := {
  os_Getwd : result string;
  cdi_GetSpec : list NvcdiOptions.Option_ -> fs -> may_panic (result (result built));
  cache_WriteSpec : spec -> string -> string -> fs -> option string * fs;
}.

(** Every entity of the specification has an address of its own. *)
Definition alloc_edits (n : nat) (e : edits) (h : heap) : pedits * nat * heap :=
  let nodes := seq n (length (DeviceNodes e)) in
  let hooks := seq n (length (Hooks e)) in
  let mounts := seq n (length (Mounts e)) in
  (mkEdits (Env e) nodes (NetDevices e) hooks mounts (IntelRdt_ e) (AdditionalGIDs e),
   n + length (DeviceNodes e) + length (Hooks e) + length (Mounts e),
   mkHeap (list_to_map (zip nodes (DeviceNodes e)) ∪ node_heap h) (list_to_map (zip hooks (Hooks e)) ∪ hook_heap h)
     (list_to_map (zip mounts (Mounts e)) ∪ mount_heap h)).
Fixpoint alloc_devices (n : nat) (ds : list device) (h : heap) : list (Device loc loc loc) * nat * heap :=
  match ds with
  | [] => ([], n, h)
  | d :: ds =>
      let '(e, n, h) := alloc_edits n (Device_Edits d) h in
      let '(ds, n, h) := alloc_devices n ds h in
      (mkDevice (Device_Name d) (Device_Annotations d) e :: ds, n, h)
  end.
Definition alloc (s : spec) : pspec * heap :=
  let '(ds, n, h) := alloc_devices 0 (Devices s) (mkHeap ∅ ∅ ∅) in
  let '(e, _, h) := alloc_edits n (Spec_Edits s) h in
  (mkSpec (Version s) (Kind s) (Annotations s) ds e, h).
Definition read_edits (h : heap) (e : pedits) : edits :=
  mkEdits (Env e) (omap (fun l => node_heap h !! l) (DeviceNodes e)) (NetDevices e) (omap (fun l => hook_heap h !! l) (Hooks e))
    (omap (fun l => mount_heap h !! l) (Mounts e)) (IntelRdt_ e) (AdditionalGIDs e).
Definition read_spec (h : heap) (s : pspec) : spec :=
  mkSpec (Version s) (Kind s) (Annotations s)
    (map (fun d => mkDevice (Device_Name d) (Device_Annotations d) (read_edits h (Device_Edits d))) (Devices s)) (read_edits h (Spec_Edits s)).
Definition transform_spec (ts : list RootTransformer) (s : spec) : spec :=
  let '(p, h) := alloc s in read_spec (Transform_all ts p h) p.

(** [cdi.GenerateNameForSpec] *)
Definition GenerateNameForSpec (s : spec) : result string :=
  let '(vendor, class) := ParseQualifier (Kind s) in
  if String.eqb vendor "" then Err ("invalid vendor/class " +:+ quote (Kind s) +:+ " in Spec") else Ok (vendor +:+ "-" +:+ class).
(** [Save] *)
Definition spec_Save `{CDILibrary, MapRange} (b : built) (path : string) (f : fs) : option string * fs :=
  match save_request os_Getwd b path with
  | Err e => (Some e, f)
  | Ok (s, (dir, filename)) =>
      match cache_WriteSpec s dir filename f with
      | (Some e, f) => (Some ("failed to write spec: " +:+ e), f)
      | (None, f) =>
          match sys_Chmod (built_permissions b) (path_join [dir; filename]) f with
          | inl e => (Some ("failed to set permissions on spec file: " +:+ path_error "chmodat" filename e), f)
          | inr f => (None, f)
          end
      end
  end.
Definition cdi_lib_options (o : Options) (nvidiaCDIHookPath : string) : list NvcdiOptions.Option_ :=
  [NvcdiOptions.WithMode ModeManagement; NvcdiOptions.WithDriverRoot (DriverRootCtrPath o); NvcdiOptions.WithDevRoot (DevRootCtrPath o);
   NvcdiOptions.WithNVIDIACDIHookPath nvidiaCDIHookPath; NvcdiOptions.WithVendor (cdi_vendor (CDI o)); NvcdiOptions.WithClass (cdi_class (CDI o))].
Definition driver_transformer (o : Options) : list RootTransformer :=
  NewDriverTransformer [RootTransform.WithDriverRoot (DriverRootCtrPath o); RootTransform.WithTargetDriverRoot (DriverRoot o);
    RootTransform.WithDevRoot (DevRootCtrPath o); RootTransform.WithTargetDevRoot (DevRoot o)].
Definition generateCDISpec `{CDILibrary, MapRange} (o : Options) (nvidiaCDIHookPath : string) (f : fs) : operation :=
  if negb (Enabled (CDI o)) then Some (None, f)
  else
    r ← cdi_GetSpec (cdi_lib_options o nvidiaCDIHookPath) f;
    Some match r with
         | Err e => (Some ("failed to create CDI library for management containers: " +:+ e), f)
         | Ok (Err e) => (Some ("failed to genereate CDI spec for management containers: " +:+ e), f)
         | Ok (Ok b) =>
             let b := mkBuilt (transform_spec (driver_transformer o) (Raw b)) (built_format b) (built_permissions b) (built_transformOnSave b) in
             match GenerateNameForSpec (Raw b) with
             | Err e => (Some ("failed to generate CDI name for management containers: " +:+ e), f)
             | Ok name => wrap_error "failed to save CDI spec for management containers" (spec_Save b (path_join [outputDir (CDI o); name]) f)
             end
         end.

(** ** [Install] *)

Section Install.
Context `{Toml, MapRange, CDILibrary} (env : string -> option string) (marshal : Config -> result string) (is_set : string -> bool).
Definition default_runtime (o : Options) (runtime : string) : string :=
  let first := hd "" (ContainerRuntimeRuntimes o) in
  if String.eqb first "" then (if String.eqb runtime "crio" then "crun" else "runc") else first.
(** An error ends the installation unless errors are ignored. *)
Definition unless_ignored (o : Options) (msg : string) (e : option string) (w : world) (k : world -> may_panic (option string * world))
  : may_panic (option string * world) :=
  match e with
  | Some e => if ignore_errors o then k w else Some (Some (msg +:+ ": " +:+ e), w)
  | None => k w
  end.
Definition toolkit_components (t : Installer) (o : Options) (runtime : string) (f : fs) : option string * fs :=
  toolkit_Install (New (H := fs_host env f) (Some (sourceRoot t)) (ignore_errors o) (default_runtime o runtime)) (toolkitRoot t) f.
Definition Install (t : Installer) (o : Options) (runtime : string) (w : world) : may_panic (option string * world) :=
  let '(r, f) := sys_RemoveAll (toolkitRoot t) (files w) in
  unless_ignored o "error removing toolkit directory" (match r with inl e => Some (path_error "unlinkat" (toolkitRoot t) e) | inr _ => None end)
    (with_files f w) (fun w =>
  let '(e, f) := toolkit_components t o runtime (files w) in
  unless_ignored o "could not install toolkit components" e (with_files f w) (fun w =>
  let '(e, w) := installToolkitConfig env marshal is_set t o w in
  unless_ignored o "error installing NVIDIA container toolkit config" e w (fun w =>
  '(e, f) ← createDeviceNodes o (files w);
  unless_ignored o "error creating device nodes" e (with_files f w) (fun w =>
  '(e, f) ← generateCDISpec o (path_join [toolkitRoot t; "nvidia-cdi-hook"]) (files w);
  unless_ignored o "error generating CDI specification" e (with_files f w) (fun w => Some (None, w)))))).
End Install.
