(* ===== verification/ToolkitProps.v ===== *)
(** * Properties of the toolkit installer *)
From S2P Require Import Prelude GoStrings GoPaths Lookup ProcInfo CDIParser Config FileSystem OsFiles Toml InstallerRuntimes ToolkitInstaller ToolkitInstallerProps SystemDevices Toolkit.

(** ** The options *)

(** Options that are accepted name a valid CDI vendor and class, a
    specification is only enabled with a directory to write it to, and device
    nodes are only created together with it and only for the control devices. *)
Theorem ValidateOptions_spec (t : Installer) (o o' : Options) (H : ValidateOptions t o = Some (Ok o')) :
  toolkitRoot t <> "" /\
  (cdi_vendor (CDI o'), cdi_class (CDI o')) = ParseQualifier (kind (CDI o)) /\
  validateVendorOrClassName (cdi_vendor (CDI o')) = Some true /\ validateVendorOrClassName (cdi_class (CDI o')) = Some true /\
  (Enabled (CDI o') = true -> Enabled (CDI o) = true /\ outputDir (CDI o') <> "") /\
  (createDeviceNodes_modes o' <> [] -> Enabled (CDI o') = true /\ createDeviceNodes_modes o' = createDeviceNodes_modes o /\
     Forall (fun m => m = "control") (createDeviceNodes_modes o')).
Proof.
  unfold ValidateOptions in H. destruct (String.eqb_spec (toolkitRoot t) "") as [|Hr]; [done|].
  destruct (ParseQualifier (kind (CDI o))) as [vendor class]. destruct (validateVendorOrClassName vendor) as [[]|] eqn:Hv; try done.
  cbn [mbind option_bind negb] in H. destruct (validateVendorOrClassName class) as [[]|] eqn:Hc; try done. cbn [mbind option_bind negb] in H.
  destruct (modes_loop (createDeviceNodes_modes o)) as [b|] eqn:Hm; [|done]. injection H as <-. cbn.
  split_and!; try done.
  - intros [He Hd]%andb_prop. split; [done|]. by destruct (String.eqb_spec (outputDir (CDI o)) "").
  - destruct b; [done|]. destruct (Enabled (CDI o) && negb (String.eqb (outputDir (CDI o)) "")); [|done]. cbn. intros _.
    split; [done|]. split; [done|]. revert Hm. induction (createDeviceNodes_modes o) as [|m ms IH]; [by constructor|]. cbn [modes_loop].
    destruct (String.eqb m ""), (String.eqb m "none"), (String.eqb_spec m "control") as [->|]; cbn; try done. intros Hm. constructor; [done|by apply IH].
Qed.
Definition lab_options : Options :=
  mkOptions "/run/nvidia/driver" "" "/run/nvidia/driver" "" "" "" "" "" [] ["/usr/bin/runc"] true "" (mkCdiOptions true "/var/run/cdi" "management.nvidia.com/gpu" "" "")
    ["control"] true false false [].
Lemma ValidateOptions_spec_witness : exists o', ValidateOptions (NewInstaller "/artifacts" "/usr/local/nvidia/toolkit") lab_options = Some (Ok o') /\
  cdi_vendor (CDI o') = "management.nvidia.com" /\ Enabled (CDI o') = true.
Proof.
  eexists. split; [vm_compute; reflexivity|].
  match goal with |- cdi_vendor (CDI ?o') = _ /\ _ =>
    destruct (ValidateOptions_spec (NewInstaller "/artifacts" "/usr/local/nvidia/toolkit") lab_options o' ltac:(vm_compute; reflexivity)) as (_ & Hk & _) end.
  split; [exact (f_equal fst Hk)|reflexivity].
Defined.

(** The modes are rejected exactly when one that is unknown comes before any
    that disables the creation of device nodes. *)
Lemma modes_loop_error modes :
  (exists e, modes_loop modes = Err e) <->
  exists pre m post, modes = pre ++ m :: post /\ Forall (fun m => m = "control") pre /\ m ∉ [""; "none"; "control"].
Proof.
  induction modes as [|m modes IH].
  { split; [by intros [e [=]]|]. intros (pre & m & post & E%app_cons_not_nil & _). done. }
  cbn [modes_loop]. destruct (decide (m = "control")) as [->|Hc].
  - split.
    + intros (pre & m & post & -> & Hpre & Hm)%IH. exists ("control" :: pre), m, post. by repeat split; try constructor.
    + intros (pre & m & post & E & Hpre & Hm). apply IH. destruct pre as [|m' pre]; injection E as <- E; [set_solver|].
      exists pre, m, post. apply Forall_cons in Hpre as [_ Hpre]. done.
  - destruct (String.eqb_spec m "") as [->|Hm1]; [|destruct (String.eqb_spec m "none") as [->|Hm2]];
      [..|rewrite (proj2 (String.eqb_neq m "control")) by done]; cbn.
    1, 2: split; [by intros [e [=]]|]; intros ([|m' pre] & m & post & E & Hpre & Hm); injection E as <- E; [set_solver|by apply Forall_cons in Hpre as [[=] _]].
    split; [|by intros _; eexists]. intros _. exists [], m, modes. repeat split; [by constructor|set_solver].
Qed.

(** C16. Options are rejected in exactly four cases: there is no toolkit root,
    the vendor or the class of the CDI kind is not a valid name, or a mode
    other than [control] comes before any that disables the creation of device
    nodes. Modes after one that disables it are not looked at. *)
Theorem ValidateOptions_errors (t : Installer) (o : Options) :
  let vendor := validateVendorOrClassName (ParseQualifier (kind (CDI o))).1 in
  let class := validateVendorOrClassName (ParseQualifier (kind (CDI o))).2 in
  (exists e, ValidateOptions t o = Some (Err e)) <->
  toolkitRoot t = "" \/
  toolkitRoot t <> "" /\ (vendor = Some false \/
    vendor = Some true /\ (class = Some false \/
      class = Some true /\
        exists pre m post, createDeviceNodes_modes o = pre ++ m :: post /\ Forall (fun m => m = "control") pre /\ m ∉ [""; "none"; "control"])).
Proof.
  cbv zeta. rewrite <- modes_loop_error. unfold ValidateOptions. destruct (String.eqb_spec (toolkitRoot t) "") as [Hr|Hr].
  { split; [by left|by eexists]. }
  destruct (ParseQualifier (kind (CDI o))) as [vendor class]. cbn [fst snd].
  destruct (validateVendorOrClassName vendor) as [[]|]; cbn [mbind option_bind negb]; [|naive_solver..].
  destruct (validateVendorOrClassName class) as [[]|]; cbn [mbind option_bind negb]; [|naive_solver..].
  destruct (modes_loop (createDeviceNodes_modes o)); naive_solver.
Qed.

(** ** The configuration *)

Section Config.
Context `{Toml, MapRange}.
(** The keys of a table of values can all be set, in any order. *)
Definition settable (m : gmap string value) (cfg : gmap string item) : Prop :=
  (forall k v, m !! k = Some v -> clear (split "." k) cfg = true) /\
  (forall k v k' v', m !! k = Some v -> m !! k' = Some v' -> k <> k' -> apart (split "." k) (split "." k') = true).

Lemma set_list_spec (l : list (string * value)) cfg : NoDup l.*1 ->
  (forall k v, (k, v) ∈ l -> clear (split "." k) cfg = true) ->
  (forall k v k' v', (k, v) ∈ l -> (k', v') ∈ l -> k <> k' -> apart (split "." k) (split "." k') = true) ->
  let cfg' := foldl (fun cfg kv => Set_ cfg kv.1 kv.2) cfg l in
  (forall k v, (k, v) ∈ l -> get_path (split "." k) cfg' = Some (IVal v)) /\
  (forall q, (forall k v, (k, v) ∈ l -> apart (split "." k) q = true) -> get_path q cfg' = get_path q cfg) /\
  (forall q, q <> [] -> clear q cfg = true -> (forall k v, (k, v) ∈ l -> apart (split "." k) q = true \/ split "." k = q) -> clear q cfg' = true).
Proof using Type.
  revert cfg. induction l as [|[k v] l IH]; intros cfg Hnd Hc Ha; cbv zeta; cbn [foldl fst snd].
  { split; [by intros k v []%not_elem_of_nil|]. by split. }
  apply NoDup_cons in Hnd as [Hk Hnd]. cbn [fst snd] in *.
  assert (Hck : clear (split "." k) cfg = true) by (apply (Hc k v); by left).
  assert (Hother : forall k' v', (k', v') ∈ l -> apart (split "." k) (split "." k') = true).
  { intros k' v' Hin. apply (Ha k v k' v'); [by left|by right|]. intros <-. apply Hk. apply list_elem_of_fmap. by exists (k, v'). }
  destruct (IH (Set_ cfg k v) Hnd) as (H1 & H2 & H3).
  { intros k' v' Hin. unfold Set_. rewrite clear_set_apart; [|done|by eapply Hother]. apply (Hc k' v'). by right. }
  { intros k1 v1 k2 v2 Hin1 Hin2. apply (Ha k1 v1 k2 v2); by right. }
  split_and!.
  - intros k' v' [[= -> ->]|Hin]%elem_of_cons; [|by apply H1]. rewrite H2.
    + unfold Set_. by apply get_set_same.
    + intros k' v' Hin. rewrite apart_sym. by eapply Hother.
  - intros q Hq. rewrite H2; [|intros k' v' Hin; apply (Hq k' v'); by right]. unfold Set_. apply get_set_apart; [done|]. apply (Hq k v). by left.
  - intros q Hqne Hq Hor. apply H3; [done| |intros k' v' Hin; apply (Hor k' v'); by right].
    unfold Set_. destruct (Hor k v) as [Ha'|<-]; [by left|by rewrite clear_set_apart|]. apply clear_set_prefix; [done..|]. exists []. by rewrite app_nil_r.
Qed.

Lemma set_all_spec m cfg : settable m cfg ->
  (forall k v, m !! k = Some v -> get_path (split "." k) (set_all m cfg) = Some (IVal v)) /\
  (forall q, (forall k v, m !! k = Some v -> apart (split "." k) q = true) -> get_path q (set_all m cfg) = get_path q cfg) /\
  (forall q, q <> [] -> clear q cfg = true -> (forall k v, m !! k = Some v -> apart (split "." k) q = true \/ split "." k = q) -> clear q (set_all m cfg) = true).
Proof using Type.
  intros [Hc Ha]. destruct (set_list_spec (range m) cfg (NoDup_range m)) as (H1 & H2 & H3).
  - intros k v Hin%elem_of_range. by apply (Hc k v).
  - intros k v k' v' Hin%elem_of_range Hin'%elem_of_range. by apply (Ha k v k' v').
  - split_and!.
    + intros k v Hk. by apply H1, elem_of_range.
    + intros q Hq. apply H2. intros k v Hin%elem_of_range. by apply (Hq k v).
    + intros q Hne Hq Hor. apply H3; [done..|]. intros k v Hin%elem_of_range. by apply (Hor k v).
Qed.
End Config.

(** *** The keys that the installer sets *)

Definition config_keys : list string :=
  ["accept-nvidia-visible-devices-envvar-when-unprivileged"; "accept-nvidia-visible-devices-as-volume-mounts";
   "nvidia-container-cli.root"; "nvidia-container-cli.path"; "nvidia-container-cli.ldconfig"; "nvidia-ctk.path";
   "nvidia-container-runtime-hook.path"; "nvidia-container-runtime-hook.skip-mode-detection"; "nvidia-container-runtime.runtimes"].
Definition optional_keys : list string :=
  ["nvidia-container-runtime.debug"; "nvidia-container-runtime.log-level"; "nvidia-container-runtime.mode";
   "nvidia-container-runtime.modes.cdi.annotation-prefixes"; "nvidia-container-runtime.modes.cdi.default-kind";
   "nvidia-container-runtime.runtimes"; "nvidia-container-cli.debug"].
(** A key of the tables; a feature has no dot in its name. *)
Definition is_key (o : Options) (k : string) : Prop :=
  k ∈ config_keys ++ optional_keys \/ exists x, x ∈ optInFeatures o /\ k = "features." +:+ x.

Lemma split_ne sep s : split sep s <> [].
Proof. unfold split. destruct (String.length s); cbn [splitN]; [done|]. by destruct (cut sep s) as [[]|]. Qed.
Lemma split_feature x : has_byte "." x = false -> split "." ("features." +:+ x) = ["features"; x].
Proof.
  intros Hx. unfold split. change ("features." +:+ x) with ("features" +:+ String "." x). cbn [splitN].
  assert (cut "." ("features" +:+ String "." x) = Some ("features", x)) as -> by (by apply cut_byte_app).
  cbn [String.append String.length splitN]. apply cut_byte_none in Hx. by rewrite Hx.
Qed.
Lemma fixed_keys_apart k k' : k ∈ config_keys ++ optional_keys -> k' ∈ config_keys ++ optional_keys -> k <> k' ->
  apart (split "." k) (split "." k') = true.
Proof.
  intros Hk Hk' Hne.
  assert (Hall : forallb (fun a => forallb (fun b => String.eqb a b || apart (split "." a) (split "." b)) (config_keys ++ optional_keys))
    (config_keys ++ optional_keys) = true) by (vm_compute; reflexivity).
  rewrite forallb_forall in Hall. apply list_elem_of_In in Hk, Hk'. specialize (Hall k Hk). rewrite forallb_forall in Hall.
  specialize (Hall k' Hk'). apply orb_prop in Hall as [He|]; [|done]. by apply String.eqb_eq in He.
Qed.
Lemma fixed_not_feature k x : k ∈ config_keys ++ optional_keys -> apart (split "." k) ["features"; x] = true.
Proof.
  intros Hk. assert (Hall : forallb (fun a => match split "." a with h :: _ => negb (String.eqb h "features") | [] => false end)
    (config_keys ++ optional_keys) = true) by (vm_compute; reflexivity).
  rewrite forallb_forall in Hall. apply list_elem_of_In in Hk. specialize (Hall k Hk). destruct (split "." k) as [|h r]; [done|].
  apply negb_true_iff in Hall. cbn. by rewrite Hall.
Qed.
Lemma keys_apart o k k' : Forall (fun x => has_byte "." x = false) (optInFeatures o) -> is_key o k -> is_key o k' -> k <> k' ->
  apart (split "." k) (split "." k') = true.
Proof.
  intros Hf. rewrite Forall_forall in Hf. intros [Hk|(x & Hx & ->)] [Hk'|(y & Hy & ->)] Hne.
  - by apply fixed_keys_apart.
  - rewrite split_feature by by apply Hf. by apply fixed_not_feature.
  - rewrite split_feature, apart_sym by by apply Hf. by apply fixed_not_feature.
  - rewrite !split_feature by by apply Hf. rewrite apart_same. apply apart_diff. by intros ->.
Qed.
Lemma list_to_map_key {A} (l : list (string * A)) k v : (list_to_map l : gmap string A) !! k = Some v -> k ∈ l.*1.
Proof. intros Hk%elem_of_list_to_map_2. apply list_elem_of_fmap. by exists (k, v). Qed.
Lemma features_keys (fs : list string) (m : gmap string value) k v :
  foldl (fun m feature => <["features." +:+ feature := VBool true]> m) m fs !! k = Some v ->
  m !! k = Some v \/ exists x, x ∈ fs /\ k = "features." +:+ x.
Proof.
  revert m. induction fs as [|x fs IH]; intros m; cbn [foldl]; [by left|]. intros Hk.
  destruct (IH _ Hk) as [Hk'|(y & Hy & ->)]; [|right; exists y; split; [by right|done]].
  apply lookup_insert_Some in Hk' as [[<- _]|[_ Hk']]; [right; exists x; split; [by left|done]|by left].
Qed.
Lemma configValues_keys t o l k v : configValues t o l !! k = Some v -> is_key o k.
Proof.
  unfold configValues. intros [Hk|?]%features_keys; [left|by right]. apply elem_of_app. left.
  destruct (Nat.ltb _ _).
  - apply lookup_insert_Some in Hk as [[<- _]|[_ Hk]]; [unfold config_keys; set_solver|]. apply list_to_map_key in Hk. cbn in Hk. unfold config_keys. set_solver.
  - apply list_to_map_key in Hk. cbn in Hk. unfold config_keys. set_solver.
Qed.
Lemma optional_keys_in is_set o k v : optionalConfigValues is_set o !! k = Some v -> is_key o k.
Proof.
  unfold optionalConfigValues. intros [Hk _]%map_lookup_filter_Some. left. apply elem_of_app. right.
  by apply list_to_map_key in Hk.
Qed.

(** C15. The configuration that is written holds, in whatever order the code
    visits its two tables, every optional value that was given, every other
    value of the installation, and at every other path what the default
    configuration has; provided nothing in the default configuration is in the
    way of a key, and the names of features have no dots. *)
Theorem toolkit_config_values `{Toml, MapRange} (env : string -> option string) (is_set : string -> bool)
    (t : Installer) (o : Options) (f : fs) (cfg : gmap string item)
    (Hf : Forall (fun x => has_byte "." x = false) (optInFeatures o))
    (Hc : forall k, is_key o k -> clear (split "." k) cfg = true) :
  let values := configValues t o (driver_ldconfig env o f cfg) in
  let cfg' := toolkit_config env is_set t o f cfg in
  (forall k v, optionalConfigValues is_set o !! k = Some v -> get_path (split "." k) cfg' = Some (IVal v)) /\
  (forall k v, values !! k = Some v -> optionalConfigValues is_set o !! k = None -> get_path (split "." k) cfg' = Some (IVal v)) /\
  (forall q, (forall k, is_key o k -> apart (split "." k) q = true) -> get_path q cfg' = get_path q cfg).
Proof.
  cbv zeta. unfold toolkit_config. set (values := configValues t o _). set (opts := optionalConfigValues is_set o).
  assert (Hv : settable values cfg).
  { split; [intros k v Hk%configValues_keys; by apply Hc|]. intros k v k' v' Hk%configValues_keys Hk'%configValues_keys. by apply (keys_apart o). }
  destruct (set_all_spec values cfg Hv) as (H1 & H2 & H3). set (cfg1 := set_all values cfg) in *.
  assert (Ho : settable opts cfg1).
  { split; [|intros k v k' v' Hk%optional_keys_in Hk'%optional_keys_in; by apply (keys_apart o)].
    intros k v Hk%optional_keys_in. apply H3; [apply split_ne|by apply Hc|].
    intros k' v' Hk'%configValues_keys. destruct (decide (k' = k)) as [->|]; [by right|left; by apply (keys_apart o)]. }
  destruct (set_all_spec opts cfg1 Ho) as (H4 & H5 & _). split_and!.
  - done.
  - intros k v Hk Hno. rewrite H5; [by apply H1|]. intros k' v' Hk'. apply (keys_apart o); [done|by eapply optional_keys_in|by eapply configValues_keys|].
    intros ->. by rewrite Hno in Hk'.
  - intros q Hq. rewrite H5, H2; [done| |]; intros k v Hk; apply Hq; [by eapply configValues_keys|by eapply optional_keys_in].
Qed.
Definition lab_installer : Installer := NewInstaller "/artifacts" "/usr/local/nvidia/toolkit".
#[local] Instance no_toml : Toml := { toml_Marshal := fun _ => Ok "[nvidia-container-runtime]"; toml_Load := fun _ => Ok ∅ }.
Lemma toolkit_config_values_witness :
  get_path ["nvidia-container-cli"; "root"] (toolkit_config (H0 := map_to_list_range) no_env (fun _ => false) lab_installer lab_options ∅ ∅)
  = Some (IVal (VStr "/run/nvidia/driver")).
Proof.
  destruct (toolkit_config_values (H0 := map_to_list_range) no_env (fun _ => false) lab_installer lab_options ∅ ∅) as (_ & Hv & _).
  - constructor.
  - intros k [Hk|(x & Hx & _)]; [|by apply not_elem_of_nil in Hx]. pose proof (split_ne "." k) as Hs. destruct (split "." k); [done|]. apply clear_empty.
  - apply (Hv "nvidia-container-cli.root"); vm_compute; reflexivity.
Defined.

(** ** The whole installation *)

Section Replace.
Context `{Toml, MapRange, CDILibrary} (env : string -> option string) (marshal : Config -> result string) (is_set : string -> bool).
Context (cs : list string) (Hcs : Forall proper cs) (Hne : cs <> []).
Local Abbreviation D := (abs_path cs).
Local Abbreviation runtime_dir := [".config"; "nvidia-container-runtime"].
Local Abbreviation config_file := [".config"; "nvidia-container-runtime"; "config.toml"].

Lemma names_proper : Forall proper config_file.
Proof using Type. apply (bool_decide_unpack _). vm_compute. exact I. Qed.
Lemma config_path source : toolkitConfigFilePath (NewInstaller source D) = abs_path (cs ++ config_file).
Proof using Hcs Hne.
  unfold NewInstaller. cbn [toolkitConfigFilePath]. change (Nat.ltb 0 (String.length D)) with true. cbn iota.
  change (path_join [D; ".config"; "nvidia-container-runtime"; "config.toml"]) with (path_join [D; ".config/nvidia-container-runtime/config.toml"]).
  rewrite path_join_abs; [done|done|]. apply (bool_decide_unpack _). vm_compute. exact I.
Qed.
Lemma config_dir : path_dir (abs_path (cs ++ config_file)) = abs_path (cs ++ runtime_dir).
Proof using Hcs.
  change config_file with (runtime_dir ++ ["config.toml"]). rewrite app_assoc. apply path_dir_abs; [|done].
  apply Forall_app. split; [done|]. apply (Forall_app _ runtime_dir ["config.toml"]), names_proper.
Qed.
Local Abbreviation with_config f text :=
  (<[cs ++ config_file := FileNode text 438]> (<[cs ++ runtime_dir := DirNode 493]> (<[cs ++ [".config"] := DirNode 493]> f))).
Lemma below_missing (f : fs) c r : well_formed f -> f !! (cs ++ [c]) = None -> f !! (cs ++ c :: r) = None.
Proof using Type.
  intros Hwf Hn. destruct (f !! (cs ++ c :: r)) eqn:E; [|done]. replace (cs ++ c :: r) with ((cs ++ [c]) ++ r) in E by by rewrite <- app_assoc.
  destruct (decide (r = [])) as [->|Hr]; [by rewrite app_nil_r, Hn in E|].
  apply parents_exist in E as [m Hm]; [|done..]. rewrite node_at_ne in Hm by apply snoc_ne. by rewrite Hn in Hm.
Qed.
Lemma mkdir_runtime_dir f : ready cs f -> f !! (cs ++ [".config"]) = None ->
  let f1 := <[cs ++ runtime_dir := DirNode 493]> (<[cs ++ [".config"] := DirNode 493]> f) in
  sys_MkdirAll 493 (abs_path (cs ++ runtime_dir)) f = (inr tt, f1) /\ ready (cs ++ runtime_dir) f1 /\ f1 !! (cs ++ config_file) = None.
Proof using Hcs.
  intros Hr Hn. pose proof names_proper as Hnames. cbv zeta.
  assert (Hp1 : Forall proper (cs ++ [".config"])) by (apply Forall_app; split; [done|]; by apply (Forall_app _ [".config"] ["nvidia-container-runtime"; "config.toml"])).
  assert (Hp2 : Forall proper (cs ++ runtime_dir)) by (apply Forall_app; split; [done|]; by apply (Forall_app _ runtime_dir ["config.toml"])).
  destruct (mkdir_child cs f ".config" Hp1 Hr Hn) as [Hm1 Hr1]. pose proof Hr as (Hwf & Hl & m & Hm).
  assert (Hn2 : f !! (cs ++ runtime_dir) = None) by by apply below_missing.
  assert (Hn3 : f !! (cs ++ config_file) = None) by by apply below_missing.
  set (f1 := <[cs ++ [".config"] := DirNode 493]> f) in *.
  assert (Hd : forall (r : list string), r <> [] -> cs ++ [".config"] <> cs ++ ".config" :: r) by (intros r Hr' E; apply app_inv_head in E; injection E as E; by destruct r).
  assert (Hf1 : f1 !! (cs ++ runtime_dir) = None) by (unfold f1; rewrite lookup_insert_ne; [done|by apply Hd]).
  replace (cs ++ runtime_dir) with ((cs ++ [".config"]) ++ ["nvidia-container-runtime"]) in * by by rewrite <- app_assoc.
  destruct (mkdir_child _ f1 _ Hp2 Hr1 Hf1) as [_ Hr2]. split_and!; [|done|].
  - unfold sys_MkdirAll. rewrite clean_components_abs_path, mkdir_all_snoc by done.
    assert (Hl2 : no_link f ((cs ++ [".config"]) ++ ["nvidia-container-runtime"])).
    { apply no_link_snoc; [apply no_link_snoc; [done|by rewrite Hn]|by rewrite Hn2]. }
    pose proof (Stat_plain f _ Hwf Hp2 Hl2) as Hs. rewrite node_at_ne, Hn2 in Hs by apply snoc_ne.
    destruct Hs as [-> | ->]; rewrite Hm1, Mkdir_missing by (done || by apply (Forall_app _ runtime_dir ["config.toml"]), Forall_app in Hnames as [[_ ?%Forall_singleton] _]);
      done.
  - rewrite lookup_insert_ne; [unfold f1; rewrite lookup_insert_ne; [done|by apply Hd]|]. rewrite <- app_assoc. intros E. by apply app_inv_head in E.
Qed.
(** The library prints and reads what it is given here. *)
Definition config_text (t : Installer) (o : Options) (f : fs) (text : string) : Prop :=
  exists cfg g, defaultToml env marshal f = Ok cfg /\ toml_Marshal (toolkit_config env is_set t o g cfg) = Ok text.
Lemma config_written t o f2 out text : toolkitConfigFilePath t = abs_path (cs ++ config_file) ->
  ready (cs ++ runtime_dir) f2 -> f2 !! (cs ++ config_file) = None ->
  (forall f, exists cfg, defaultToml env marshal f = Ok cfg) -> (forall tr, toml_Marshal tr = Ok (text tr)) ->
  exists c out', write_config env marshal is_set t o (mkWorld f2 out) = (None, mkWorld (<[cs ++ config_file := FileNode c 438]> f2) out') /\
    exists g, config_text t o g c.
Proof using Hcs.
  intros Ht Hr2 Hnew Hdef Hmar. unfold write_config. rewrite Ht. cbn [files stdout].
  destruct (Hdef f2) as [cfg Hcfg]. rewrite Hcfg.
  assert (Hcfile : proper "config.toml") by (apply (bool_decide_unpack _); vm_compute; exact I).
  assert (Hp2 : Forall proper (cs ++ runtime_dir)) by (apply Forall_app; split; [done|]; by apply (Forall_app _ runtime_dir ["config.toml"]), names_proper).
  replace (cs ++ config_file) with ((cs ++ runtime_dir) ++ ["config.toml"]) in * by by rewrite <- app_assoc.
  rewrite (write_new _ Hp2 f2 "config.toml" "" Hr2 Hcfile Hnew). rewrite Hmar.
  rewrite (write_again _ Hp2 _ "config.toml" "" 438); [|by apply ready_insert|done|by rewrite lookup_insert_eq].
  rewrite insert_insert_eq. do 2 eexists. split; [reflexivity|]. exists f2. by do 2 eexists.
Qed.
Lemma config_installed t o f out text : toolkitConfigFilePath t = abs_path (cs ++ config_file) ->
  ready cs f -> f !! (cs ++ [".config"]) = None ->
  (forall f, exists cfg, defaultToml env marshal f = Ok cfg) -> (forall tr, toml_Marshal tr = Ok (text tr)) ->
  exists c out', installToolkitConfig env marshal is_set t o (mkWorld f out) = (None, mkWorld (with_config f c) out') /\
    exists g, config_text t o g c.
Proof using Hcs.
  intros Ht Hr Hn Hdef Hmar. destruct (mkdir_runtime_dir f Hr Hn) as (Hm & Hr2 & Hnew).
  unfold installToolkitConfig. rewrite Ht, config_dir. cbn [files]. rewrite Hm. cbn [with_files files stdout].
  by apply (config_written t o _ out text).
Qed.

(** The files of the toolkit: the delivered components and the configuration,
    by their paths below the target directory. *)
Definition toolkit_files (l : list (string * node)) (text : string) : fs :=
  <[config_file := FileNode text 438]> (<[runtime_dir := DirNode 493]> (<[[".config"] := DirNode 493]>
    (list_to_map (map (fun nx => ([nx.1], nx.2)) l)))).
Lemma lookup_below (f g : fs) p x q : f !! (cs ++ q) = g !! q -> <[cs ++ p := x]> f !! (cs ++ q) = <[p := x]> g !! q.
Proof using Type.
  intros E. destruct (decide (p = q)) as [->|Hpq]; [by rewrite !lookup_insert_eq|].
  rewrite !lookup_insert_ne; [done..|]. by intros ?%app_inv_head.
Qed.
Lemma put_below f l q : ready cs f -> fresh cs f l -> f !! (cs ++ q) = None ->
  put cs f l !! (cs ++ q) = (list_to_map (map (fun nx => ([nx.1], nx.2)) l) : fs) !! q.
Proof using Type.
  intros Hr Hf Hq. destruct (put_installed cs f l Hr Hf) as (_ & _ & Hin & Hout).
  destruct (list_to_map _ !! q) as [x|] eqn:E.
  - apply elem_of_list_to_map_2, list_elem_of_fmap in E as ([n y] & [= -> ->] & Hn). by apply Hin.
  - rewrite Hout; [done|]. intros n (y & -> & Hn)%list_elem_of_fmap E'. apply app_inv_head in E' as ->.
    apply not_elem_of_list_to_map_2 in E. apply E. apply list_elem_of_fmap. exists ([y.1], y.2). split; [done|].
    apply list_elem_of_fmap. by exists y.
Qed.
Lemma config_frame (f : fs) text q : ~ cs `prefix_of` q -> with_config f text !! q = f !! q.
Proof using Type. intros Hq. rewrite !lookup_insert_ne; [done|..]; intros <-; apply Hq; by eexists. Qed.

(** C10. [Install] replaces an installation, when it is to install nothing but the
    toolkit: without CDI, which writes a specification elsewhere, and without
    device nodes, which are made below the device root. If the artifacts are
    found and have different names (none of them [.config]), it succeeds; then
    the files below the target directory are the components and the
    configuration and nothing else, whatever was there before, and outside of
    it nothing but the directories above it can have been added. *)
Theorem Install_replaces (source runtime out : string) (o : Options) (f0 f1 f2 : fs) (ls es : list ToolkitInstaller.Installer) (text : gmap string item -> string)
    (t := NewInstaller source D) (ti := New (H := fs_host env f1) (Some source) (ignore_errors o) (default_runtime o runtime))
    (l := concat (map (delivers cs f1) (ls ++ es)))
    (Hwf : well_formed f0) (Hl : no_link_above f0 cs) (Hcdi : Enabled (CDI o) = false) (Hmodes : createDeviceNodes_modes o = [])
    (Hrm : sys_RemoveAll D f0 = (inr tt, f1)) (Hm : sys_MkdirAll 493 D f1 = (inr tt, f2))
    (Hls : collectLibraries ti = Ok ls) (Hes : collectExecutables ti D = Ok es)
    (Hnd : NoDup l.*1) (Hp : Forall proper l.*1) (Hc : ".config" ∉ l.*1)
    (Hdef : forall f, exists cfg, defaultToml env marshal f = Ok cfg) (Hmar : forall tr, toml_Marshal tr = Ok (text tr)) :
  exists w' c, Install env marshal is_set t o runtime (mkWorld f0 out) = Some (None, w') /\
    (exists g, config_text t o g c) /\
    (forall q, q <> [] -> files w' !! (cs ++ q) = toolkit_files l c !! q) /\
    (forall q, ~ q `prefix_of` cs -> ~ cs `prefix_of` q -> files w' !! q = f0 !! q).
Proof using Hcs Hne.
  assert (f1 = remove_tree cs f0) as E1 by by apply RemoveAll_spec.
  destruct (remove_tree_ready cs f0 Hwf Hne Hl) as [Hwf1 Hl1]. rewrite <- E1 in Hwf1, Hl1.
  destruct (mkdir_ready f1 cs Hwf1 Hcs Hl1 f2 Hm) as [Hr2 _].
  assert (Hframe2 : forall q, ~ q `prefix_of` cs -> f2 !! q = f1 !! q).
  { unfold sys_MkdirAll in Hm. rewrite clean_components_abs_path in Hm by done. by apply (mkdir_all_frame 493 cs f1 (inr tt) f2). }
  assert (Hempty : forall q, q <> [] -> f2 !! (cs ++ q) = None).
  { intros q Hq. rewrite Hframe2; [rewrite E1, lookup_remove_tree; by rewrite decide_True by by exists q|].
    intros Hpre%prefix_length. rewrite length_app in Hpre. destruct q; [done|]. cbn in Hpre. lia. }
  assert (Hfresh : fresh cs f2 l).
  { split; [done|]. eapply Forall_impl; [exact Hp|]. intros n Hn. split; [done|by apply Hempty]. }
  destruct (put_installed cs f2 l Hr2 Hfresh) as (Hr3 & _ & Hput & Hframe3). set (f3 := put cs f2 l) in *.
  assert (Hn3 : f3 !! (cs ++ [".config"]) = None).
  { rewrite Hframe3; [by apply Hempty|]. intros n Hn [_ [= <-]]%app_inj_tail. done. }
  destruct (config_installed t o f3 out text (config_path source) Hr3 Hn3 Hdef Hmar) as (c & out' & Hinst & Hctext).
  exists (mkWorld (with_config f3 c) out'), c. split; [|split; [done|split]].
  - unfold Install, toolkit_components. cbn [toolkitRoot t NewInstaller files]. rewrite Hrm. cbn [unless_ignored with_files files stdout].
    change (sourceRoot t) with source.
    rewrite (toolkit_Install_puts env f1 cs Hwf1 Hcs Hl1 (Some source) (ignore_errors o) (default_runtime o runtime) f2 ls es Hm Hls Hes Hfresh).
    fold l f3. cbn [unless_ignored with_files files stdout].
    change (with_files f3 _) with (mkWorld f3 out). rewrite Hinst. cbn [unless_ignored files].
    unfold createDeviceNodes. rewrite Hmodes. cbn. unfold generateCDISpec. rewrite Hcdi. done.
  - intros q Hq. cbn [files]. unfold toolkit_files. do 3 apply lookup_below. apply put_below; [done..|]. by apply Hempty.
  - intros q Hq Hq'. cbn [files]. rewrite config_frame by done. unfold f3.
    rewrite Hframe3; [|intros n _ ->; apply Hq'; by eexists]. rewrite Hframe2, E1, lookup_remove_tree by done. by rewrite decide_False.
Qed.
End Replace.

(** An old installation is replaced. *)
Definition plain_options : Options := with_validated (mkCdiOptions false "" "management.nvidia.com/gpu" "management.nvidia.com" "gpu") [] lab_options.
#[local] Instance no_cdi : CDILibrary :=
  { os_Getwd := Ok "/"; cdi_GetSpec := fun _ _ => Some (Err "no driver"); cache_WriteSpec := fun _ _ _ f => (None, f) }.
Definition old_installation : fs :=
  <[lab_root ++ ["nvidia-container-runtime"] := FileNode "an older runtime" 493]> (<[lab_root ++ ["stale"] := DirNode 493]>
    (<[lab_root := DirNode 493]> (<[["usr"; "local"; "nvidia"] := DirNode 493]> lab_files))).
Definition removed : fs := (sys_RemoveAll (abs_path lab_root) old_installation).2.
Definition removed_mkdir : fs := (sys_MkdirAll 493 (abs_path lab_root) removed).2.
Definition lab_ti : ToolkitInstaller := New (H := fs_host no_env removed) (Some "/artifacts") false (default_runtime plain_options "docker").
Definition lab_ls : list ToolkitInstaller.Installer := ok_or [] (collectLibraries lab_ti).
Definition lab_es : list ToolkitInstaller.Installer := ok_or [] (collectExecutables (H := map_to_list_range) lab_ti (abs_path lab_root)).
Lemma Install_replaces_witness : exists w' c,
  Toolkit.Install (H0 := map_to_list_range) no_env (fun _ => Ok "") (fun _ => false) (NewInstaller "/artifacts" (abs_path lab_root)) plain_options "docker" 
    (mkWorld old_installation "") = Some (None, w') /\
  files w' !! (lab_root ++ ["stale"]) = None /\
  files w' !! (lab_root ++ [".config"; "nvidia-container-runtime"; "config.toml"]) = Some (FileNode c 438) /\
  files w' !! (lab_root ++ ["nvidia-container-runtime.real"]) = Some (FileNode "ELF nvidia-container-runtime" 493).
Proof.
  destruct (Install_replaces (H0 := map_to_list_range) no_env (fun _ => Ok "") (fun _ => false) lab_root) with
    (source := "/artifacts") (runtime := "docker") (out := "") (o := plain_options) (f0 := old_installation) (f1 := removed) (f2 := removed_mkdir)
    (ls := lab_ls) (es := lab_es) (text := (fun _ : gmap string item => "[nvidia-container-runtime]"))
    as (w' & c & Hi & _ & Hd & _).
  - apply (bool_decide_unpack _). vm_compute. exact I.
  - done.
  - apply well_formed_b_true. vm_compute. reflexivity.
  - apply no_link_is_above, no_link_b_true. vm_compute. reflexivity.
  - done.
  - done.
  - unfold removed. rewrite (surjective_pairing (sys_RemoveAll _ _)) at 1.
    assert ((sys_RemoveAll (abs_path lab_root) old_installation).1 = inr tt) as -> by (vm_compute; reflexivity). reflexivity.
  - unfold removed_mkdir. rewrite (surjective_pairing (sys_MkdirAll _ _ _)) at 1.
    assert ((sys_MkdirAll 493 (abs_path lab_root) removed).1 = inr tt) as -> by (vm_compute; reflexivity). reflexivity.
  - apply ok_or_eq. vm_compute. reflexivity.
  - apply ok_or_eq. vm_compute. reflexivity.
  - apply (bool_decide_unpack _). vm_compute. exact I.
  - apply (bool_decide_unpack _). vm_compute. exact I.
  - apply (bool_decide_unpack _). vm_compute. exact I.
  - intros f. by eexists.
  - done.
  - exists w', c. split; [exact Hi|].
    split; [rewrite Hd by done; apply (bool_decide_unpack _); vm_compute; exact I|].
    split; rewrite Hd by done; [done|apply (bool_decide_unpack _); vm_compute; exact I].
Defined.
