(* ===== verification/CdiGenerate.v ===== *)
(** * nvidia-ctk cdi generate (src/cmd/nvidia-ctk/cdi/generate)

    The flags and their validation, the generation of one specification for
    all devices and of one for each kind of coherence, and saving them. The
    library that parses the command line and the CDI library are interfaces;
    Nvcdi.v implements the second. *)
From S2P Require Import Prelude GoStrings GoPaths Lookup ProcInfo CDIParser Transform CDISpec Discover Edits DriverRoot Tegra Nvml NvcdiOptions Nvcdi SpecBuilder Config FileSystem OsFiles Toml Toolkit.

(** ** The command line (vendored urfave/cli) *)

(** Where the value of a flag comes from when it is not given; what the
    library returns for the names and the sources of a flag. *)
Inductive source := EnvVar (name : string) | ConfigKey (key : string).
Class CommandLine := {
  cli_IsSet : string -> bool;
  cli_string : list string -> list source -> option string;
  cli_strings : list string -> list source -> option (list string);
  cli_bool : list string -> list source -> option bool;
  cli_uint : list string -> list source -> option Z;
}.

(** ** What the command uses of the CDI library *)

(** The result of [New], inside that of [GetDeviceSpecsByID], and with it that
    of [GetCommonEdits]. *)
Class DeviceGenerator := {
  GetDevicesAndEdits : list NvcdiOptions.Option_ -> list string -> may_panic (result (result (list device * result edits)));
}.
Section Generator.
Context `{MapRange} `{SortSlice} `{Host} `{HostFiles} `{PropertyExtractor} `{Nvml} `{Sandbox}
  (DeviceFromPath : string -> option DeviceInfo) (goarch : string) (uname : result string)
  (getSoname : string -> result string) (resolve : string -> option (list string))
  (libs64 : string -> option (list string)) (resolveChain : string -> option (list string))
  (dxcore_adapters : result (list string)).
Definition devices_and_edits (ids : list string) (f : deviceSpecGeneratorFactory) : G (list device * result edits) := fun s =>
  match GetDeviceSpecsByID f ids s with
  | None => None
  | Some (Err e, s) => Some (Err e, s)
  | Some (Ok ds, s) =>
      match GetCommonEdits f s with
      | None => None
      | Some (e, s) => Some (Ok (ds, e), s)
      end
  end.
Definition nvcdi_devices : DeviceGenerator := {|
  GetDevicesAndEdits opts ids :=
    match New_run DeviceFromPath goarch uname getSoname resolve libs64 resolveChain dxcore_adapters opts (fun _ => devices_and_edits ids) with
    | None => None
    | Some (r, _) => Some r
    end |}.
End Generator.

Module generate.
Definition allDeviceName : string := "all".

Record options := mkOptions {
  output : string; format : string; deviceNameStrategies : list string; driverRoot : string; devRoot : string;
  nvidiaCDIHookPath : string; ldconfigPath : string; mode : string; vendor : string; class : string;
  configSearchPaths : list string; librarySearchPaths : list string; disabledHooks : list string; enabledHooks : list string;
  featureFlags : list string; csv : csvOptions; noAllDevice : bool; deviceIDs : list string;
}.

(** The flags of the command: names, sources and defaults. *)
Definition flags `{CommandLine} : options :=
  let str names sources dflt := default dflt (cli_string names sources) in
  let strs names sources dflt := default dflt (cli_strings names sources) in
  {| configSearchPaths := strs ["config-search-path"] [EnvVar "NVIDIA_CTK_CDI_GENERATE_CONFIG_SEARCH_PATHS"] [];
     output := str ["output"] [EnvVar "NVIDIA_CTK_CDI_OUTPUT_FILE_PATH"] "";
     format := str ["format"] [EnvVar "NVIDIA_CTK_CDI_GENERATE_OUTPUT_FORMAT"] FormatYAML;
     mode := str ["mode"; "discovery-mode"] [EnvVar "NVIDIA_CTK_CDI_GENERATE_MODE"] ModeAuto;
     devRoot := str ["dev-root"] [EnvVar "NVIDIA_CTK_DEV_ROOT"] "";
     deviceNameStrategies := strs ["device-name-strategy"] [EnvVar "NVIDIA_CTK_CDI_GENERATE_DEVICE_NAME_STRATEGIES"]
       [DeviceNameStrategyIndex; DeviceNameStrategyUUID];
     driverRoot := str ["driver-root"] [EnvVar "NVIDIA_CTK_DRIVER_ROOT"; ConfigKey "nvidia-container-cli.root"] "";
     librarySearchPaths := strs ["library-search-path"] [EnvVar "NVIDIA_CTK_CDI_GENERATE_LIBRARY_SEARCH_PATHS"] [];
     nvidiaCDIHookPath := str ["nvidia-cdi-hook-path"; "nvidia-ctk-path"] [EnvVar "NVIDIA_CTK_CDI_HOOK_PATH"] "";
     ldconfigPath := str ["ldconfig-path"] [EnvVar "NVIDIA_CTK_CDI_GENERATE_LDCONFIG_PATH"] "";
     vendor := str ["vendor"; "cdi-vendor"] [EnvVar "NVIDIA_CTK_CDI_GENERATE_VENDOR"] "nvidia.com";
     class := str ["class"; "cdi-class"] [EnvVar "NVIDIA_CTK_CDI_GENERATE_CLASS"] "gpu";
     csv := mkCsvOptions (strs ["csv.file"] [EnvVar "NVIDIA_CTK_CDI_GENERATE_CSV_FILES"] DefaultFileList)
       (strs ["csv.ignore-pattern"] [EnvVar "NVIDIA_CTK_CDI_GENERATE_CSV_IGNORE_PATTERNS"] [])
       (str ["csv.compat-container-root"] [EnvVar "NVIDIA_CTK_CDI_GENERATE_CSV_CONTAINER_COMPAT_ROOT"] "");
     disabledHooks := strs ["disable-hook"; "disable-hooks"] [EnvVar "NVIDIA_CTK_CDI_GENERATE_DISABLED_HOOKS"] [];
     enabledHooks := strs ["enable-hook"; "enable-hooks"] [EnvVar "NVIDIA_CTK_CDI_GENERATE_ENABLED_HOOKS"] [];
     featureFlags := strs ["feature-flag"; "feature-flags"] [EnvVar "NVIDIA_CTK_CDI_GENERATE_FEATURE_FLAGS"] [];
     noAllDevice := default false (cli_bool ["no-all-device"] [EnvVar "NVIDIA_CTK_CDI_GENERATE_NO_ALL_DEVICE"]);
     deviceIDs := strs ["device-id"; "device-ids"; "device"; "devices"] [EnvVar "NVIDIA_CTK_CDI_GENERATE_DEVICE_IDS"] ["all"] |}.

(** ** Validation *)

Definition formatFromFilename (filename : string) : string :=
  let ext := to_lower (path_ext filename) in
  if String.eqb ext ".json" then FormatJSON
  else if String.eqb ext ".yaml" || String.eqb ext ".yml" then FormatYAML
  else "".
Definition with_flags (fmt m hookPath : string) (noAll : bool) (o : options) : options :=
  mkOptions (output o) fmt (deviceNameStrategies o) (driverRoot o) (devRoot o) hookPath (ldconfigPath o) m (vendor o) (class o)
    (configSearchPaths o) (librarySearchPaths o) (disabledHooks o) (enabledHooks o) (featureFlags o) (csv o) noAll (deviceIDs o).
(** The format that the name of the output implies is used unless one is
    given. *)
Definition output_format (format_set : bool) (o : options) (fmt : string) : string :=
  let implied := formatFromFilename (output o) in
  if negb (String.eqb implied "") && negb format_set then implied else fmt.
Definition validateFlags `{Host} (format_set : bool) (o : options) : may_panic (result options) :=
  let fmt := to_lower (format o) in
  let m := to_lower (mode o) in
  if negb (String.eqb fmt FormatJSON || String.eqb fmt FormatYAML) then Some (Err ("invalid output format: " +:+ fmt))
  else if negb (IsValidMode m) then Some (Err ("invalid discovery mode: " +:+ m))
  else
    match rmap NewDeviceNamer (deviceNameStrategies o) with
    | Err e => Some (Err e)
    | Ok _ =>
        hookPath ← ResolveNVIDIACDIHookPath (nvidiaCDIHookPath o);
        let fmt := output_format format_set o fmt in
        v ← validateVendorOrClassName (vendor o);
        if negb v then Some (Err "invalid CDI vendor name")
        else
          c ← validateVendorOrClassName (class o);
          if negb c then Some (Err "invalid CDI class name")
          else if existsb (String.eqb "all") (enabledHooks o) then Some (Err "enabling all hooks is not supported")
          else Some (Ok (with_flags fmt m hookPath (noAllDevice o || existsb (String.eqb "none") (deviceIDs o)) o))
    end.

(** ** The specifications *)

(** [splitOnAnnotation]: the devices that have the annotation by its value. The
    annotation is removed from them; copies of a device share the map of its
    annotations, so it is also removed from the specification that was made of
    all devices before. *)
Definition forget (key : string) (d : device) : device := CDISpec.mkDevice (Device_Name d) (delete key (Device_Annotations d)) (Device_Edits d).
Definition add_split (key : string) (m : gmap string (list device)) (d : device) : gmap string (list device) :=
  match Device_Annotations d !! key with
  | None => m
  | Some value => let k := key +:+ "=" +:+ value in <[k := default [] (m !! k) ++ [forget key d]]> m
  end.
Definition splitOnAnnotation (key : string) (ds : list device) : gmap string (list device) := foldl (add_split key) ∅ ds.
Definition forget_all (key : string) (b : built) : built :=
  let s := Raw b in
  mkBuilt (CDISpec.mkSpec (CDISpec.Version s) (CDISpec.Kind s) (CDISpec.Annotations s) (map (forget key) (CDISpec.Devices s)) (CDISpec.Spec_Edits s))
    (built_format b) (built_permissions b) (built_transformOnSave b).

Record generatedSpecs := mkGenerated { generated : built; filenameInfix : string }.
Definition updateFilename (infix filename : string) : string :=
  if String.eqb infix "" || String.eqb filename "" then filename
  else let ext := path_ext (path_base filename) in trim_suffix filename ext +:+ infix +:+ ext.

Definition coherent : string := "gpu.nvidia.com/coherent".
Definition cdiOptions (namers : list DeviceNamer) (o : options) : list NvcdiOptions.Option_ :=
  [NvcdiOptions.WithDriverRoot (driverRoot o); NvcdiOptions.WithDevRoot (devRoot o); NvcdiOptions.WithNVIDIACDIHookPath (nvidiaCDIHookPath o);
   NvcdiOptions.WithLdconfigPath (ldconfigPath o); NvcdiOptions.WithDeviceNamers namers; NvcdiOptions.WithMode (mode o);
   NvcdiOptions.WithConfigSearchPaths (configSearchPaths o); NvcdiOptions.WithLibrarySearchPaths (librarySearchPaths o);
   NvcdiOptions.WithCSVFiles (NvcdiOptions.Files (csv o)); NvcdiOptions.WithCSVIgnorePatterns (NvcdiOptions.IgnorePatterns (csv o));
   NvcdiOptions.WithCSVCompatContainerRoot (NvcdiOptions.CompatContainerRoot (csv o)); NvcdiOptions.WithDisabledHooks (disabledHooks o);
   NvcdiOptions.WithEnabledHooks (enabledHooks o); NvcdiOptions.WithFeatureFlags (featureFlags o)].

Section Specs.
Context `{MapRange} `{SortSlice}.
Definition commonSpecOptions (e : edits) (o : options) : list SpecBuilder.Option_ :=
  [SpecBuilder.WithVendor (vendor o); SpecBuilder.WithEdits e; SpecBuilder.WithFormat (format o); SpecBuilder.WithPermissions 420] ++
  (if noAllDevice o then [] else [SpecBuilder.WithMergedDeviceOptions [Transform.WithName allDeviceName; Transform.WithSkipIfExists true]]).
Definition new_spec (e : edits) (o : options) (infix : string) (ds : list device) : result built :=
  SpecBuilder.New (commonSpecOptions e o ++ [SpecBuilder.WithClass (class o +:+ infix); SpecBuilder.WithDeviceSpecs ds]).
(** The specification of the devices with one value of the annotation, if
    there are any. *)
Definition split_spec (e : edits) (o : options) (infix : string) (ds : list device) : result (list generatedSpecs) :=
  match ds with
  | [] => Ok []
  | _ => let? b := new_spec e o infix ds in Ok [mkGenerated b infix]
  end.
Definition specs_of (e : edits) (o : options) (ds : list device) : result (list generatedSpecs) :=
  let? full := new_spec e o "" ds in
  let byCoherence := splitOnAnnotation coherent ds in
  let? coherentSpecs := split_spec e o ".coherent" (default [] (byCoherence !! (coherent +:+ "=true"))) in
  let? noncoherentSpecs := split_spec e o ".noncoherent" (default [] (byCoherence !! (coherent +:+ "=false"))) in
  Ok (mkGenerated (forget_all coherent full) "" :: coherentSpecs ++ noncoherentSpecs).
Definition generateSpecs `{DeviceGenerator} (o : options) : may_panic (result (list generatedSpecs)) :=
  match wrap "failed to create device namer" (rmap NewDeviceNamer (deviceNameStrategies o)) with
  | Err e => Some (Err e)
  | Ok namers =>
      r ← GetDevicesAndEdits (cdiOptions namers o) (deviceIDs o);
      Some (let? r := wrap "failed to create CDI library" r in
            let? ' (ds, e) := wrap "failed to create device CDI specs" r in
            let? e := wrap "failed to create edits common for entities" e in
            specs_of e o ds)
  end.
End Specs.

(** ** Saving *)

Section Save.
Context `{MapRange} `{SortSlice} `{DeviceGenerator} `{CDILibrary}.
(** The directory and the random names of temporary files. *)
Context (tempDir : string) (random : list string).

Definition with_error (msg : string) (r : option string * world) : option string * world :=
  match r with (Some e, w) => (Some (msg +:+ ": " +:+ e), w) | r => r end.
(** [spec.WriteTo]: the specification is saved to a temporary file, which is
    printed and removed. *)
Definition spec_WriteTo (b : built) (w : world) : option string * world :=
  let pattern := "nvcdi-spec-*" +:+ extension b in
  match create_temp random (FileNode "" 384) tempDir pattern (files w) with
  | inl e => (Some (path_error "open" (temp_path tempDir pattern (List.hd "" random)) e), w)
  | inr (path, f) =>
      let remove f := match sys_Remove path f with inr f => f | inl _ => f end in
      match spec_Save b path f with
      | (Some e, f) => (Some e, with_files (remove f) w)
      | (None, f) =>
          match sys_Open f path with
          | inl e => (Some ("failed to open temporary file: " +:+ path_error "openat" (path_base path) e), with_files (remove f) w)
          | inr n => (None, print (node_content n) (with_files (remove f) w))
          end
      end
  end.
Definition generated_Save (output : string) (g : generatedSpecs) (w : world) : option string * world :=
  let filename := updateFilename (filenameInfix g) output in
  if String.eqb filename "" then with_error "failed to write CDI spec to STDOUT" (spec_WriteTo (generated g) w)
  else let '(e, f) := spec_Save (generated g) filename (files w) in (e, with_files f w).
Fixpoint save_all (output : string) (l : list generatedSpecs) (errs : option string) (w : world) : option string * world :=
  match l with
  | [] => (errs, w)
  | g :: l =>
      let '(e, w) := generated_Save output g w in
      save_all output l (match e with Some e => join_error errs e | None => errs end) w
  end.
Definition run (o : options) (w : world) : may_panic (option string * world) :=
  r ← generateSpecs o;
  Some match r with
       | Err e => (Some ("failed to generate CDI spec: " +:+ e), w)
       | Ok l => save_all (output o) l None w
       end.
End Save.
End generate.

(** ** nvidia-ctk cdi transform root (src/cmd/nvidia-ctk/cdi/transform/root) *)

Module transformroot.
Record options := mkOptions { input : string; output : string; from : string; to : string; relativeTo : string }.
Definition flags `{CommandLine} : options :=
  let str name dflt := default dflt (cli_string [name] []) in
  mkOptions (str "input" "-") (str "output" "") (str "from" "") (str "to" "") (str "relative-to" "host").
Definition validateFlags (o : options) : result unit :=
  if String.eqb (relativeTo o) "host" || String.eqb (relativeTo o) "container" then Ok tt
  else Err ("invalid --relative-to value: " +:+ relativeTo o).

Section Run.
Context `{MapRange} `{SortSlice} `{CDILibrary}.
(** [cdi.ParseSpec], the standard input, and the temporary files. *)
Context (ParseSpec : string -> result spec) (stdin : string) (tempDir : string) (random : list string).

Definition getContents (o : options) (f : fs) : result string :=
  if String.eqb (input o) "-" then Ok stdin
  else match sys_Open f (input o) with
       | inl e => Err (path_error "open" (input o) e)
       | inr (DirNode _) => Err (path_error "read" (input o) EISDIR)
       | inr n => Ok (node_content n)
       end.
Definition Load (o : options) (f : fs) : result built :=
  let? contents := wrap "failed to read spec contents" (getContents o f) in
  let? raw := wrap "failed to parse CDI spec" (ParseSpec contents) in
  SpecBuilder.New [SpecBuilder.WithRawSpec (Some raw)].
Definition transformed (o : options) (b : built) : built :=
  let t := RootTransform.New [RootTransform.WithRoot (from o); RootTransform.WithTargetRoot (to o); RootTransform.WithRelativeTo (relativeTo o)] in
  mkBuilt (transform_spec [t] (Raw b)) (built_format b) (built_permissions b) (built_transformOnSave b).
Definition Save (o : options) (b : built) (w : world) : option string * world :=
  if String.eqb (output o) "" then generate.with_error "failed to write CDI spec to STDOUT" (generate.spec_WriteTo tempDir random b w)
  else let '(e, f) := spec_Save b (output o) (files w) in (e, with_files f w).
Definition run (o : options) (w : world) : option string * world :=
  match Load o (files w) with
  | Err e => (Some ("failed to load CDI specification: " +:+ e), w)
  | Ok b => Save o (transformed o b) w
  end.
End Run.
End transformroot.

(** ** nvidia-ctk cdi list (src/cmd/nvidia-ctk/cdi/list) *)

Module cdilist.
(** The registry of some directories: the devices that are listed. *)
Class Registry := { ListDevices : list string -> fs -> result (list string) }.
Definition validateFlags (cdiSpecDirs : list string) : result unit :=
  match cdiSpecDirs with [] => Err "at least one CDI specification directory must be specified" | _ => Ok tt end.
Definition run `{Registry} (cdiSpecDirs : list string) (w : world) : option string * world :=
  match ListDevices cdiSpecDirs (files w) with
  | Err e => (Some ("failed to create CDI cache: " +:+ e), w)
  | Ok devices => (None, foldl (fun w device => print (device +:+ newline) w) w devices)
  end.
End cdilist.
