(* ===== verification/InstallerMain.v ===== *)
(** * The installer (src/cmd/nvidia-ctk-installer)

    The main program with its flags: [Before], which validates the options, and
    [Run], which installs the toolkit, sets an engine up, waits and cleans up;
    and the plugin for the node resource interface, whose reconnecting is a step
    relation. InstallerDaemon.v models [Run] among its goroutines. *)
From S2P Require Import Prelude GoStrings GoPaths Lookup ProcInfo CDIParser Config FileSystem OsFiles Toml Json Engine Docker Crio Containerd InstallerRuntimes InstallerEngines InstallerProps ToolkitInstaller ToolkitInstallerProps Toolkit ToolkitProps CdiGenerate.

Local Open Scope Z_scope.

(** ** The plugin for the node resource interface (container/runtime/nri) *)

Module nri.
Record PodSandbox := mkPod { pod_Name : string; Namespace : string; pod_Annotations : gmap string string }.
Record Container := mkContainer { ctr_Name : string }.
(** The adjustment of a container; the plugin only adds CDI devices. *)
Record ContainerAdjustment := mkAdjustment { CDIDevices : list string }.
Definition AddCDIDevice (name : string) (a : ContainerAdjustment) : ContainerAdjustment := mkAdjustment (CDIDevices a ++ [name]).

(** [plugin.GetEffectiveAnnotation] (vendored). *)
Definition annotation_keys (key container : string) : list string := [key +:+ "/container." +:+ container; key +:+ "/pod"; key].
Definition GetEffectiveAnnotation (pod : PodSandbox) (key container : string) : option string :=
  head (omap (fun k => pod_Annotations pod !! k) (annotation_keys key container)).

Definition nriCDIAnnotationDomain : string := "nvidia.cdi.k8s.io".
Definition parseCDIDevices (namespace : string) (pod : PodSandbox) (key container : string) : list string :=
  if negb (String.eqb namespace (Namespace pod)) then []
  else match GetEffectiveAnnotation pod key container with
       | None => []
       | Some cdiDeviceNames => split "," cdiDeviceNames
       end.
Definition injectCDIDevices (namespace : string) (pod : PodSandbox) (ctr : Container) (a : ContainerAdjustment) : ContainerAdjustment :=
  foldl (fun a name => AddCDIDevice name a) a (parseCDIDevices namespace pod nriCDIAnnotationDomain (ctr_Name ctr)).
(** [Plugin.CreateContainer] of a plugin for the namespace; it has no error. *)
Definition CreateContainer (namespace : string) (pod : PodSandbox) (ctr : Container) : ContainerAdjustment :=
  injectCDIDevices namespace pod ctr (mkAdjustment []).

(** [Plugin.Start]: creating the stub for an index and a socket, and starting
    it, are the library's. *)
Class Stub := { stub_New : string -> option string -> result unit; stub_Start : result unit }.
Definition Start `{Stub} (nriSocketPath nriPluginIdx : string) (f : fs) : result unit :=
  let? socket := match nriSocketPath with
    | "" => Ok None
    | _ => match sys_Stat f nriSocketPath with
           | inl e => Err ("failed to find valid nri socket at " +:+ nriSocketPath +:+ ": " +:+ path_error "stat" nriSocketPath e)
           | inr _ => Ok (Some nriSocketPath)
           end
    end in
  let? _ := wrap ("failed to initialise plugin at " +:+ nriSocketPath) (stub_New nriPluginIdx socket) in
  wrap "plugin exited with error" stub_Start.

(** *** Reconnecting

    [scheduleReconnect] runs on the goroutine of the closed connection and may
    start a goroutine with a loop; [Stop] runs on the main one. *)
Inductive loop_state : Type :=
| Checking     (* at [p.stopped.Load()] *)
| Sleeping     (* at the [select] *)
| Connecting   (* at [p.stub.Start] *)
| Failed       (* after an error, at the second [p.stopped.Load()] *)
| Leaving.     (* before the deferred [reconnectInProgress.Store(false)] *)
Record state := mkState {
  stopped : bool; reconnectInProgress : bool; canceled : bool;   (* the context *)
  loops : list loop_state;
  starts_after_stop : nat;   (* calls of [p.stub.Start] once [stopped] is set *)
}.
Definition initial : state := mkState false false false [] 0.
Definition set_loops (ls : list loop_state) (s : state) : state :=
  mkState (stopped s) (reconnectInProgress s) (canceled s) ls (starts_after_stop s).
(** What a goroutine does next, and whether it calls [p.stub.Start]. *)
Inductive loop_step (s : state) : loop_state -> loop_state -> bool -> Prop :=
| check_stopped : stopped s = true -> loop_step s Checking Leaving false
| check_running : stopped s = false -> loop_step s Checking Sleeping false
| context_done : canceled s = true -> loop_step s Sleeping Leaving false
| after_backoff : loop_step s Sleeping Connecting false
| start_ok : loop_step s Connecting Leaving true
| start_fails : loop_step s Connecting Failed true
| failed_stopped : stopped s = true -> loop_step s Failed Leaving false
| retry : stopped s = false -> loop_step s Failed Checking false.
Inductive step : state -> state -> Prop :=
| connection_closed s : reconnectInProgress s = false ->
    step s (mkState (stopped s) true (canceled s) (Checking :: loops s) (starts_after_stop s))
| already_reconnecting s : reconnectInProgress s = true -> step s s
| loop_moves s before x y called after : loops s = before ++ x :: after -> loop_step s x y called ->
    step s (mkState (stopped s) (reconnectInProgress s) (canceled s) (before ++ y :: after)
              (if called && stopped s then S (starts_after_stop s) else starts_after_stop s))
| loop_ends s before after : loops s = before ++ Leaving :: after ->
    step s (mkState (stopped s) false (canceled s) (before ++ after) (starts_after_stop s))
| context_canceled s : step s (mkState (stopped s) (reconnectInProgress s) true (loops s) (starts_after_stop s))
| Stop s : step s (mkState true (reconnectInProgress s) (canceled s) (loops s) (starts_after_stop s)).
Inductive reachable : state -> Prop :=
| reachable_initial : reachable initial
| reachable_step s s' : reachable s -> step s s' -> reachable s'.
End nri.

(** ** The main program (main.go) *)

(** The flags of the toolkit and of the runtimes. *)
Definition toolkit_Flags `{CommandLine} : Toolkit.Options :=
  let str names sources dflt := default dflt (cli_string names (map EnvVar sources)) in
  let strs names sources dflt := default dflt (cli_strings names (map EnvVar sources)) in
  let bool_ names sources dflt := default dflt (cli_bool names (map EnvVar sources)) in
  {| DriverRoot := str ["driver-root"; "nvidia-driver-root"] ["NVIDIA_DRIVER_ROOT"; "DRIVER_ROOT"] "/run/nvidia/driver";
     DriverRootCtrPath := str ["driver-root-ctr-path"] ["DRIVER_ROOT_CTR_PATH"] "/run/nvidia/driver";
     DevRoot := str ["dev-root"] ["NVIDIA_DEV_ROOT"; "DEV_ROOT"] "";
     DevRootCtrPath := str ["dev-root-ctr-path"] ["DEV_ROOT_CTR_PATH"] "";
     ContainerRuntimeDebug := str ["nvidia-container-runtime.debug"; "nvidia-container-runtime-debug"] ["NVIDIA_CONTAINER_RUNTIME_DEBUG"] "";
     ContainerRuntimeLogLevel := str ["nvidia-container-runtime.log-level"; "nvidia-container-runtime-debug-log-level"]
       ["NVIDIA_CONTAINER_RUNTIME_LOG_LEVEL"] "";
     ContainerRuntimeMode := str ["nvidia-container-runtime.mode"; "nvidia-container-runtime-mode"] ["NVIDIA_CONTAINER_RUNTIME_MODE"] "";
     ContainerRuntimeModesCdiDefaultKind := str ["nvidia-container-runtime.modes.cdi.default-kind"]
       ["NVIDIA_CONTAINER_RUNTIME_MODES_CDI_DEFAULT_KIND"] "";
     ContainerRuntimeModesCDIAnnotationPrefixes := strs ["nvidia-container-runtime.modes.cdi.annotation-prefixes"]
       ["NVIDIA_CONTAINER_RUNTIME_MODES_CDI_ANNOTATION_PREFIXES"] [];
     ContainerRuntimeRuntimes := strs ["nvidia-container-runtime.runtimes"] ["NVIDIA_CONTAINER_RUNTIME_RUNTIMES"] [];
     ContainerRuntimeHookSkipModeDetection := bool_ ["nvidia-container-runtime-hook.skip-mode-detection"]
       ["NVIDIA_CONTAINER_RUNTIME_HOOK_SKIP_MODE_DETECTION"] true;
     ContainerCLIDebug := str ["nvidia-container-cli.debug"; "nvidia-container-cli-debug"] ["NVIDIA_CONTAINER_CLI_DEBUG"] "";
     acceptNVIDIAVisibleDevicesWhenUnprivileged := bool_ ["accept-nvidia-visible-devices-envvar-when-unprivileged"]
       ["ACCEPT_NVIDIA_VISIBLE_DEVICES_ENVVAR_WHEN_UNPRIVILEGED"] true;
     acceptNVIDIAVisibleDevicesAsVolumeMounts := bool_ ["accept-nvidia-visible-devices-as-volume-mounts"]
       ["ACCEPT_NVIDIA_VISIBLE_DEVICES_AS_VOLUME_MOUNTS"] false;
     CDI := mkCdiOptions (bool_ ["cdi-enabled"; "enable-cdi"] ["CDI_ENABLED"; "ENABLE_CDI"] false)
       (str ["cdi-output-dir"] ["CDI_OUTPUT_DIR"] "/var/run/cdi") (str ["cdi-kind"] ["CDI_KIND"] "management.nvidia.com/gpu") "" "";
     ignore_errors := bool_ ["ignore-errors"] [] false;
     createDeviceNodes_modes := strs ["create-device-nodes"] ["CREATE_DEVICE_NODES"] ["control"];
     optInFeatures := strs ["opt-in-features"] ["NVIDIA_CONTAINER_TOOLKIT_OPT_IN_FEATURES"] [] |}.
Definition containerd_Flags `{CommandLine} : ContainerdOptions :=
  {| legacyConfig := default false (cli_bool ["use-legacy-config"] [EnvVar "CONTAINERD_USE_LEGACY_CONFIG"]);
     requestedRuntimeType := default "io.containerd.runc.v2" (cli_string ["runtime-type"] [EnvVar "CONTAINERD_RUNTIME_TYPE"]);
     CDIAnnotationPrefixes := default [] (cli_strings ["nvidia-container-runtime-modes.cdi.annotation-prefixes"]
       [EnvVar "NVIDIA_CONTAINER_RUNTIME_MODES_CDI_ANNOTATION_PREFIXES"]) |}.
Definition crio_Flags `{CommandLine} : CrioOptions :=
  {| hooksDir := default "/usr/share/containers/oci/hooks.d" (cli_string ["hooks-dir"] [EnvVar "CRIO_HOOKS_DIR"]);
     hookFilename := default "oci-nvidia-hook.json" (cli_string ["hook-filename"] [EnvVar "CRIO_HOOK_FILENAME"]);
     crio_configMode := default "config" (cli_string ["config-mode"] [EnvVar "CRIO_CONFIG_MODE"]) |}.
Definition runtime_Flags `{CommandLine} : RuntimeOptions :=
  let str names sources dflt := default dflt (cli_string names (map EnvVar sources)) in
  mkRuntimeOptions
    {| TopLevelConfigPath := str ["config"] ["RUNTIME_CONFIG"; "CONTAINERD_CONFIG"; "DOCKER_CONFIG"] runtimeSpecificDefault;
       DropInConfig := str ["drop-in-config"] ["RUNTIME_DROP_IN_CONFIG"] runtimeSpecificDefault;
       DropInConfigHostPath := str ["drop-in-config-host-path"] ["RUNTIME_DROP_IN_CONFIG_HOST_PATH"] "";
       ExecutablePath := str ["executable-path"] ["RUNTIME_EXECUTABLE_PATH"] "";
       Socket := str ["socket"] ["RUNTIME_SOCKET"; "CONTAINERD_SOCKET"; "DOCKER_SOCKET"] runtimeSpecificDefault;
       RestartMode := str ["restart-mode"] ["RUNTIME_RESTART_MODE"] runtimeSpecificDefault;
       WithCDI := default false (cli_bool ["enable-cdi-in-runtime"] [EnvVar "RUNTIME_ENABLE_CDI"]);
       HostRootMount := str ["host-root"] ["HOST_ROOT_MOUNT"] "/host";
       RuntimeName := str ["runtime-name"; "nvidia-runtime-name"; "runtime-class"]
         ["NVIDIA_RUNTIME_NAME"; "CONTAINERD_RUNTIME_CLASS"; "DOCKER_RUNTIME_NAME"] "nvidia";
       RuntimeDir := "";
       InstallerRuntimes.SetAsDefault := default true (cli_bool ["set-as-default"]
         (map EnvVar ["NVIDIA_RUNTIME_SET_AS_DEFAULT"; "CONTAINERD_SET_AS_DEFAULT"; "DOCKER_SET_AS_DEFAULT"]));
       ConfigSources := default ["command"; "file"] (cli_strings ["config-source"; "config-sources"]
         (map EnvVar ["RUNTIME_CONFIG_SOURCES"; "RUNTIME_CONFIG_SOURCE"])) |}
    containerd_Flags crio_Flags.

Module installer.
Definition toolkitPidFilename : string := "toolkit.pid".
Definition toolkitSubDir : string := "toolkit".
Definition defaultLowLevelRuntimes : list string := ["runc"; "crun"].
Record options := mkOptions {
  toolkitInstallDir : string; noDaemon : bool; pidFile : string; sourceRoot : string; packageType : string;
  enableNRIPlugin : bool; nriPluginIndex : Z; nriSocket : string; nriNamespace : string;
  toolkitOptions : Toolkit.Options; debug : bool; noRuntimeConfig : bool; runtime : string; runtimeOptions : RuntimeOptions;
}.
Definition toolkitRoot (o : options) : string := path_join [toolkitInstallDir o; toolkitSubDir].
Definition nri_index `{CommandLine} : option Z := cli_uint ["nri-plugin-index"] [EnvVar "NRI_PLUGIN_INDEX"].
Definition flags `{CommandLine} : options :=
  let str names sources dflt := default dflt (cli_string names (map EnvVar sources)) in
  let flag names source := default false (cli_bool names [EnvVar source]) in
  {| noDaemon := flag ["no-daemon"; "n"] "NO_DAEMON";
     noRuntimeConfig := flag ["no-runtime-config"] "NO_RUNTIME_CONFIG";
     enableNRIPlugin := flag ["enable-nri-plugin"; "p"] "ENABLE_NRI_PLUGIN";
     nriPluginIndex := default 10 nri_index;
     nriSocket := str ["nri-socket"] ["NRI_SOCKET"] "/var/run/nri/nri.sock";
     nriNamespace := str ["nri-namespace"] ["NRI_NAMESPACE"] "";
     runtime := str ["runtime"; "r"] ["RUNTIME"] "docker";
     toolkitInstallDir := str ["toolkit-install-dir"; "root"] ["TOOLKIT_INSTALL_DIR"; "ROOT"] "/usr/local/nvidia";
     sourceRoot := str ["toolkit-source-root"] ["TOOLKIT_SOURCE_ROOT"] "";
     packageType := str ["toolkit-package-type"] ["TOOLKIT_PACKAGE_TYPE"] "auto";
     pidFile := str ["pid-file"] ["TOOLKIT_PID_FILE"; "PID_FILE"] ("/run/nvidia/toolkit/" +:+ toolkitPidFilename);
     debug := flag ["debug"] "TOOLKIT_DEBUG";
     toolkitOptions := toolkit_Flags;
     runtimeOptions := runtime_Flags |}.
(** The action of the flag [nri-plugin-index], when it is set. *)
Definition nri_index_action `{CommandLine} : result unit :=
  match nri_index with
  | Some u => if Z.ltb 99 u then Err "nri-plugin-index must be in the range [0,99]" else Ok tt
  | None => Ok tt
  end.

(** *** [Before] *)

Section Before.
Context `{CommandLine, Host}.
Definition executable_exists (hostRoot path : string) : bool :=
  match NewExecutableLocator hostRoot path with Found candidates => Nat.ltb 0 (length candidates) | Failed _ => false end.
Definition resolvePackageType (hostRoot packageType : string) : string :=
  if negb (String.eqb packageType "") && negb (String.eqb packageType "auto") then packageType
  else if executable_exists hostRoot "/usr/bin/rpm" then "rpm"
  else if executable_exists hostRoot "/usr/bin/dpkg" then "deb"
  else "deb".
Definition resolveSourceRoot (hostRoot packageType : string) : result string :=
  let resolvedPackageType := resolvePackageType hostRoot packageType in
  if String.eqb resolvedPackageType "deb" then Ok "/artifacts/deb"
  else if String.eqb resolvedPackageType "rpm" then Ok "/artifacts/rpm"
  else Err ("invalid package type: " +:+ resolvedPackageType).
Definition with_options (src : string) (t : Toolkit.Options) (r : RuntimeOptions) (o : options) : options :=
  mkOptions (toolkitInstallDir o) (noDaemon o) (pidFile o) src (packageType o) (enableNRIPlugin o) (nriPluginIndex o)
    (nriSocket o) (nriNamespace o) t (debug o) (noRuntimeConfig o) (runtime o) r.
Definition validateFlags (t : Toolkit.Installer) (o : options) : may_panic (result options) :=
  if String.eqb (toolkitInstallDir o) "" then Some (Err "the install root must be specified")
  else if negb (String.eqb (path_base (pidFile o)) toolkitPidFilename) then Some (Err ("invalid toolkit.pid path " +:+ pidFile o))
  else if enableNRIPlugin o && Nat.eqb (String.length (nriNamespace o)) 0
  then Some (Err "the NRI namespace must be specified when the NRI plugin is enabled")
  else
    v ← ValidateOptions t (toolkitOptions o);
    Some (let? to := v in
          let? ro := runtime_Validate (runtime o) (toolkitRoot o) (cli_IsSet "enable-cdi-in-runtime") (Enabled (CDI to)) (runtimeOptions o) in
          Ok (with_options (sourceRoot o) to ro o)).
(** The installer of the toolkit and the options for [Run]; [None] is a panic. *)
Definition Before (o : options) : may_panic (result (Toolkit.Installer * options)) :=
  match (if String.eqb (sourceRoot o) "" then wrap "failed to resolve source root"
           (resolveSourceRoot (HostRootMount (shared_options (runtimeOptions o))) (packageType o))
         else Ok (sourceRoot o)) with
  | Err e => Some (Err e)
  | Ok src =>
      let o := with_options src (toolkitOptions o) (runtimeOptions o) o in
      let t := NewInstaller (sourceRoot o) (toolkitRoot o) in
      v ← validateFlags t o; Some (let? o := v in Ok (t, o))
  end.
End Before.

(** *** [Run] *)

Section Run.
Context `{Toml, Json, MapRange, Commands, Daemons, CDILibrary, CommandLine, nri.Stub} (env : string -> option string)
  (marshal : Config -> result string) (unmarshal : string -> Config -> result Config).
(** The outcome of the lock on the pid file, the process id, and what others
    do to the files while the process waits for a signal. *)
Context (flock : result unit) (pid : Z) (meanwhile : world -> world).

Definition initialize (pidFile : string) (w : world) : result unit * world :=
  let dir := path_dir pidFile in
  let '(r, f) := if String.eqb dir "" then (inr tt, files w) else sys_MkdirAll 493 dir (files w) in
  match r with
  | inl e => (Err ("unable to create folder for pidfile: " +:+ path_error "mkdir" dir e), with_files f w)
  | inr _ =>
      match sys_write_file "" pidFile f with
      | inl e => (Err ("unable to create pidfile: " +:+ path_error "open" pidFile e), with_files f w)
      | inr f =>
          match flock with
          | Err e => (Err ("unable to get flock on pidfile: " +:+ e), with_files f w)
          | Ok _ =>
              match sys_write_file (fmt_Z pid +:+ newline) pidFile f with
              | inl e => (Err ("unable to write PID to pidfile: " +:+ path_error "write" pidFile e), with_files f w)
              | inr f => (Ok tt, with_files f w)
              end
          end
      end
  end.
Definition shutdown (pidFile : string) (w : world) : world :=
  match sys_Remove pidFile (files w) with inl _ => w | inr f => with_files f w end.
(** [%02d] of an index *)
Definition two_digits (u : Z) : string := (if Z.ltb u 10 then "0" else "") +:+ fmt_Z u.
Definition startNRIPluginServer (o : options) (w : world) : result unit := nri.Start (nriSocket o) (two_digits (nriPluginIndex o)) (files w).
Definition configurer_of (o : options) : option string := NewConfigurer (runtime o) (noRuntimeConfig o) (enableNRIPlugin o).
(** The options of the toolkit with the low-level runtimes: with the plugin
    those of the installed configuration, if it can be loaded, and else those
    of the engine, unless they are given. *)
Definition toolkit_options (t : Toolkit.Installer) (o : options) (w : world) : may_panic (result Toolkit.Options) :=
  if enableNRIPlugin o then
    Some (Ok match GetInstalledConfig env unmarshal t (files w) with
             | Err _ => toolkitOptions o
             | Ok cfg => with_runtimes (Runtimes (NVIDIAContainerRuntimeConfig cfg)) (toolkitOptions o)
             end)
  else if Nat.eqb (length (ContainerRuntimeRuntimes (toolkitOptions o))) 0 then
    ps ← configurer_GetLowlevelRuntimePaths (configurer_of o) (runtimeOptions o) w;
    Some (let? ps := wrap "unable to determine runtime options" ps in
          Ok (with_runtimes (ps ++ defaultLowLevelRuntimes) (toolkitOptions o)))
  else Some (Ok (toolkitOptions o)).
(** After the setup: the wait for a signal and the cleanup. *)
Definition serve (o : options) (w : world) : run :=
  if noDaemon o then Some (Ok tt, w)
  else
    match (if enableNRIPlugin o then wrap "unable to start NRI plugin server" (startNRIPluginServer o w) else Ok tt) with
    | Err e => Some (Err e, w)
    | Ok _ =>
        '(r, w) ← configurer_Cleanup (configurer_of o) (runtimeOptions o) (meanwhile w);
        Some (wrap "unable to cleanup runtime" r, w)
    end.
Definition install_and_serve (t : Toolkit.Installer) (o : options) (w : world) : run :=
  to ← toolkit_options t o w;
  match to with
  | Err e => Some (Err e, w)
  | Ok to =>
      '(e, w) ← Toolkit.Install env marshal cli_IsSet t to (runtime o) w;
      match e with
      | Some e => Some (Err ("unable to install toolkit: " +:+ e), w)
      | None =>
          '(r, w) ← configurer_Setup (configurer_of o) (runtimeOptions o) w;
          match r with
          | Err e => Some (Err ("unable to setup runtime: " +:+ e), w)
          | Ok _ => serve o w
          end
      end
  end.
Definition Run (t : Toolkit.Installer) (o : options) (w : world) : run :=
  match initialize (pidFile o) w with
  | (Err e, w) => Some (Err ("unable to initialize: " +:+ e), w)
  | (Ok _, w) => '(r, w) ← install_and_serve t o w; Some (r, shutdown (pidFile o) w)
  end.
End Run.
End installer.

(** ** Devices through the plugin *)

Lemma CreateContainer_devices ns pod ctr :
  nri.CDIDevices (nri.CreateContainer ns pod ctr) = nri.parseCDIDevices ns pod nri.nriCDIAnnotationDomain (nri.ctr_Name ctr).
Proof.
  unfold nri.CreateContainer, nri.injectCDIDevices.
  enough (forall l a, nri.CDIDevices (foldl (fun a name => nri.AddCDIDevice name a) a l) = nri.CDIDevices a ++ l) as E by apply E.
  induction l as [|x l IH]; intros a; cbn; [by rewrite app_nil_r|]. rewrite IH. cbn. by rewrite <- app_assoc.
Qed.
(** C19. The plugin gives devices only to containers of pods in its own
    namespace, and there those that the annotation lists: the one for the
    container if there is one, else the one for the pod. *)
Theorem CreateContainer_spec ns pod ctr (key := "nvidia.cdi.k8s.io") (devices := nri.CDIDevices (nri.CreateContainer ns pod ctr)) :
  (nri.Namespace pod <> ns -> devices = []) /\
  (nri.Namespace pod = ns ->
   match nri.pod_Annotations pod !! (key +:+ "/container." +:+ nri.ctr_Name ctr), nri.pod_Annotations pod !! (key +:+ "/pod"),
         nri.pod_Annotations pod !! key with
   | Some v, _, _ | None, Some v, _ | None, None, Some v => devices = split "," v
   | None, None, None => devices = []
   end).
Proof.
  unfold devices. rewrite CreateContainer_devices. unfold nri.parseCDIDevices.
  destruct (String.eqb_spec ns (nri.Namespace pod)) as [E|E]; split; intros Hn; try done.
  unfold nri.GetEffectiveAnnotation, nri.annotation_keys, nri.nriCDIAnnotationDomain. cbn [omap list_omap].
  change "nvidia.cdi.k8s.io" with key.
  destruct (_ !! (key +:+ "/container." +:+ _)), (_ !! (key +:+ "/pod")), (_ !! key); done.
Qed.

(** *** Reconnecting *)

(** A loop that may still start the stub once the plugin is stopped. *)
Definition pending (l : nri.loop_state) : nat := match l with nri.Sleeping | nri.Connecting => 1 | _ => 0 end.
Definition reconnect_invariant (s : nri.state) : Prop :=
  (nri.loops s = [] /\ nri.reconnectInProgress s = false \/ exists x, nri.loops s = [x] /\ nri.reconnectInProgress s = true) /\
  (if nri.stopped s then nri.starts_after_stop s + list_sum (map pending (nri.loops s)) <= 1 else nri.starts_after_stop s = 0)%nat.
Lemma singleton_split {A} (x y : A) before after : [x] = before ++ y :: after -> before = [] /\ after = [] /\ x = y.
Proof. destruct before as [|? [|]]; [|done..]. by intros [= -> <-]. Qed.
Lemma reconnect_step s s' : nri.step s s' -> reconnect_invariant s -> reconnect_invariant s'.
Proof.
  intros Hs [H Hc]. destruct Hs as [s Hp|s Hp|s before x y called after Hl Hx|s before after Hl|s|s].
  - destruct H as [[Hl _]|(x & _ & Hp')]; [|congruence]. rewrite Hl in *. split; [right; by eexists|]. cbn in *.
    by destruct (nri.stopped s).
  - done.
  - destruct H as [[Hl' _]|(z & Hl' & Hp)]; rewrite Hl in Hl'; [by destruct before|].
    symmetry in Hl'. apply singleton_split in Hl' as (-> & -> & ->). rewrite Hl in Hc. split; [right; by eexists|].
    cbn in *. destruct Hx; cbn in *; destruct (nri.stopped s); cbn in *; try done; lia.
  - destruct H as [[Hl' _]|(z & Hl' & Hp)]; rewrite Hl in Hl'; [by destruct before|].
    symmetry in Hl'. apply singleton_split in Hl' as (-> & -> & ->). rewrite Hl in Hc. split; [by left|].
    cbn in *. destruct (nri.stopped s); lia.
  - by split.
  - split; [done|]. cbn. destruct (nri.stopped s); [done|]. rewrite Hc.
    destruct H as [[-> _]|([] & -> & _)]; cbn; lia.
Qed.
(** C18. However often the connection is closed, at most one loop reconnects,
    and once [Stop] was called the plugin is started at most once more. *)
Theorem reconnect_once (s : nri.state) (Hr : nri.reachable s) :
  (length (nri.loops s) <= 1)%nat /\ (nri.reconnectInProgress s = true <-> nri.loops s <> []) /\
  (nri.starts_after_stop s <= 1)%nat.
Proof.
  assert (reconnect_invariant s) as [H Hc].
  { induction Hr as [|s s' _ IH Hs]; [split; [by left|done]|]. by apply (reconnect_step s). }
  split_and!.
  - destruct H as [[-> _]|(x & -> & _)]; cbn; lia.
  - destruct H as [[-> ->]|(x & -> & ->)]; by split.
  - destruct (nri.stopped s); lia.
Qed.
(** A loop that sleeps while the plugin is stopped starts it again. *)
Definition started_again : nri.state := nri.mkState true true false [nri.Leaving] 1.
Lemma started_again_reachable : nri.reachable started_again.
Proof.
  pose proof (nri.loop_moves (nri.mkState true true false [nri.Connecting] 0) [] _ _ _ [] eq_refl (nri.start_ok _)) as H5.
  pose proof (nri.loop_moves (nri.mkState true true false [nri.Sleeping] 0) [] _ _ _ [] eq_refl (nri.after_backoff _)) as H4.
  pose proof (nri.Stop (nri.mkState false true false [nri.Sleeping] 0)) as H3.
  pose proof (nri.loop_moves (nri.mkState false true false [nri.Checking] 0) [] _ _ _ [] eq_refl (nri.check_running (nri.mkState false true false [nri.Checking] 0) eq_refl)) as H2.
  pose proof (nri.connection_closed nri.initial eq_refl) as H1.
  refine (nri.reachable_step _ _ (nri.reachable_step _ _ (nri.reachable_step _ _ (nri.reachable_step _ _ (nri.reachable_step _ _ nri.reachable_initial H1) H2) H3) H4) H5).
Qed.
Lemma reconnect_once_witness : (length (nri.loops started_again) <= 1)%nat /\ nri.starts_after_stop started_again = 1%nat.
Proof. split; [apply (reconnect_once started_again started_again_reachable)|reflexivity]. Defined.

(** ** What is installed and what the engine is given *)

Lemma runtimes_in c n r : operator.GetRuntimes c !! n = Some r ->
  exists binary, binary ∈ ["nvidia-container-runtime"; "nvidia-container-runtime.cdi"; "nvidia-container-runtime.legacy"] /\
    operator.Path r = path_join [operator.root c; binary].
Proof.
  unfold operator.GetRuntimes, operator.add. cbn [foldl]. intros H.
  repeat (apply lookup_insert_Some in H as [[_ <-]|[_ H]]); [eexists; split; [|reflexivity]; set_solver..|done].
Qed.
Lemma default_runtimes binary :
  binary ∈ ["nvidia-container-runtime"; "nvidia-container-runtime.cdi"; "nvidia-container-runtime.legacy"] ->
  exists n r, operator.GetRuntimes (operator.mkConfig "" "" false) !! n = Some r /\ operator.Path r = binary.
Proof.
  rewrite !elem_of_cons. intros [->|[->|[->|[]%elem_of_nil]]].
  - exists "nvidia". eexists. by split; [vm_compute; reflexivity|].
  - exists "nvidia-cdi". eexists. by split; [vm_compute; reflexivity|].
  - exists "nvidia-legacy". eexists. by split; [vm_compute; reflexivity|].
Qed.
Lemma with_defaults_RuntimeDir r o : RuntimeDir (with_defaults r o) = RuntimeDir o.
Proof. unfold with_defaults. by destruct (engine_defaults r) as [[[? ?] ?] ?]. Qed.
Lemma Validate_RuntimeDir r root cdi_set cdi ro ro' : runtime_Validate r root cdi_set cdi ro = Ok ro' ->
  RuntimeDir (shared_options ro') = root.
Proof.
  unfold runtime_Validate. destruct (known_engine r); [|done]. cbn [negb].
  destruct (String.eqb r "crio"); [destruct (crio_Validate _); [|done]|]; cbn [wrap rbind]; intros [= <-]; cbn [shared_options];
    rewrite with_defaults_RuntimeDir; by destruct (String.eqb r "docker").
Qed.
Lemma Before_Ok `{CommandLine, Host} o t o' : installer.Before o = Some (Ok (t, o')) ->
  t = NewInstaller (installer.sourceRoot o') (installer.toolkitRoot o) /\ installer.toolkitRoot o' = installer.toolkitRoot o /\
  installer.toolkitInstallDir o' <> "" /\
  path_base (installer.pidFile o') = "toolkit.pid" /\
  RuntimeDir (shared_options (installer.runtimeOptions o')) = installer.toolkitRoot o /\
  ValidateOptions t (installer.toolkitOptions o) = Some (Ok (installer.toolkitOptions o')).
Proof.
  unfold installer.Before. destruct (if String.eqb _ _ then _ else _) as [src|]; [|done].
  unfold installer.validateFlags. cbn -[path_join NewInstaller ValidateOptions runtime_Validate path_base].
  destruct (String.eqb_spec (installer.toolkitInstallDir o) "") as [|Hd]; [done|].
  destruct (String.eqb_spec (path_base (installer.pidFile o)) installer.toolkitPidFilename) as [Hp|]; [|done].
  destruct (_ && _); [done|]. cbn -[path_join NewInstaller ValidateOptions runtime_Validate path_base].
  destruct (ValidateOptions _ _) as [[to|]|] eqn:Hto; try done. cbn -[path_join NewInstaller ValidateOptions runtime_Validate path_base].
  destruct (runtime_Validate _ _ _ _ _) as [ro|] eqn:Hro; [|done]. apply Validate_RuntimeDir in Hro.
  intros [= <- <-]. by split_and!.
Qed.
(** What the engine is told to run is what the toolkit installs: every runtime
    that the setup adds to an engine is one of the executables, in the directory
    into which they are installed with their configuration. *)
Lemma runtime_installed `{CommandLine, Host, MapRange} (o o' : installer.options) (t : Toolkit.Installer)
    (HB : installer.Before o = Some (Ok (t, o'))) (n : string) (r : operator.Runtime)
    (Hr : runtimes_of (shared_options (installer.runtimeOptions o')) !! n = Some r) :
  exists e, e ∈ executables_of (Toolkit.toolkitRoot t) /\
    operator.Path r = path_join [Toolkit.toolkitRoot t; exe_path e] /\
    ToolkitInstaller.env e !! FilePathOverrideEnvVar = Some (toolkitConfigFilePath t).
Proof.
  apply Before_Ok in HB as (-> & _ & _ & _ & Hd & Hv). unfold runtimes_of in Hr. rewrite Hd in Hr.
  apply runtimes_in in Hr as (binary & Hb & ->). apply default_runtimes in Hb as (n' & r' & Hr' & <-).
  eexists. split; [|split]; [| |].
  - unfold executables_of. apply elem_of_app. right. apply elem_of_app. left. apply list_elem_of_fmap.
    exists (n', r'). split; [reflexivity|]. by apply elem_of_range.
  - reflexivity.
  - cbn [ToolkitInstaller.env]. rewrite lookup_singleton. unfold NewInstaller. cbn [toolkitConfigFilePath Toolkit.toolkitRoot].
    unfold ValidateOptions in Hv. cbn [NewInstaller Toolkit.toolkitRoot] in Hv.
    by destruct (installer.toolkitRoot o).
Qed.

(** ** Runs *)

(** *** Docker, from the options to the file *)

Lemma docker_no_drop_in root cdi_set cdi ro ro' : runtime_Validate "docker" root cdi_set cdi ro = Ok ro' ->
  DropInConfig (shared_options ro') = "".
Proof.
  cbn -[docker_only with_root with_defaults]. intros [= <-]. cbn [shared_options]. generalize (with_root root (if cdi_set then None else Some cdi) (shared_options ro)).
  intros o. change (or_default (DropInConfig (docker_only o)) "" = "").
  unfold docker_only, or_default. cbn [DropInConfig].
  destruct (String.eqb_spec (DropInConfig o) "") as [->|]; [done|].
  destruct (String.eqb_spec (DropInConfig o) runtimeSpecificDefault) as [->|]; done.
Qed.
Lemma Before_docker `{CommandLine, Host} o0 t o : installer.Before o0 = Some (Ok (t, o)) -> installer.runtime o = "docker" ->
  DropInConfig (shared_options (installer.runtimeOptions o)) = "".
Proof.
  unfold installer.Before. destruct (if String.eqb _ _ then _ else _) as [src|]; [|done].
  unfold installer.validateFlags. cbn -[path_join NewInstaller ValidateOptions runtime_Validate path_base].
  destruct (String.eqb _ _); [done|]. destruct (negb _); [done|]. destruct (_ && _); [done|].
  destruct (ValidateOptions _ _) as [[to|]|]; try done. cbn -[path_join NewInstaller ValidateOptions runtime_Validate path_base].
  destruct (runtime_Validate _ _ _ _ _) as [ro|] eqn:Hro; [|done]. intros [= <- <-]. cbn. intros E. rewrite E in Hro.
  by eapply docker_no_drop_in.
Qed.
(** The file is what was printed, if there is a file and it is not empty. *)
Definition docker_saved (path text : string) (g : fs) : Prop :=
  path <> "" -> text <> "" -> exists f, sys_write_file text path f = inr g.
Lemma Raw_Write_saved path text w n w' : Raw_Write path text w = (Ok n, w') -> docker_saved path text (files w').
Proof.
  intros Ew Hp Ht. unfold Raw_Write in Ew. apply String.eqb_neq in Hp, Ht. rewrite Hp, Ht in Ew.
  destruct (if String.eqb _ "" then _ else _) as [[e|[]] f]; [done|].
  destruct (sys_write_file text _ f) as [e|f'] eqn:Es; [done|]. injection Ew as _ <-. by exists f.
Qed.
(** A setup of docker that succeeds has written the configuration that it made
    from the one that it has read. *)
Lemma docker_Setup_Ok `{Json, MapRange, Commands, Daemons} o w w' : DropInConfig o = "" ->
  docker_Setup o w = Some (Ok tt, w') ->
  exists before after text, docker_New (TopLevelConfigPath o) (files w) = Ok before /\ UpdateConfig o before = done after /\
    json_MarshalIndent after = Ok text /\ docker_saved (TopLevelConfigPath o) text (files w').
Proof.
  unfold docker_Setup, docker_getRuntimeConfig, Configure, Flush. intros Hdrop.
  destruct (docker_New _ _) as [before|] eqn:E; [|done]. destruct (UpdateConfig o before) as [[[[]|e] after]|] eqn:Eu; [|done..].
  cbn -[Raw_Write RestartDocker]. rewrite Hdrop. cbn -[Raw_Write RestartDocker]. unfold docker_Save. destruct (json_MarshalIndent after) as [text|] eqn:Em; [|done].
  destruct (Raw_Write _ text w) as [r w2] eqn:Ew. cbn -[RestartDocker]. destruct r as [n|]; [|done].
  destruct (RestartDocker o) as [[]|]; [|done]. cbn. intros [= <-]. exists before, after, text. split_and!; [done..|].
  by eapply Raw_Write_saved.
Qed.
(** A cleanup of docker that succeeds has written the configuration without the
    runtimes. *)
Lemma docker_Cleanup_Ok `{Json, MapRange, Commands, Daemons} o w w' : DropInConfig o = "" ->
  docker_Cleanup o w = Some (Ok tt, w') ->
  exists before after text, docker_New (TopLevelConfigPath o) (files w) = Ok before /\ RevertConfig o before = done after /\
    json_MarshalIndent after = Ok text /\ docker_saved (TopLevelConfigPath o) text (files w').
Proof.
  unfold docker_Cleanup, docker_getRuntimeConfig, Unconfigure, Flush. intros Hdrop.
  destruct (docker_New _ _) as [before|] eqn:E; [|done]. destruct (RevertConfig o before) as [[[[]|e] after]|] eqn:Eu; [|done..].
  cbn -[Raw_Write RestartDocker]. rewrite Hdrop. cbn -[Raw_Write RestartDocker]. unfold docker_Save. destruct (json_MarshalIndent after) as [text|] eqn:Em; [|done].
  destruct (Raw_Write _ text w) as [r w2] eqn:Ew. cbn -[RestartDocker]. destruct r as [n|]; [|done].
  destruct (RestartDocker o) as [[]|]; [|done]. cbn. intros [= <-]. exists before, after, text. split_and!; [done..|].
  by eapply Raw_Write_saved.
Qed.
(** The executable of a runtime in the engine whose runtime has the given name:
    the name stands for [nvidia] when it is empty or one of a mode. *)
Definition runtime_binary (name n : string) : option string :=
  let nvidia := if bool_decide (name = "" \/ name = "nvidia-cdi" \/ name = "nvidia-legacy") then "nvidia" else name in
  if bool_decide (n = "nvidia-cdi") then Some "nvidia-container-runtime.cdi"
  else if bool_decide (n = "nvidia-legacy") then Some "nvidia-container-runtime.legacy"
  else if bool_decide (n = nvidia) then Some "nvidia-container-runtime"
  else None.
Lemma runtimes_binary o n :
  operator.Path <$> runtimes_of o !! n = (fun binary => path_join [RuntimeDir o; binary]) <$> runtime_binary (RuntimeName o) n.
Proof.
  set (nvidia := if bool_decide (RuntimeName o = "" \/ RuntimeName o = "nvidia-cdi" \/ RuntimeName o = "nvidia-legacy") then "nvidia" else RuntimeName o).
  assert (E : operator.Path <$> runtimes_of o = <["nvidia-legacy" := path_join [RuntimeDir o; "nvidia-container-runtime.legacy"]]>
    (<["nvidia-cdi" := path_join [RuntimeDir o; "nvidia-container-runtime.cdi"]]> {[nvidia := path_join [RuntimeDir o; "nvidia-container-runtime"]]})).
  { unfold runtimes_of, operator.GetRuntimes, operator.add. cbn [foldl]. rewrite !fmap_insert, fmap_empty.
    replace nvidia with (operator.name (operator.nvidiaRuntime (operator.mkConfig (RuntimeDir o)
      (if String.eqb (RuntimeName o) "" then operator.defaultRuntimeName else RuntimeName o) (InstallerRuntimes.SetAsDefault o)))); [reflexivity|].
    unfold nvidia, operator.nvidiaRuntime. cbn [operator.newRuntime operator.name operator.nvidiaRuntimeName].
    case_bool_decide as Hn; [by destruct Hn as [->|[->| ->]]|]. destruct (String.eqb_spec (RuntimeName o) ""); [naive_solver|].
    destruct (String.eqb_spec (RuntimeName o) "nvidia-cdi"), (String.eqb_spec (RuntimeName o) "nvidia-legacy"); naive_solver. }
  rewrite <- lookup_fmap, E. unfold runtime_binary. fold nvidia.
  repeat case_bool_decide; subst; simplify_map_eq; done.
Qed.
(** Each of the three is an executable of the toolkit. *)
Lemma runtime_binary_installed `{MapRange} name n binary root : runtime_binary name n = Some binary ->
  exists e, e ∈ executables_of root /\ exe_path e = binary.
Proof.
  intros Hb. destruct (default_runtimes binary) as (k & r & Hr & <-).
  { unfold runtime_binary in Hb. repeat case_bool_decide; simplify_eq; set_solver. }
  unfold executables_of. eexists. split; [apply elem_of_app; right; apply elem_of_app; left|].
  - apply list_elem_of_fmap. exists (k, r). split; [reflexivity|]. by apply elem_of_range.
  - reflexivity.
Qed.
(** What the setup and the cleanup make of the runtimes. *)
Lemma docker_updated `{Json, MapRange} o before after n : docker_ok before -> UpdateConfig o before = done after ->
  match runtime_binary (RuntimeName o) n with
  | Some b => docker_written after n = path_join [RuntimeDir o; b] /\ exists e, e ∈ executables_of (RuntimeDir o) /\ exe_path e = b
  | None => docker_written after n = docker_written before n
  end.
Proof.
  intros Hok Hu. destruct (UpdateConfig_writes (H1 := docker_laws) o before Hok) as (c1 & Hc1 & _ & Hwr & _).
  rewrite Hu in Hc1. injection Hc1 as <-. specialize (Hwr n). pose proof (runtimes_binary o n) as Hn.
  destruct (runtime_binary _ n) as [b|] eqn:Eb, (runtimes_of o !! n) as [rt|]; try done.
  split; [etransitivity; [exact Hwr|exact (f_equal (default "") Hn)]|]. by eapply runtime_binary_installed.
Qed.
Lemma docker_reverted `{Json, MapRange} o before after n : docker_ok before -> RevertConfig o before = done after ->
  docker_written after n = if runtime_binary (RuntimeName o) n is Some _ then "" else docker_written before n.
Proof.
  intros Hok Hu. destruct (RevertConfig_writes (H1 := docker_laws) o before Hok) as (c1 & Hc1 & _ & Hwr).
  rewrite Hu in Hc1. injection Hc1 as <-. etransitivity; [apply Hwr|]. pose proof (runtimes_binary o n) as Hn.
  by destruct (runtime_binary _ n) as [b|], (runtimes_of o !! n) as [rt|].
Qed.
(** C6. The installer sets docker up with what it installs, when it is to
    configure docker (no [no-runtime-config] and no NRI plugin). If it ends
    without an error, the toolkit was installed for the low-level runtimes that
    docker's configuration named before [runc] and [crun], unless others were
    given; after that the configuration was written to docker's file in which,
    if the file made sense, each of the three runtimes is the executable of its
    own among those installed and every other runtime is as it was. A daemon
    has, in the end, taken the three out of what the file then held and left
    the others; the pid file is removed last. *)
Theorem Run_sets_docker_up `{Toml, Json, MapRange, Commands, Daemons, CDILibrary, CommandLine, nri.Stub, Host} env marshal unmarshal flock pid meanwhile
    (o0 o : installer.options) (t : Toolkit.Installer) (w w' : world)
    (so := shared_options (installer.runtimeOptions o)) (path := TopLevelConfigPath so) (binary := runtime_binary (RuntimeName so))
    (HB : installer.Before o0 = Some (Ok (t, o))) (Hd : installer.runtime o = "docker")
    (Hnri : installer.enableNRIPlugin o = false) (Hcfg : installer.noRuntimeConfig o = false)
    (HR : installer.Run env marshal unmarshal flock pid meanwhile t o w = Some (Ok tt, w')) :
  exists to w1 w2 w3 w4 before after text,
    installer.initialize flock pid (installer.pidFile o) w = (Ok tt, w1) /\
    (ContainerRuntimeRuntimes (installer.toolkitOptions o) = [] -> exists c ps, docker_New path (files w1) = Ok c /\
       GetBinaryPathsForRuntimes c = Some ps /\ ContainerRuntimeRuntimes to = ps ++ ["runc"; "crun"]) /\
    Toolkit.Install env marshal cli_IsSet t to "docker" w1 = Some (None, w2) /\
    docker_New path (files w2) = Ok before /\ json_MarshalIndent after = Ok text /\ docker_saved path text (files w3) /\
    (docker_ok before -> forall n, match binary n with
       | Some b => docker_written after n = path_join [Toolkit.toolkitRoot t; b] /\
           exists e, e ∈ executables_of (Toolkit.toolkitRoot t) /\ exe_path e = b
       | None => docker_written after n = docker_written before n
       end) /\
    (if installer.noDaemon o then w4 = w3
     else exists set_up cleaned text', docker_New path (files (meanwhile w3)) = Ok set_up /\
       json_MarshalIndent cleaned = Ok text' /\ docker_saved path text' (files w4) /\
       (docker_ok set_up -> forall n, docker_written cleaned n = if binary n is Some _ then "" else docker_written set_up n)) /\
    w' = installer.shutdown (installer.pidFile o) w4.
Proof.
  pose proof (Before_docker o0 t o HB Hd) as Hdrop. fold so in Hdrop.
  destruct (Before_Ok o0 t o HB) as (Ht & _ & _ & _ & Hdir & _). fold so in Hdir.
  assert (Hroot : Toolkit.toolkitRoot t = RuntimeDir so) by (rewrite Ht, Hdir; reflexivity). clear Ht Hdir.
  unfold installer.Run in HR. destruct (installer.initialize _ _ _ _) as [[[]|e] w1] eqn:Einit; [|done].
  destruct (installer.install_and_serve _ _ _ _ _ _ _) as [[r w4]|] eqn:E; [|done]. injection HR as -> Hw'.
  unfold installer.install_and_serve in E. destruct (installer.toolkit_options _ _ _ _ _) as [[to|e]|] eqn:Eto; try done.
  cbn [mbind option_bind] in E. rewrite Hd in E. destruct (Toolkit.Install _ _ _ _ _ _ _) as [[[e|] w2]|] eqn:Ei; try done.
  cbn [mbind option_bind] in E. unfold installer.serve, installer.configurer_of, NewConfigurer in E. rewrite Hcfg, Hnri, Hd in E.
  cbn [orb] in E. unfold configurer_Setup, configurer_Cleanup in E. cbn -[docker_Setup docker_Cleanup] in E.
  destruct (docker_Setup _ _) as [[[[]|e] w3]|] eqn:Es; try done. cbn [mbind option_bind] in E.
  destruct (docker_Setup_Ok so w2 w3 Hdrop Es) as (before & after & text & Hb & Hu & Hm & Hwrite).
  exists to, w1, w2, w3, w4, before, after, text. split_and!; [done| |done..| | |done].
  - intros Hnone. unfold installer.toolkit_options, installer.configurer_of, NewConfigurer in Eto. rewrite Hnri, Hnone, Hcfg, Hd in Eto. cbn -[docker_GetLowlevelRuntimePaths] in Eto.
    unfold docker_GetLowlevelRuntimePaths in Eto. fold so path in Eto. destruct (docker_New path (files w1)) as [c|] eqn:Ec; [|done].
    cbn [wrap mbind option_bind] in Eto. destruct (GetBinaryPathsForRuntimes c) as [ps|] eqn:Eps; [|done].
    cbn in Eto. injection Eto as <-. by exists c, ps.
  - intros Hok n. rewrite Hroot. by apply (docker_updated so before after n).
  - destruct (installer.noDaemon o) in E |- *; [congruence|].
    destruct (docker_Cleanup so (meanwhile w3)) as [[[[]|e] w5]|] eqn:Ec; fold so in E; rewrite Ec in E; try done. injection E as ->.
    destruct (docker_Cleanup_Ok so _ w4 Hdrop Ec) as (set_up & cleaned & text' & Hs & Hr & Hm' & Hwrite').
    exists set_up, cleaned, text'. split_and!; [done..|]. intros Hok n. by apply (docker_reverted so set_up cleaned n).
Qed.

(** *** A run *)

#[local] Instance lab_flags : CommandLine := {
  cli_IsSet := fun _ => false;
  cli_string := fun names _ => if bool_decide (names = ["toolkit-source-root"]) then Some "/artifacts" else None;
  cli_strings := fun _ _ => None; cli_bool := fun names _ => if bool_decide (names = ["no-daemon"; "n"]) then Some true else None; cli_uint := fun _ _ => None;
}.
#[local] Instance lab_toml : Toml := { toml_Marshal := fun _ => Ok "[nvidia-container-runtime]"; toml_Load := fun _ => Ok ∅ }.
#[local] Instance lab_json : Json := { json_MarshalIndent := fun _ => Ok "{}"; json_Decode := fun _ => Ok (Some ∅) }.
#[local] Instance lab_cdi : CDILibrary :=
  { os_Getwd := Ok "/"; cdi_GetSpec := fun _ _ => Some (Err "no driver"); cache_WriteSpec := fun _ _ _ f => (None, f) }.
#[local] Instance lab_range : MapRange := map_to_list_range.
#[local] Instance lab_commands : Commands := fun _ _ => Err "no command".
#[local] Instance lab_daemons : Daemons := fun _ _ => Ok tt.
#[local] Instance lab_stub : nri.Stub := { nri.stub_New := fun _ _ => Ok tt; nri.stub_Start := Ok tt }.
#[local] Instance lab_host : Host := fs_host no_env lab_files.
(** The installer that leaves docker configured. *)
Definition lab_before : option (Toolkit.Installer * installer.options) :=
  match installer.Before installer.flags with Some (Ok x) => Some x | _ => None end.
Definition lab_run : option (result unit * world) :=
  '(t, o) ← lab_before;
  installer.Run no_env (fun _ => Ok "") (fun _ c => Ok c) (Ok tt) 7 id t o (mkWorld lab_files "").
Definition lab_t : Toolkit.Installer := NewInstaller "/artifacts" "/usr/local/nvidia/toolkit".
Definition lab_o : installer.options := match lab_before with Some (_, o) => o | None => installer.flags end.
Local Abbreviation lab_Run := (installer.Run no_env (fun _ => Ok "") (fun _ c => Ok c) (Ok tt) 7 id lab_t lab_o (mkWorld lab_files "")).
Definition end_of (r : run) : world := match r with Some (_, w) => w | None => mkWorld ∅ "" end.
Lemma end_of_spec (r : run) : fst <$> r = Some (Ok tt) -> r = Some (Ok tt, end_of r).
Proof. destruct r as [[r w]|]; [|done]. by intros [= ->]. Qed.
Lemma lab_Run_ok : fst <$> lab_Run = Some (Ok tt).
Proof. vm_compute. reflexivity. Qed.
Lemma lab_run_files :
  sys_Stat (files (end_of lab_Run)) "/etc/docker/daemon.json" = inr (FileNode "{}" 438) /\
  sys_Stat (files (end_of lab_Run)) "/run/nvidia/toolkit/toolkit.pid" = inl ENOENT.
Proof. split; vm_compute; reflexivity. Qed.
Lemma lab_o_facts : installer.Before installer.flags = Some (Ok (lab_t, lab_o)) /\ installer.runtime lab_o = "docker" /\
  RuntimeName (shared_options (installer.runtimeOptions lab_o)) = "nvidia" /\
  installer.enableNRIPlugin lab_o = false /\ installer.noRuntimeConfig lab_o = false.
Proof. split_and!; vm_compute; reflexivity. Qed.
Lemma lab_docker path f c : docker_New path f = Ok c -> c = Some ∅.
Proof.
  unfold docker_New, docker_loadConfig. destruct (String.eqb path ""); [by intros [= <-]|].
  destruct (sys_Stat f path) as [[]|[]], (sys_Open f path) as [|[]]; cbn; congruence.
Qed.
Lemma Run_sets_docker_up_witness : exists after,
  docker_written after "nvidia" = "/usr/local/nvidia/toolkit/nvidia-container-runtime" /\
  docker_written after "nvidia-cdi" = "/usr/local/nvidia/toolkit/nvidia-container-runtime.cdi" /\ docker_written after "other" = "".
Proof.
  destruct lab_o_facts as (HB & Hd & Hn & Hnri & Hcfg).
  destruct (Run_sets_docker_up no_env (fun _ => Ok "") (fun _ c => Ok c) (Ok tt) 7 id installer.flags lab_o lab_t (mkWorld lab_files "") (end_of lab_Run)
    HB Hd Hnri Hcfg (end_of_spec _ lab_Run_ok))
    as (to & w1 & w2 & w3 & w4 & before & after & text & _ & _ & _ & Hb & _ & _ & Hw & _).
  apply lab_docker in Hb as ->. exists after.
  assert (docker_ok (Some ∅)) as Hok by (exists ∅; split_and!; [done|by intros v ?..]).
  rewrite Hn in Hw. split_and!.
  - apply (Hw Hok "nvidia").
  - apply (Hw Hok "nvidia-cdi").
  - etransitivity; [exact (Hw Hok "other")|reflexivity].
Defined.
Definition lab_pod (ns : string) : nri.PodSandbox := nri.mkPod "pod" ns
  {["nvidia.cdi.k8s.io" := "nvidia.com/gpu=0"; "nvidia.cdi.k8s.io/container.a" := "nvidia.com/gpu=1,nvidia.com/gpu=2"]}.
Lemma CreateContainer_spec_witness :
  nri.CDIDevices (nri.CreateContainer "toolkit" (lab_pod "toolkit") (nri.mkContainer "a")) = ["nvidia.com/gpu=1"; "nvidia.com/gpu=2"] /\
  nri.CDIDevices (nri.CreateContainer "toolkit" (lab_pod "other") (nri.mkContainer "a")) = [].
Proof.
  split.
  - exact (proj2 (CreateContainer_spec "toolkit" (lab_pod "toolkit") (nri.mkContainer "a")) eq_refl).
  - apply (proj1 (CreateContainer_spec "toolkit" (lab_pod "other") (nri.mkContainer "a"))). done.
Defined.

(** *** The package type *)

(** The locator checks a path with a slash as it is, not below its root. *)
Lemma package_type_ignores_root `{Host} hostRoot hostRoot' packageType :
  installer.resolvePackageType hostRoot packageType = installer.resolvePackageType hostRoot' packageType.
Proof. done. Qed.
