(* ===== verification/CdiGenerateProps.v ===== *)
(** * Properties of nvidia-ctk cdi generate *)
From S2P Require Import Prelude GoStrings GoPaths Lookup Tegra ProcInfo Config CDISpec CDIParser Transform TransformProps SpecBuilder SpecBuilderProps NvcdiOptions FileSystem ToolkitInstaller CdiGenerate.
Import generate.

(** ** Simplifying twice, with a merged device *)

Section Merged.
Context `{MapRange} `{SortSlice}.

Lemma sorter_valid e : valid_edits e -> valid_edits (sorter_transformEdits e).
Proof.
  intros [Hv Hn Hh Hm]. split; cbn; [done| |done|]; rewrite Forall_forall in *; intros x Hx;
    unfold sortDeviceNodes, sortMounts in Hx; rewrite sort_slice_perm in Hx; auto.
Qed.
Lemma simplified_device_valid c d : valid_edits (Device_Edits d) -> valid_edits (Device_Edits (simplified_device c d)).
Proof.
  intros Hd. unfold simplified_device. cbn [Device_Edits set_device_edits]. apply sorter_valid. rewrite simplify_device_spec.
  apply dedupe_valid in Hd. destruct (IsEmpty _); [done|]. destruct Hd as [Hv Hn Hh Hm]. cbn in *.
  split; cbn; rewrite Forall_forall in *; intros x Hx%list_elem_of_In%filter_In; destruct Hx as [Hx%list_elem_of_In _]; auto.
Qed.
Lemma simplified_common c : valid_edits c -> same_entities c (sorter_transformEdits (dedupe_transformEdits c)).
Proof. intros Hc. etrans; [by apply dedupe_entities|apply sorter_entities]. Qed.

Lemma device_preserved_trans c1 c2 c3 d1 d2 d3 :
  device_preserved c1 c2 d1 d2 -> device_preserved c2 c3 d2 d3 -> device_preserved c1 c3 d1 d3.
Proof.
  intros (Hn & Ha & [H1 H2 H3 H4 H5 H6 H7]) (Hn' & Ha' & [K1 K2 K3 K4 K5 K6 K7]).
  split; [by rewrite Hn'|]. split; [by rewrite Ha'|].
  split; try (intros x; etrans; eauto); destruct_and!; split; congruence.
Qed.
Lemma devices_preserved_trans c1 c2 c3 l1 l2 l3 :
  Forall2 (device_preserved c1 c2) l1 l2 -> Forall2 (device_preserved c2 c3) l2 l3 -> Forall2 (device_preserved c1 c3) l1 l3.
Proof.
  intros Hl. revert l3. induction Hl as [|d1 d2 l1 l2 Hd Hl IH]; intros l3 Hl3; inversion Hl3; subst; constructor; [by eapply device_preserved_trans|].
  by apply IH.
Qed.
(** The list can be reordered on either side. *)
Lemma Forall2_perm_r {A B} (P : A -> B -> Prop) l k k' : Forall2 P l k -> k ≡ₚ k' -> exists l', l ≡ₚ l' /\ Forall2 P l' k'.
Proof. intros Hl Hk. apply Forall2_flip in Hl. destruct (Permutation_Forall2 Hk Hl) as (l' & Hp & HF). exists l'. split; [done|by apply Forall2_flip]. Qed.
End Merged.

(** ** What one specification holds *)

(** The specification holds the devices, each of which gives a container the
    same as before, and, unless it is not wanted or the name is taken, one
    that combines them all. *)
Definition merged_device (e : edits) (ds : list device) (noAll : bool) (c' : edits) (extra : list device) : Prop :=
  (extra = [] /\ (noAll = true \/ "all" ∈ map Device_Name ds)) \/
  (noAll = false /\ "all" ∉ map Device_Name ds /\
   exists md, extra = [md] /\ Device_Name md = "all" /\ Device_Annotations md = ∅ /\ combines e ds c' (Device_Edits md)).
Definition holds (e : edits) (ds : list device) (noAll : bool) (s : spec) : Prop :=
  exists extra ds', Devices s ≡ₚ extra ++ ds' /\ Forall2 (device_preserved e (Spec_Edits s)) ds ds' /\
    merged_device e ds noAll (Spec_Edits s) extra.

Section Holds.
Context `{MapRange} `{SortSlice}.

Lemma preserved_names c c' l l' : Forall2 (device_preserved c c') l l' -> map Device_Name l' = map Device_Name l.
Proof. induction 1 as [|d d' l l' (Hn & _ & _) _ IH]; [done|]. cbn. by rewrite Hn, IH. Qed.
(** Both passes together: what the merged device combines is what the devices
    gave before the first one. *)
Lemma union_preserved {A} (P P1 : A -> Prop) (C C1 : Prop) l l1 : (C1 <-> C) ->
  Forall2 (fun d d1 => (C1 \/ P1 d1) <-> (C \/ P d)) l l1 ->
  (C1 \/ exists d, d ∈ l1 /\ P1 d) <-> (C \/ exists d, d ∈ l /\ P d).
Proof.
  intros HC. induction 1 as [|d d1 l l1 Hd _ IH].
  - rewrite HC. split; (intros [|(d & Hd & _)]; [by left|]; by apply not_elem_of_nil in Hd).
  - setoid_rewrite elem_of_cons. split; intros [HC1|(x & [->|Hx] & Hp)]; naive_solver.
Qed.
Lemma combines_preserved e c1 ds ds1 l1 c' e' : same_entities e c1 -> Forall2 (device_preserved e c1) ds ds1 -> l1 ≡ₚ ds1 ->
  combines c1 l1 c' e' -> combines e ds c' e'.
Proof.
  intros [He1 He2 He3 He4 _ _ _] Hds Hp [H1 H2 H3 H4].
  assert (Hall : forall (A : Type) (proj : edits -> list A) x, (x ∈ proj c1 <-> x ∈ proj e) ->
    (forall d d1, device_preserved e c1 d d1 -> x ∈ proj c1 ++ proj (Device_Edits d1) <-> x ∈ proj e ++ proj (Device_Edits d)) ->
    (x ∈ proj c1 \/ exists d, d ∈ l1 /\ x ∈ proj (Device_Edits d)) <-> (x ∈ proj e \/ exists d, d ∈ ds /\ x ∈ proj (Device_Edits d))).
  { intros A proj x Hx Hd. setoid_rewrite Hp. apply union_preserved; [done|].
    eapply Forall2_impl; [exact Hds|]. intros d d1 Hdd. specialize (Hd d d1 Hdd). by rewrite !elem_of_app in Hd. }
  split; intros x; rewrite ?H1, ?H2, ?H3, ?H4; apply Hall; auto; by intros d d1 (_ & _ & []).
Qed.

(** A simplified specification, with its devices in some order. *)
Lemma merge_holds (e : edits) (ds : list device) (s : spec) :
  valid_edits e -> Forall (fun d => valid_edits (Device_Edits d)) ds ->
  Spec_Edits s = sorter_transformEdits (dedupe_transformEdits e) -> Devices s ≡ₚ map (simplified_device e) ds ->
  exists s', mergedDevice_Transform (mkMergedDevice "all" true) s = Ok s' /\ Kind s' = Kind s /\ holds e ds false s'.
Proof.
  intros He Hds Hc Hp. pose proof (simplified_devices_preserved e ds He Hds) as Hpres. rewrite <- Hc in Hpres.
  assert (Hnames : map Device_Name (Devices s) ≡ₚ map Device_Name ds) by by rewrite Hp, (preserved_names _ _ _ _ Hpres).
  assert (Hall : "all" ∈ map Device_Name (Devices s) <-> "all" ∈ map Device_Name ds) by by rewrite Hnames.
  unfold mergedDevice_Transform. cbn [name skipIfExists]. destruct (mergeDeviceSpecs (Devices s) "all") as [d|] eqn:Hd.
  2: { apply mergeDeviceSpecs_none, Hall in Hd. exists s. split; [done|]. split; [done|]. exists [], (map (simplified_device e) ds).
       split; [done|]. split; [done|]. left. auto. }
  assert (Hno : "all" ∉ map Device_Name ds) by (rewrite <- Hall, <- mergeDeviceSpecs_none; by rewrite Hd).
  unfold mergeDeviceSpecs in Hd. destruct (existsb _ _); [done|]. injection Hd as <-. fold (merged_edits (Devices s)).
  set (md := mkDevice "all" ∅ (merged_edits (Devices s))). rewrite NewSimplifier_eq. cbn [wrap].
  eexists. split; [reflexivity|]. split; [done|]. set (c := Spec_Edits s) in *.
  assert (Hvc : valid_edits c) by (rewrite Hc; apply sorter_valid; by apply dedupe_valid).
  assert (Hv1 : Forall (fun d => valid_edits (Device_Edits d)) (map (simplified_device e) ds)).
  { apply Forall_map. eapply Forall_impl; [exact Hds|]. intros d. apply simplified_device_valid. }
  destruct (simplified_device_name c md) as [Hmn Hma].
  exists [simplified_device c md], (map (simplified_device c) (map (simplified_device e) ds)). cbn [Devices Spec_Edits set_devices].
  split; [unfold sortDevices; rewrite sort_slice_perm, map_app, Hp; cbn; by rewrite Permutation_app_comm|].
  split; [eapply devices_preserved_trans; [exact Hpres|]; by apply simplified_devices_preserved|].
  right. split; [done|]. split; [done|]. exists (simplified_device c md). split; [done|]. split; [done|]. split; [done|].
  eapply (combines_preserved e c _ _ (Devices s)); [rewrite Hc; by apply simplified_common|exact Hpres|exact Hp|].
  apply same_effects_combines, (simplified_device_effects c md); [done|]. apply merged_valid. by rewrite Hp.
Qed.

(** What [spec.New] makes of the options of one specification. *)
Lemma new_spec_holds (e : edits) (o : options) (infix : string) (ds : list device) :
  valid_edits e -> Forall (fun d => valid_edits (Device_Edits d)) ds -> vendor o <> "" -> class o +:+ infix <> "" -> format o <> "" ->
  exists s, new_spec e o infix ds = Ok (mkBuilt s (format o) 420 true) /\ Kind s = vendor o +:+ "/" +:+ (class o +:+ infix) /\
    holds e ds (noAllDevice o) s.
Proof.
  intros He Hds Hv Hc Hf. unfold new_spec, SpecBuilder.New, newBuilder, commonSpecOptions. rewrite foldl_app, foldl_app.
  apply String.eqb_neq in Hv, Hc, Hf.
  destruct (noAllDevice o) eqn:Hno; cbn -[NewSimplifier mergedDevice_Transform NewMergedDevice];
    unfold fill_from_raw, fill_defaults, Build, or_default; cbn -[NewSimplifier mergedDevice_Transform NewMergedDevice];
    rewrite Hv, Hc, Hf; cbn -[NewSimplifier mergedDevice_Transform NewMergedDevice]; rewrite NewSimplifier_eq; cbn -[NewSimplifier mergedDevice_Transform NewMergedDevice].
  - eexists. split; [reflexivity|]. split; [done|]. exists [], (map (simplified_device e) ds). cbn. split; [apply sort_slice_perm|].
    split; [by apply simplified_devices_preserved|]. left. auto.
  - assert (NewMergedDevice [Transform.WithName allDeviceName; Transform.WithSkipIfExists true] = Ok (mkMergedDevice "all" true)) as -> by (vm_compute; reflexivity).
    cbn [wrap rbind]. match goal with |- context [mergedDevice_Transform _ ?s] => destruct (merge_holds e ds s He Hds) as (s' & -> & Hk & Hh) end;
      [done|apply sort_slice_perm|].
    exists s'. split; [done|]. by split; [rewrite Hk|].
Qed.

(** ** Splitting by coherence *)

Definition with_value (v : string) (ds : list device) : list device :=
  List.filter (fun d => bool_decide (Device_Annotations d !! coherent = Some v)) ds.
Lemma splitOnAnnotation_lookup v ds :
  default [] (splitOnAnnotation coherent ds !! (coherent +:+ "=" +:+ v)) = map (forget coherent) (with_value v ds).
Proof.
  induction ds as [|d ds IH] using rev_ind; [done|]. unfold splitOnAnnotation, with_value in *. rewrite foldl_snoc, List.filter_app, map_app, <- IH.
  cbn [List.filter]. set (m := foldl _ _ _) in *. unfold add_split.
  destruct (Device_Annotations d !! coherent) as [w|]; [|rewrite bool_decide_eq_false_2 by done; by rewrite app_nil_r].
  case_bool_decide as Hw.
  - injection Hw as ->. by rewrite lookup_insert_eq.
  - cbn zeta. rewrite lookup_insert_ne.
    1: by rewrite app_nil_r.
    intros E%sapp_inj_l%sapp_inj_l. by subst.
Qed.
Lemma with_value_valid (P : device -> Prop) v ds : Forall P ds -> Forall P (with_value v ds).
Proof.
  rewrite !Forall_forall. intros Hds d Hd%list_elem_of_In%filter_In.
  apply Hds, list_elem_of_In, Hd.
Qed.

(** Forgetting the annotation afterwards is as if the devices never had it. *)
Lemma forget_preserved e c' ds ds' : Forall2 (device_preserved e c') ds ds' ->
  Forall2 (device_preserved e c') (map (forget coherent) ds) (map (forget coherent) ds').
Proof. induction 1 as [|d d' ds ds' (Hn & Ha & He) _ IH]; [by constructor|]. constructor; [|done]. split; [done|]. split; [cbn; by rewrite Ha|done]. Qed.
Lemma forget_names (ds : list device) : map Device_Name (map (forget coherent) ds) = map Device_Name ds.
Proof. by rewrite map_map. Qed.
Lemma forget_elem (P : edits -> Prop) ds :
  (exists d, d ∈ map (forget coherent) ds /\ P (Device_Edits d)) <-> exists d, d ∈ ds /\ P (Device_Edits d).
Proof.
  split.
  - intros (d & (d0 & -> & Hd)%list_elem_of_fmap & Hx). by exists d0.
  - intros (d & Hd & Hx). exists (forget coherent d). split; [|done]. apply list_elem_of_fmap. by exists d.
Qed.
Lemma forget_holds e ds noAll b : holds e ds noAll (Raw b) -> holds e (map (forget coherent) ds) noAll (Raw (forget_all coherent b)).
Proof.
  intros (extra & ds' & Hp & Hds & Hm). exists (map (forget coherent) extra), (map (forget coherent) ds'). cbn.
  split; [by rewrite Hp, map_app|]. split; [by apply forget_preserved|]. unfold merged_device. rewrite forget_names.
  destruct Hm as [[-> Hm]|(Hn & Hno & md & -> & Hmn & Hma & Hc)]; [by left|right]. split; [done|]. split; [done|].
  exists (forget coherent md). split; [done|]. split; [done|]. split; [cbn; by rewrite Hma, delete_empty|]. cbn.
  destruct Hc as [H1 H2 H3 H4]. split; intros x; rewrite ?H1, ?H2, ?H3, ?H4; apply or_iff_compat_l; symmetry;
    [apply (forget_elem (fun e => x ∈ Env e))|apply (forget_elem (fun e => x ∈ DeviceNodes e))
    |apply (forget_elem (fun e => x ∈ Hooks e))|apply (forget_elem (fun e => x ∈ Mounts e))].
Qed.
Lemma holds_forgotten e ds noAll s : holds e (map (forget coherent) ds) noAll s -> Forall (fun d => Device_Annotations d !! coherent = None) (Devices s).
Proof.
  intros (extra & ds' & -> & Hds & Hm). apply Forall_app. split.
  - destruct Hm as [[-> _]|(_ & _ & md & -> & _ & Ha & _)]; [by constructor|]. apply Forall_singleton. by rewrite Ha.
  - clear Hm. remember (map (forget coherent) ds) as l eqn:El. revert ds El. induction Hds as [|d d' l l' (_ & Ha & _) _ IH]; intros [|d0 ds] El; try done.
    injection El as -> ->. constructor; [rewrite Ha; apply lookup_delete_eq|by apply (IH ds)].
Qed.

(** The devices of the specifications that are to be made, by their infixes. *)
Definition parts (ds : list device) : list (string * list device) :=
  ("", ds) :: List.filter (fun p => negb (Nat.eqb (length p.2) 0)) [(".coherent", with_value "true" ds); (".noncoherent", with_value "false" ds)].
Definition part_of (e : edits) (o : options) (g : generatedSpecs) (p : string * list device) : Prop :=
  let s := Raw (generated g) in
  filenameInfix g = p.1 /\ Kind s = vendor o +:+ "/" +:+ (class o +:+ p.1) /\ built_format (generated g) = format o /\
  holds e (map (forget coherent) p.2) (noAllDevice o) s /\ Forall (fun d => Device_Annotations d !! coherent = None) (Devices s).

Lemma split_spec_holds e o infix v ds : valid_edits e -> Forall (fun d => valid_edits (Device_Edits d)) ds ->
  vendor o <> "" -> infix <> "" -> format o <> "" ->
  exists l, split_spec e o infix (map (forget coherent) (with_value v ds)) = Ok l /\
    Forall2 (part_of e o) l (List.filter (fun p => negb (Nat.eqb (length p.2) 0)) [(infix, with_value v ds)]).
Proof.
  intros He Hds Hv Hi Hf. cbn. destruct (with_value v ds) as [|d l] eqn:E; [exists []; by split|]. cbn [length Nat.eqb negb]. rewrite <- E.
  assert (map (forget coherent) (with_value v ds) <> []) as Hne by by rewrite E.
  destruct (new_spec_holds e o infix (map (forget coherent) (with_value v ds))) as (s & Hs & Hk & Hh); [done| |done| |done|].
  { apply Forall_map. apply with_value_valid. eapply Forall_impl; [exact Hds|]. done. }
  { by destruct (class o), infix. }
  unfold split_spec. rewrite Hs. destruct (map (forget coherent) (with_value v ds)) eqn:E2; [done|]. rewrite <- E2 in *. eexists. split; [reflexivity|].
  constructor; [|by constructor]. split; [done|]. split; [done|]. split; [done|]. split; [done|]. by apply holds_forgotten in Hh.
Qed.

(** Options that pass the validation. *)
Lemma validateFlags_ok `{Host} format_set o0 o : validateFlags format_set o0 = Some (Ok o) ->
  (exists namers, rmap NewDeviceNamer (deviceNameStrategies o) = Ok namers) /\ vendor o <> "" /\ class o <> "" /\
  (format o = FormatJSON \/ format o = FormatYAML) /\ mode o ∈ AllModes /\ "all" ∉ enabledHooks o /\
  ("none" ∈ deviceIDs o -> noAllDevice o = true).
Proof.
  unfold validateFlags. destruct (String.eqb (to_lower (format o0)) FormatJSON || _) eqn:Hf; [|done]. cbn [negb].
  destruct (IsValidMode (to_lower (mode o0))) eqn:Hm; [|done]. cbn [negb].
  destruct (rmap NewDeviceNamer (deviceNameStrategies o0)) as [namers|] eqn:Hn; [|done].
  destruct (ResolveNVIDIACDIHookPath (nvidiaCDIHookPath o0)) as [hook|]; [|done]. cbn [mbind option_bind].
  destruct (validateVendorOrClassName (vendor o0)) as [[]|] eqn:Hv; [|done..]. cbn [mbind option_bind negb].
  destruct (validateVendorOrClassName (class o0)) as [[]|] eqn:Hc; [|done..]. cbn [mbind option_bind negb].
  destruct (existsb (String.eqb "all") (enabledHooks o0)) eqn:Ha; [done|]. intros [= <-]. cbn.
  split; [by exists namers|]. split; [by intros E; rewrite E in Hv|]. split; [by intros E; rewrite E in Hc|].
  split.
  { unfold output_format, formatFromFilename. apply orb_prop in Hf. rewrite !String.eqb_eq in Hf.
    destruct (String.eqb (to_lower (path_ext (output o0))) ".json"), (String.eqb (to_lower (path_ext (output o0))) ".yaml" || String.eqb (to_lower (path_ext (output o0))) ".yml"), format_set; cbn; auto. }
  split; [by apply bool_decide_eq_true in Hm|]. split.
  - intros Hin. rewrite <- not_true_iff_false in Ha. apply Ha. apply existsb_exists. exists "all". split; [by apply list_elem_of_In|done].
  - intros Hin. apply orb_true_iff. right. apply existsb_exists. exists "none". split; [by apply list_elem_of_In|done].
Qed.

(** C11. With options that pass the validation and a library that finds the
    devices, the command makes one specification of all devices and one of those
    that are marked coherent and of those that are marked not to be, if there
    are any. Each has the vendor and the class of its part, holds the devices
    of the part, with what they and the common edits give a container, and a
    device for all of them unless that is not wanted or there is one of that
    name; none keeps the mark. *)
Theorem generateSpecs_spec `{Host} `{DeviceGenerator} (format_set : bool) (o0 o : options) (ds : list device) (e : edits)
    (Hval : validateFlags format_set o0 = Some (Ok o))
    (Hlib : forall namers, rmap NewDeviceNamer (deviceNameStrategies o) = Ok namers ->
      GetDevicesAndEdits (cdiOptions namers o) (deviceIDs o) = Some (Ok (Ok (ds, Ok e))))
    (He : valid_edits e) (Hds : Forall (fun d => valid_edits (Device_Edits d)) ds) :
  exists l, generateSpecs o = Some (Ok l) /\ Forall2 (part_of e o) l (parts ds).
Proof.
  apply validateFlags_ok in Hval as ((namers & Hnamers) & Hv & Hc & Hfmt & _). specialize (Hlib namers Hnamers).
  assert (Hf : format o <> "") by (destruct Hfmt as [-> | ->]; done).
  destruct (new_spec_holds e o "" ds He Hds Hv) as (s & Hs & Hk & Hh); [by destruct (class o)|done|].
  destruct (split_spec_holds e o ".coherent" "true" ds) as (l1 & Hl1 & HF1); [done..|].
  destruct (split_spec_holds e o ".noncoherent" "false" ds) as (l2 & Hl2 & HF2); [done..|].
  eexists. split.
  - unfold generateSpecs. rewrite Hnamers. cbn [wrap]. rewrite Hlib. cbn [wrap mbind option_bind rbind]. unfold specs_of. rewrite Hs. cbn [rbind].
    change (coherent +:+ "=true") with (coherent +:+ "=" +:+ "true"). change (coherent +:+ "=false") with (coherent +:+ "=" +:+ "false").
    rewrite !splitOnAnnotation_lookup, Hl1. cbn [rbind]. rewrite Hl2. reflexivity.
  - unfold parts. constructor; [|match goal with |- context [List.filter _ [?a; ?b]] => change [a; b] with ([a] ++ [b]) end; rewrite List.filter_app; by apply Forall2_app].
    apply (forget_holds _ _ _ (mkBuilt s (format o) 420 true)) in Hh. split; [done|]. split; [done|]. split; [done|]. split; [done|].
    by apply holds_forgotten in Hh.
Qed.
End Holds.

(** ** The files of the specifications *)

Lemma path_ext_app a e : has_byte slash a = false -> has_byte slash e = false -> has_byte "." e = false ->
  path_ext (a +:+ "." +:+ e) = "." +:+ e.
Proof.
  intros Ha He Hd. unfold path_ext. rewrite path_split_free by (by rewrite !has_byte_app, Ha, He). cbn [snd].
  rewrite !srev_sapp, <- sapp_assoc. change (srev "." +:+ srev a) with (String "." (srev a)).
  change "." with (String "." "") at 1. rewrite cut_byte_app; [by rewrite srev_involutive|]. by rewrite has_byte_srev.
Qed.
Lemma path_ext_cases n : has_byte slash n = false ->
  (path_ext n = "" /\ has_byte "." n = false) \/ exists a e, n = a +:+ "." +:+ e /\ path_ext n = "." +:+ e /\ has_byte "." e = false.
Proof.
  intros Hs. unfold path_ext. rewrite path_split_free by done. cbn [snd]. change "." with (String "." "") at 1 3.
  destruct (cut (String "." "") (srev n)) as [[e r]|] eqn:Hc.
  - apply cut_byte_some in Hc as [Hn He]. right. exists (srev r), (srev e). split; [|split; [done|by rewrite has_byte_srev]].
    apply (f_equal srev) in Hn. rewrite srev_involutive in Hn. rewrite Hn. change (String "." r) with ("." +:+ r). rewrite !srev_sapp.
    by rewrite <- sapp_assoc.
  - left. split; [done|]. apply cut_byte_none in Hc. by rewrite has_byte_srev in Hc.
Qed.

(** The infixes of the parts. *)
Definition infixes : list string := [""; ".coherent"; ".noncoherent"].
(** The name of a part, with the extension of the format. *)
Definition part_name (b : built) (infix n : string) : string := with_format_ext b (updateFilename infix n).

(** A name is cut before its extension, where the infix is put. *)
Definition cut_at_ext (n a x : string) : Prop :=
  n = a +:+ x /\ has_byte slash a = false /\ (x = "" \/ exists e, x = "." +:+ e /\ has_byte "." e = false /\ has_byte slash e = false).
Lemma cut_exists n : has_byte slash n = false -> exists a x, cut_at_ext n a x /\ path_ext n = x /\ (x = "" -> has_byte "." n = false).
Proof.
  intros Hs. destruct (path_ext_cases n Hs) as [[He Hd]|(a & e & -> & He & Hd)].
  - exists n, "". split; [|done]. split; [by rewrite sapp_nil_r|]. auto.
  - exists a, ("." +:+ e). split; [|done]. rewrite !has_byte_app in Hs. apply orb_false_elim in Hs as [Ha [_ Hse]%orb_false_elim].
    split; [done|]. split; [done|]. right. eauto.
Qed.
Lemma trim_suffix_nil s : trim_suffix s "" = s.
Proof. rewrite <- (sapp_nil_r s) at 1. apply trim_suffix_app. Qed.
Lemma updateFilename_cut infix n a x : proper n -> cut_at_ext n a x -> path_ext n = x -> updateFilename infix n = a +:+ infix +:+ x.
Proof.
  intros (Hne & _ & _ & Hs) (Hn & _) Hx. unfold updateFilename. destruct (String.eqb_spec infix "") as [->|Hi]; [done|].
  destruct (String.eqb_spec n "") as [|_]; [done|]. cbn [orb]. rewrite path_base_free by done. rewrite Hx, Hn. by rewrite trim_suffix_app.
Qed.
Lemma part_ext infix a x : infix ∈ infixes -> has_byte slash a = false -> has_byte "." (a +:+ x) = false \/ x <> "" ->
  (x = "" \/ exists e, x = "." +:+ e /\ has_byte "." e = false /\ has_byte slash e = false) ->
  path_ext (a +:+ infix +:+ x) = if String.eqb x "" then infix else x.
Proof.
  intros Hi Ha Hd Hx. assert (Hsi : has_byte slash infix = false) by (unfold infixes in Hi; set_unfold; by destruct_or! Hi; subst).
  destruct Hx as [->|(e & -> & He & Hse)].
  - destruct Hd as [Hd|]; [|done]. rewrite sapp_nil_r in *. cbn [String.eqb]. unfold infixes in Hi. set_unfold. destruct_or! Hi; subst.
    + rewrite sapp_nil_r. destruct (path_ext_cases a Ha) as [[]|(b & e & -> & _)]; [done|]. rewrite !has_byte_app in Hd. cbn in Hd.
      by rewrite orb_true_r in Hd.
    + by apply (path_ext_app a "coherent").
    + by apply (path_ext_app a "noncoherent").
  - rewrite sapp_assoc. apply path_ext_app; [by rewrite has_byte_app, Ha, Hsi|done..].
Qed.
Lemma part_name_cut b n a x infix : infix ∈ infixes -> proper n -> cut_at_ext n a x -> path_ext n = x -> (x = "" -> has_byte "." n = false) ->
  part_name b infix n = a +:+ infix +:+ x +:+ (if String.eqb x ".yaml" || String.eqb x ".json" then "" else extension b).
Proof.
  intros Hi Hp Hcut Hx Hdot. unfold part_name. rewrite (updateFilename_cut infix n a x) by done.
  destruct Hcut as (Hn & Ha & He). unfold with_format_ext, has_format_ext. rewrite part_ext; [|done|done| |done].
  - destruct (String.eqb_spec x "") as [->|Hne].
    + cbn [String.eqb orb]. rewrite (sapp_nil_r infix). unfold infixes in Hi. set_unfold. destruct_or! Hi; subst; cbn [String.eqb Ascii.eqb Bool.eqb orb];
        by rewrite <- ?sapp_assoc.
    + destruct (_ || _); by rewrite ?sapp_nil_r, <- ?sapp_assoc.
  - destruct (decide (x = "")) as [->|]; [left|by right]. rewrite <- Hn. by apply Hdot.
Qed.
Lemma updateFilename_proper infix n : infix ∈ infixes -> proper n -> proper (updateFilename infix n).
Proof.
  intros Hi Hp. pose proof Hp as (_ & _ & _ & Hs). destruct (cut_exists n Hs) as (a & x & Hcut & Hx & _).
  rewrite (updateFilename_cut infix n a x) by done. destruct Hcut as (Hn & Ha & He).
  assert (Hsx : has_byte slash x = false) by (destruct He as [->|(e & -> & _ & Hse)]; done).
  unfold infixes in Hi. set_unfold. destruct_or! Hi; subst infix; [by rewrite Hn in Hp|..];
    (split; [|split; [|split]]; [..|by rewrite !has_byte_app, Ha, Hsx]);
    intros E; apply (f_equal String.length) in E; rewrite !slength_app in E; cbn in E; lia.
Qed.
Lemma updateFilename_abs infix ws n : Forall proper ws -> proper n ->
  updateFilename infix (abs_path (ws ++ [n])) = abs_path (ws ++ [updateFilename infix n]).
Proof.
  intros Hws Hp. pose proof Hp as (Hne & _ & _ & Hs). destruct (cut_exists n Hs) as (a & x & Hcut & Hx & _).
  rewrite (updateFilename_cut infix n a x) by done. unfold updateFilename.
  destruct (String.eqb_spec infix "") as [->|Hi]; [by destruct Hcut as [-> _]|].
  destruct (String.eqb_spec (abs_path (ws ++ [n])) "") as [|_]; [done|]. cbn [orb]. rewrite path_base_abs, Hx by done.
  destruct Hcut as [Hn _]. rewrite Hn at 1. rewrite <- (abs_path_snoc_app ws a x), trim_suffix_app. by rewrite abs_path_snoc_app.
Qed.

(** C12. The specifications of one run are saved to different files of the
    directory that was asked for: whatever the name and the format, no part
    overwrites another one. *)
Theorem parts_apart (b1 b2 : built) (getwd : result string) (ws : list string) (n infix1 infix2 : string)
    (Hws : Forall proper ws) (Hn : proper n) (H1 : infix1 ∈ infixes) (H2 : infix2 ∈ infixes) (Hne : infix1 <> infix2)
    (Hf : built_format b1 = built_format b2) :
  exists n1 n2, n1 <> n2 /\
    normalizePath getwd b1 (updateFilename infix1 (abs_path (ws ++ [n]))) = Ok (abs_path (ws ++ [n1])) /\
    normalizePath getwd b2 (updateFilename infix2 (abs_path (ws ++ [n]))) = Ok (abs_path (ws ++ [n2])).
Proof.
  exists (part_name b1 infix1 n), (part_name b2 infix2 n). rewrite !updateFilename_abs by done.
  split; [|split; apply (normalizePath_spec _ ws); auto using updateFilename_proper].
  pose proof Hn as (_ & _ & _ & Hs). destruct (cut_exists n Hs) as (a & x & Hcut & Hx & Hdot).
  rewrite !(part_name_cut _ n a x) by done. assert (extension b1 = extension b2) as -> by (unfold extension; by rewrite Hf).
  rewrite !sapp_assoc. intros E%sapp_inj_r%sapp_inj_r. by apply sapp_inj_l in E.
Qed.

(** ** Instances *)

Definition lab_mark (d : device) : device :=
  mkDevice (Device_Name d) {[coherent := if String.eqb (Device_Name d) "0" then "true" else "false"]} (Device_Edits d).
Definition lab_marked : list device := map lab_mark (Devices example_spec).
#[local] Instance lab_generator : DeviceGenerator :=
  { GetDevicesAndEdits := fun _ _ => Some (Ok (Ok (lab_marked, Ok (Spec_Edits example_spec)))) }.
Definition lab_options : options :=
  mkOptions "/etc/cdi/nvidia.yaml" "yaml" ["index"] "" "" "/usr/bin/nvidia-cdi-hook" "" "nvml" "nvidia.com" "gpu" [] [] [] [] []
    (mkCsvOptions [] [] "") false ["all"].
#[local] Instance lab_host : Host := fs_host (fun _ => None) ∅.
Lemma generateSpecs_spec_witness : exists l,
  generateSpecs (H := map_to_list_range) (H0 := insertion_sort_slice) lab_options = Some (Ok l) /\
  map (fun g => Kind (Raw (generated g))) l = ["nvidia.com/gpu"; "nvidia.com/gpu.coherent"; "nvidia.com/gpu.noncoherent"].
Proof.
  destruct (@generateSpecs_spec map_to_list_range insertion_sort_slice lab_host lab_generator false lab_options lab_options lab_marked (Spec_Edits example_spec))
    as (l & Hl & HF); [vm_compute; reflexivity|intros; reflexivity|exact (proj1 example_spec_valid)|..].
  - apply Forall_map. eapply Forall_impl; [exact (proj2 example_spec_valid)|done].
  - exists l. split; [exact Hl|]. vm_compute in Hl. injection Hl as <-. reflexivity.
Defined.
Lemma parts_apart_witness : exists n1 n2, n1 <> n2 /\
  normalizePath (Ok "/") (mkBuilt example_spec "yaml" 420 true) (updateFilename ".coherent" (abs_path (["etc"; "cdi"] ++ ["nvidia.yaml"])))
  = Ok (abs_path (["etc"; "cdi"] ++ [n1])) /\
  normalizePath (Ok "/") (mkBuilt example_spec "yaml" 420 true) (updateFilename "" (abs_path (["etc"; "cdi"] ++ ["nvidia.yaml"])))
  = Ok (abs_path (["etc"; "cdi"] ++ [n2])).
Proof.
  apply (parts_apart (mkBuilt example_spec "yaml" 420 true) (mkBuilt example_spec "yaml" 420 true)).
  - apply (bool_decide_unpack _). vm_compute. exact I.
  - apply (bool_decide_unpack _). vm_compute. exact I.
  - apply (bool_decide_unpack _). vm_compute. exact I.
  - apply (bool_decide_unpack _). vm_compute. exact I.
  - done.
  - done.
Defined.
