(* ===== verification/CtkConfig.v ===== *)
(** * nvidia-ctk config (src/api/config/v1/toml.go, src/cmd/nvidia-ctk/config)

    The TOML form of the toolkit configuration, which remembers the values
    that were set and comments out documented values when it is saved, and the
    command that edits it: options are checked against the type of the
    configuration, which the code reads by reflection. Printing a tree with
    comments and parsing it are the library's work. *)
From S2P Require Import Prelude GoStrings GoPaths Lookup ProcInfo Config FileSystem OsFiles Toml ToolkitInstaller SystemDevices Toolkit.

(** ** The type of the configuration *)

(** What [reflect] tells of a Go type; the fields of a struct with their toml
    tags. *)
Inductive gotype : Type :=
| TBool | TString | TInt
| TSlice (elem : gotype)
| TPointer (elem : gotype)
| TStruct (fields : list (string * gotype)).

Definition ContainerCLIConfig_type : gotype := TStruct
  [("root", TString); ("path", TString); ("environment", TSlice TString); ("debug", TString); ("ldcache", TString);
   ("load-kmods", TBool); ("no-pivot,omitempty", TBool); ("no-cgroups", TBool); ("user", TString); ("ldconfig", TString)].
Definition CTKConfig_type : gotype := TStruct [("path", TString)].
Definition modesConfig_type : gotype := TStruct
  [("csv", TStruct [("mount-spec-path", TString); ("compat-container-root,omitempty", TString)]);
   ("cdi", TStruct [("spec-dirs", TSlice TString); ("default-kind", TString); ("annotation-prefixes", TSlice TString)]);
   ("jit-cdi,omitempty", TStruct [("nvcdi-feature-flags,omitempty", TSlice TString)]);
   ("legacy", TStruct [("cuda-compat-mode,omitempty", TString)])].
Definition RuntimeConfig_type : gotype := TStruct
  [("debug", TString); ("log-level", TString); ("runtimes", TSlice TString); ("mode", TString); ("modes", modesConfig_type)].
Definition RuntimeHookConfig_type : gotype := TStruct [("path", TString); ("skip-mode-detection", TBool)].
Definition features_type : gotype := TStruct
  [("allow-cuda-compat-libs-from-container,omitempty", TPointer TBool); ("allow-ldconfig-from-container,omitempty", TPointer TBool);
   ("allow-unknown-oci-spec-fields,omitempty", TPointer TBool); ("disable-cuda-compat-lib-hook,omitempty", TPointer TBool);
   ("disable-imex-channel-creation,omitempty", TPointer TBool); ("ignore-imex-channel-requests,omitempty", TPointer TBool);
   ("no-additional-gids-for-device-nodes,omitempty", TPointer TBool)].
Definition Config_type : gotype := TStruct
  [("disable-require", TBool); ("swarm-resource", TString); ("accept-nvidia-visible-devices-envvar-when-unprivileged", TBool);
   ("accept-nvidia-visible-devices-as-volume-mounts", TBool); ("supported-driver-capabilities", TString);
   ("nvidia-container-cli", ContainerCLIConfig_type); ("nvidia-ctk", CTKConfig_type); ("nvidia-container-runtime", RuntimeConfig_type);
   ("nvidia-container-runtime-hook", RuntimeHookConfig_type); ("features,omitempty", features_type)].

(** [getStruct]: the fields of anything but a struct are asked for with a
    panic. *)
Definition tag_name (tag : string) : string := hd "" (splitN 2 "," tag).
Definition errUndefinedField : string := "undefined field".
Fixpoint find_field (name : string) (fields : list (string * gotype)) : option gotype :=
  match fields with
  | [] => None
  | (tag, ty) :: fields => if String.eqb (tag_name tag) name then Some ty else find_field name fields
  end.
Fixpoint getStruct (current : gotype) (paths : list string) : may_panic (result gotype) :=
  match paths with
  | [] => Some (Err (errUndefinedField +:+ ": no fields selected"))
  | tomlField :: paths =>
      match current with
      | TStruct fields =>
          match find_field tomlField fields with
          | None => Some (Err (errUndefinedField +:+ ": " +:+ quote tomlField))
          | Some ty => match paths with [] => Some (Ok ty) | _ => getStruct ty paths end
          end
      | _ => None
      end
  end.
Definition getField (key : string) : may_panic (result gotype) := getStruct Config_type (split "." key).

(** ** The option --set *)

(** [strconv.ParseInt] for base 10 and 64 bits. *)
Definition parse_int (s : string) : option Z :=
  let '(neg, digits) := match s with String "-" r => (true, r) | String "+" r => (false, r) | _ => (false, s) end in
  n ← parse_uint 64 digits;
  if neg then (if Z.leb n (2 ^ 63) then Some (- n)%Z else None) else if Z.ltb n (2 ^ 63) then Some n else None.
Definition errInvalidConfigOption : string := "invalid config option".
Definition errInvalidFormat : string := "invalid format".
Definition list_parts (sep value : string) : list string :=
  if contains value sep then split sep value else if contains value "," then split "," value else [value].
(** The value for a kind; [None] deletes the key. *)
Definition convert (field : gotype) (sep value : string) : result (option Toml.value) :=
  let kind := match field with TPointer elem => if negb (String.eqb value "nil") then elem else field | _ => field end in
  match kind with
  | TPointer _ => Ok None
  | TBool => match parse_bool value with
             | Some b => Ok (Some (VBool b))
             | None => Err (errInvalidFormat +:+ ": strconv.ParseBool: parsing " +:+ quote value +:+ ": invalid syntax")
             end
  | TString => Ok (Some (VStr value))
  | TSlice TString => Ok (Some (VStrs (list_parts sep value)))
  | TSlice TInt =>
      let? l := rmap (fun v => match parse_int v with Some n => Ok (VInt n) | None => Err (errInvalidFormat +:+ ": strconv.ParseInt: parsing " +:+ quote v) end)
        (list_parts sep value) in
      Ok (Some (VAny l))
  | _ => Err "unsupported type"
  end.
Definition setFlagToKeyValue (setFlag sep : string) : may_panic (result (string * option Toml.value)) :=
  let parts := splitN 2 "=" setFlag in
  let key := hd "" parts in
  field ← getField key;
  Some (let? field := wrap errInvalidConfigOption field in
        match parts with
        | [_; value] => let? v := convert field sep value in Ok (key, v)
        | _ =>
            match field with
            | TBool | TPointer TBool => Ok (key, Some (VBool true))
            | _ => Err (errInvalidFormat +:+ ": expected key=value; got " +:+ setFlag)
            end
        end).

(** ** The TOML form of the configuration *)

(** The keys that are set, and the keys whose values are commented out. *)
Record ConfigToml := mkToml { tree : gmap string item; valuesSet : gset string; commented : gset string }.
Definition fromTree (t : gmap string item) : ConfigToml := mkToml t ∅ ∅.
Definition toml_Set (key : string) (v : Toml.value) (t : ConfigToml) : ConfigToml :=
  mkToml (set_path (split "." key) (IVal v) (tree t)) ({[key]} ∪ valuesSet t) (commented t ∖ {[key]}).
Definition toml_Delete (key : string) (t : ConfigToml) : ConfigToml :=
  mkToml (delete_path (split "." key) (tree t)) (valuesSet t ∖ {[key]}) (commented t ∖ {[key]}).

Definition commentedDefaults : gmap string Toml.value := list_to_map
  [("swarm-resource", VStr "DOCKER_RESOURCE_GPU");
   ("accept-nvidia-visible-devices-envvar-when-unprivileged", VBool true);
   ("accept-nvidia-visible-devices-as-volume-mounts", VBool false);
   ("nvidia-container-cli.root", VStr "/run/nvidia/driver");
   ("nvidia-container-cli.path", VStr "/usr/bin/nvidia-container-cli");
   ("nvidia-container-cli.debug", VStr "/var/log/nvidia-container-toolkit.log");
   ("nvidia-container-cli.ldcache", VStr "/etc/ld.so.cache");
   ("nvidia-container-cli.no-cgroups", VBool false);
   ("nvidia-container-cli.user", VStr "root:video");
   ("nvidia-container-runtime.debug", VStr "/var/log/nvidia-container-runtime.log")].
(** Equality of what [Get] returns with a string or a flag. *)
Definition item_eqb (i : option item) (v : Toml.value) : bool :=
  match i, v with
  | Some (IVal (VStr a)), VStr b => String.eqb a b
  | Some (IVal (VBool a)), VBool b => Bool.eqb a b
  | _, _ => false
  end.
Definition shouldComment `{HostFiles} (key : string) (defaultValue : Toml.value) (setTo : option item) : bool :=
  if String.eqb key "nvidia-container-cli.user" && item_eqb setTo defaultValue && isSuse then false
  else if String.eqb key "nvidia-container-runtime.debug" && item_eqb setTo (VStr "/dev/null") then true
  else match setTo with None => true | _ => item_eqb setTo defaultValue || item_eqb setTo (VStr "") end.
Definition comment_default `{HostFiles} (t : ConfigToml) (kv : string * Toml.value) : ConfigToml :=
  let '(k, v) := kv in
  if bool_decide (k ∈ valuesSet t) then t
  else if negb (shouldComment k v (get_path (split "." k) (tree t))) then t
  else mkToml (set_path (split "." k) (IVal v) (tree t)) (valuesSet t) ({[k]} ∪ commented t).
Definition commentDefaults `{HostFiles, MapRange} (t : ConfigToml) : ConfigToml := foldl comment_default t (range commentedDefaults).

(** [format]: the matches of a regular expression are replaced, from left to
    right. A match at a position is a run of white space, [#], a run of white
    space and the rest of the line; the line breaks at its start, [#] and the
    rest of the line are kept. *)
Definition is_ws (c : ascii) : bool := existsb (Ascii.eqb c) ["009"; "010"; "012"; "013"; " "]%char.
Definition is_lf (c : ascii) : bool := Ascii.eqb c "010".
Fixpoint span (p : ascii -> bool) (s : string) : string * string :=
  match s with
  | "" => ("", "")
  | String c s' => if p c then let '(a, b) := span p s' in (String c a, b) else ("", s)
  end.
Definition match_comment (s : string) : option (string * string * string) :=
  let '(breaks, _) := span is_lf s in
  match (span is_ws s).2 with
  | String "#" s =>
      match (span is_ws s).2 with
      | "" => None
      | s => let '(line, rest) := span (fun c => negb (is_lf c)) s in Some (breaks, line, rest)
      end
  | _ => None
  end.
Fixpoint format_fuel (fuel : nat) (s : string) : string :=
  match fuel with
  | O => s
  | S fuel =>
      match match_comment s with
      | Some (breaks, line, rest) => breaks +:+ "#" +:+ line +:+ format_fuel fuel rest
      | None => match s with "" => "" | String c s => String c (format_fuel fuel s) end
      end
  end.
Definition format (s : string) : string := format_fuel (S (String.length s)) s.

(** The library's encoder prints the values of the given keys as comments. *)
Class TomlEncoder := { toml_Encode : gmap string item -> gset string -> result string }.
Definition contents `{HostFiles, MapRange, TomlEncoder} (t : ConfigToml) : result string :=
  let t := commentDefaults t in
  let? text := wrap "invalid config" (toml_Encode (tree t) (commented t)) in
  Ok (format text).

Section Command.
Context `{Toml, MapRange, TomlEncoder} (env : string -> option string).
(** The library's [Marshal] of the default configuration. *)
Context (marshal : Config -> result string).

(** [config.New] with a file that is not required. *)
Definition config_New (filename : string) (f : fs) : result ConfigToml :=
  let default_toml := let? t := defaultToml env marshal f in Ok (fromTree t) in
  if String.eqb filename "" then default_toml
  else match sys_Open f filename with
       | inl ENOENT => default_toml
       | inl e => Err ("failed to load specified config file: " +:+ path_error "open" filename e)
       | inr (DirNode _) => Err (path_error "read" filename EISDIR)
       | inr n => let? t := toml_Load (node_content n) in Ok (fromTree t)
       end.

(** ** The commands *)

(** [flags.Options]; [Validate] is not called. *)
Record output_options := mkOutput { Config_ : string; Output : string; InPlace : bool }.
Definition Validate (o : output_options) : result unit :=
  if InPlace o && negb (String.eqb (Output o) "") then Err "cannot specify both --in-place and --output" else Ok tt.
Definition GetOutput (o : output_options) : string := if InPlace o then Config_ o else Output o.
Definition EnsureOutputFolder (o : output_options) (f : fs) : (errno + unit) * fs :=
  if String.eqb (GetOutput o) "" then (inr tt, f) else sys_MkdirAll 493 (path_dir (GetOutput o)) f.
(** [CreateOutput] and [Save] of a configuration: the output is created, or
    emptied, before the text is made. *)
Definition create_and_save (o : output_options) (t : ConfigToml) (w : world) : option string * world :=
  let out := GetOutput o in
  let text f := contents (H := fs_files f) t in
  if String.eqb out "" then
    match text (files w) with
    | Err e => (Some ("failed to save config: " +:+ e), w)
    | Ok text => (None, print text w)
    end
  else
    match sys_write_file "" out (files w) with
    | inl e => (Some ("failed to open output file: " +:+ path_error "open" out e), w)
    | inr f =>
        match text f with
        | Err e => (Some ("failed to save config: " +:+ e), with_files f w)
        | Ok text =>
            match sys_write_file text out f with
            | inl e => (Some ("failed to save config: " +:+ path_error "write" out e), with_files f w)
            | inr f => (None, with_files f w)
            end
        end
    end.

Record config_options := mkConfigOptions { output_of : output_options; setListSeparator : string; sets : list string }.
Definition config_validateFlags (o : config_options) : result unit :=
  if String.eqb (setListSeparator o) "" then Err "set-list-separator must be set" else Ok tt.
Definition apply_set (kv : string * option Toml.value) (t : ConfigToml) : ConfigToml :=
  match kv with (k, None) => toml_Delete k t | (k, Some v) => toml_Set k v t end.
Fixpoint apply_sets (sep : string) (l : list string) (t : ConfigToml) : may_panic (result ConfigToml) :=
  match l with
  | [] => Some (Ok t)
  | set :: l =>
      kv ← setFlagToKeyValue set sep;
      match kv with
      | Err e => Some (Err ("invalid --set option " +:+ set +:+ ": " +:+ e))
      | Ok kv => apply_sets sep l (apply_set kv t)
      end
  end.
Definition config_run (o : config_options) (w : world) : may_panic (option string * world) :=
  match config_New (Config_ (output_of o)) (files w) with
  | Err e => Some (Some ("unable to create config: " +:+ e), w)
  | Ok t =>
      t ← apply_sets (setListSeparator o) (sets o) t;
      Some match t with
           | Err e => (Some e, w)
           | Ok t =>
               let '(r, f) := EnsureOutputFolder (output_of o) (files w) in
               match r with
               | inl e => (Some ("failed to create output directory: " +:+ path_error "mkdir" (path_dir (GetOutput (output_of o))) e), with_files f w)
               | inr _ => create_and_save (output_of o) t (with_files f w)
               end
           end
  end.
(** [nvidia-ctk config default] *)
Definition create_default_run (o : output_options) (w : world) : option string * world :=
  match config_New "" (files w) with
  | Err e => (Some ("failed to create default config: " +:+ e), w)
  | Ok t => create_and_save o t w
  end.
End Command.

(** ** Properties of keys *)

Definition is_struct (ty : gotype) : bool := match ty with TStruct _ => true | _ => false end.
(** The keys of values, not of tables. *)
Definition leaf_key (k : string) : Prop := exists ty, getField k = Some (Ok ty) /\ is_struct ty = false.

Lemma getStruct_apart p : forall ty q a b, getStruct ty p = Some (Ok a) -> getStruct ty q = Some (Ok b) ->
  is_struct a = false -> is_struct b = false -> p <> q -> apart p q = true.
Proof.
  induction p as [|k p IH]; intros ty [|k' q] a b Hp Hq Ha Hb Hne; [done..|]. cbn in Hp, Hq |- *.
  destruct ty as [| | | | |fields]; [done..|]. destruct (String.eqb_spec k k') as [->|]; [|done].
  destruct (find_field k' fields) as [ty|]; [|done].
  destruct p as [|k1 p], q as [|k2 q]; [done| | |].
  - injection Hp as ->. by destruct a.
  - injection Hq as ->. by destruct b.
  - apply (IH ty (k2 :: q) a b); [done..|]. by intros [= -> ->].
Qed.
Lemma join_splitN sep n s : join sep (splitN (S n) sep s) = s.
Proof.
  revert s. induction n as [|n IH]; intros s; [done|]. cbn [splitN]. destruct (cut sep s) as [[a b]|] eqn:Hc; [|done].
  apply cut_some in Hc as ->. change (join sep (a :: splitN (S n) sep b) = a +:+ sep +:+ b). specialize (IH b).
  destruct (splitN (S n) sep b) as [|x l] eqn:E; [|by rewrite join_cons2, IH]. cbn [splitN] in E. destruct n; [done|]. by destruct (cut sep b) as [[]|].
Qed.
Lemma split_inj a b : split "." a = split "." b -> a = b.
Proof. intros E. apply (f_equal (join ".")) in E. unfold split in E. by rewrite !join_splitN in E. Qed.
Lemma leaf_apart k k' : leaf_key k -> leaf_key k' -> k <> k' -> apart (split "." k) (split "." k') = true.
Proof.
  intros (a & Ha & Hsa) (b & Hb & Hsb) Hne. eapply getStruct_apart; [exact Ha|exact Hb|done..|]. by intros ?%split_inj.
Qed.
Lemma split_key_ne k : split "." k <> [].
Proof. unfold split. destruct (String.length k); cbn [splitN]; [done|]. by destruct (cut "." k) as [[]|]. Qed.

(** ** Edits of a configuration whose tables are tables *)

(** The tables of the configuration are tables in the tree. *)
Definition well_shaped (t : gmap string item) : Prop := forall k, leaf_key k -> clear (split "." k) t = true.
(** What a later process reads for a key. *)
Definition active (k : string) (t : ConfigToml) : option item :=
  if bool_decide (k ∈ commented t) then None else get_path (split "." k) (tree t).

Lemma shaped_set k i t : leaf_key k -> well_shaped t -> well_shaped (set_path (split "." k) i t).
Proof.
  intros Hk Ht k' Hk'. destruct (decide (k = k')) as [<-|Hne].
  - apply clear_set_prefix; [by apply Ht|apply split_key_ne|]. exists []. by rewrite app_nil_r.
  - rewrite clear_set_apart; [by apply Ht|by apply Ht|by apply leaf_apart].
Qed.
Lemma shaped_delete k t : leaf_key k -> well_shaped t -> well_shaped (delete_path (split "." k) t).
Proof. intros Hk Ht k' Hk'. apply clear_delete; by apply Ht. Qed.
Lemma get_set k k' v t : leaf_key k -> leaf_key k' -> well_shaped t ->
  get_path (split "." k') (set_path (split "." k) (IVal v) t) = if decide (k = k') then Some (IVal v) else get_path (split "." k') t.
Proof.
  intros Hk Hk' Ht. case_decide as E; [subst; by apply get_set_same, Ht|]. apply get_set_apart; [by apply Ht|by apply leaf_apart].
Qed.
Lemma get_delete k k' t : leaf_key k -> leaf_key k' -> well_shaped t ->
  get_path (split "." k') (delete_path (split "." k) t) = if decide (k = k') then None else get_path (split "." k') t.
Proof.
  intros Hk Hk' Ht. case_decide as E; [subst|].
  - pose proof (get_delete_below (split "." k') [] t (Ht _ Hk')) as Hd. by rewrite app_nil_r in Hd.
  - apply get_delete_apart; [by apply Ht|by apply leaf_apart].
Qed.

(** The last edit of a key; [Some None] deletes it. *)
Fixpoint last_edit (k : string) (kvs : list (string * option Toml.value)) : option (option Toml.value) :=
  match kvs with
  | [] => None
  | (k', v) :: kvs => match last_edit k kvs with
                      | Some v => Some v
                      | None => if decide (k' = k) then Some v else None
                      end
  end.
Definition edited (k : string) (t : ConfigToml) (kvs : list (string * option Toml.value)) : option item :=
  match last_edit k kvs with
  | Some (Some v) => Some (IVal v)
  | Some None => None
  | None => get_path (split "." k) (tree t)
  end.
Lemma edits_spec kvs : forall t, Forall (fun kv => leaf_key kv.1) kvs -> well_shaped (tree t) ->
  let t' := foldl (fun t kv => apply_set kv t) t kvs in
  well_shaped (tree t') /\
  forall k, leaf_key k ->
    get_path (split "." k) (tree t') = edited k t kvs /\
    (k ∈ valuesSet t' <-> match last_edit k kvs with Some (Some _) => True | Some None => False | None => k ∈ valuesSet t end) /\
    (k ∈ commented t' -> k ∈ commented t).
Proof.
  induction kvs as [|[k0 v0] kvs IH]; intros t Hl Ht; [by split|]. apply Forall_cons in Hl as [Hk0 Hl]. cbn in Hk0. cbv zeta. cbn [foldl].
  assert (Ht0 : well_shaped (tree (apply_set (k0, v0) t))) by (destruct v0; [by apply shaped_set|by apply shaped_delete]).
  destruct (IH (apply_set (k0, v0) t) Hl Ht0) as [Hs Hk]. split; [done|]. intros k Hlk. destruct (Hk k Hlk) as (Hg & Hv & Hc).
  unfold edited in *. cbn [last_edit]. destruct (last_edit k kvs) as [[v|]|] eqn:E.
  - split; [done|]. split; [done|]. intros Hin%Hc. destruct v0; cbn in Hin; set_solver.
  - split; [done|]. split; [done|]. intros Hin%Hc. destruct v0; cbn in Hin; set_solver.
  - split; [|split].
    + rewrite Hg. destruct v0 as [v|]; cbn [apply_set toml_Set toml_Delete tree last_edit]; [rewrite get_set by done|rewrite get_delete by done]; by case_decide.
    + rewrite Hv. destruct v0 as [v|]; cbn; case_decide; subst; set_solver.
    + intros Hin%Hc. destruct v0; cbn in Hin; set_solver.
Qed.

Lemma comment_list_spec `{HostFiles} (l : list (string * Toml.value)) : forall t, NoDup l.*1 -> Forall (fun kv => leaf_key kv.1) l -> well_shaped (tree t) ->
  let t' := foldl comment_default t l in
  forall k, leaf_key k ->
    let new := exists v, (k, v) ∈ l /\ k ∉ valuesSet t /\ shouldComment k v (get_path (split "." k) (tree t)) = true in
    (k ∈ commented t' <-> k ∈ commented t \/ new) /\ (~ new -> get_path (split "." k) (tree t') = get_path (split "." k) (tree t)).
Proof.
  induction l as [|[k0 v0] l IH]; intros t Hnd Hl Ht; cbv zeta; [intros k Hk; split; [|done]; split; [by left|intros [|(v & Hv & _)]; [done|by apply not_elem_of_nil in Hv]]|].
  apply NoDup_cons in Hnd as [Hk0n Hnd]. apply Forall_cons in Hl as [Hk0 Hl]. cbn in Hk0, Hk0n. intros k Hk. cbn [foldl].
  set (t0 := comment_default t (k0, v0)).
  assert (Hkeep : valuesSet t0 = valuesSet t) by (unfold t0, comment_default; by repeat case_match).
  assert (Ht0 : well_shaped (tree t0)) by (unfold t0, comment_default; repeat case_match; [done|done|by apply shaped_set]).
  assert (Hother : k <> k0 -> get_path (split "." k) (tree t0) = get_path (split "." k) (tree t) /\ (k ∈ commented t0 <-> k ∈ commented t)).
  { intros Hne. unfold t0, comment_default. repeat case_match; [done|done|]. cbn [tree commented]. rewrite get_set by done.
    rewrite decide_False by congruence. split; [done|]. set_solver. }
  destruct (IH t0 Hnd Hl Ht0 k Hk) as [Hc Hg]. rewrite Hkeep in Hc, Hg. destruct (decide (k = k0)) as [->|Hne].
  - clear Hother. assert (Hno : ~ exists v, (k0, v) ∈ l /\ k0 ∉ valuesSet t /\ shouldComment k0 v (get_path (split "." k0) (tree t0)) = true).
    { intros (v & Hv & _). apply Hk0n. apply list_elem_of_fmap. by exists (k0, v). }
    rewrite Hg by done. assert (Hc0 : k0 ∈ commented (foldl comment_default t0 l) <-> k0 ∈ commented t0) by (rewrite Hc; split; [by intros [|]|by left]).
    rewrite Hc0. clear Hc Hg Hc0 Hno. unfold t0, comment_default. case_bool_decide as Hin.
    + split; [|done]. split; [by left|]. by intros [|(v & _ & [] & _)].
    + destruct (shouldComment k0 v0 _) eqn:Es; cbn [negb tree commented].
      * split; [|intros []; exists v0; split; [by left|done]]. split; [intros _; right; exists v0; split; [by left|done]|]. set_solver.
      * split; [|done]. split; [by left|]. intros [|(v & [[= ->]|Hv]%elem_of_cons & _ & Hs)]; [done|congruence|].
        destruct Hk0n. apply list_elem_of_fmap. by exists (k0, v).
  - destruct (Hother Hne) as [Hgo Hco]. rewrite Hgo in Hc, Hg.
    assert (Hsame : (exists v, (k, v) ∈ (k0, v0) :: l /\ k ∉ valuesSet t /\ shouldComment k v (get_path (split "." k) (tree t)) = true) <->
      (exists v, (k, v) ∈ l /\ k ∉ valuesSet t /\ shouldComment k v (get_path (split "." k) (tree t)) = true)).
    { split; intros (v & Hv & Hs); exists v; (split; [|done]); [|by right]. apply elem_of_cons in Hv as [[=]|]; done. }
    rewrite Hsame, Hc, Hco. done.
Qed.

(** ** What the command does to a configuration *)

(** The value fits the type of the field; a pointer can be deleted. *)
Definition has_type (ty : gotype) (v : option Toml.value) : Prop :=
  match ty, v with
  | TBool, Some (VBool _) | TPointer TBool, Some (VBool _) | TString, Some (VStr _) | TSlice TString, Some (VStrs _) | TPointer _, None => True
  | _, _ => False
  end.
(** Types whose pointers point to flags and whose lists hold strings. *)
Fixpoint simple_type (ty : gotype) : bool :=
  match ty with
  | TBool | TString | TPointer TBool | TSlice TString => true
  | TStruct fields => forallb (fun f => simple_type f.2) fields
  | _ => false
  end.
Lemma find_field_simple name fields ty : forallb (fun f => simple_type f.2) fields = true -> find_field name fields = Some ty -> simple_type ty = true.
Proof.
  induction fields as [|[tag ty'] fields IH]; [done|]. cbn. intros [H1 H2]%andb_prop. destruct (String.eqb _ _); [by intros [= <-]|by apply IH].
Qed.
Lemma getStruct_simple p : forall ty a, simple_type ty = true -> getStruct ty p = Some (Ok a) -> simple_type a = true.
Proof.
  induction p as [|k p IH]; intros ty a Ht Hg; [done|]. cbn [getStruct] in Hg. destruct ty as [| | | | |fields]; [done..|].
  destruct (find_field k fields) as [ty|] eqn:Hf; [|done]. apply find_field_simple in Hf; [|done].
  destruct p as [|k' p]; [by injection Hg as ->|]. by apply (IH ty).
Qed.
Lemma getField_simple k ty : getField k = Some (Ok ty) -> simple_type ty = true.
Proof. apply getStruct_simple. vm_compute. reflexivity. Qed.

(** C14. A setting that is accepted names a value of the configuration and
    gives it a value of its type, so that the configuration can still be
    decoded; only optional flags can be deleted. *)
Theorem setFlagToKeyValue_typed (setFlag sep key : string) (v : option Toml.value)
    (H : setFlagToKeyValue setFlag sep = Some (Ok (key, v))) :
  exists ty, getField key = Some (Ok ty) /\ is_struct ty = false /\ has_type ty v.
Proof.
  unfold setFlagToKeyValue in H. set (parts := splitN 2 "=" setFlag) in H. clearbody parts. cbv zeta in H.
  destruct (getField (hd "" parts)) as [[ty|]|] eqn:Hf; [|done..].
  pose proof (getField_simple _ _ Hf) as Hty. cbn [mbind option_bind wrap rbind] in H. injection H as H.
  destruct parts as [|k [|value [|]]]; cbn [hd] in *;
    try (destruct ty as [| | | |[]|]; try done; injection H as <- <-; by eexists).
  destruct (convert ty sep value) as [w|] eqn:Hc; [|done]. injection H as <- <-. exists ty. split; [done|].
  unfold convert in Hc. destruct ty as [| | |[]|[]|]; try done; cbn in Hc; try (by injection Hc as <-); try (destruct (parse_bool value); [by injection Hc as <-|done]).
  destruct (String.eqb value "nil"); cbn in Hc; [by injection Hc as <-|]. destruct (parse_bool value); [by injection Hc as <-|done].
Qed.
Lemma setFlagToKeyValue_typed_witness : exists ty, getField "features.disable-imex-channel-creation" = Some (Ok ty) /\ has_type ty (Some (VBool true)).
Proof.
  destruct (setFlagToKeyValue_typed "features.disable-imex-channel-creation" ":" "features.disable-imex-channel-creation" (Some (VBool true))) as (ty & Hf & _ & Ht);
    [vm_compute; reflexivity|]. by exists ty.
Defined.
Lemma set_leaf setFlag sep kv : setFlagToKeyValue setFlag sep = Some (Ok kv) -> leaf_key kv.1.
Proof.
  destruct kv as [key v]. unfold setFlagToKeyValue. set (parts := splitN 2 "=" setFlag). clearbody parts. cbv zeta.
  destruct (getField (hd "" parts)) as [[ty|]|] eqn:Hf; [|done..].
  cbn [mbind option_bind wrap rbind]. intros [= H].
  destruct parts as [|k [|value [|]]]; cbn [hd] in *;
    try (destruct ty as [| | | |[]|]; try done; injection H as <- <-; by eexists).
  destruct (convert ty sep value) as [w|] eqn:Hc; [|done]. injection H as <- <-. exists ty. split; [done|]. by destruct ty.
Qed.
Lemma apply_sets_edits sep l : forall t t', apply_sets sep l t = Some (Ok t') ->
  exists kvs, Forall2 (fun set kv => setFlagToKeyValue set sep = Some (Ok kv)) l kvs /\ t' = foldl (fun t kv => apply_set kv t) t kvs.
Proof.
  induction l as [|set l IH]; intros t t'; cbn [apply_sets]; [intros [= <-]; by exists []|].
  destruct (setFlagToKeyValue set sep) as [[kv|]|] eqn:Hs; [|done..]. cbn [mbind option_bind].
  intros (kvs & Hkvs & ->)%IH. exists (kv :: kvs). split; [by constructor|done].
Qed.
Lemma default_leaf k v : commentedDefaults !! k = Some v -> leaf_key k.
Proof.
  intros Hk%elem_of_list_to_map_2.
  assert (Hall : Forall (fun kv => exists ty, getField kv.1 = Some (Ok ty) /\ is_struct ty = false)
    [("swarm-resource", VStr "DOCKER_RESOURCE_GPU"); ("accept-nvidia-visible-devices-envvar-when-unprivileged", VBool true);
     ("accept-nvidia-visible-devices-as-volume-mounts", VBool false); ("nvidia-container-cli.root", VStr "/run/nvidia/driver");
     ("nvidia-container-cli.path", VStr "/usr/bin/nvidia-container-cli"); ("nvidia-container-cli.debug", VStr "/var/log/nvidia-container-toolkit.log");
     ("nvidia-container-cli.ldcache", VStr "/etc/ld.so.cache"); ("nvidia-container-cli.no-cgroups", VBool false);
     ("nvidia-container-cli.user", VStr "root:video"); ("nvidia-container-runtime.debug", VStr "/var/log/nvidia-container-runtime.log")])
    by (repeat constructor; eexists; split; vm_compute; reflexivity).
  rewrite Forall_forall in Hall. exact (Hall _ Hk).
Qed.

(** Whether a value that was not set is commented out. *)
Definition commented_out `{HostFiles} (k : string) (i : option item) : bool :=
  match commentedDefaults !! k with Some v => shouldComment k v i | None => false end.

(** C13. In the tree that the command hands to the printing of the configuration,
    every value of it is the last setting that was given, is absent if that
    deletes it, and is otherwise what was there before unless that is
    documented by a comment; in whatever order the code visits the table of
    these. What is printed of a string with a number sign can differ:
    [format_changes_values]. *)
Theorem config_values `{HostFiles, MapRange} (sep : string) (l : list string) (cfg : gmap string item) (t' : ConfigToml)
    (Hl : apply_sets sep l (fromTree cfg) = Some (Ok t')) (Hw : well_shaped cfg) :
  exists kvs, Forall2 (fun set kv => setFlagToKeyValue set sep = Some (Ok kv)) l kvs /\
    forall k, leaf_key k ->
      active k (commentDefaults t') =
      match last_edit k kvs with
      | Some (Some v) => Some (IVal v)
      | Some None => None
      | None => let i := get_path (split "." k) cfg in if commented_out k i then None else i
      end.
Proof.
  apply apply_sets_edits in Hl as (kvs & Hkvs & ->). exists kvs. split; [done|]. intros k Hk.
  assert (Hleaf : Forall (fun kv => leaf_key kv.1) kvs).
  { clear Hk. induction Hkvs as [|s kv l kvs Hs _ IH]; constructor; [|done]. by eapply set_leaf. }
  destruct (edits_spec kvs (fromTree cfg) Hleaf Hw) as [Hw' Hedit]. destruct (Hedit k Hk) as (Hg & Hv & Hc).
  set (t := foldl _ (fromTree cfg) kvs) in *.
  destruct (comment_list_spec (range commentedDefaults) t (NoDup_range _)) with (k := k) as [Hcom Hget]; [|done|done|].
  { apply Forall_forall. intros [k' v] Hin%elem_of_range. by eapply default_leaf. }
  unfold active, commentDefaults. unfold edited in Hg. rewrite Hg in Hcom, Hget.
  assert (Hnc : k ∉ commented t) by (intros Hin%Hc; set_solver).
  case_bool_decide as Hin.
  - apply Hcom in Hin as [|(v & Hv' & Hns & Hs)]; [done|]. apply elem_of_range in Hv'. destruct (last_edit k kvs) as [[]|] eqn:E; [|done|].
    + destruct Hns. by apply Hv.
    + cbv zeta. unfold commented_out. rewrite Hv'. cbn [fromTree tree] in Hs. by rewrite Hs.
  - assert (Hnn : ~ exists v, (k, v) ∈ range commentedDefaults /\ k ∉ valuesSet t /\ shouldComment k v (match last_edit k kvs with
      | Some (Some v) => Some (IVal v) | Some None => None | None => get_path (split "." k) (tree (fromTree cfg)) end) = true).
    { intros Hn. apply Hin, Hcom. by right. }
    rewrite Hget by done. destruct (last_edit k kvs) as [[]|] eqn:E; [done..|]. cbv zeta. unfold commented_out.
    destruct (commentedDefaults !! k) as [v|] eqn:Hd; [|done]. destruct (shouldComment k v _) eqn:Es; [|done].
    destruct Hnn. exists v. split; [by apply elem_of_range|]. split; [|done]. rewrite Hv. cbn. set_solver.
Qed.
#[local] Instance lab_files : HostFiles := fs_files ∅.
Definition lab_cfg : gmap string item := set_path (split "." "swarm-resource") (IVal (VStr "DOCKER_RESOURCE_GPU")) ∅.
Lemma lab_shaped : well_shaped lab_cfg.
Proof.
  apply shaped_set.
  - exists TString. split; vm_compute; reflexivity.
  - intros k _. pose proof (split_key_ne k). destruct (split "." k); [done|apply clear_empty].
Qed.
Lemma config_values_witness : exists t', apply_sets ":" ["nvidia-container-cli.debug=/var/log/nvidia-container-toolkit.log"] (fromTree lab_cfg) = Some (Ok t') /\
  active "nvidia-container-cli.debug" (commentDefaults (H0 := map_to_list_range) t') = Some (IVal (VStr "/var/log/nvidia-container-toolkit.log")).
Proof.
  eexists. split; [vm_compute; reflexivity|].
  match goal with |- active _ (commentDefaults ?t') = _ =>
    destruct (config_values (H0 := map_to_list_range) ":" ["nvidia-container-cli.debug=/var/log/nvidia-container-toolkit.log"] lab_cfg t') as (kvs & Hkvs & Hk);
      [vm_compute; reflexivity|exact lab_shaped|] end.
  rewrite Hk by (exists TString; split; vm_compute; reflexivity).
  inversion Hkvs as [|s kv l kvs0 Hs Hn E1 E2]; subst. vm_compute in Hs. injection Hs as <-. inversion Hn. reflexivity.
Defined.

(** A value that equals a documented one is commented out although it was in
    use: the default of the configuration is another one. *)
Lemma documented_value_lost : active "swarm-resource" (fromTree lab_cfg) = Some (IVal (VStr "DOCKER_RESOURCE_GPU")) /\
  active "swarm-resource" (commentDefaults (H0 := map_to_list_range) (fromTree lab_cfg)) = None /\
  SwarmResource (GetDefault (H := fs_host (fun _ => None) ∅) (H0 := lab_files)) = "".
Proof. split_and!; vm_compute; reflexivity. Qed.
(** A key below a value makes the command panic. *)
Lemma key_below_value_panics : setFlagToKeyValue "disable-require.x=true" ":" = None.
Proof. vm_compute. reflexivity. Qed.

(** ** The format of comments *)

Lemma span_app p s : (span p s).1 +:+ (span p s).2 = s.
Proof. induction s as [|c s IH]; [done|]. cbn. destruct (p c); [|done]. destruct (span p s). cbn in *. by rewrite IH. Qed.
Lemma span_shorter p s : (String.length (span p s).2 <= String.length s)%nat.
Proof. rewrite <- (span_app p s) at 2. rewrite slength_app. lia. Qed.
Lemma match_comment_shorter s b l r : match_comment s = Some (b, l, r) -> (String.length r < String.length s)%nat.
Proof.
  unfold match_comment. destruct (span is_lf s) as [breaks s0]. pose proof (span_shorter is_ws s) as H1.
  destruct (span is_ws s).2 as [|c s1]; [done|]. destruct (ascii_dec c "#") as [->|Hc]; [|by destruct c as [[] [] [] [] [] [] [] []]].
  pose proof (span_shorter is_ws s1) as H2. destruct (span is_ws s1).2 as [|c2 s2]; [done|].
  pose proof (span_shorter (fun c => negb (is_lf c)) (String c2 s2)) as H3.
  destruct (span _ (String c2 s2)) as [l' r']. intros [= <- <- <-]. cbn in *. lia.
Qed.
(** Enough fuel gives one result. *)
Lemma format_enough n : forall m s, (String.length s < n)%nat -> (String.length s < m)%nat -> format_fuel n s = format_fuel m s.
Proof.
  induction n as [|n IH]; intros [|m] s Hn Hm; [lia..|]. cbn [format_fuel]. destruct (match_comment s) as [[[b l] r]|] eqn:Hc.
  - apply match_comment_shorter in Hc. by rewrite (IH m r) by lia.
  - destruct s as [|c s]; [done|]. cbn in *. by rewrite (IH m s) by lia.
Qed.
(** Text without comments is not changed. *)
Lemma format_plain s : has_byte "#" s = false -> format s = s.
Proof.
  unfold format. assert (Hall : forall n, has_byte "#" s = false -> format_fuel n s = s); [|apply Hall].
  intros n. revert s. induction n as [|n IH]; intros s Hs; [done|]. cbn [format_fuel].
  assert (match_comment s = None) as ->.
  { unfold match_comment. destruct (span is_lf s) as [breaks after]. pose proof (span_app is_ws s) as Ha. destruct (span is_ws s).2 as [|c s1]; [done|].
    rewrite <- Ha, has_byte_app in Hs. apply orb_false_elim in Hs as [_ Hs]. cbn in Hs. destruct (Ascii.eqb_spec "#" c) as [<-|Hne]; [done|].
    by destruct c as [[] [] [] [] [] [] [] []]. }
  destruct s as [|c s]; [done|]. f_equal. apply IH. change (String c s) with (String c "" +:+ s) in Hs. rewrite has_byte_app in Hs. by apply orb_false_elim in Hs as [_ ?].
Qed.
(** White space around a [#] in a value is lost. *)
Lemma format_changes_values :
  format ("path = " +:+ quoted "/opt/a # b") = "path = " +:+ String dquote ("/opt/a#b" +:+ String dquote "").
Proof. vm_compute. reflexivity. Qed.
